(* ===== verification/_CoqProject ===== *)
-Q . S2P
Prelude.v
Random.v
Browser.v
Display.v
Selector.v
Loader.v
Events.v
Boot.v
Settle.v
Spec.v
Json.v
Raw.v
Unchecked.v
RawEvents.v
Double.v
Program.v
Callbacks.v
Script.v
Robust.v
