(* ===== verification/Prelude.v ===== *)
(** * postMaker: a verification development for [src/script.js]

    The program is one browser class, [ImageGenerator]: it fetches an image
    manifest and a caption list, wires the folder buttons and the generate
    button, and on every request shows a randomly chosen image of the current
    folder with a randomly chosen caption, going through a loading state while
    the browser probes the image.

    ** The parts of the program and where they are modelled

    The instance has three fields ([currentFolder], [captions],
    [imageManifest]); everything else it touches belongs to the browser:
    the console, the two [fetch] responses, the elements of the page, the
    timer of [setTimeout] and the image loads. The record [world] of
    [Browser] holds all of it, and every method is a function on [world]
    that makes the assignments of the method in the order of the source.

    - [Prelude] (this file): string helpers ([dq], [js_str], the substring
      relation [infix_of]), the state-and-exception monad [exec] in which
      the [async] methods with [try]/[catch] are written, lemmas on lists
      and the monad, the hint databases and tactics the files share.
    - [Random]: [Math.floor(Math.random() * n)] (lines 105, 134, 139) as
      [random_index] on a rational draw. Theorems: the index is in range
      and every index is drawn; of [m] equally spaced draws every index
      is drawn [m / n] times, rounded down or up, and equally often
      when the length divides [m].
    - [Browser]: the data. [generator] (the fields, lines 3-5), [dom] (the
      elements looked up by id or class), [world], the exceptions
      ([js_error]), the console, [fetch_outcome]; one setter per assigned
      field; equality of worlds up to the console ([quiet_eq], written
      [≈]) with its [Proper] instances.
    - [Display]: [displayError], [displayCaption], [displayImage] with
      the four image handlers, [updateFolderButtons] (lines 114-121 and
      150-203), and the presentation state the page shows ([phase_of]).
      Theorems: the state each method leaves, the error markup and that
      the message is in it unescaped, the marks of the buttons.
    - [Selector]: [selectFolder] and [generateRandomImage] (lines
      102-148), the random numbers being arguments. Theorems: a pick shows
      a file of the current folder and a caption of the list and starts
      one probe; a pick on an absent or empty folder reports the error and
      starts none; [random] selects one of the three candidates and each
      of them; any other name is stored as given.
    - [Loader]: the constructor, [init], [loadManifest], [loadCaptions],
      [setupEventListeners] (lines 2-100) in the monad [exec], the answers
      of the two [fetch] calls being arguments. Theorems: [init] never
      throws; what a successful initialization establishes; a failed
      manifest load leaves the application unwired; a failed caption load
      is absorbed by the five fallback captions; a manifest without
      [Lilia] or [Leylah] is reported as a failure after the listeners
      were registered; the lines a successful initialization logs.
    - [Events]: the callbacks the script registers, as a step relation
      ([step]) with one rule per callback and the same as a function
      ([fire]); runs ([fire_all]) and reachability ([reachable]). The
      class [Invariant] says what a property must satisfy, method by
      method, to hold in every reachable world. Theorems: the loaded data
      is never written again and only listed images are requested;
      exactly one of placeholder and image is shown; the handlers of the
      shown image belong to its load; the marks follow the current folder;
      an application whose manifest failed is inert; the timeout fires
      once; the transitions of the presentation state machine; a pick can
      be completed; a probe that settles late replaces what a later pick
      showed, and when the probes settle in the order they were started
      the last pick wins; the console only grows; the end-to-end example
      of the specification.
    - [Spec]: the Selector of the specification ([selector],
      [sel_selectFolder], [sel_pick]) with its observer interface (the
      class [Observer] and its laws [ObserverLaws]). Theorems: [init] and
      each method refine the Selector's operation, the page being the
      observer; over every run the fields of the generator are the state
      the Selector reaches on the same events; for every lawful observer
      the marks follow the selection.
    - [Settle]: the callbacks the script asked the browser for (the
      timeout of line 99, the handlers of the test image and of the shown
      image, lines 162-180), counted by the measure [pending], and the
      well-formedness [wf] of a world. Theorems: the steps the browser
      makes on its own are well founded; a run without clicks has at most
      [pending] steps, can go on while something is owed and ends off the
      loading placeholder; [settle] reaches such an end; every reachable
      world is well formed.
    - [Json]: the values [response.json()] can give ([value]) and the
      operations the script applies to them: the property read [get], the
      tests of line 128, the template literal, the product with a number,
      the assignment to [textContent]. The class [Shape] gives the
      documented shape of a body as a view with its encoder. Theorems:
      what is encoded is viewed back, and the reads of the script on an
      encoded manifest or caption list give what the typed model reads.
    - [Raw]: [init], [loadManifest], [loadCaptions] and
      [generateRandomImage] again, with [this.imageManifest] and
      [this.captions] holding values of any shape ([raw_world]), every
      read being [get]. Theorems: on bodies of the documented shape the
      methods on values do what the methods of [Loader] and [Selector] do,
      by a simulation ([sim], [refines]) proved statement by statement.
    - [Unchecked]: the methods of [Raw] on bodies of other shapes.
      Theorems: [loadCaptions] stores whatever is under [captions] when
      its [length] can be read, and falls back only when a read throws; a
      manifest that is [null] is stored, [init] then fails with the
      listeners registered, and a pick throws in its callback.
    - [RawEvents]: the event loop of [Events] over the worlds of [Raw]
      ([raw_callback], [raw_fire], [raw_fire_all]), an exception that
      leaves a callback being kept with the world the callback reached.
      Theorems: on bodies of the documented shape, and when no folder
      that can be selected is the name of a built-in property
      ([plain_folders]), every run on values is the run of [Events] on
      the typed view and no callback throws, so that the theorems of
      [Events], [Settle] and [Spec] are theorems about the script; after
      a manifest that is [null] every run keeps the initialization
      failure on the page and each of its picks throws.
    - [Boot]: [init] as the [async] method it is, in the pieces that run
      between its [await]s (lines 39, 45, 60 and 63), each inside the
      [try] of lines 13-32 ([stage], [resume]), in one event loop with
      the callbacks of [Events] ([boot_step], [boot_fire]); the events
      of the network are the settling of a [fetch] and of a [json()].
      Theorems: while [init] is suspended the application is inert and
      a click is lost; when the answers arrive the world is [start] of
      [Loader], so that [init] in one step is right; every run that lets
      [init] settle consists of at most four events of the network in
      the order of the [await]s and of callbacks of the page after them.
    - [Double]: [Math.floor(Math.random() * n)] on IEEE 754 binary64
      numbers, counted in units of the least positive double
      ([representable], [round], [double_index]); what IEEE 754 asks of
      a rounding to nearest is the class [Nearest]. Theorems: [round] is
      such a rounding, with ties to even; the rounded product of a
      double below 1 and a length below [2 ^ 53] stays below the length;
      the index on doubles is the [random_index] of a real draw in
      [0, 1), and the exact index of the double drawn or the next one.
    - [Program]: [selectFolder], [generateRandomImage] and the callbacks
      with doubles for draws ([double_selectFolder],
      [double_generateRandomImage], [double_fire]), the events on
      rationals that stand for a run of them ([exact_run]), and the
      event loop of the whole program, promises and inputs in any order
      ([program_event], [program_fire]). Theorems: on arrays of
      ECMAScript the methods on doubles are the methods of [Selector]
      at the exact draws; every run from the constructor on that lets
      [init] settle has the promises first and the inputs after them,
      and ends in a world that [Boot] and [Events] reach and whose
      fields are the state of the Selector of [Spec] on the same
      events.
    - [Callbacks]: the callbacks on values and on doubles at once, as
      the engine runs them: the index of lines 134 and 139 is the floor
      of the rounded product of a double and whatever number the read
      of [length] gave ([js_floor_mul], [js_draw],
      [js_generateRandomImage], [js_callback], [js_inputs]). Theorems: a
      draw in an array of any items reads one of its items; on fields
      of the documented shape a pick, and every run of inputs, is the
      pick and the run of [Program] on the typed view, and nothing is
      thrown; on values of any shape whose lengths are integers a
      double holds exactly, every run of inputs is the run of
      [RawEvents] on rationals, at the exact draws.
    - [Script]: the whole script as the engine runs it, on values, on
      doubles and between the [await]s: the pieces of [init] on values
      ([raw_enter] to [raw_captions_parsed], [raw_resume]) in one event
      loop with the callbacks of [Callbacks] ([js_event], [js_fire],
      [js_fire_all]), what [init] or a callback throws and nothing
      catches being collected. Theorems, on bodies of any shape: [init]
      in its pieces is [raw_init] of [Raw] in one step; while [init] is
      suspended no input runs and nothing is thrown; every run that
      lets [init] settle is the promises of two answers followed by
      inputs; after a manifest that is [null] every pick throws in its
      callback. On bodies of the documented shape: such a run is the run
      of [Program] on the typed views, and its fields are the state of
      the Selector of [Spec].
    - [Robust]: what the script keeps of the page whatever the bodies
      hold. A pick leaves the page as it was, or with the message of
      line 129, or with the test image and the caption ([pick_outcome]);
      [init] leaves it as the markup has it or with the listeners
      registered and the buttons marked, with or without the message of
      line 31 ([init_outcome]). An invariant that asks nothing of the
      data is [Robust]; [page_wf] is made of such. Theorems, on bodies
      of any shape and also when callbacks throw: [page_wf] holds after
      every run of [Script]; the callbacks the browser runs on its own
      are well founded; delivering what is owed ([js_settle]) continues
      the run by at most [pending] inputs and ends with nothing owed and
      off the loading placeholder; no exception leaves [init], and what
      the browser reports of a run is at most one exception for each
      pick.

    ** How the files depend on each other

    [Random], [Browser], [Display], [Selector], [Loader] and [Events]
    build the typed model, in this order; [Boot], [Settle] and [Spec]
    each stand on [Events]; [Json], [Raw], [Unchecked] and [RawEvents]
    build the model on values and relate it to the typed one; [Double]
    stands on [Random] alone; [Program] stands on [Double], [Boot] and
    [Spec]; [Callbacks] stands on [RawEvents] and [Program], and
    [Script] on [Callbacks], [Boot] and [Spec]. The theorems of
    [RawEvents] and of [Program] carry the theorems of the typed model
    to the script: the first for the bodies as [response.json()] gives
    them, the second for the arithmetic and for [init] as the browser
    runs them. [Script] puts the two together: its event loop leaves
    out none of the three (values, doubles, [await]s), and
    [script_refines] says that what the other files prove of their
    models is true of it on bodies of the documented shape. [Robust]
    stands on [Script] and [Settle] and needs no shape.

    ** How the model reads the source

    - JavaScript [undefined] read out of an array is [None]; a template
      literal turns it into the text [undefined] ([js_str]); assigned to
      [textContent] it gives the empty text.
    - A [throw] or a rejected promise is the [inl] result of an [exec]
      computation; the state reached before the throw is kept.
    - [Math.random()] is a rational [r] with [0 <= r < 1], an argument of
      the method that draws it, and the product and the floor are exact.
      In [Double], [Program], [Callbacks] and [Script] the draw is a
      double and the product is rounded; the index is then the exact
      index of another rational in [0, 1) ([exact_draw]), so the
      theorems, which hold for all draws, cover what the browser
      computes. The precision is 53 bits and the
      least positive double [2 ^ - 1074]; the lemmas hold for every
      precision and exponent range with [0 < prec <= emin]. A length is
      taken below [2 ^ 53] in [Double] and below [2 ^ 32], the bound of
      ECMAScript on arrays, in [Program].
    - What [fetch] answers is an argument ([fetch_outcome]): rejected, or
      a response with its status and a body that parses or does not. In
      [Loader], [Selector], [Events] and [Spec] the parsed bodies are
      typed: the manifest maps folder names to lists of file names,
      [data.captions] is a list of strings or missing. In [Raw] and
      [Unchecked] they are values of any shape, and the theorems of [Raw]
      say that the typed model is what the script does on the documented
      shape.
    - A value is [undefined], [null], a boolean, an integer, a string, an
      array or an object whose members are listed in the order of the
      text, the last of two members of a name being the one read. A read
      on [undefined] or [null] throws, and so does the conversion of an
      object that has a member [toString] of its own to a string or a
      number; a read that finds no own property
      gives [undefined] unless a built-in prototype has a property of that
      name. Which names these are is a parameter ([Engine]), with the law
      that no array index is among them. The examples run on
      [cautious_engine], which takes every name to be built-in but the
      indices, [length] and the names the examples read, so that what it
      answers holds in every engine.
    - An evaluation the model does not cover (an own property of a
      string, the text of an array, the number a string converts to, an
      inherited property) has the result [Unmodelled]. It is not an
      exception: no [catch] handles it, and no theorem says what the
      script does after it.
    - In [Loader] and the files on it [init] is one step from the two
      answers. [Boot] runs it between its [await]s and proves the one
      step right: before [setupEventListeners] runs no listener and no
      timer of the script exists, so nothing of the script can run while
      [init] is suspended. [Script] does the same on values, where the
      one step is [raw_init] of [Raw].
    - The console is the list of the calls made, oldest first; most
      theorems are stated up to the console.
    - Every method is a terminating function, and a run is a list of
      events. The functions with fuel are [settle] of [Settle] and
      [js_settle] of [Robust], which deliver what the browser owes: the
      fuel [pending w] is enough from every world [w], because every
      callback the browser runs on its own lowers [pending] (three for
      the armed timer, which makes a pick that starts a test image; two
      for a test image, whose load starts the load of the shown image;
      one for that load). On values a pick that throws starts no test
      image, and the bound holds all the same.

    ** What is not modelled

    - The markup and the style sheet of the page, which are not under
      [src/]: the model assumes that the elements looked up by id exist
      and that every folder button carries a [data-folder] attribute, and
      leaves the initial content of the page open ([dom] is a parameter of
      [start]).
    - Numbers that are not integers, integers of [10^21] and more in
      magnitude, whose text the engine writes with an exponent where the
      model writes the digits, and what the built-in prototypes
      hold: a read that finds an inherited property (a folder named
      [constructor] at line 126, for instance) is [Unmodelled], as are the
      own properties of a string and the conversions of arrays and
      strings. The theorems of [Raw] and [RawEvents] assume that the
      current folder is listed or is no such name.
    - The report the browser makes of an uncaught exception: it is no
      call of the script, and [console] holds the calls of the script
      only. [raw_fire_all] and [js_fire_all] return the exceptions
      beside the world.
    - The methods [selectFolder], [displayImage] and the handlers on
      values of any shape: they read neither [this.imageManifest] nor
      [this.captions], so [Raw] uses those of [Selector] and [Display]
      ([Oblivious]).
    - Network transport, caching, and the time a request takes; a request
      that never answers is a run of [Boot] in which the event never
      happens.
    - The generator behind [Math.random()], which ECMAScript leaves to
      the engine: which doubles it returns and how often. The theorems
      hold for every double in [0, 1).
    - The largest exponent of binary64 and infinities: the products the
      script computes are below [2 ^ 53]. A length that is no number is
      [NaN] and stays [NaN] in the product; a length that is an integer
      is taken as it is, which is the double the engine holds when it is
      below [2 ^ 53] in magnitude.
    - A folder button without a [data-folder] attribute, for which the
      current folder would be [undefined], and a page on which an
      element the script looks up is missing, for which the first use
      throws: the markup is not under [src/], and the record [dom]
      holds the elements with the properties the script reads. *)

From Stdlib Require Import String Ascii.
From Corelib Require Export ssreflect_rw.
From stdpp Require Export base tactics option list strings gmap pretty.

Declare Scope js_scope.
Delimit Scope js_scope with js.
Open Scope js_scope.

(** ** Strings *)

(** The double quote, which the HTML templates of the source contain. *)
Definition dq : string := String (ascii_of_nat 34) EmptyString.

(** The line feed inside a multi-line template literal. *)
Definition nl : string := String (ascii_of_nat 10) EmptyString.

(** [n] spaces of indentation. *)
Fixpoint spaces (n : nat) : string :=
  match n with
  | 0 => EmptyString
  | S n => String (ascii_of_nat 32) (spaces n)
  end.

(** [`${v}`] for a value that is a string or [undefined]. *)
Definition js_str (v : option string) : string :=
  match v with
  | Some s => s
  | None => "undefined"
  end.

(** [s] occurs in [t] as a contiguous run of characters. *)
Definition infix_of (s t : string) : Prop :=
  ∃ a b : string, t = a +:+ s +:+ b.

Notation "s ⊏ t" := (infix_of s t) (at level 70) : js_scope.

(** Statements in the order the source writes them: [w |> f |> g] runs [f],
    then [g]. *)
Notation "w |> f" := (f w) (at level 45, left associativity, only parsing)
  : js_scope.

(** ** The state-and-exception monad

    [exec S E A] is a computation over a state [S] that returns an [A] or
    throws an [E]. The state reached when the exception is thrown is kept:
    an assignment made before a [throw] is still visible in the [catch]. *)

Definition exec (S E A : Type) : Type := S → S * (E + A).

Definition run {S E A} (m : exec S E A) (s : S) : S * (E + A) := m s.

#[export] Instance exec_ret {S E} : MRet (exec S E) :=
  λ A a s, (s, inr a).

#[export] Instance exec_bind {S E} : MBind (exec S E) :=
  λ A B f m s,
    match m s with
    | (s', inr a) => f a s'
    | (s', inl e) => (s', inl e)
    end.

#[export] Instance exec_throw {S E} : MThrow E (exec S E) :=
  λ A e s, (s, inl e).

(** [try { body } catch (e) { handler e }] *)
Definition try_catch {S E A} (body : exec S E A) (handler : E → exec S E A)
    : exec S E A :=
  λ s,
    match body s with
    | (s', inr a) => (s', inr a)
    | (s', inl e) => handler e s'
    end.

(** A statement that only changes the state. *)
Definition modify {S E} (f : S → S) : exec S E () :=
  λ s, (f s, inr ()).

(** Reading the state. *)
Definition gets {S E A} (f : S → A) : exec S E A :=
  λ s, (s, inr (f s)).

(** The state a computation ends in, thrown or not. *)
Definition final_state {S E A} (m : exec S E A) (s : S) : S := (run m s).1.

(** The exception a computation ends with, if it throws. *)
Definition thrown {S E A} (m : exec S E A) (s : S) : option E :=
  match (run m s).2 with
  | inl e => Some e
  | inr _ => None
  end.

(** Whether a computation ends by throwing. *)
Definition throws {S E A} (m : exec S E A) (s : S) : bool :=
  match (run m s).2 with
  | inl _ => true
  | inr _ => false
  end.

(** ** Lemmas on strings *)

Lemma string_app_cons (x : ascii) (a b : string) :
  String x a +:+ b = String x (a +:+ b).
Proof. done. Qed.

Lemma string_app_assoc (a b c : string) : (a +:+ b) +:+ c = a +:+ (b +:+ c).
Proof. induction a as [|x a IH]; [done|]. by rw !string_app_cons IH. Qed.

Lemma string_app_nil_r (a : string) : a +:+ "" = a.
Proof. induction a as [|x a IH]; [done|]. by rw string_app_cons IH. Qed.

Lemma string_app_length (a b : string) :
  String.length (a +:+ b) = String.length a + String.length b.
Proof. induction a as [|x a IH]; [done|]. by rw string_app_cons /= IH. Qed.

(** Appending cancels on the right as well as on the left. *)
Lemma string_app_inj_r (a b c : string) : a +:+ c = b +:+ c → a = b.
Proof.
  revert b. induction a as [|x a IH]; intros [|y b] H; [done|..].
  - apply (f_equal String.length) in H.
    rewrite !string_app_length in H. simpl in H. lia.
  - apply (f_equal String.length) in H.
    rewrite !string_app_length in H. simpl in H. lia.
  - rewrite !string_app_cons in H. injection H as -> H. f_equal. by apply IH.
Qed.

Lemma string_prefix_app (a b : string) : String.prefix a (a +:+ b) = true.
Proof.
  induction a as [|x a IH]; [by destruct b|].
  rw string_app_cons /=. by destruct (Ascii.ascii_dec x x).
Qed.

Lemma infix_of_refl (s : string) : s ⊏ s.
Proof. exists "", "". by rw string_app_nil_r. Qed.

Lemma infix_of_app_r (s t u : string) : s ⊏ t → s ⊏ t +:+ u.
Proof.
  intros (a & b & ->). exists a, (b +:+ u).
  by rw !string_app_assoc.
Qed.

Lemma infix_of_app_l (s t u : string) : s ⊏ t → s ⊏ u +:+ t.
Proof.
  intros (a & b & ->). exists (u +:+ a), b.
  by rw !string_app_assoc.
Qed.

Lemma infix_of_trans (s t u : string) : s ⊏ t → t ⊏ u → s ⊏ u.
Proof.
  intros (a & b & ->) (c & d & ->). exists (c +:+ a), (b +:+ d).
  by rw !string_app_assoc.
Qed.

Lemma infix_of_length (s t : string) :
  s ⊏ t → String.length s ≤ String.length t.
Proof. intros (a & b & ->). rw !string_app_length. lia. Qed.

(** ** Lemmas on lists *)

(** In a list without duplicates, the elements equal to a member are that
    member alone. *)
Lemma filter_eq_not_elem {A} `{EqDecision A} (x : A) (l : list A) :
  x ∉ l → filter (λ y, y = x) l = [].
Proof.
  induction l as [|y l IH]; [done|].
  intros [Hy Hl]%not_elem_of_cons. rw filter_cons decide_False; auto.
Qed.

Lemma filter_eq_NoDup {A} `{EqDecision A} (x : A) (l : list A) :
  NoDup l → x ∈ l → filter (λ y, y = x) l = [x].
Proof.
  induction 1 as [|y l Hy Hl IH]; [by intros ?%not_elem_of_nil|].
  rw filter_cons. intros [->|Hx]%elem_of_cons.
  - rw decide_True //. f_equal. by apply filter_eq_not_elem.
  - rw decide_False; [by intros -> | by apply IH].
Qed.

(** The element appended last sits at the old length, and deleting it
    there gives the list back. *)
Lemma lookup_delete_snoc {A} (l : list A) (x : A) :
  (l ++ [x]) !! length l = Some x ∧ delete (length l) (l ++ [x]) = l.
Proof.
  split; [by apply list_lookup_middle|].
  by rw (delete_middle l [] x) app_nil_r.
Qed.

(** The same for the last of two appended elements. *)
Lemma lookup_delete_snoc2 {A} (l : list A) (x y : A) :
  (l ++ [x; y]) !! S (length l) = Some y ∧
  delete (S (length l)) (l ++ [x; y]) = l ++ [x].
Proof.
  rw (assoc_L (++) l [x] [y]).
  replace (S (length l)) with (length (l ++ [x]))
    by (rw length_app /=; lia).
  apply lookup_delete_snoc.
Qed.

(** ** Laws of the monad, pointwise in the start state *)

Section exec_laws.
Context {S E : Type}.

Lemma run_ret {A} (a : A) (s : S) :
  run (mret a : exec S E A) s = (s, inr a).
Proof. done. Qed.

Lemma run_bind {A B} (m : exec S E A) (f : A → exec S E B) (s : S) :
  run (m ≫= f) s =
    match run m s with
    | (s', inr a) => run (f a) s'
    | (s', inl e) => (s', inl e)
    end.
Proof. done. Qed.

Lemma run_throw {A} (e : E) (s : S) :
  run (mthrow e : exec S E A) s = (s, inl e).
Proof. done. Qed.

Lemma run_modify (f : S → S) (s : S) :
  run (modify f : exec S E ()) s = (f s, inr ()).
Proof. done. Qed.

Lemma run_gets {A} (f : S → A) (s : S) :
  run (gets f : exec S E A) s = (s, inr (f s)).
Proof. done. Qed.

Lemma run_try_catch {A} (body : exec S E A) (h : E → exec S E A) (s : S) :
  run (try_catch body h) s =
    match run body s with
    | (s', inr a) => (s', inr a)
    | (s', inl e) => run (h e) s'
    end.
Proof. done. Qed.

Lemma bind_ret_l {A B} (a : A) (f : A → exec S E B) (s : S) :
  run (mret a ≫= f) s = run (f a) s.
Proof. done. Qed.

Lemma bind_ret_r {A} (m : exec S E A) (s : S) :
  run (m ≫= mret) s = run m s.
Proof. rw run_bind. by destruct (run m s) as [s' [e|a]]. Qed.

Lemma bind_assoc {A B C} (m : exec S E A) (f : A → exec S E B)
    (g : B → exec S E C) (s : S) :
  run ((m ≫= f) ≫= g) s = run (m ≫= (λ a, f a ≫= g)) s.
Proof. rw !run_bind. by destruct (run m s) as [s' [e|a]]. Qed.

(** A statement that only changes the state does not throw. *)
Lemma throws_modify_bind {A} (f : S → S) (m : exec S E A) (s : S) :
  throws (modify f ;; m) s = throws m (f s).
Proof. done. Qed.

Lemma final_state_modify_bind {A} (f : S → S) (m : exec S E A) (s : S) :
  final_state (modify f ;; m) s = final_state m (f s).
Proof. done. Qed.

Lemma thrown_modify_bind {A} (f : S → S) (m : exec S E A) (s : S) :
  thrown (modify f ;; m) s = thrown m (f s).
Proof. done. Qed.

Lemma final_state_modify (f : S → S) (s : S) :
  final_state (modify f : exec S E ()) s = f s.
Proof. done. Qed.

(** [throws] and [thrown] agree. *)
Lemma throws_thrown {A} (m : exec S E A) (s : S) :
  throws m s = bool_decide (is_Some (thrown m s)).
Proof. rw /throws /thrown. by destruct (run m s).2. Qed.

Lemma thrown_None {A} (m : exec S E A) (s : S) :
  thrown m s = None ↔ throws m s = false.
Proof. rw /throws /thrown. by destruct (run m s).2. Qed.

(** Sequencing: the second statement runs from where the first ended,
    unless the first threw. *)
Lemma final_state_seq {A B} (m : exec S E A) (k : exec S E B) (s : S) :
  final_state (m ;; k) s =
    match thrown m s with
    | Some _ => final_state m s
    | None => final_state k (final_state m s)
    end.
Proof.
  rw /final_state /thrown /run /mbind /exec_bind.
  by destruct (m s) as [s' [e|a]].
Qed.

Lemma thrown_seq {A B} (m : exec S E A) (k : exec S E B) (s : S) :
  thrown (m ;; k) s =
    match thrown m s with
    | Some e => Some e
    | None => thrown k (final_state m s)
    end.
Proof.
  rw /final_state /thrown /run /mbind /exec_bind.
  by destruct (m s) as [s' [e|a]].
Qed.

(** [try]/[catch]: the handler runs from the state the body threw in. *)
Lemma final_state_try_catch {A} (body : exec S E A) (h : E → exec S E A)
    (s : S) :
  final_state (try_catch body h) s =
    match thrown body s with
    | Some e => final_state (h e) (final_state body s)
    | None => final_state body s
    end.
Proof.
  rw /final_state /thrown /run /try_catch.
  by destruct (body s) as [s' [e|a]].
Qed.

Lemma thrown_try_catch {A} (body : exec S E A) (h : E → exec S E A) (s : S) :
  thrown (try_catch body h) s =
    match thrown body s with
    | Some e => thrown (h e) (final_state body s)
    | None => None
    end.
Proof.
  rw /final_state /thrown /run /try_catch.
  by destruct (body s) as [s' [e|a]].
Qed.

(** A [try] whose body does not throw is its body. *)
Lemma try_catch_no_throw {A} (body : exec S E A) (h : E → exec S E A) (s : S) :
  throws body s = false → run (try_catch body h) s = run body s.
Proof.
  rw /throws run_try_catch. by destruct (run body s) as [s' [e|a]].
Qed.

(** A [try] whose handler never throws never throws. *)
Lemma try_catch_total {A} (body : exec S E A) (h : E → exec S E A) (s : S) :
  (∀ e s', throws (h e) s' = false) → throws (try_catch body h) s = false.
Proof.
  intros Hh. rw /throws run_try_catch.
  destruct (run body s) as [s' [e|a]]; [apply Hh | done].
Qed.

End exec_laws.

(** ** Automation shared by the component files *)

Create HintDb js discriminated.
Create Rewrite HintDb js_run.

#[export] Hint Resolve infix_of_refl infix_of_app_l infix_of_app_r : js.

#[export] Hint Rewrite @run_ret @run_bind @run_throw @run_modify @run_gets
  @run_try_catch : js_run.

(** Unfold the monad down to pairs and case on what blocks. *)
Ltac exec_simpl :=
  rw /final_state /throws /run /try_catch /modify /gets /mbind /exec_bind
    /mret /exec_ret /mthrow /exec_throw /=.

(** Case on the scrutinee of the first [match] in the goal. *)
Ltac case_scrutinee :=
  match goal with
  | |- context [match ?x with _ => _ end] => destruct x eqn:?
  end.
