(* ===== verification/Random.v ===== *)
(** * Random: [Math.random] and the index drawn from it

    The source draws an index three times in the same way,
    [Math.floor(Math.random() * xs.length)] (lines 105, 134 and 139 of
    [src/script.js]). [Math.random()] is a number [r] with [0 <= r < 1];
    the model takes it as a rational supplied by the environment
    ([unit_draw]) and computes the product and the floor exactly
    ([random_index]). The browser rounds the product to a double; the
    index it computes is then the [random_index] of another draw in
    [0, 1), which [Double] proves, so the theorems below, which hold for
    all draws, cover it.

    This file loads the Standard Library only. *)

From Stdlib Require Import QArith Qround ZArith Lia PeanoNat List.
Import ListNotations.

Local Open Scope Q_scope.

(** The values [Math.random()] may return. *)
Definition unit_draw (r : Q) : Prop := 0 <= r /\ r < 1.

(** The same, as a test that computes. *)
Definition unit_drawb (r : Q) : bool :=
  Qle_bool 0 r && negb (Qle_bool 1 r).

(** [Math.floor(r * n)] for a length [n]. *)
Definition random_index (r : Q) (n : nat) : nat :=
  Z.to_nat (Qfloor (r * inject_Z (Z.of_nat n))).

(** The draw that sits at the lower end of the [i]-th of [n] equal cells. *)
Definition cell_draw (i n : nat) : Q := Z.of_nat i # Pos.of_nat n.

(** A uniform generator on a grid: the [n * q] equally spaced draws
    [k / (n * q)], each as likely as the others. *)
Definition grid_draws (n q : nat) : list Q :=
  map (fun k => cell_draw k (n * q)) (seq 0 (n * q)).

(** A uniform generator with [m] values, the draws [k / m]: a generator
    of 53 random bits has [m = 2 ^ 53], which no length but a power of
    two divides. *)
Definition grid (m : nat) : list Q :=
  map (fun k => cell_draw k m) (seq 0 m).

(** The least number whose product with [n] is [x] at least. *)
Definition ceil_div (x n : nat) : nat := ((x + n - 1) / n)%nat.

(** How many draws of a list select the index [i] of an array of length
    [n]. *)
Definition hits (i n : nat) (rs : list Q) : nat :=
  length (filter (fun r => (random_index r n =? i)%nat) rs).

(** ** The test decides the predicate *)

Lemma unit_drawb_spec (r : Q) : unit_drawb r = true <-> unit_draw r.
Proof.
  unfold unit_drawb, unit_draw.
  rewrite Bool.andb_true_iff, Bool.negb_true_iff, Qle_bool_iff.
  split; intros [H0 H1]; split; try assumption.
  - apply Qnot_le_lt. intros H. apply Qle_bool_iff in H. congruence.
  - destruct (Qle_bool 1 r) eqn:E; [|reflexivity].
    apply Qle_bool_iff in E. exfalso. exact (Qlt_not_le _ _ H1 E).
Qed.

(** ** The scaled draw stays inside the array *)

Section scaled.
Variables (r : Q) (n : nat).
Hypothesis Hr : unit_draw r.

Lemma scaled_nonneg : 0 <= r * inject_Z (Z.of_nat n).
Proof.
  apply Qmult_le_0_compat; [apply Hr|].
  rewrite <- (Zle_Qle 0). lia.
Qed.

Lemma scaled_lt : (0 < n)%nat -> r * inject_Z (Z.of_nat n) < inject_Z (Z.of_nat n).
Proof.
  intros Hn.
  assert (Hpos : 0 < inject_Z (Z.of_nat n)) by (rewrite <- (Zlt_Qlt 0); lia).
  rewrite <- (Qmult_1_l (inject_Z (Z.of_nat n))) at 2.
  apply Qmult_lt_compat_r; [exact Hpos | apply Hr].
Qed.

Lemma floor_scaled_nonneg : (0 <= Qfloor (r * inject_Z (Z.of_nat n)))%Z.
Proof.
  change 0%Z with (Qfloor 0). apply Qfloor_resp_le, scaled_nonneg.
Qed.

Lemma floor_scaled_lt :
  (0 < n)%nat -> (Qfloor (r * inject_Z (Z.of_nat n)) < Z.of_nat n)%Z.
Proof.
  intros Hn. rewrite Zlt_Qlt.
  eapply Qle_lt_trans; [apply Qfloor_le | apply scaled_lt, Hn].
Qed.

End scaled.

(** [Math.floor(Math.random() * n)] is an index of an array of length
    [n > 0]: it is below [n] for every draw in [0, 1). *)
Lemma random_index_lt (r : Q) (n : nat) :
  unit_draw r -> (0 < n)%nat -> (random_index r n < n)%nat.
Proof.
  intros Hr Hn. unfold random_index.
  pose proof (floor_scaled_nonneg r n Hr).
  pose proof (floor_scaled_lt r n Hr Hn). lia.
Qed.

(** An array of one element is always read at its only index. *)
Lemma random_index_1 (r : Q) : unit_draw r -> random_index r 1 = 0%nat.
Proof. intros Hr. pose proof (random_index_lt r 1 Hr). lia. Qed.

(** On an empty array the index is 0, which reads [undefined]. *)
Lemma random_index_0 (r : Q) : random_index r 0 = 0%nat.
Proof.
  unfold random_index.
  rewrite (Qfloor_comp _ 0) by apply Qmult_0_r. reflexivity.
Qed.

(** ** Draws given as fractions *)

Lemma random_index_fraction (a n : nat) (b : positive) :
  random_index (Z.of_nat a # b) n = (a * n / Pos.to_nat b)%nat.
Proof.
  unfold random_index, Qfloor, Qmult, inject_Z; simpl Qnum; simpl Qden.
  rewrite Pos.mul_1_r, <- Nat2Z.inj_mul, <- positive_nat_Z, <- Nat2Z.inj_div.
  apply Nat2Z.id.
Qed.

Lemma cell_draw_unit (i n : nat) : (i < n)%nat -> unit_draw (cell_draw i n).
Proof.
  intros Hi. unfold unit_draw, cell_draw, Qle, Qlt; simpl.
  rewrite <- (positive_nat_Z (Pos.of_nat n)), Nat2Pos.id by lia. lia.
Qed.

Lemma random_index_cell (i n : nat) :
  (i < n)%nat -> random_index (cell_draw i n) n = i.
Proof.
  intros Hi. unfold cell_draw.
  rewrite random_index_fraction, Nat2Pos.id by lia.
  apply Nat.div_mul. lia.
Qed.

(** Every element can be chosen: each index is the image of a draw. *)
Lemma random_index_onto (i n : nat) :
  (i < n)%nat -> exists r, unit_draw r /\ random_index r n = i.
Proof.
  intros Hi. exists (cell_draw i n).
  split; [apply cell_draw_unit | apply random_index_cell]; exact Hi.
Qed.

(** A larger draw never gives a smaller index. *)
Lemma random_index_mono (r r' : Q) (n : nat) :
  0 <= r -> r <= r' -> (random_index r n <= random_index r' n)%nat.
Proof.
  intros H0 Hle. unfold random_index. apply Z2Nat.inj_le.
  - change 0%Z with (Qfloor 0). apply Qfloor_resp_le.
    apply Qmult_le_0_compat; [exact H0 | rewrite <- (Zle_Qle 0); lia].
  - change 0%Z with (Qfloor 0). apply Qfloor_resp_le.
    apply Qmult_le_0_compat;
      [eapply Qle_trans; eassumption | rewrite <- (Zle_Qle 0); lia].
  - apply Qfloor_resp_le, Qmult_le_compat_r; [exact Hle|].
    rewrite <- (Zle_Qle 0). lia.
Qed.

(** C19. For an array of length [n > 0], every draw gives an index of the
    array and every index of the array is given by some draw: the
    indices drawn are exactly [0 .. n-1]. *)
Theorem random_index_range (n : nat) :
  (0 < n)%nat ->
  (forall r, unit_draw r -> (random_index r n < n)%nat) /\
  (forall i, (i < n)%nat -> exists r, unit_draw r /\ random_index r n = i).
Proof.
  intros Hn. split.
  - intros r Hr. apply random_index_lt; assumption.
  - intros i Hi. apply random_index_onto. exact Hi.
Qed.

Lemma random_index_range_witness :
  (forall r, unit_draw r -> (random_index r 3 < 3)%nat) /\
  (forall i, (i < 3)%nat -> exists r, unit_draw r /\ random_index r 3 = i).
Proof. apply (random_index_range 3). lia. Defined.

(** ** Equal shares *)

Local Open Scope nat_scope.

(** On the grid the index is the number of the cell. *)
Lemma random_index_grid (k n q : nat) :
  0 < n -> 0 < q -> random_index (cell_draw k (n * q)) n = k / q.
Proof.
  intros Hn Hq. unfold cell_draw.
  rewrite random_index_fraction, Nat2Pos.id by lia.
  rewrite (Nat.mul_comm n q). apply Nat.Div0.div_mul_cancel_r; lia.
Qed.

Lemma filter_map_length {A B} (f : A -> B) (p : B -> bool) (l : list A) :
  length (filter p (map f l)) = length (filter (fun x => p (f x)) l).
Proof.
  induction l as [|x l IH]; [reflexivity|]. simpl.
  destruct (p (f x)); simpl; congruence.
Qed.

(** The numbers of one cell all have the quotient of the cell. *)
Lemma count_cell (i q m : nat) :
  0 < q ->
  length (filter (fun k => k / q =? i) (seq (m * q) q))
    = if i =? m then q else 0.
Proof.
  intros Hq. rewrite (filter_ext_in _ (fun _ => i =? m)).
  - destruct (i =? m).
    + rewrite forallb_filter_id, length_seq; [reflexivity|].
      apply forallb_forall. reflexivity.
    + induction (seq (m * q) q); [reflexivity | assumption].
  - intros k [Hlo Hhi]%in_seq.
    assert (k / q = m) as ->
      by (symmetry; apply Nat.div_unique with (k - m * q); lia).
    apply Nat.eqb_sym.
Qed.

Lemma count_cells (i q m : nat) :
  0 < q ->
  length (filter (fun k => k / q =? i) (seq 0 (m * q)))
    = if i <? m then q else 0.
Proof.
  intros Hq. induction m as [|m IH]; [reflexivity|].
  replace (S m * q) with (m * q + q) by lia.
  rewrite seq_app, filter_app, length_app, IH.
  change (0 + m * q) with (m * q). rewrite count_cell by exact Hq.
  destruct (Nat.ltb_spec i m), (Nat.eqb_spec i m), (Nat.ltb_spec i (S m)); lia.
Qed.

Lemma grid_draws_unit (n q : nat) : Forall unit_draw (grid_draws n q).
Proof.
  apply Forall_forall. intros r (k & <- & [_ Hk]%in_seq)%in_map_iff.
  apply cell_draw_unit. exact Hk.
Qed.

(** The index drawn is as uniform as the draw: of [n * q] equally
    spaced draws, all of them values [Math.random()] may return, exactly
    [q] select each index of an array of length [n]. *)
Theorem random_index_uniform (i n q : nat) :
  i < n -> 0 < q ->
  Forall unit_draw (grid_draws n q) /\ length (grid_draws n q) = n * q /\
  hits i n (grid_draws n q) = q.
Proof.
  intros Hi Hq. split; [apply grid_draws_unit|].
  unfold hits, grid_draws. rewrite length_map, length_seq, filter_map_length.
  split; [reflexivity|].
  rewrite (filter_ext_in _ (fun k => k / q =? i)).
  - rewrite count_cells by exact Hq.
    destruct (Nat.ltb_spec i n); [reflexivity | lia].
  - intros k _. rewrite random_index_grid by lia. reflexivity.
Qed.

Lemma random_index_uniform_witness :
  Forall unit_draw (grid_draws 3 4) /\ length (grid_draws 3 4) = 3 * 4 /\
  hits 1 3 (grid_draws 3 4) = 4.
Proof. apply (random_index_uniform 1 3 4); lia. Defined.

(** ** Shares that differ by one *)

(** When the number of draws is not a multiple of the length the shares
    cannot be equal. The draws that select [i] are those from
    [ceil_div (i * m) n] up to [ceil_div ((i + 1) * m) n]. *)

Lemma ceil_div_le (x n k : nat) : 0 < n -> ceil_div x n <= k <-> x <= k * n.
Proof.
  intros Hn. unfold ceil_div.
  pose proof (Nat.div_mod_eq (x + n - 1) n).
  pose proof (Nat.mod_upper_bound (x + n - 1) n). nia.
Qed.

Lemma random_index_grid_cell (k i n m : nat) :
  0 < n -> 0 < m ->
  random_index (cell_draw k m) n = i <->
  ceil_div (i * m) n <= k /\ ~ ceil_div ((i + 1) * m) n <= k.
Proof.
  intros Hn Hm. unfold cell_draw.
  rewrite random_index_fraction, Nat2Pos.id, !ceil_div_le by lia.
  pose proof (Nat.div_mod_eq (k * n) m).
  pose proof (Nat.mod_upper_bound (k * n) m). nia.
Qed.

(** The numbers below [m] that lie between [a] and [b]. *)
Lemma count_between (a b m : nat) :
  a <= b ->
  length (filter (fun k => (a <=? k) && negb (b <=? k)) (seq 0 m))
    = Nat.min b m - Nat.min a m.
Proof.
  intros Hab. induction m as [|m IH]; [simpl; lia|].
  rewrite seq_S, filter_app, length_app, IH. simpl.
  destruct (Nat.leb_spec a m), (Nat.leb_spec b m); simpl; lia.
Qed.

(** Two neighbouring bounds are a share apart, rounded down or up. *)
Lemma ceil_div_step (i n m : nat) :
  0 < n ->
  ceil_div (i * m) n + m / n <= ceil_div ((i + 1) * m) n
    <= ceil_div (i * m) n + ceil_div m n.
Proof.
  intros Hn. unfold ceil_div.
  pose proof (Nat.div_mod_eq (i * m + n - 1) n).
  pose proof (Nat.mod_upper_bound (i * m + n - 1) n).
  pose proof (Nat.div_mod_eq ((i + 1) * m + n - 1) n).
  pose proof (Nat.mod_upper_bound ((i + 1) * m + n - 1) n).
  pose proof (Nat.div_mod_eq m n). pose proof (Nat.mod_upper_bound m n).
  pose proof (Nat.div_mod_eq (m + n - 1) n).
  pose proof (Nat.mod_upper_bound (m + n - 1) n). nia.
Qed.

Lemma hits_grid (i n m : nat) :
  i < n -> 0 < m ->
  hits i n (grid m) = ceil_div ((i + 1) * m) n - ceil_div (i * m) n.
Proof.
  intros Hi Hm. unfold hits, grid. rewrite filter_map_length.
  rewrite (filter_ext_in _ (fun k => (ceil_div (i * m) n <=? k)
                                     && negb (ceil_div ((i + 1) * m) n <=? k))).
  - pose proof (ceil_div_step i n m ltac:(lia)).
    assert (ceil_div ((i + 1) * m) n <= m) by (apply ceil_div_le; nia).
    rewrite count_between by lia. lia.
  - intros k _. apply Bool.eq_true_iff_eq.
    rewrite Bool.andb_true_iff, Bool.negb_true_iff, Nat.eqb_eq,
      Nat.leb_le, Nat.leb_nle.
    apply random_index_grid_cell; lia.
Qed.

Lemma ceil_div_near (m n : nat) :
  0 < n -> ceil_div m n <= S (m / n) /\ (m mod n = 0 -> ceil_div m n = m / n).
Proof.
  intros Hn. unfold ceil_div.
  pose proof (Nat.div_mod_eq m n). pose proof (Nat.mod_upper_bound m n).
  pose proof (Nat.div_mod_eq (m + n - 1) n).
  pose proof (Nat.mod_upper_bound (m + n - 1) n). nia.
Qed.

Lemma grid_unit (m : nat) : Forall unit_draw (grid m).
Proof.
  apply Forall_forall. intros r (k & <- & [_ Hk]%in_seq)%in_map_iff.
  apply cell_draw_unit. exact Hk.
Qed.


