(* ===== verification/Browser.v ===== *)
(** * Browser: the state the script reads and writes

    What [src/script.js] touches outside its own fields: the console, the
    responses of the two [fetch] calls, the elements of the page it looks up
    by id or class, the timer of [setTimeout] and the images the browser is
    loading. The fields of the [ImageGenerator] instance ([generator]) and
    all of these together form the [world] the methods transform.

    The page's markup is not part of the sources: the model takes every
    [.folder-btn] to carry a [data-folder] attribute and the five elements
    looked up by id to exist, and leaves their initial content open. *)

From S2P Require Import Prelude.

(** ** Exceptions *)

(** The exceptions the script can meet. *)
Inductive js_error : Type :=
  | NetworkFailure
      (* [fetch] rejected *)
  | HttpError (status : nat) (statusText : string)
      (* [new Error(`HTTP ${status}: ${statusText}`)], lines 42 and 67 *)
  | JsonSyntaxError
      (* [response.json()] rejected *)
  | TypeErrorUndefined (property : string)
      (* a property read on [undefined] *)
  | TypeErrorNull (property : string)
      (* a property read on [null]: only a body of another shape than the
         documented one leads to it, see [Raw] *)
  | TypeErrorPrimitive
      (* the conversion of an object whose own [toString] is no function
         to a string or a number: only such a body leads to it, see
         [Json] *).

(** The message of the [Error] built at lines 42 and 67. *)
Definition http_message (status : nat) (statusText : string) : string :=
  "HTTP " +:+ pretty status +:+ ": " +:+ statusText.

(** ** The console *)

Inductive log_level : Type := LogInfo | LogWarn | LogError.

Inductive log_arg : Type :=
  | LStr (s : string)
  | LErr (e : js_error).

(** One call of [console.log], [console.warn] or [console.error]. *)
Record log_entry : Type := LogEntry {
  log_lvl : log_level;
  log_args : list log_arg;
}.

(** ** Fetched resources *)

(** What [await response.json()] gives. *)
Inductive json_body (A : Type) : Type :=
  | BodyInvalid
  | BodyJson (data : A).
Arguments BodyInvalid {A}.
Arguments BodyJson {A} data.

(** What [await fetch(url)] gives, with the body read later. *)
Inductive fetch_outcome (A : Type) : Type :=
  | FetchRejected
  | FetchResponse (ok : bool) (status : nat) (statusText : string)
      (body : json_body A).
Arguments FetchRejected {A}.
Arguments FetchResponse {A} ok status statusText body.

(** [images-manifest.json]: folder name to file names. *)
Abbreviation manifest := (gmap string (list string)).

(** [captions.json]: the value of [data.captions], [None] when [data] has
    no such property (or is [null]). *)
Abbreviation captions_json := (option (list string)).

(** ** The instance fields *)

Record generator : Type := Generator {
  currentFolder : string;
  captions : list string;
  imageManifest : manifest;
}.

(** ** The page *)

(** A [.folder-btn] element: its [data-folder] and whether its class list
    holds [active]. *)
Record folder_btn : Type := FolderBtn {
  data_folder : string;
  active : bool;
}.

(** The elements the script reads and writes. An [onload] or [onerror]
    handler of [#random-image] is a closure over [imagePath] (lines 167
    and 173): the field holds the captured path. *)
Record dom : Type := Dom {
  folder_btns : list folder_btn;
  placeholder_innerHTML : string;   (* #image-placeholder *)
  placeholder_hidden : bool;
  image_hidden : bool;              (* #random-image *)
  image_src : string;
  image_alt : string;
  image_onload : option string;
  image_onerror : option string;
  caption_text : string;            (* #caption-text *)
  source_text : string;             (* #image-source *)
}.

(** ** The world *)

Record world : Type := World {
  app : generator;
  page : dom;
  console : list log_entry;
  (* the click listeners of lines 86-96 are registered *)
  wired : bool;
  (* the [setTimeout] of line 99 has not fired yet *)
  timer : bool;
  (* the test images of line 160 still loading, by their [src] *)
  probes : list string;
  (* the load [#random-image] started when its [src] was last set *)
  image_load : option string;
}.

#[export] Instance js_error_eq_dec : EqDecision js_error.
Proof. solve_decision. Defined.
#[export] Instance log_level_eq_dec : EqDecision log_level.
Proof. solve_decision. Defined.
#[export] Instance log_arg_eq_dec : EqDecision log_arg.
Proof. solve_decision. Defined.
#[export] Instance log_entry_eq_dec : EqDecision log_entry.
Proof. solve_decision. Defined.
#[export] Instance generator_eq_dec : EqDecision generator.
Proof. solve_decision. Defined.
#[export] Instance folder_btn_eq_dec : EqDecision folder_btn.
Proof. solve_decision. Defined.
#[export] Instance dom_eq_dec : EqDecision dom.
Proof. solve_decision. Defined.
#[export] Instance world_eq_dec : EqDecision world.
Proof. solve_decision. Defined.

(** ** Assignments to one field *)

Definition set_currentFolder (f : string) (g : generator) : generator :=
  Generator f (captions g) (imageManifest g).

Definition set_captions (cs : list string) (g : generator) : generator :=
  Generator (currentFolder g) cs (imageManifest g).

Definition set_imageManifest (m : manifest) (g : generator) : generator :=
  Generator (currentFolder g) (captions g) m.

Definition set_folder_btns (bs : list folder_btn) (d : dom) : dom :=
  Dom bs (placeholder_innerHTML d) (placeholder_hidden d) (image_hidden d)
    (image_src d) (image_alt d) (image_onload d) (image_onerror d)
    (caption_text d) (source_text d).

Definition set_placeholder_innerHTML (h : string) (d : dom) : dom :=
  Dom (folder_btns d) h (placeholder_hidden d) (image_hidden d)
    (image_src d) (image_alt d) (image_onload d) (image_onerror d)
    (caption_text d) (source_text d).

Definition set_placeholder_hidden (b : bool) (d : dom) : dom :=
  Dom (folder_btns d) (placeholder_innerHTML d) b (image_hidden d)
    (image_src d) (image_alt d) (image_onload d) (image_onerror d)
    (caption_text d) (source_text d).

Definition set_image_hidden (b : bool) (d : dom) : dom :=
  Dom (folder_btns d) (placeholder_innerHTML d) (placeholder_hidden d) b
    (image_src d) (image_alt d) (image_onload d) (image_onerror d)
    (caption_text d) (source_text d).

Definition set_image_src (s : string) (d : dom) : dom :=
  Dom (folder_btns d) (placeholder_innerHTML d) (placeholder_hidden d)
    (image_hidden d) s (image_alt d) (image_onload d) (image_onerror d)
    (caption_text d) (source_text d).

Definition set_image_alt (s : string) (d : dom) : dom :=
  Dom (folder_btns d) (placeholder_innerHTML d) (placeholder_hidden d)
    (image_hidden d) (image_src d) s (image_onload d) (image_onerror d)
    (caption_text d) (source_text d).

Definition set_image_onload (h : option string) (d : dom) : dom :=
  Dom (folder_btns d) (placeholder_innerHTML d) (placeholder_hidden d)
    (image_hidden d) (image_src d) (image_alt d) h (image_onerror d)
    (caption_text d) (source_text d).

Definition set_image_onerror (h : option string) (d : dom) : dom :=
  Dom (folder_btns d) (placeholder_innerHTML d) (placeholder_hidden d)
    (image_hidden d) (image_src d) (image_alt d) (image_onload d) h
    (caption_text d) (source_text d).

Definition set_caption_text (s : string) (d : dom) : dom :=
  Dom (folder_btns d) (placeholder_innerHTML d) (placeholder_hidden d)
    (image_hidden d) (image_src d) (image_alt d) (image_onload d)
    (image_onerror d) s (source_text d).

Definition set_source_text (s : string) (d : dom) : dom :=
  Dom (folder_btns d) (placeholder_innerHTML d) (placeholder_hidden d)
    (image_hidden d) (image_src d) (image_alt d) (image_onload d)
    (image_onerror d) (caption_text d) s.

Definition upd_app (f : generator → generator) (w : world) : world :=
  World (f (app w)) (page w) (console w) (wired w) (timer w) (probes w)
    (image_load w).

Definition upd_page (f : dom → dom) (w : world) : world :=
  World (app w) (f (page w)) (console w) (wired w) (timer w) (probes w)
    (image_load w).

Definition set_wired (b : bool) (w : world) : world :=
  World (app w) (page w) (console w) b (timer w) (probes w) (image_load w).

Definition set_timer (b : bool) (w : world) : world :=
  World (app w) (page w) (console w) (wired w) b (probes w) (image_load w).

Definition set_probes (ps : list string) (w : world) : world :=
  World (app w) (page w) (console w) (wired w) (timer w) ps (image_load w).

Definition set_image_load (l : option string) (w : world) : world :=
  World (app w) (page w) (console w) (wired w) (timer w) (probes w) l.

(** [console.log(...)], [console.warn(...)], [console.error(...)]: the
    entry is appended to the console. *)
Definition console_write (lvl : log_level) (args : list log_arg) (w : world)
    : world :=
  World (app w) (page w) (console w ++ [LogEntry lvl args]) (wired w)
    (timer w) (probes w) (image_load w).

(** ** The views of a world the theorems speak about *)

(** Everything but the console. Two worlds with the same [silent] part differ
    only in what was logged. *)
Definition silent (w : world) : world :=
  World (app w) (page w) [] (wired w) (timer w) (probes w) (image_load w).

(** Two worlds are the same up to the console. *)
Definition quiet_eq (w1 w2 : world) : Prop := silent w1 = silent w2.

Infix "≈" := quiet_eq (at level 70) : js_scope.

(** The folders of the buttons marked [active]. *)
Definition active_folders (d : dom) : list string :=
  data_folder <$> filter (λ b, active b = true) (folder_btns d).

(** ** A page to run the methods on *)

(** The manifest of the end-to-end example: two images for [Lilia], none
    for [Leylah], one for [Roxy]. *)
Definition demo_manifest : manifest :=
  {[ "Lilia" := ["a.jpg"; "b.jpg"]; "Leylah" := []; "Roxy" := ["c.jpg"] ]}.

(** A page with the four buttons, nothing shown and the image hidden. *)
Definition demo_page : dom :=
  Dom [FolderBtn "Lilia" false; FolderBtn "Leylah" false;
       FolderBtn "Roxy" false; FolderBtn "random" false]
    "" false true "" "" None None "" "".

(** An application that is initialized and has shown nothing yet. *)
Definition demo_world : world :=
  World (Generator "Lilia" ["Hi"] demo_manifest) demo_page [] true false []
    None.

(** ** Equality up to the console *)

#[export] Instance quiet_eq_equivalence : Equivalence quiet_eq.
Proof.
  split; [by intros ? | by intros ?? | intros ??? H1 H2].
  rw /quiet_eq in H1, H2 |- *. congruence.
Qed.

#[export] Instance quiet_eq_dec w1 w2 : Decision (w1 ≈ w2).
Proof. rw /quiet_eq. apply _. Defined.

Lemma silent_console_write lvl args w :
  silent (console_write lvl args w) = silent w.
Proof. done. Qed.

Lemma silent_idemp w : silent (silent w) = silent w.
Proof. done. Qed.

(** A write to the console is invisible up to the console. *)
Lemma console_write_quiet lvl args w : console_write lvl args w ≈ w.
Proof. done. Qed.

Lemma silent_quiet w : silent w ≈ w.
Proof. done. Qed.

(** Every field but the console is the same in worlds that are. *)
#[export] Instance app_proper : Proper (quiet_eq ==> eq) app.
Proof. intros w1 w2 H. by apply (f_equal app) in H. Qed.
#[export] Instance page_proper : Proper (quiet_eq ==> eq) page.
Proof. intros w1 w2 H. by apply (f_equal page) in H. Qed.
#[export] Instance wired_proper : Proper (quiet_eq ==> eq) wired.
Proof. intros w1 w2 H. by apply (f_equal wired) in H. Qed.
#[export] Instance timer_proper : Proper (quiet_eq ==> eq) timer.
Proof. intros w1 w2 H. by apply (f_equal timer) in H. Qed.
#[export] Instance probes_proper : Proper (quiet_eq ==> eq) probes.
Proof. intros w1 w2 H. by apply (f_equal probes) in H. Qed.
#[export] Instance image_load_proper : Proper (quiet_eq ==> eq) image_load.
Proof. intros w1 w2 H. by apply (f_equal image_load) in H. Qed.

(** The assignments respect it. *)
Lemma quiet_eq_fields w1 w2 :
  w1 ≈ w2 ↔
    app w1 = app w2 ∧ page w1 = page w2 ∧ wired w1 = wired w2 ∧
    timer w1 = timer w2 ∧ probes w1 = probes w2 ∧
    image_load w1 = image_load w2.
Proof.
  split; [by intros H; rewrite H|].
  destruct w1, w2. rw /quiet_eq /silent /=.
  by intros (-> & -> & -> & -> & -> & ->).
Qed.

(** An operation that reads and writes no console respects [≈]. *)
Ltac solve_quiet_proper :=
  intros ?? (? & ? & ? & ? & ? & ?)%quiet_eq_fields;
  apply quiet_eq_fields; simpl; split_and!; congruence.

#[export] Instance upd_app_proper f : Proper (quiet_eq ==> quiet_eq) (upd_app f).
Proof. solve_quiet_proper. Qed.
#[export] Instance upd_page_proper f :
  Proper (quiet_eq ==> quiet_eq) (upd_page f).
Proof. solve_quiet_proper. Qed.
#[export] Instance set_wired_proper b :
  Proper (quiet_eq ==> quiet_eq) (set_wired b).
Proof. solve_quiet_proper. Qed.
#[export] Instance set_timer_proper b :
  Proper (quiet_eq ==> quiet_eq) (set_timer b).
Proof. solve_quiet_proper. Qed.
#[export] Instance set_probes_proper ps :
  Proper (quiet_eq ==> quiet_eq) (set_probes ps).
Proof. solve_quiet_proper. Qed.
#[export] Instance set_image_load_proper l :
  Proper (quiet_eq ==> quiet_eq) (set_image_load l).
Proof. solve_quiet_proper. Qed.
#[export] Instance console_write_proper lvl args :
  Proper (quiet_eq ==> quiet_eq) (console_write lvl args).
Proof. intros w1 w2 H. by rw !console_write_quiet. Qed.

(** ** The console *)

Lemma console_write_app lvl args w :
  app (console_write lvl args w) = app w.
Proof. done. Qed.

Lemma console_write_page lvl args w :
  page (console_write lvl args w) = page w.
Proof. done. Qed.

Lemma console_write_length lvl args w :
  length (console (console_write lvl args w)) = S (length (console w)).
Proof. rw /= length_app /=. lia. Qed.

(** The console only grows: the entries written before stay a prefix. *)
Lemma console_write_prefix lvl args w :
  console w `prefix_of` console (console_write lvl args w).
Proof. by apply prefix_app_r. Qed.

(** A method that only writes to the console a few times extends it. *)
Ltac solve_console :=
  simpl; first [done | rewrite <- ?(assoc_L (++)); by apply prefix_app_r].

#[export] Hint Rewrite silent_console_write console_write_app
  console_write_page : js_run.
#[export] Hint Resolve console_write_prefix : js.
