(* ===== verification/Display.v ===== *)
(** * Display: the methods that write the page

    [displayImage], its four image handlers, [displayCaption],
    [displayError] and [updateFolderButtons] of [src/script.js], as
    functions on the [world]. Each runs the assignments of the method in
    the order of the source.

    The theorems: what each method leaves on the page, that the error
    markup carries its message unescaped, that placeholder and image are
    never both shown or both hidden once a display method has run
    ([one_shown]), that the marking of the folder buttons follows
    [currentFolder], and the transitions of the presentation state
    ([phase_of]) the methods make. *)

From S2P Require Import Prelude Browser.

(** ** Markup *)

(** The markup of line 155. *)
Definition loading_html : string :=
  "<i class=" +:+ dq +:+ "fas fa-spinner fa-spin" +:+ dq
    +:+ "></i><p>Loading image...</p>".

(** The template of lines 194-198 up to [${message}]. *)
Definition error_head : string :=
  nl +:+ spaces 12 +:+ "<i class=" +:+ dq +:+ "fas fa-exclamation-triangle"
    +:+ dq +:+ " style=" +:+ dq +:+ "color: #dc3545;" +:+ dq +:+ "></i>"
    +:+ nl +:+ spaces 12 +:+ "<p style=" +:+ dq +:+ "color: #dc3545;" +:+ dq
    +:+ ">".

(** The template of lines 194-198 after [${message}]. *)
Definition error_tail : string :=
  "</p>" +:+ nl +:+ spaces 12
    +:+ "<small>Check browser console for details</small>"
    +:+ nl +:+ spaces 8.

Definition error_html (message : string) : string :=
  error_head +:+ message +:+ error_tail.

(** ** Methods *)

(** [displayError(message)], lines 190-203. *)
Definition displayError (message : string) (w : world) : world :=
  w |> console_write LogError [LStr "❌"; LStr message]
    |> upd_page (set_placeholder_innerHTML (error_html message))
    |> upd_page (set_placeholder_hidden false)
    |> upd_page (set_image_hidden true)
    |> upd_page (set_caption_text "Error loading content").

(** [displayCaption(caption)], lines 185-188. [caption] is [undefined] when
    it was read past the end of [captions]; [textContent], a nullable
    string, then becomes empty. *)
Definition displayCaption (caption : option string) (w : world) : world :=
  w |> upd_page (set_caption_text (default "" caption))
    |> upd_page (set_source_text
         ("Source: " +:+ currentFolder (app w) +:+ " folder")).

(** [displayImage(imagePath)], lines 150-183, up to the assignment of
    [testImg.src], which starts the probe. *)
Definition displayImage (imagePath : string) (w : world) : world :=
  w |> upd_page (set_placeholder_innerHTML loading_html)
    |> upd_page (set_placeholder_hidden false)
    |> upd_page (set_image_hidden true)
    |> set_probes (probes w ++ [imagePath]).

(** [testImg.onload], lines 162-176: assigning [imgElement.src] starts the
    load of the shown image; [alt] reads [currentFolder] as it is now. *)
Definition testImg_onload (imagePath : string) (w : world) : world :=
  w |> upd_page (set_image_src imagePath)
    |> set_image_load (Some imagePath)
    |> upd_page (set_image_alt ("Image from " +:+ currentFolder (app w)))
    |> upd_page (set_image_onload (Some imagePath))
    |> upd_page (set_image_onerror (Some imagePath)).

(** [testImg.onerror], lines 178-180. *)
Definition testImg_onerror (imagePath : string) (w : world) : world :=
  displayError ("Image not found: " +:+ imagePath) w.

(** [imgElement.onload], lines 167-171. *)
Definition imgElement_onload (imagePath : string) (w : world) : world :=
  w |> upd_page (set_placeholder_hidden true)
    |> upd_page (set_image_hidden false)
    |> console_write LogInfo [LStr "✅ Image loaded:"; LStr imagePath].

(** [imgElement.onerror], lines 173-175. *)
Definition imgElement_onerror (imagePath : string) (w : world) : world :=
  displayError ("Failed to display: " +:+ imagePath) w.

(** The body of the loop of lines 115-120 for one button. *)
Definition mark_active (folder : string) (b : folder_btn) : folder_btn :=
  FolderBtn (data_folder b) (bool_decide (data_folder b = folder)).

(** [updateFolderButtons()], lines 114-121. *)
Definition updateFolderButtons (w : world) : world :=
  upd_page (λ d,
    set_folder_btns (mark_active (currentFolder (app w)) <$> folder_btns d) d)
    w.

(** ** The presentation state *)

(** The states of the presentation. *)
Inductive phase : Type := Idle | Loading | Displayed | Failed.

#[export] Instance phase_eq_dec : EqDecision phase.
Proof. solve_decision. Defined.

(** The state the page shows: the image when the placeholder is hidden,
    otherwise what the placeholder holds. *)
Definition phase_of (d : dom) : phase :=
  if placeholder_hidden d then
    if image_hidden d then Idle else Displayed
  else if decide (placeholder_innerHTML d = loading_html) then Loading
  else if String.prefix error_head (placeholder_innerHTML d) then Failed
  else Idle.

(** Exactly one of placeholder and image is shown. *)
Definition one_shown (d : dom) : Prop :=
  placeholder_hidden d = negb (image_hidden d).

#[export] Instance one_shown_dec d : Decision (one_shown d).
Proof. rw /one_shown. apply _. Defined.

(** ** The methods respect equality up to the console *)

#[export] Instance displayError_proper message :
  Proper (quiet_eq ==> quiet_eq) (displayError message).
Proof. solve_quiet_proper. Qed.
#[export] Instance displayCaption_proper caption :
  Proper (quiet_eq ==> quiet_eq) (displayCaption caption).
Proof. solve_quiet_proper. Qed.
#[export] Instance displayImage_proper imagePath :
  Proper (quiet_eq ==> quiet_eq) (displayImage imagePath).
Proof. solve_quiet_proper. Qed.
#[export] Instance testImg_onload_proper imagePath :
  Proper (quiet_eq ==> quiet_eq) (testImg_onload imagePath).
Proof. solve_quiet_proper. Qed.
#[export] Instance testImg_onerror_proper imagePath :
  Proper (quiet_eq ==> quiet_eq) (testImg_onerror imagePath).
Proof. solve_quiet_proper. Qed.
#[export] Instance imgElement_onload_proper imagePath :
  Proper (quiet_eq ==> quiet_eq) (imgElement_onload imagePath).
Proof. solve_quiet_proper. Qed.
#[export] Instance imgElement_onerror_proper imagePath :
  Proper (quiet_eq ==> quiet_eq) (imgElement_onerror imagePath).
Proof. solve_quiet_proper. Qed.
#[export] Instance updateFolderButtons_proper :
  Proper (quiet_eq ==> quiet_eq) updateFolderButtons.
Proof. solve_quiet_proper. Qed.

(** ** Markup lemmas *)

Lemma error_html_prefix message :
  String.prefix error_head (error_html message) = true.
Proof. apply string_prefix_app. Qed.

Lemma error_html_not_loading message : error_html message ≠ loading_html.
Proof. by cbv. Qed.

Lemma loading_html_not_error : String.prefix error_head loading_html = false.
Proof. by vm_compute. Qed.

(** The message is in the markup as it is, between the two fixed parts. *)
Lemma error_html_infix message : message ⊏ error_html message.
Proof. by exists error_head, error_tail. Qed.

(** The markup determines the message. *)
Lemma error_html_inj m1 m2 : error_html m1 = error_html m2 → m1 = m2.
Proof.
  rw /error_html. intros H%(inj (String.append error_head)).
  by apply string_app_inj_r in H.
Qed.

(** ** The presentation state read off the fields *)

Lemma phase_of_failed d message :
  placeholder_hidden d = false →
  placeholder_innerHTML d = error_html message →
  phase_of d = Failed.
Proof.
  rw /phase_of => -> ->.
  case_decide as H; [by apply error_html_not_loading in H|].
  by rw error_html_prefix.
Qed.

Lemma phase_of_loading d :
  placeholder_hidden d = false →
  placeholder_innerHTML d = loading_html →
  phase_of d = Loading.
Proof. rw /phase_of => -> ->. by case_decide. Qed.

Lemma phase_of_displayed d :
  placeholder_hidden d = true → image_hidden d = false →
  phase_of d = Displayed.
Proof. by rw /phase_of => -> ->. Qed.

(** ** The presentation state after each method *)

Section phases.
Context (w : world).

Lemma phase_displayError message :
  phase_of (page (displayError message w)) = Failed.
Proof. by apply (phase_of_failed _ message). Qed.

Lemma phase_displayImage imagePath :
  phase_of (page (displayImage imagePath w)) = Loading.
Proof. by apply phase_of_loading. Qed.

Lemma phase_imgElement_onload imagePath :
  phase_of (page (imgElement_onload imagePath w)) = Displayed.
Proof. done. Qed.

(** The probe's success changes [src], [alt] and the handlers, not what
    is shown: the page stays in the state it was in. *)
Lemma phase_testImg_onload imagePath :
  phase_of (page (testImg_onload imagePath w)) = phase_of (page w).
Proof. done. Qed.

Lemma phase_displayCaption caption :
  phase_of (page (displayCaption caption w)) = phase_of (page w).
Proof. done. Qed.

Lemma phase_updateFolderButtons :
  phase_of (page (updateFolderButtons w)) = phase_of (page w).
Proof. done. Qed.

End phases.

(** Both failure points end in the same state. *)
Lemma phase_failures imagePath w1 w2 :
  phase_of (page (testImg_onerror imagePath w1)) = Failed ∧
  phase_of (page (imgElement_onerror imagePath w2)) = Failed.
Proof. split; apply phase_displayError. Qed.

(** ** Placeholder and image *)

Section one_shown.
Context (w : world).

Lemma one_shown_displayError message : one_shown (page (displayError message w)).
Proof. done. Qed.

Lemma one_shown_displayImage imagePath :
  one_shown (page (displayImage imagePath w)).
Proof. done. Qed.

Lemma one_shown_imgElement_onload imagePath :
  one_shown (page (imgElement_onload imagePath w)).
Proof. done. Qed.

Lemma one_shown_testImg_onload imagePath :
  one_shown (page w) → one_shown (page (testImg_onload imagePath w)).
Proof. done. Qed.

Lemma one_shown_displayCaption caption :
  one_shown (page w) → one_shown (page (displayCaption caption w)).
Proof. done. Qed.

Lemma one_shown_updateFolderButtons :
  one_shown (page w) → one_shown (page (updateFolderButtons w)).
Proof. done. Qed.

End one_shown.

#[export] Hint Resolve one_shown_displayError one_shown_displayImage
  one_shown_imgElement_onload one_shown_testImg_onload
  one_shown_displayCaption one_shown_updateFolderButtons : js.

(** ** The error markup *)

(** C31. [displayError] writes its message into [innerHTML] as it is: the
    markup is the fixed head, the message with nothing escaped, and the
    fixed tail, and the page is in the [Failed] state. *)
Theorem displayError_message_unescaped message w :
  placeholder_innerHTML (page (displayError message w))
    = error_head +:+ message +:+ error_tail ∧
  message ⊏ placeholder_innerHTML (page (displayError message w)) ∧
  phase_of (page (displayError message w)) = Failed.
Proof.
  split_and!; [done | apply error_html_infix | apply phase_displayError].
Qed.

(** Two errors show the same markup only for the same message. *)
Lemma displayError_markup_inj m1 m2 w1 w2 :
  placeholder_innerHTML (page (displayError m1 w1))
    = placeholder_innerHTML (page (displayError m2 w2)) →
  m1 = m2.
Proof. apply error_html_inj. Qed.

(** An error changes the page and the console only. *)
Lemma displayError_frame message w :
  app (displayError message w) = app w ∧
  probes (displayError message w) = probes w ∧
  image_load (displayError message w) = image_load w ∧
  wired (displayError message w) = wired w ∧
  timer (displayError message w) = timer w ∧
  folder_btns (page (displayError message w)) = folder_btns (page w).
Proof. done. Qed.

(** ** The folder buttons *)

Section buttons.
Context (w : world).
#[local] Abbreviation cf := (currentFolder (app w)).
#[local] Abbreviation names := (data_folder <$> folder_btns (page w)).

Lemma mark_active_folder f b : data_folder (mark_active f b) = data_folder b.
Proof. done. Qed.

(** The buttons keep their folders and their order. *)
Lemma updateFolderButtons_names :
  data_folder <$> folder_btns (page (updateFolderButtons w)) = names.
Proof.
  rw /= -list_fmap_compose. by apply list_fmap_ext.
Qed.

(** A button is marked exactly when its folder is the current one. *)
Lemma updateFolderButtons_active b :
  b ∈ folder_btns (page (updateFolderButtons w)) →
  active b = true ↔ data_folder b = cf.
Proof.
  rw /=. intros (b0 & -> & _)%list_elem_of_fmap.
  rw /= bool_decide_eq_true //.
Qed.

Lemma active_folders_mark f (bs : list folder_btn) :
  data_folder <$> filter (λ b, active b = true) (mark_active f <$> bs)
    = filter (λ g, g = f) (data_folder <$> bs).
Proof.
  induction bs as [|b bs IH]; [done|].
  rw fmap_cons !filter_cons /=.
  destruct (decide (data_folder b = f)) as [Hb|Hb].
  - rw bool_decide_true //=. f_equal. exact IH.
  - rw bool_decide_false //=.
Qed.

Lemma active_folders_updateFolderButtons :
  active_folders (page (updateFolderButtons w)) = filter (λ g, g = cf) names.
Proof. apply active_folders_mark. Qed.

(** C32. After [updateFolderButtons], when the buttons carry distinct
    folders and one of them is the current folder, exactly that one is
    marked active. *)
Theorem updateFolderButtons_one_active :
  NoDup names → cf ∈ names →
  active_folders (page (updateFolderButtons w)) = [cf].
Proof.
  intros Hnd Hin. rw active_folders_updateFolderButtons.
  by apply filter_eq_NoDup.
Qed.

(** When no button carries the current folder, none is marked. *)
Lemma updateFolderButtons_none_active :
  cf ∉ names → active_folders (page (updateFolderButtons w)) = [].
Proof.
  intros Hin. rw active_folders_updateFolderButtons.
  by apply filter_eq_not_elem.
Qed.

End buttons.

Lemma updateFolderButtons_one_active_witness :
  active_folders (page (updateFolderButtons demo_world)) = ["Lilia"].
Proof.
  apply (updateFolderButtons_one_active demo_world);
    apply (bool_decide_unpack _); by vm_compute.
Defined.

Lemma mark_active_idemp f b : mark_active f (mark_active f b) = mark_active f b.
Proof. done. Qed.

(** [updateFolderButtons] is idempotent: marking the buttons a second
    time leaves the world as the first marking left it. *)
Theorem updateFolderButtons_idemp w :
  updateFolderButtons (updateFolderButtons w) = updateFolderButtons w.
Proof.
  rw /updateFolderButtons /upd_page /set_folder_btns /=.
  do 2 f_equal. rw -list_fmap_compose. by apply list_fmap_ext.
Qed.
