(* ===== verification/Selector.v ===== *)
(** * Selector: choosing a folder and generating a pick

    [selectFolder] and [generateRandomImage] of [src/script.js]. The random
    numbers the methods draw are arguments: [selectFolder] draws one when
    its argument is [random], [generateRandomImage] draws two on its success
    path, for the image first and for the caption second.

    The theorems: a pick on a folder with images shows one of its images
    and one of the captions and starts exactly one probe; a pick on an
    absent or empty folder reports the error and starts none, the two
    cases being indistinguishable; [random] selects one of the three fixed
    folders and can select each; any other name is stored as it is. *)

From Stdlib Require Import QArith.
From S2P Require Import Prelude Random Browser Display.

(** ** Methods *)

(** The candidates of line 104. *)
Definition folders : list string := ["Lilia"; "Leylah"; "Roxy"].

(** [selectFolder(folder)], lines 102-112; [r] is the value [Math.random()]
    returns at line 105. An index past the end of [folders] would read
    [undefined]; [random_index_lt] excludes it for every draw in [0, 1), and
    the model then stores the text of [undefined]. *)
Definition selectFolder (folder : string) (r : Q) (w : world) : world :=
  (if decide (folder = "random")
   then w |> upd_app (set_currentFolder
                (js_str (folders !! random_index r (length folders))))
   else w |> upd_app (set_currentFolder folder))
    |> updateFolderButtons
    |> (λ w', w' |> console_write LogInfo
                      [LStr ("📂 Selected: " +:+ currentFolder (app w'))]).

(** The guard of line 128 lets the pick through: the current folder is in
    the manifest and has an image. *)
Definition has_images (w : world) : bool :=
  match imageManifest (app w) !! currentFolder (app w) with
  | Some (_ :: _) => true
  | _ => false
  end.

(** The message of line 129. *)
Definition no_images_message (folder : string) : string :=
  "No images in " +:+ folder +:+ " folder".

(** [generateRandomImage()], lines 123-148; [r1] and [r2] are the values
    [Math.random()] returns at lines 134 and 139. *)
Definition generateRandomImage (r1 r2 : Q) (w : world) : world :=
  let folder := currentFolder (app w) in
  let w0 :=
    w |> console_write LogInfo
           [LStr ("🎲 Generating random image from " +:+ folder +:+ "...")] in
  match imageManifest (app w) !! folder with
  | None | Some [] => displayError (no_images_message folder) w0
  | Some images =>
      let randomIndex := random_index r1 (length images) in
      let imageFile := images !! randomIndex in
      let imagePath := folder +:+ "/" +:+ js_str imageFile in
      let captionIndex := random_index r2 (length (captions (app w))) in
      let caption := captions (app w) !! captionIndex in
      w0 |> console_write LogInfo [LStr ("🖼️ Loading: " +:+ imagePath)]
         |> console_write LogInfo [LStr ("💬 Caption: " +:+ js_str caption)]
         |> displayImage imagePath
         |> displayCaption caption
  end.

(** ** Reading an array at a drawn index *)

Section random_lookup.
Context {A : Type} (l : list A) (r : Q).

(** On a non-empty array a drawn index reads an element. *)
Lemma random_lookup_elem :
  unit_draw r → l ≠ [] →
  ∃ x, l !! random_index r (length l) = Some x ∧ x ∈ l.
Proof.
  intros Hr Hl.
  destruct (lookup_lt_is_Some_2 l (random_index r (length l))) as [x Hx].
  { apply random_index_lt; [done|]. destruct l; [done | simpl; lia]. }
  exists x. split; [done|]. by eapply list_elem_of_lookup_2.
Qed.

(** On an empty array it reads [undefined]. *)
Lemma random_lookup_nil : l = [] → l !! random_index r (length l) = None.
Proof. by intros ->. Qed.

End random_lookup.

(** Every element of an array is read at some drawn index. *)
Lemma random_lookup_onto {A} (l : list A) (x : A) :
  x ∈ l → ∃ r, unit_draw r ∧ l !! random_index r (length l) = Some x.
Proof.
  intros (i & Hi)%list_elem_of_lookup_1.
  destruct (random_index_onto i (length l)) as (r & Hr & Hidx).
  { by eapply lookup_lt_Some. }
  exists r. by rw Hidx.
Qed.

(** Whether a number is a draw is decided by computing. *)
#[export] Instance unit_draw_dec r : Decision (unit_draw r).
Proof.
  refine (cast_if (decide (unit_drawb r = true))); by rw -unit_drawb_spec.
Defined.

(** ** The methods respect equality up to the console *)

#[export] Instance selectFolder_proper folder r :
  Proper (quiet_eq ==> quiet_eq) (selectFolder folder r).
Proof. rw /selectFolder. case_decide; solve_quiet_proper. Qed.

#[export] Instance generateRandomImage_proper r1 r2 :
  Proper (quiet_eq ==> quiet_eq) (generateRandomImage r1 r2).
Proof.
  intros w1 w2 H. pose proof H as (Ha & _)%quiet_eq_fields.
  rw /generateRandomImage Ha.
  destruct (imageManifest (app w2) !! currentFolder (app w2)) as [[|x xs]|];
    clear Ha; revert w1 w2 H; solve_quiet_proper.
Qed.

(** ** Generating a pick *)

Section generate.
Context (r1 r2 : Q) (w : world).
#[local] Abbreviation folder := (currentFolder (app w)).
#[local] Abbreviation w' := (generateRandomImage r1 r2 w).

(** The generator's fields are read, never written. *)
Lemma generateRandomImage_app : app w' = app w.
Proof. rw /generateRandomImage. by repeat case_match. Qed.

(** Nor are the listeners, the timer, the load of the shown image and
    the buttons. *)
Lemma generateRandomImage_frame :
  wired w' = wired w ∧ timer w' = timer w ∧ image_load w' = image_load w ∧
  folder_btns (page w') = folder_btns (page w).
Proof. rw /generateRandomImage. by repeat case_match. Qed.

(** The success path, with the two values read from the arrays named. *)
Lemma generateRandomImage_some images file caption :
  imageManifest (app w) !! folder = Some images → images ≠ [] →
  images !! random_index r1 (length images) = file →
  captions (app w) !! random_index r2 (length (captions (app w))) = caption →
  w' ≈ displayCaption caption
         (displayImage (folder +:+ "/" +:+ js_str file) w).
Proof.
  intros Hm Hne <- <-. rw /generateRandomImage Hm.
  by destruct images.
Qed.

(** A pick only adds to the console. *)
Lemma generateRandomImage_console : console w `prefix_of` console w'.
Proof. rw /generateRandomImage. repeat case_match; solve_console. Qed.

(** C2. On a folder that is absent from the manifest or has no image, the
    pick reports [No images in <folder> folder] through [displayError],
    starts no probe and leaves the generator's fields as they were, for
    whatever numbers would have been drawn. *)
Theorem generateRandomImage_empty_folder :
  imageManifest (app w) !! folder = None ∨
  imageManifest (app w) !! folder = Some [] →
  placeholder_innerHTML (page (generateRandomImage r1 r2 w))
    = error_html (no_images_message folder) ∧
  phase_of (page (generateRandomImage r1 r2 w)) = Failed ∧
  probes (generateRandomImage r1 r2 w) = probes w ∧
  image_load (generateRandomImage r1 r2 w) = image_load w ∧
  app (generateRandomImage r1 r2 w) = app w.
Proof.
  intros [Hm | Hm]; rw /generateRandomImage Hm;
    (split_and!; [done | apply phase_displayError | done..]).
Qed.

(** The error path, up to the console. *)
Lemma generateRandomImage_none :
  imageManifest (app w) !! folder = None ∨
  imageManifest (app w) !! folder = Some [] →
  w' ≈ displayError (no_images_message folder) w.
Proof. rw /generateRandomImage. by intros [-> | ->]. Qed.

(** The page after a pick is loading or failed, as the guard decides. *)
Lemma generateRandomImage_phase :
  phase_of (page w') = if has_images w then Loading else Failed.
Proof.
  rw /generateRandomImage /has_images.
  destruct (imageManifest (app w) !! folder) as [[|x xs]|];
    [apply phase_displayError | by apply phase_of_loading
    | apply phase_displayError].
Qed.

(** The two ways a pick ends, for a draw of the image: the error, or a
    probe for a file of the current folder. *)
Lemma generateRandomImage_cases :
  unit_draw r1 →
  w' ≈ displayError (no_images_message folder) w ∨
  ∃ images file,
    imageManifest (app w) !! folder = Some images ∧ file ∈ images ∧
    w' ≈ displayCaption
           (captions (app w) !! random_index r2 (length (captions (app w))))
           (displayImage (folder +:+ "/" +:+ file) w).
Proof.
  intros Hr1.
  destruct (imageManifest (app w) !! folder) as [images|] eqn:Hm;
    [destruct (decide (images = [])) as [->|Hne]|];
    [left; apply generateRandomImage_none; by right | |
     left; apply generateRandomImage_none; by left].
  right. destruct (random_lookup_elem images r1 Hr1 Hne) as (file & Hf & Hin).
  exists images, file. split_and!; [done..|].
  by apply (generateRandomImage_some images (Some file)).
Qed.

(** C1. On a folder that has images, for every two draws, the pick starts
    exactly one probe, for the path made of the current folder, a slash
    and one of the folder's file names; the page shows the loading
    placeholder; the caption shown is one of the captions when there is
    any; the generator's fields are unchanged. *)
Theorem generateRandomImage_picks images :
  unit_draw r1 → unit_draw r2 →
  imageManifest (app w) !! folder = Some images → images ≠ [] →
  ∃ file,
    file ∈ images ∧
    probes (generateRandomImage r1 r2 w)
      = probes w ++ [folder +:+ "/" +:+ file] ∧
    phase_of (page (generateRandomImage r1 r2 w)) = Loading ∧
    source_text (page (generateRandomImage r1 r2 w))
      = "Source: " +:+ folder +:+ " folder" ∧
    (captions (app w) ≠ [] →
      ∃ c, c ∈ captions (app w) ∧
        caption_text (page (generateRandomImage r1 r2 w)) = c) ∧
    app (generateRandomImage r1 r2 w) = app w.
Proof.
  intros Hr1 Hr2 Hm Hne.
  destruct (random_lookup_elem images r1 Hr1 Hne) as (file & Hfile & Hin).
  exists file. split; [done|].
  pose proof (generateRandomImage_some images _ _ Hm Hne Hfile eq_refl) as Hs.
  rewrite !Hs.
  split_and!; [done | by apply phase_of_loading | done | | done].
  intros Hc.
  destruct (random_lookup_elem _ r2 Hr2 Hc) as (c & Hcap & Hcin).
  exists c. split; [done|]. by rewrite Hs, Hcap.
Qed.

(** When the captions are empty, a pick on a folder with images
    reads the caption [undefined]: the caption element is emptied, and
    the console shows the text [undefined]. *)
Theorem generateRandomImage_no_caption images :
  imageManifest (app w) !! folder = Some images → images ≠ [] →
  captions (app w) = [] →
  caption_text (page (generateRandomImage r1 r2 w)) = "" ∧
  LogEntry LogInfo [LStr "💬 Caption: undefined"]
    ∈ console (generateRandomImage r1 r2 w).
Proof.
  intros Hm Hne Hc. rw /generateRandomImage Hm Hc.
  destruct images as [|x xs]; [done|]. split; [done|].
  rw /= elem_of_app. right. by apply list_elem_of_singleton.
Qed.

End generate.

Lemma generateRandomImage_picks_witness :
  ∃ file,
    file ∈ ["a.jpg"; "b.jpg"] ∧
    probes (generateRandomImage (1 # 2) 0 demo_world)
      = [] ++ ["Lilia" +:+ "/" +:+ file] ∧
    phase_of (page (generateRandomImage (1 # 2) 0 demo_world)) = Loading ∧
    source_text (page (generateRandomImage (1 # 2) 0 demo_world))
      = "Source: " +:+ "Lilia" +:+ " folder" ∧
    (["Hi"] ≠ [] →
      ∃ c, c ∈ ["Hi"] ∧
        caption_text (page (generateRandomImage (1 # 2) 0 demo_world)) = c) ∧
    app (generateRandomImage (1 # 2) 0 demo_world) = app demo_world.
Proof.
  apply (generateRandomImage_picks (1 # 2) 0 demo_world ["a.jpg"; "b.jpg"]);
    [by apply unit_drawb_spec | by apply unit_drawb_spec | done | done].
Defined.

#[local] Abbreviation leylah_world :=
  (upd_app (set_currentFolder "Leylah") demo_world).

Lemma generateRandomImage_empty_folder_witness :
  placeholder_innerHTML (page (generateRandomImage 0 0 leylah_world))
    = error_html (no_images_message "Leylah") ∧
  phase_of (page (generateRandomImage 0 0 leylah_world)) = Failed ∧
  probes (generateRandomImage 0 0 leylah_world) = probes leylah_world ∧
  image_load (generateRandomImage 0 0 leylah_world) = image_load leylah_world ∧
  app (generateRandomImage 0 0 leylah_world) = app leylah_world.
Proof. apply (generateRandomImage_empty_folder 0 0 leylah_world). by right. Defined.

#[local] Abbreviation mute_world := (upd_app (set_captions []) demo_world).

Lemma generateRandomImage_no_caption_witness :
  caption_text (page (generateRandomImage 0 0 mute_world)) = "" ∧
  LogEntry LogInfo [LStr "💬 Caption: undefined"]
    ∈ console (generateRandomImage 0 0 mute_world).
Proof.
  by apply (generateRandomImage_no_caption 0 0 mute_world ["a.jpg"; "b.jpg"]).
Defined.

(** A pick does not tell an unknown folder from an empty one: the
    manifest without the folder and the manifest with the folder empty
    give the same page, the same console and the same probes. *)
Theorem generateRandomImage_absent_as_empty r1 r2 w m :
  m !! currentFolder (app w) = None →
  let absent := upd_app (set_imageManifest m) w in
  let empty :=
    upd_app (set_imageManifest (<[currentFolder (app w) := []]> m)) w in
  page (generateRandomImage r1 r2 absent)
    = page (generateRandomImage r1 r2 empty) ∧
  console (generateRandomImage r1 r2 absent)
    = console (generateRandomImage r1 r2 empty) ∧
  probes (generateRandomImage r1 r2 absent)
    = probes (generateRandomImage r1 r2 empty).
Proof.
  intros Hm. rw /generateRandomImage /= Hm. by rw lookup_insert_eq.
Qed.

#[local] Abbreviation nobody_world :=
  (upd_app (set_currentFolder "Nobody") demo_world).

Lemma generateRandomImage_absent_as_empty_witness :
  let absent := upd_app (set_imageManifest demo_manifest) nobody_world in
  let empty :=
    upd_app (set_imageManifest (<["Nobody" := []]> demo_manifest))
      nobody_world in
  page (generateRandomImage 0 0 absent) = page (generateRandomImage 0 0 empty) ∧
  console (generateRandomImage 0 0 absent)
    = console (generateRandomImage 0 0 empty) ∧
  probes (generateRandomImage 0 0 absent)
    = probes (generateRandomImage 0 0 empty).
Proof.
  by apply (generateRandomImage_absent_as_empty 0 0 nobody_world demo_manifest).
Defined.

(** ** Selecting a folder *)

Section select.
Context (r : Q) (w : world).

(** What [selectFolder] does once the new folder is known. *)
Lemma selectFolder_quiet folder :
  selectFolder folder r w ≈
    updateFolderButtons
      (upd_app (set_currentFolder
         (currentFolder (app (selectFolder folder r w)))) w).
Proof. rw /selectFolder. by case_decide. Qed.

(** A name other than [random] becomes the current folder as given,
    whether the manifest has it or not, and the buttons are marked for
    it. *)
Theorem selectFolder_verbatim folder :
  folder ≠ "random" →
  currentFolder (app (selectFolder folder r w)) = folder ∧
  captions (app (selectFolder folder r w)) = captions (app w) ∧
  imageManifest (app (selectFolder folder r w)) = imageManifest (app w) ∧
  active_folders (page (selectFolder folder r w))
    = filter (λ g, g = folder) (data_folder <$> folder_btns (page w)).
Proof.
  intros Hf. rw /selectFolder. case_decide; [done|].
  split_and!; [done.. | apply active_folders_mark].
Qed.

(** The folder selected: the argument, or a candidate when the argument is
    [random]. *)
Lemma selectFolder_folder folder :
  unit_draw r →
  currentFolder (app (selectFolder folder r w))
    = (if decide (folder = "random")
       then js_str (folders !! random_index r (length folders)) else folder) ∧
  (folder = "random" →
     currentFolder (app (selectFolder folder r w)) ∈ folders).
Proof.
  intros Hr. rw /selectFolder. case_decide; [|done]. split; [done|].
  destruct (random_lookup_elem folders r Hr) as (f & Hf & Hin); [done|].
  by rewrite Hf.
Qed.

(** [random] selects one of the three candidates of line 104, for
    every draw. *)
Theorem selectFolder_random_candidate :
  unit_draw r → currentFolder (app (selectFolder "random" r w)) ∈ folders.
Proof. intros Hr. by apply selectFolder_folder. Qed.

(** Selecting changes the current folder, the marks of the buttons and the
    console, nothing else. *)
Lemma selectFolder_frame folder :
  probes (selectFolder folder r w) = probes w ∧
  image_load (selectFolder folder r w) = image_load w ∧
  wired (selectFolder folder r w) = wired w ∧
  timer (selectFolder folder r w) = timer w ∧
  phase_of (page (selectFolder folder r w)) = phase_of (page w).
Proof. rw /selectFolder. by case_decide. Qed.

(** A selection only adds to the console. *)
Lemma selectFolder_console folder :
  console w `prefix_of` console (selectFolder folder r w).
Proof. rw /selectFolder. case_decide; solve_console. Qed.

End select.

Lemma selectFolder_verbatim_witness :
  currentFolder (app (selectFolder "Nobody" 0 demo_world)) = "Nobody" ∧
  captions (app (selectFolder "Nobody" 0 demo_world)) = captions (app demo_world) ∧
  imageManifest (app (selectFolder "Nobody" 0 demo_world))
    = imageManifest (app demo_world) ∧
  active_folders (page (selectFolder "Nobody" 0 demo_world))
    = filter (λ g, g = "Nobody") (data_folder <$> folder_btns (page demo_world)).
Proof. by apply (selectFolder_verbatim 0 demo_world "Nobody"). Defined.

Lemma selectFolder_random_candidate_witness :
  currentFolder (app (selectFolder "random" (2 # 3) demo_world)) ∈ folders.
Proof.
  apply (selectFolder_random_candidate (2 # 3) demo_world).
  by apply unit_drawb_spec.
Defined.

(** Each of the three candidates is selected by [random] for some
    draw: none of them is out of reach. *)
Theorem selectFolder_random_onto w f :
  f ∈ folders →
  ∃ r, unit_draw r ∧ currentFolder (app (selectFolder "random" r w)) = f.
Proof.
  intros (r & Hr & Hf)%random_lookup_onto. exists r. split; [done|].
  rw /selectFolder. case_decide; [|done]. by rewrite Hf.
Qed.

Lemma selectFolder_random_onto_witness :
  ∃ r, unit_draw r ∧
    currentFolder (app (selectFolder "random" r demo_world)) = "Roxy".
Proof.
  apply (selectFolder_random_onto demo_world "Roxy").
  apply (bool_decide_unpack _). by vm_compute.
Defined.

(** Selecting the folder that is already selected changes nothing
    but the console. *)
Theorem selectFolder_idemp folder r1 r2 w :
  folder ≠ "random" →
  selectFolder folder r2 (selectFolder folder r1 w) ≈ selectFolder folder r1 w.
Proof.
  intros Hf. rw /selectFolder !decide_False //.
  rw /updateFolderButtons /upd_page /upd_app /set_folder_btns /quiet_eq /silent
    /=.
  do 2 f_equal. rw -list_fmap_compose. by apply list_fmap_ext.
Qed.

Lemma selectFolder_idemp_witness :
  selectFolder "Roxy" 0 (selectFolder "Roxy" 0 demo_world)
    ≈ selectFolder "Roxy" 0 demo_world.
Proof. by apply (selectFolder_idemp "Roxy" 0 0 demo_world). Defined.
