(* ===== verification/Loader.v ===== *)
(** * Loader: the constructor and the initialization

    The constructor, [init], [loadManifest], [loadCaptions] and
    [setupEventListeners] of [src/script.js]. The three [async] methods
    are computations in the monad [exec world js_error]: a rejected
    promise or a [throw] is an exceptional result, and [try]/[catch] is
    [try_catch]. What the two [fetch] calls answer is an argument
    ([fetch_outcome]).

    No listener and no timer of the script exists before
    [setupEventListeners] runs, and that is after both [await]s: nothing
    of the script can run while [init] is suspended, so [init] is modelled
    as one step from the two answers. A request that never answers leaves
    the page as the constructor found it. [Boot] runs [init] between its
    [await]s and proves both.

    The theorems: [init] never throws; a failed manifest load leaves the
    application unwired; a failed caption load is absorbed by the five
    fallback captions; what a successful initialization establishes; that
    a manifest without [Lilia] or [Leylah] is reported as a failure after
    the listeners were registered. *)

From S2P Require Import Prelude Browser Display.

(** ** Methods *)

(** The fallback of lines 73-79. *)
Definition fallback_captions : list string :=
  [ "A beautiful moment captured.";
    "Memories that will last forever.";
    "Pure happiness in a frame.";
    "A snapshot of joy.";
    "Time stands still here." ].

(** The fields the constructor assigns, lines 3-5. *)
Definition new_generator : generator := Generator "Lilia" [] ∅.

(** The world when the constructor has assigned the fields and [init] has
    not run yet, on a page [d]. *)
Definition boot (d : dom) : world :=
  World new_generator d [] false false [] None.

(** A [console] call as a statement of a computation. *)
Definition say (lvl : log_level) (args : list log_arg)
    : exec world js_error () :=
  modify (console_write lvl args).

(** [await fetch(url)] followed by the check of [response.ok] and
    [await response.json()], lines 39-45 and 60-68: the parsed body, or
    the exception. *)
Definition fetch_json {A} (resp : fetch_outcome A) : exec world js_error A :=
  match resp with
  | FetchRejected => mthrow NetworkFailure
  | FetchResponse ok status statusText body =>
      if negb ok then mthrow (HttpError status statusText)
      else match body with
           | BodyInvalid => mthrow JsonSyntaxError
           | BodyJson data => mret data
           end
  end.

(** [loadManifest()], lines 35-54. *)
Definition loadManifest (resp : fetch_outcome manifest)
    : exec world js_error () :=
  say LogInfo [LStr "📄 Loading images-manifest.json..."] ;;
  try_catch
    (data ← fetch_json resp;
     modify (upd_app (set_imageManifest data)) ;;
     say LogInfo [LStr "✅ Manifest loaded successfully"])
    (λ error,
       say LogError [LStr "❌ Error loading manifest:"; LErr error] ;;
       mthrow error).

(** [this.captions = data.captions] followed by the read of
    [this.captions.length] at line 65: the read throws when the property
    is missing. *)
Definition assign_captions (data : captions_json) : exec world js_error nat :=
  match data with
  | None => mthrow (TypeErrorUndefined "length")
  | Some cs => modify (upd_app (set_captions cs)) ;; mret (length cs)
  end.

(** [loadCaptions()], lines 56-82. *)
Definition loadCaptions (resp : fetch_outcome captions_json)
    : exec world js_error () :=
  say LogInfo [LStr "💬 Loading captions.json..."] ;;
  try_catch
    (data ← fetch_json resp;
     n ← assign_captions data;
     say LogInfo [LStr ("✅ Loaded " +:+ pretty n +:+ " captions")])
    (λ error,
       say LogWarn
         [LStr "⚠️ Error loading captions, using fallback:"; LErr error] ;;
       modify (upd_app (set_captions fallback_captions)) ;;
       n ← gets (λ w, length (captions (app w)));
       say LogInfo [LStr ("✅ Using " +:+ pretty n +:+ " fallback captions")]).

(** [setupEventListeners()], lines 84-100: the listeners are registered
    and the timer is started. *)
Definition setupEventListeners (w : world) : world :=
  w |> set_wired true |> set_timer true.

(** [this.imageManifest.<folder>.length], lines 25 and 26. *)
Definition manifest_length (folder : string) : exec world js_error nat :=
  λ w,
    match imageManifest (app w) !! folder with
    | Some images => (w, inr (length images))
    | None => (w, inl (TypeErrorUndefined "length"))
    end.

(** The four [console.log] calls that end the [try] block of [init], lines
    24-27. *)
Definition report : exec world js_error () :=
  say LogInfo [LStr "✅ App initialized successfully!"] ;;
  lilia ← manifest_length "Lilia";
  say LogInfo [LStr ("📁 Lilia: " +:+ pretty lilia +:+ " images")] ;;
  leylah ← manifest_length "Leylah";
  say LogInfo [LStr ("📁 Leylah: " +:+ pretty leylah +:+ " images")] ;;
  n ← gets (λ w, length (captions (app w)));
  say LogInfo [LStr ("💬 Captions: " +:+ pretty n)].

(** The [try] block of [init], lines 13-28. *)
Definition init_body (m : fetch_outcome manifest)
    (c : fetch_outcome captions_json) : exec world js_error () :=
  loadManifest m ;;
  loadCaptions c ;;
  modify setupEventListeners ;;
  modify updateFolderButtons ;;
  report.

(** The message of line 31. *)
Definition init_failed_message : string :=
  "Failed to initialize. Check console.".

(** [init()], lines 10-33. *)
Definition init (m : fetch_outcome manifest) (c : fetch_outcome captions_json)
    : exec world js_error () :=
  say LogInfo [LStr "Starting app initialization..."] ;;
  try_catch (init_body m c)
    (λ error,
       say LogError [LStr "❌ Initialization failed:"; LErr error] ;;
       modify (displayError init_failed_message)).

(** [new ImageGenerator()] on [DOMContentLoaded], lines 206-209 and 2-8:
    the world when [init] has settled. *)
Definition start (d : dom) (m : fetch_outcome manifest)
    (c : fetch_outcome captions_json) : world :=
  final_state (init m c) (boot d).

(** ** What a response is worth *)

(** The body a response delivers, if it delivers one. *)
Definition delivered {A} (resp : fetch_outcome A) : option A :=
  match resp with
  | FetchResponse true _ _ (BodyJson data) => Some data
  | _ => None
  end.

(** The exception a response that delivers nothing ends in. *)
Definition failure_of {A} (resp : fetch_outcome A) : js_error :=
  match resp with
  | FetchRejected => NetworkFailure
  | FetchResponse false status statusText _ => HttpError status statusText
  | FetchResponse true _ _ _ => JsonSyntaxError
  end.

(** The manifest has the two folders [init] reads at lines 25 and 26. *)
Definition has_logged_folders (m : manifest) : Prop :=
  is_Some (m !! "Lilia") ∧ is_Some (m !! "Leylah").

#[export] Instance has_logged_folders_dec m : Decision (has_logged_folders m).
Proof. rw /has_logged_folders. apply _. Defined.

(** The captions once [loadCaptions] has settled. *)
Definition captions_after (c : fetch_outcome captions_json) : list string :=
  match delivered c with
  | Some (Some cs) => cs
  | _ => fallback_captions
  end.

(** What [loadCaptions] writes to the console after its first line: the
    number of captions loaded, or the warning with the exception and the
    number of fallback captions. *)
Definition captions_log (c : fetch_outcome captions_json) : list log_entry :=
  match delivered c with
  | Some (Some cs) =>
      [LogEntry LogInfo [LStr ("✅ Loaded " +:+ pretty (length cs) +:+ " captions")]]
  | other =>
      [LogEntry LogWarn
         [LStr "⚠️ Error loading captions, using fallback:";
          LErr (if other is Some None then TypeErrorUndefined "length"
                else failure_of c)];
       LogEntry LogInfo
         [LStr ("✅ Using " +:+ pretty (length fallback_captions)
                +:+ " fallback captions")]]
  end.

(** The world once both loads have settled and the listeners are
    registered. *)
Definition initialized (data : manifest) (c : fetch_outcome captions_json)
    (w : world) : world :=
  w |> upd_app (set_imageManifest data)
    |> upd_app (set_captions (captions_after c))
    |> setupEventListeners
    |> updateFolderButtons.

(** The answers the examples use: a success with a body, and a 404. *)
Definition ok_response {A} (data : A) : fetch_outcome A :=
  FetchResponse true 200 "OK" (BodyJson data).

Definition not_found {A} : fetch_outcome A :=
  FetchResponse false 404 "Not Found" BodyInvalid.

(** Case analysis on what a [fetch] answered. *)
Ltac case_outcome resp :=
  destruct resp as [|[|] ?status ?statusText [|?data]].

(** A [console] call in front of a computation. *)
Lemma final_state_say_bind {A} lvl args (k : exec world js_error A) w :
  final_state (say lvl args ;; k) w = final_state k (console_write lvl args w).
Proof. done. Qed.

#[export] Instance setupEventListeners_proper :
  Proper (quiet_eq ==> quiet_eq) setupEventListeners.
Proof. solve_quiet_proper. Qed.

#[export] Instance initialized_proper data c :
  Proper (quiet_eq ==> quiet_eq) (initialized data c).
Proof. solve_quiet_proper. Qed.

(** ** Loading the manifest *)

Section manifest.
Context (m : fetch_outcome manifest) (w : world).

(** A manifest that is delivered is stored, and nothing is thrown. *)
Lemma loadManifest_delivered data :
  delivered m = Some data →
  thrown (loadManifest m) w = None ∧
  final_state (loadManifest m) w ≈ upd_app (set_imageManifest data) w.
Proof. case_outcome m; by intros [= <-]. Qed.

(** A manifest that is not delivered: the exception is logged and thrown
    again, and no field is assigned. *)
Lemma loadManifest_failed :
  delivered m = None →
  thrown (loadManifest m) w = Some (failure_of m) ∧
  final_state (loadManifest m) w ≈ w.
Proof. by case_outcome m. Qed.

End manifest.

(** ** Loading the captions *)

Section captions.
Context (c : fetch_outcome captions_json) (w : world).

(** [loadCaptions] settles without an exception, whatever was answered. *)
Lemma loadCaptions_thrown : thrown (loadCaptions c) w = None.
Proof. case_outcome c; try done. by destruct data. Qed.

(** It assigns [captions] and writes to the console, nothing else. *)
Lemma loadCaptions_quiet :
  final_state (loadCaptions c) w ≈ upd_app (set_captions (captions_after c)) w.
Proof. case_outcome c; try done. by destruct data. Qed.

(** C4. When the caption source fails in any way (the request is
    rejected, the status is not a success, the body is not JSON, or the
    body has no [captions]), [loadCaptions] still settles without an
    exception and [captions] is the five fallback captions in their
    order; the manifest, the folder and the page are untouched. *)
Theorem loadCaptions_fallback :
  delivered c = None ∨ delivered c = Some None →
  throws (loadCaptions c) w = false ∧
  captions (app (final_state (loadCaptions c) w)) = fallback_captions ∧
  length (captions (app (final_state (loadCaptions c) w))) = 5 ∧
  imageManifest (app (final_state (loadCaptions c) w)) = imageManifest (app w) ∧
  currentFolder (app (final_state (loadCaptions c) w)) = currentFolder (app w) ∧
  page (final_state (loadCaptions c) w) = page w.
Proof.
  intros Hc. split; [apply thrown_None, loadCaptions_thrown|].
  rewrite !loadCaptions_quiet. rw /captions_after.
  by destruct Hc as [-> | ->].
Qed.

(** C25. A caption list that is delivered is stored as it is, the empty
    list too: the fallback is not used, and [captions] may be empty after
    a load that succeeded. *)
Theorem loadCaptions_delivered cs :
  delivered c = Some (Some cs) →
  throws (loadCaptions c) w = false ∧
  captions (app (final_state (loadCaptions c) w)) = cs.
Proof.
  intros Hc. split; [apply thrown_None, loadCaptions_thrown|].
  rewrite loadCaptions_quiet. by rw /captions_after Hc.
Qed.

End captions.

Lemma loadCaptions_fallback_witness :
  throws (loadCaptions not_found) (boot demo_page) = false ∧
  captions (app (final_state (loadCaptions not_found) (boot demo_page)))
    = fallback_captions ∧
  length (captions (app (final_state (loadCaptions not_found) (boot demo_page))))
    = 5 ∧
  imageManifest (app (final_state (loadCaptions not_found) (boot demo_page)))
    = imageManifest (app (boot demo_page)) ∧
  currentFolder (app (final_state (loadCaptions not_found) (boot demo_page)))
    = currentFolder (app (boot demo_page)) ∧
  page (final_state (loadCaptions not_found) (boot demo_page))
    = page (boot demo_page).
Proof. apply (loadCaptions_fallback not_found (boot demo_page)). by left. Defined.

Lemma loadCaptions_delivered_witness :
  throws (loadCaptions (ok_response (Some []))) (boot demo_page) = false ∧
  captions (app (final_state (loadCaptions (ok_response (Some [])))
                   (boot demo_page))) = [].
Proof.
  by apply (loadCaptions_delivered (ok_response (Some [])) (boot demo_page) []).
Defined.

(** ** The report *)

Section report.
Context (w : world).

(** The report writes to the console only, also when it throws. *)
Lemma report_quiet : final_state report w ≈ w.
Proof.
  rw /report /quiet_eq /final_state /run /manifest_length /say /modify /mbind
    /exec_bind /=.
  destruct (imageManifest (app w) !! "Lilia"); [simpl | done].
  by destruct (imageManifest (app w) !! "Leylah").
Qed.

(** It throws exactly when one of the two folders is missing. *)
Lemma report_thrown :
  thrown report w =
    if decide (has_logged_folders (imageManifest (app w))) then None
    else Some (TypeErrorUndefined "length").
Proof.
  rw /report /thrown /run /manifest_length /say /modify /mbind /exec_bind /=.
  case_decide as H; rw /has_logged_folders in H;
    destruct (imageManifest (app w) !! "Lilia") eqn:H1; simpl;
    destruct (imageManifest (app w) !! "Leylah") eqn:H2;
    try done; try by destruct H as [[? ?] [? ?]].
  destruct H. eauto.
Qed.

Lemma report_thrown_of data :
  imageManifest (app w) = data →
  thrown report w =
    if decide (has_logged_folders data) then None
    else Some (TypeErrorUndefined "length").
Proof. intros <-. apply report_thrown. Qed.

End report.

(** ** Initialization *)

Section init.
Context (m : fetch_outcome manifest) (c : fetch_outcome captions_json).

(** The [try] block up to where it ends or throws. *)
Lemma init_body_quiet w :
  final_state (init_body m c) w ≈
    match delivered m with
    | Some data => initialized data c w
    | None => w
    end.
Proof.
  rw /init_body final_state_seq.
  destruct (delivered m) as [data|] eqn:Hm.
  - destruct (loadManifest_delivered m w data Hm) as [-> Hq].
    rewrite final_state_seq, loadCaptions_thrown.
    rewrite (final_state_modify_bind setupEventListeners).
    rewrite (final_state_modify_bind updateFolderButtons).
    by rewrite report_quiet, loadCaptions_quiet, Hq.
  - by destruct (loadManifest_failed m w Hm) as [-> Hq].
Qed.

Lemma init_body_thrown w :
  thrown (init_body m c) w =
    match delivered m with
    | Some data =>
        if decide (has_logged_folders data) then None
        else Some (TypeErrorUndefined "length")
    | None => Some (failure_of m)
    end.
Proof.
  rw /init_body thrown_seq.
  destruct (delivered m) as [data|] eqn:Hm.
  - destruct (loadManifest_delivered m w data Hm) as [-> Hq].
    rewrite thrown_seq, loadCaptions_thrown.
    rewrite (thrown_modify_bind setupEventListeners).
    rewrite (thrown_modify_bind updateFolderButtons).
    apply report_thrown_of. by rewrite loadCaptions_quiet, Hq.
  - by destruct (loadManifest_failed m w Hm) as [-> Hq].
Qed.

(** [init], whichever way the [try] block ends. *)
Lemma init_quiet w :
  final_state (init m c) w ≈
    match delivered m with
    | Some data =>
        if decide (has_logged_folders data) then initialized data c w
        else displayError init_failed_message (initialized data c w)
    | None => displayError init_failed_message w
    end.
Proof.
  rw /init. rewrite final_state_say_bind, final_state_try_catch.
  rewrite init_body_thrown. set (w0 := console_write _ _ w).
  assert (w0 ≈ w) as Hw0 by apply console_write_quiet.
  pose proof (init_body_quiet w0) as Hb.
  set (w1 := final_state (init_body m c) w0) in *. clearbody w1 w0.
  destruct (delivered m) as [data|]; [case_decide|].
  - by rewrite Hb, Hw0.
  - rw final_state_say_bind final_state_modify. apply displayError_proper.
    etrans; [apply console_write_quiet|]. by rewrite Hb, Hw0.
  - rw final_state_say_bind final_state_modify. apply displayError_proper.
    etrans; [apply console_write_quiet|]. by rewrite Hb, Hw0.
Qed.

(** [init] settles without an exception for every pair of answers:
    whatever [loadManifest], [loadCaptions] or the report throws is caught
    at line 29. *)
Theorem init_never_throws w : throws (init m c) w = false.
Proof.
  rw /init /say. rewrite throws_modify_bind. by apply try_catch_total.
Qed.

End init.

(** ** The application after [init] *)

Section start.
Context (d : dom) (m : fetch_outcome manifest) (c : fetch_outcome captions_json).

(** C6. When the manifest is not delivered, initialization fails: the
    failure is shown, no listener is registered and no timer started, the
    caption source is not asked, the manifest stays empty and the
    captions too; the current folder is the [Lilia] the constructor
    assigned. *)
Theorem init_manifest_failed :
  delivered m = None →
  wired (start d m c) = false ∧
  timer (start d m c) = false ∧
  app (start d m c) = new_generator ∧
  phase_of (page (start d m c)) = Failed ∧
  placeholder_innerHTML (page (start d m c)) = error_html init_failed_message ∧
  folder_btns (page (start d m c)) = folder_btns d ∧
  ∀ c', start d m c' = start d m c.
Proof.
  intros Hm. rw /start. rewrite !init_quiet, Hm.
  split_and!; [done | done | done | apply phase_displayError | done | done |].
  intros c'. by case_outcome m.
Qed.

(** C3. When the manifest is delivered and has the folders [Lilia] and
    [Leylah], initialization succeeds: the listeners are registered and
    the first pick is scheduled, the manifest is the one delivered, the
    captions are the delivered ones or the fallback, the current folder
    is [Lilia] and the buttons are marked for it, and the rest of the page
    is untouched. *)
Theorem init_succeeds data :
  delivered m = Some data → has_logged_folders data →
  wired (start d m c) = true ∧
  timer (start d m c) = true ∧
  app (start d m c) = Generator "Lilia" (captions_after c) data ∧
  page (start d m c) = set_folder_btns (mark_active "Lilia" <$> folder_btns d) d ∧
  probes (start d m c) = [] ∧
  image_load (start d m c) = None.
Proof.
  intros Hm Hd. rw /start. rewrite !init_quiet, Hm. by rw decide_True.
Qed.

(** C24. When the manifest is delivered without [Lilia] or without
    [Leylah], the read of its [length] at line 25 or 26 throws after the
    listeners were registered: the page shows the initialization failure
    while the application is wired, the first pick is scheduled and the
    manifest is in place. *)
Theorem init_missing_folder data :
  delivered m = Some data → ¬ has_logged_folders data →
  phase_of (page (start d m c)) = Failed ∧
  placeholder_innerHTML (page (start d m c)) = error_html init_failed_message ∧
  wired (start d m c) = true ∧
  timer (start d m c) = true ∧
  imageManifest (app (start d m c)) = data.
Proof.
  intros Hm Hd. rw /start. rewrite !init_quiet, Hm. rw decide_False //.
Qed.

End start.

#[local] Abbreviation failed_start :=
  (start demo_page FetchRejected (ok_response (Some ["Hi"]))).

Lemma init_manifest_failed_witness :
  wired failed_start = false ∧
  timer failed_start = false ∧
  app failed_start = new_generator ∧
  phase_of (page failed_start) = Failed ∧
  placeholder_innerHTML (page failed_start) = error_html init_failed_message ∧
  folder_btns (page failed_start) = folder_btns demo_page ∧
  ∀ c', start demo_page FetchRejected c' = failed_start.
Proof.
  by apply (init_manifest_failed demo_page FetchRejected
              (ok_response (Some ["Hi"]))).
Defined.

#[local] Abbreviation good_start :=
  (start demo_page (ok_response demo_manifest) not_found).

Lemma init_succeeds_witness :
  wired good_start = true ∧
  timer good_start = true ∧
  app good_start = Generator "Lilia" (captions_after not_found) demo_manifest ∧
  page good_start
    = set_folder_btns (mark_active "Lilia" <$> folder_btns demo_page) demo_page ∧
  probes good_start = [] ∧
  image_load good_start = None.
Proof.
  apply (init_succeeds demo_page (ok_response demo_manifest) not_found
           demo_manifest); [done | by split; eexists].
Defined.

#[local] Abbreviation partial_start :=
  (start demo_page (ok_response {[ "Roxy" := ["c.jpg"] ]}) not_found).

Lemma init_missing_folder_witness :
  phase_of (page partial_start) = Failed ∧
  placeholder_innerHTML (page partial_start) = error_html init_failed_message ∧
  wired partial_start = true ∧
  timer partial_start = true ∧
  imageManifest (app partial_start) = {[ "Roxy" := ["c.jpg"] ]}.
Proof.
  apply (init_missing_folder demo_page (ok_response {[ "Roxy" := ["c.jpg"] ]})
           not_found {[ "Roxy" := ["c.jpg"] ]}); [done|].
  by intros [[x Hx] _].
Defined.

(** ** What a successful initialization logs *)

(** The console after [loadCaptions]. *)
Lemma loadCaptions_console c w :
  console (final_state (loadCaptions c) w)
    = console w ++ LogEntry LogInfo [LStr "💬 Loading captions.json..."]
        :: captions_log c.
Proof.
  case_outcome c; rw /captions_log /= -?(assoc_L (++)) //.
  destruct data; by rw /= -?(assoc_L (++)).
Qed.

(** The console after the report, when both folders are there. *)
Lemma report_console w lilia leylah :
  imageManifest (app w) !! "Lilia" = Some lilia →
  imageManifest (app w) !! "Leylah" = Some leylah →
  console (final_state report w)
    = console w ++
      [ LogEntry LogInfo [LStr "✅ App initialized successfully!"];
        LogEntry LogInfo
          [LStr ("📁 Lilia: " +:+ pretty (length lilia) +:+ " images")];
        LogEntry LogInfo
          [LStr ("📁 Leylah: " +:+ pretty (length leylah) +:+ " images")];
        LogEntry LogInfo
          [LStr ("💬 Captions: " +:+ pretty (length (captions (app w))))] ].
Proof.
  intros H1 H2.
  rw /report /final_state /run /manifest_length /say /modify /gets /mbind
    /exec_bind /= H1 /= H2 /=. by rw -!(assoc_L (++)).
Qed.

(** The console after [loadManifest], when the manifest is delivered. *)
Lemma loadManifest_console m w data :
  delivered m = Some data →
  console (final_state (loadManifest m) w)
    = console w ++
      [ LogEntry LogInfo [LStr "📄 Loading images-manifest.json..."];
        LogEntry LogInfo [LStr "✅ Manifest loaded successfully"] ].
Proof. case_outcome m; intros [= <-]. by rw /= -(assoc_L (++)). Qed.

(** The world the report runs in. *)
Lemma init_body_before_report m c w data :
  delivered m = Some data →
  final_state (init_body m c) w
    = final_state report
        (updateFolderButtons (setupEventListeners
           (final_state (loadCaptions c) (final_state (loadManifest m) w)))).
Proof.
  intros Hm. rw /init_body final_state_seq.
  destruct (loadManifest_delivered m w data Hm) as [-> _].
  rewrite final_state_seq, loadCaptions_thrown.
  by rewrite (final_state_modify_bind setupEventListeners),
    (final_state_modify_bind updateFolderButtons).
Qed.

(** A successful initialization logs, in this order: the start, the
    two lines of the manifest load, the lines of the caption load (the
    number loaded, or the warning and the number of fallback captions),
    the success, the number of images of [Lilia] and of [Leylah], and the
    number of captions in use. *)
Theorem init_log d m c data lilia leylah :
  delivered m = Some data →
  data !! "Lilia" = Some lilia → data !! "Leylah" = Some leylah →
  console (start d m c) =
    [ LogEntry LogInfo [LStr "Starting app initialization..."];
      LogEntry LogInfo [LStr "📄 Loading images-manifest.json..."];
      LogEntry LogInfo [LStr "✅ Manifest loaded successfully"];
      LogEntry LogInfo [LStr "💬 Loading captions.json..."] ] ++
    captions_log c ++
    [ LogEntry LogInfo [LStr "✅ App initialized successfully!"];
      LogEntry LogInfo
        [LStr ("📁 Lilia: " +:+ pretty (length lilia) +:+ " images")];
      LogEntry LogInfo
        [LStr ("📁 Leylah: " +:+ pretty (length leylah) +:+ " images")];
      LogEntry LogInfo
        [LStr ("💬 Captions: " +:+ pretty (length (captions_after c)))] ].
Proof.
  intros Hm H1 H2. rw /start /init.
  rewrite final_state_say_bind, final_state_try_catch, init_body_thrown, Hm.
  rw decide_True; [by split; eexists|].
  rewrite (init_body_before_report m c _ data Hm).
  set (w1 := final_state (loadManifest m) _).
  set (w2 := final_state (loadCaptions c) w1).
  assert (app w2 = Generator "Lilia" (captions_after c) data) as Ha.
  { rw /w2 /w1. rewrite loadCaptions_quiet.
    by destruct (loadManifest_delivered m (console_write LogInfo
      [LStr "Starting app initialization..."] (boot d)) data Hm) as [_ ->]. }
  rewrite (report_console _ lilia leylah) by by rw /= Ha.
  by rw /= Ha /w2 loadCaptions_console /w1 (loadManifest_console m _ data)
    //= -!(assoc_L (++)).
Qed.

Lemma init_log_witness :
  console (start demo_page (ok_response demo_manifest) not_found) =
    [ LogEntry LogInfo [LStr "Starting app initialization..."];
      LogEntry LogInfo [LStr "📄 Loading images-manifest.json..."];
      LogEntry LogInfo [LStr "✅ Manifest loaded successfully"];
      LogEntry LogInfo [LStr "💬 Loading captions.json..."] ] ++
    captions_log not_found ++
    [ LogEntry LogInfo [LStr "✅ App initialized successfully!"];
      LogEntry LogInfo
        [LStr ("📁 Lilia: " +:+ pretty (length ["a.jpg"; "b.jpg"]) +:+ " images")];
      LogEntry LogInfo
        [LStr ("📁 Leylah: " +:+ pretty (length (@nil string)) +:+ " images")];
      LogEntry LogInfo
        [LStr ("💬 Captions: " +:+ pretty (length (captions_after not_found)))] ].
Proof.
  by apply (init_log demo_page (ok_response demo_manifest) not_found
              demo_manifest).
Defined.

