(* ===== verification/Events.v ===== *)
(** * Events: what happens after initialization

    The callbacks [src/script.js] registers, run one at a time by the
    browser: the click listeners of [setupEventListeners], the timeout of
    the first pick, the two handlers of each test image and the two
    handlers of the shown image. An [event] is one callback with the
    random numbers it draws; [step] says when the browser can run it and
    what it leaves; [fire] is the same as a function that computes.

    The browser decides the order: a probe may settle after later picks
    were made, and probes may settle in any order. The theorems hold for
    every order. They are invariants of every world that can be reached
    from an initialized application ([reachable]): the loaded data is
    never written again, only images the manifest lists are requested,
    exactly one of placeholder and image is shown, the handlers of the
    shown image belong to its current load, the marks of the buttons
    follow the current folder. Where the order matters the file shows it
    by a run: a probe that settles after a later pick replaces what that
    pick showed. *)

From Stdlib Require Import QArith.
From S2P Require Import Prelude Random Browser Display Selector Loader.

(** ** Events *)

(** One callback run by the browser. A click names the button by its
    position among the [.folder-btn] elements, a probe by its position
    among the probes in flight. *)
Inductive event : Type :=
  | ClickFolder (i : nat) (r : Q)
  | ClickGenerate (r1 r2 : Q)
  | TimerFires (r1 r2 : Q)
  | ProbeLoads (i : nat)
  | ProbeFails (i : nat)
  | ImageLoads
  | ImageFails.

#[export] Instance event_eq_dec : EqDecision event.
Proof.
  assert (EqDecision Q) by (intros [] []; solve_decision). solve_decision.
Defined.

(** ** Callbacks *)

(** The click listener of a folder button, lines 87-90. *)
Definition on_folder_click (b : folder_btn) (r : Q) (w : world) : world :=
  selectFolder (data_folder b) r w.

(** The click listener of the generate button, lines 94-96. *)
Definition on_generate_click (r1 r2 : Q) (w : world) : world :=
  generateRandomImage r1 r2 w.

(** The callback of the timeout of line 99; the timer is spent. *)
Definition on_timeout (r1 r2 : Q) (w : world) : world :=
  w |> set_timer false |> generateRandomImage r1 r2.

(** The probe at position [i] has settled and is no longer in flight. *)
Definition settle_probe (i : nat) (w : world) : world :=
  set_probes (delete i (probes w)) w.

(** The load of the shown image has settled. *)
Definition settle_image (w : world) : world := set_image_load None w.

(** A handler property of the shown image is called if it is set. *)
Definition call_handler (h : option string) (f : string → world → world)
    (w : world) : world :=
  match h with
  | Some imagePath => f imagePath w
  | None => w
  end.

(** ** The step relation *)

(** [step w e w']: the browser can run [e] in [w], and [w'] is what it
    leaves. Clicks need the listeners, the timeout needs the timer, a
    handler of a test image needs that probe in flight, a handler of the
    shown image needs its load in flight. *)
Inductive step : world → event → world → Prop :=
  | step_click_folder w i r b :
      wired w = true → folder_btns (page w) !! i = Some b → unit_draw r →
      step w (ClickFolder i r) (on_folder_click b r w)
  | step_click_generate w r1 r2 :
      wired w = true → unit_draw r1 → unit_draw r2 →
      step w (ClickGenerate r1 r2) (on_generate_click r1 r2 w)
  | step_timer w r1 r2 :
      timer w = true → unit_draw r1 → unit_draw r2 →
      step w (TimerFires r1 r2) (on_timeout r1 r2 w)
  | step_probe_loads w i imagePath :
      probes w !! i = Some imagePath →
      step w (ProbeLoads i) (testImg_onload imagePath (settle_probe i w))
  | step_probe_fails w i imagePath :
      probes w !! i = Some imagePath →
      step w (ProbeFails i) (testImg_onerror imagePath (settle_probe i w))
  | step_image_loads w imagePath :
      image_load w = Some imagePath →
      step w ImageLoads
        (call_handler (image_onload (page w)) imgElement_onload
           (settle_image w))
  | step_image_fails w imagePath :
      image_load w = Some imagePath →
      step w ImageFails
        (call_handler (image_onerror (page w)) imgElement_onerror
           (settle_image w)).

(** The same as a function: [None] when the browser cannot run the event. *)
Definition fire (e : event) (w : world) : option world :=
  match e with
  | ClickFolder i r =>
      match folder_btns (page w) !! i with
      | Some b =>
          if decide (wired w = true ∧ unit_draw r)
          then Some (on_folder_click b r w) else None
      | None => None
      end
  | ClickGenerate r1 r2 =>
      if decide (wired w = true ∧ unit_draw r1 ∧ unit_draw r2)
      then Some (on_generate_click r1 r2 w) else None
  | TimerFires r1 r2 =>
      if decide (timer w = true ∧ unit_draw r1 ∧ unit_draw r2)
      then Some (on_timeout r1 r2 w) else None
  | ProbeLoads i =>
      imagePath ← probes w !! i;
      Some (testImg_onload imagePath (settle_probe i w))
  | ProbeFails i =>
      imagePath ← probes w !! i;
      Some (testImg_onerror imagePath (settle_probe i w))
  | ImageLoads =>
      _ ← image_load w;
      Some (call_handler (image_onload (page w)) imgElement_onload
              (settle_image w))
  | ImageFails =>
      _ ← image_load w;
      Some (call_handler (image_onerror (page w)) imgElement_onerror
              (settle_image w))
  end.

(** A run: the events the browser delivers, in order. *)
Fixpoint fire_all (es : list event) (w : world) : option world :=
  match es with
  | [] => Some w
  | e :: es => w' ← fire e w; fire_all es w'
  end.

(** The worlds some run leads to from [w0]. *)
Inductive reachable (w0 : world) : world → Prop :=
  | reachable_here : reachable w0 w0
  | reachable_step w e w' :
      reachable w0 w → step w e w' → reachable w0 w'.

(** ** What the invariants speak about *)

(** A path the manifest lists: a folder of the manifest, a slash and one of
    the folder's files. *)
Definition listed (m : manifest) (imagePath : string) : Prop :=
  ∃ folder images file,
    m !! folder = Some images ∧ file ∈ images ∧
    imagePath = folder +:+ "/" +:+ file.

(** Every image request in flight, of a test image or of the shown image,
    is for a listed path. *)
Definition requests_listed (w : world) : Prop :=
  Forall (listed (imageManifest (app w))) (probes w) ∧
  ∀ p, image_load w = Some p → listed (imageManifest (app w)) p.

(** The fields [init] loaded, and whether it registered the listeners. *)
Definition loaded_as (m : manifest) (cs : list string) (b : bool)
    (w : world) : Prop :=
  imageManifest (app w) = m ∧ captions (app w) = cs ∧ wired w = b.

(** The folders of the buttons are those of the page [d]. *)
Definition buttons_of (d : dom) (w : world) : Prop :=
  data_folder <$> folder_btns (page w) = data_folder <$> folder_btns d.

(** The current folder is the constructor's, one of the random candidates
    or the folder of a button. *)
Definition folder_known (w : world) : Prop :=
  currentFolder (app w) ∈
    "Lilia" :: folders ++ (data_folder <$> folder_btns (page w)).

(** While the shown image is loading, its [src] and both its handlers are
    those of the probe that started the load. *)
Definition handlers_current (w : world) : Prop :=
  ∀ p, image_load w = Some p →
    image_src (page w) = p ∧ image_onload (page w) = Some p ∧
    image_onerror (page w) = Some p.

(** The marks of the buttons follow the current folder. *)
Definition buttons_follow (w : world) : Prop :=
  active_folders (page w)
    = filter (λ g, g = currentFolder (app w))
        (data_folder <$> folder_btns (page w)).

(** No callback of the script can run any more. *)
Definition inert (w : world) : Prop :=
  wired w = false ∧ timer w = false ∧ probes w = [] ∧ image_load w = None.

(** The number of times the timeout fires in a run. *)
Definition is_timer (e : event) : bool :=
  match e with TimerFires _ _ => true | _ => false end.

Definition timer_fires (es : list event) : nat :=
  length (filter is_timer es).

(** ** The presentation state machine *)

(** The state the page shows after an event: a pick starts loading or
    fails at once, a failed probe or a failed load fails, a finished load
    displays, and a selection or a finished probe changes nothing yet. *)
Definition next_phase (e : event) (w : world) : phase :=
  match e with
  | ClickFolder _ _ | ProbeLoads _ => phase_of (page w)
  | ClickGenerate _ _ | TimerFires _ _ =>
      if has_images w then Loading else Failed
  | ProbeFails _ | ImageFails => Failed
  | ImageLoads => Displayed
  end.

(** ** Runs of the end-to-end example *)

(** The application of the example once [init] has settled. *)
Abbreviation demo_start :=
  (start demo_page (ok_response demo_manifest) (ok_response (Some ["Hi"]))).

(** [Leylah] is selected and a pick is made; then [Roxy] is selected, a
    pick is made, its probe loads and the image loads. *)
Definition demo_run : list event :=
  [ClickFolder 1 0; ClickGenerate 0 0;
   ClickFolder 2 0; ClickGenerate 0 0; ProbeLoads 0; ImageLoads].

(** Two picks overlap: a pick in [Lilia], then a pick in [Roxy] whose
    probe and image load first; the probe of the first pick loads last. *)
Definition overlapping_run : list event :=
  [ClickGenerate 0 0; ClickFolder 2 0; ClickGenerate 0 0;
   ProbeLoads 1; ImageLoads; ProbeLoads 0; ImageLoads].

(** The world when the probe at position [i], for [imagePath], has loaded
    and the shown image has loaded after it. *)
Definition shown (imagePath : string) (i : nat) (w : world) : world :=
  w |> settle_probe i |> testImg_onload imagePath
    |> settle_image |> imgElement_onload imagePath.

(** The run in which [n] probes in flight load in the order they were
    started, each followed by the load of the shown image. *)
Definition drain_run (n : nat) : list event :=
  concat (replicate n [ProbeLoads 0; ImageLoads]).

(** The world that run leads to, for the probes [ps] in flight. *)
Fixpoint drain (ps : list string) (w : world) : world :=
  match ps with
  | [] => w
  | imagePath :: ps => drain ps (shown imagePath 0 w)
  end.

(** The world a run ends in, the start when the run cannot happen. *)
Definition run_from (w : world) (es : list event) : world :=
  default w (fire_all es w).

(** ** Invariants, method by method *)

(** What a property of the world has to satisfy to hold in every reachable
    world: it does not look at the console, and everything a callback does
    preserves it. *)
Class Invariant (I : world → Prop) : Prop := {
  inv_proper :: Proper (quiet_eq ==> iff) I;
  inv_select w f :
    I w → wired w = true →
    f ∈ folders ++ (data_folder <$> folder_btns (page w)) →
    I (updateFolderButtons (upd_app (set_currentFolder f) w));
  inv_error w message : I w → I (displayError message w);
  inv_pick w images file k :
    I w → imageManifest (app w) !! currentFolder (app w) = Some images →
    file ∈ images →
    I (displayCaption (captions (app w) !! k)
         (displayImage (currentFolder (app w) +:+ "/" +:+ file) w));
  inv_timer w : I w → timer w = true → I (set_timer false w);
  inv_settle_probe w i imagePath :
    I w → probes w !! i = Some imagePath → I (settle_probe i w);
  inv_probe_loaded w i imagePath :
    I w → probes w !! i = Some imagePath →
    I (testImg_onload imagePath (settle_probe i w));
  inv_settle_image w imagePath :
    I w → image_load w = Some imagePath → I (settle_image w);
  inv_image_loaded w imagePath shown :
    I w → image_load w = Some imagePath →
    I (imgElement_onload shown (settle_image w));
}.

(** ** The function computes the relation *)

Lemma fire_step e w w' : fire e w = Some w' ↔ step w e w'.
Proof.
  split.
  - destruct e; rw /fire; intros H; repeat case_match;
      simplify_option_eq; destruct_and?; by econstructor.
  - destruct 1; rw /fire; simplify_option_eq; try done;
      by rw decide_True.
Qed.

(** A run of one step, and a run that starts with a step. *)
Lemma fire_all_one e w w' : step w e w' → fire_all [e] w = Some w'.
Proof. intros Hs%fire_step. by rw /= Hs. Qed.

Lemma fire_all_cons e es w w' :
  step w e w' → fire_all (e :: es) w = fire_all es w'.
Proof. intros Hs%fire_step. by rw /= Hs. Qed.

Lemma fire_all_app es1 es2 w :
  fire_all (es1 ++ es2) w = fire_all es1 w ≫= fire_all es2.
Proof.
  revert w. induction es1 as [|e es1 IH]; intros w; [done|].
  rw /=. destruct (fire e w) as [w1|]; [apply IH | done].
Qed.

(** A world is reachable exactly when a run leads to it. *)
Lemma reachable_fire_all w0 w :
  reachable w0 w ↔ ∃ es, fire_all es w0 = Some w.
Proof.
  split.
  - induction 1 as [|w e w' _ [es Hes] Hs]; [by exists []|].
    exists (es ++ [e]). rewrite fire_all_app, Hes. simpl.
    apply fire_step in Hs. by rewrite Hs.
  - intros [es Hes]. revert w Hes.
    induction es as [|e es IH] using rev_ind; intros w.
    + intros [= <-]. constructor.
    + rewrite fire_all_app. destruct (fire_all es w0) as [w1|] eqn:H1; [|done].
      simpl. destruct (fire e w1) as [w2|] eqn:H2; [|done].
      intros [= <-]. eapply reachable_step; [by apply IH|]. by apply fire_step.
Qed.

Lemma reachable_trans w0 w1 w2 :
  reachable w0 w1 → reachable w1 w2 → reachable w0 w2.
Proof. induction 2; [done|]. by eapply reachable_step. Qed.

(** Case analysis on the event of a step [Hs], with the callbacks
    replaced by the methods they call. *)
Ltac step_cases Hs :=
  destruct Hs as [w i r b Hw Hb Hr | w r1 r2 Hw Hr1 Hr2 | w r1 r2 Ht Hr1 Hr2
                 | w i p Hp | w i p Hp | w p Hl | w p Hl];
  rw /on_folder_click /on_generate_click /on_timeout.

(** ** Every callback preserves an invariant *)

Section preservation.
Context (I : world → Prop) `{!Invariant I}.

Lemma pick_preserves r1 r2 w :
  unit_draw r1 → I w → I (generateRandomImage r1 r2 w).
Proof.
  intros Hr1 HI.
  destruct (generateRandomImage_cases r1 r2 w Hr1)
    as [Hq | (images & file & Hm & Hin & Hq)]; rewrite Hq.
  - by apply inv_error.
  - by eapply inv_pick.
Qed.

Lemma select_preserves i b r w :
  unit_draw r → wired w = true → folder_btns (page w) !! i = Some b →
  I w → I (selectFolder (data_folder b) r w).
Proof.
  intros Hr Hw Hb HI. rewrite selectFolder_quiet.
  apply inv_select; [done..|]. apply elem_of_app.
  destruct (selectFolder_folder r w (data_folder b) Hr) as [Hf Hrand].
  destruct (decide (data_folder b = "random")) as [Hd|Hd]; [left; auto|].
  right. rewrite Hf. apply list_elem_of_fmap. exists b.
  split; [done|]. by eapply list_elem_of_lookup_2.
Qed.

Lemma step_preserves w e w' : I w → step w e w' → I w'.
Proof.
  intros HI Hs.
  step_cases Hs.
  - by eapply select_preserves.
  - by apply pick_preserves.
  - apply pick_preserves; [done|]. by apply inv_timer.
  - by eapply inv_probe_loaded.
  - apply inv_error. by eapply inv_settle_probe.
  - destruct (image_onload (page w)); simpl;
      [by eapply inv_image_loaded | by eapply inv_settle_image].
  - destruct (image_onerror (page w)); simpl; [apply inv_error|];
      by eapply inv_settle_image.
Qed.

Lemma reachable_preserves w0 w : I w0 → reachable w0 w → I w.
Proof. induction 2; eauto using step_preserves. Qed.

End preservation.

(** ** The invariants *)

(** A property of the fields other than the console respects [≈]. *)
Ltac solve_inv_proper :=
  intros [] [] (? & ? & ? & ? & ? & ?)%quiet_eq_fields;
  simpl in *; by simplify_eq.

#[export] Instance and_inv I J :
  Invariant I → Invariant J → Invariant (λ w, I w ∧ J w).
Proof.
  intros HI HJ. split.
  - intros w1 w2 H. by rewrite H.
  - intros w f [] ??. split; by apply inv_select.
  - intros w msg []. split; by apply inv_error.
  - intros w images file k [] ??. split; by eapply inv_pick.
  - intros w [] ?. split; by apply inv_timer.
  - intros w i p [] ?. split; by eapply inv_settle_probe.
  - intros w i p [] ?. split; by eapply inv_probe_loaded.
  - intros w p [] ?. split; by eapply inv_settle_image.
  - intros w p q [] ?. split; by eapply inv_image_loaded.
Qed.

#[export] Instance loaded_as_inv m cs b : Invariant (loaded_as m cs b).
Proof. split; [solve_inv_proper | done..]. Qed.

#[export] Instance one_shown_inv : Invariant (λ w, one_shown (page w)).
Proof. split; [solve_inv_proper | done..]. Qed.

#[export] Instance buttons_of_inv d : Invariant (buttons_of d).
Proof.
  split; [solve_inv_proper | | done..].
  intros w f H _ _. rw /buttons_of updateFolderButtons_names. exact H.
Qed.

Lemma buttons_follow_update w : buttons_follow (updateFolderButtons w).
Proof.
  rw /buttons_follow active_folders_updateFolderButtons.
  by rw updateFolderButtons_names.
Qed.

#[export] Instance buttons_follow_inv : Invariant buttons_follow.
Proof.
  split; [solve_inv_proper | | done..].
  intros w f _ _ _. apply buttons_follow_update.
Qed.

#[export] Instance folder_known_inv : Invariant folder_known.
Proof.
  split; [solve_inv_proper | | done..].
  intros w f _ _ Hf. rw /folder_known updateFolderButtons_names.
  by apply list_elem_of_further.
Qed.

Lemma listed_pick m folder images file :
  m !! folder = Some images → file ∈ images →
  listed m (folder +:+ "/" +:+ file).
Proof. intros. by exists folder, images, file. Qed.

#[export] Instance requests_listed_inv : Invariant requests_listed.
Proof.
  split; [solve_inv_proper | done | done | | done | | | | ].
  - intros w images file k [Hp Hl] Hm Hin. split; [|done].
    apply Forall_app. split; [done|].
    apply Forall_singleton. by eapply listed_pick.
  - intros w i p [Hp Hl] _. split; [by apply Forall_delete | done].
  - intros w i p [Hp Hl] Hi. split; [by apply Forall_delete|].
    intros ? [= <-]. by eapply Forall_lookup_1.
  - by intros w p [Hp Hl] _.
  - by intros w p q [Hp Hl] _.
Qed.

#[export] Instance handlers_current_inv : Invariant handlers_current.
Proof.
  split; [solve_inv_proper | done | done | done | done | done | | | ].
  - by intros w i p _ _ ? [= <-].
  - by intros w p _ _ ?.
  - by intros w p q _ _ ?.
Qed.

(** ** The application after [init] *)

Section application.
Context (d : dom) (m : fetch_outcome manifest) (c : fetch_outcome captions_json).
#[local] Abbreviation w0 := (start d m c).

(** An invariant holds when [init] has settled if it holds when the two
    loads have settled and the listeners are registered. *)
Lemma start_invariant I `{!Invariant I} data :
  delivered m = Some data → I (initialized data c (boot d)) → I w0.
Proof.
  intros Hm HI. rw /start. rewrite init_quiet, Hm.
  case_decide; [done | by apply inv_error].
Qed.

(** An invariant [I] holds in a reachable world: it is left to show it
    for the world [init] builds from the delivered manifest [data]. *)
Ltac by_invariant I data :=
  eapply (reachable_preserves I); [|eassumption];
  apply (start_invariant I data); [done|].

(** C5. Once the manifest is delivered, whatever the user and the browser
    do afterwards, in whatever order: the manifest and the captions stay
    as [init] left them, the listeners stay registered, and every image
    request in flight, of a test image or of the shown image, is for a
    folder of the manifest and one of its files. *)
Theorem reachable_requests_listed data w :
  delivered m = Some data → reachable w0 w →
  imageManifest (app w) = data ∧
  captions (app w) = captions_after c ∧
  wired w = true ∧
  Forall (listed data) (probes w) ∧
  (∀ p, image_load w = Some p → listed data p).
Proof.
  intros Hm Hw.
  assert (loaded_as data (captions_after c) true w) as (Hd & ? & ?)
    by by by_invariant (loaded_as data (captions_after c) true) data.
  assert (requests_listed w) as [Hp Hl]
    by by by_invariant requests_listed data.
  by rewrite Hd in Hp, Hl.
Qed.

(** On a page that shows exactly one of placeholder and image before
    the script runs, every reachable world shows exactly one of them,
    whether [init] succeeded or not. *)
Theorem reachable_one_shown w :
  one_shown d → reachable w0 w → one_shown (page w).
Proof.
  intros Hd. apply (reachable_preserves (λ w, one_shown (page w))).
  cbv beta. rw /start. rewrite init_quiet.
  destruct (delivered m); [case_decide|]; done.
Qed.

(** In every reachable world, while the shown image loads, its [src]
    and its two handlers are those of the probe that started the load:
    the page never reports one image under the path of another. *)
Theorem reachable_handlers_current w : reachable w0 w → handlers_current w.
Proof.
  apply (reachable_preserves handlers_current).
  rw /start. rewrite init_quiet.
  destruct (delivered m); [case_decide|]; done.
Qed.

(** Once the manifest is delivered, in every reachable world the
    buttons are those of the page in their order, a button is marked
    exactly when its folder is the current folder, and the current folder
    is [Lilia], a random candidate or the folder of a button. *)
Theorem reachable_buttons_follow data w :
  delivered m = Some data → reachable w0 w →
  data_folder <$> folder_btns (page w) = data_folder <$> folder_btns d ∧
  active_folders (page w)
    = filter (λ g, g = currentFolder (app w)) (data_folder <$> folder_btns d) ∧
  currentFolder (app w) ∈ "Lilia" :: folders ++ (data_folder <$> folder_btns d).
Proof.
  intros Hm Hw.
  assert (buttons_of d w) as Hb
    by (by_invariant (buttons_of d) data; apply updateFolderButtons_names).
  assert (buttons_follow w) as Hf
    by (by_invariant buttons_follow data; apply buttons_follow_update).
  assert (folder_known w) as Hk
    by (by_invariant folder_known data; apply list_elem_of_here).
  by rewrite <- Hb, <- Hf.
Qed.

End application.

(** A run that happens leads to a reachable world. *)
Lemma run_from_reachable w es :
  fire_all es w ≠ None → reachable w (run_from w es).
Proof.
  intros Hw. apply reachable_fire_all. exists es.
  rw /run_from. by destruct (fire_all es w).
Qed.

Lemma reachable_requests_listed_witness :
  imageManifest (app (run_from demo_start demo_run)) = demo_manifest ∧
  captions (app (run_from demo_start demo_run))
    = captions_after (ok_response (Some ["Hi"])) ∧
  wired (run_from demo_start demo_run) = true ∧
  Forall (listed demo_manifest) (probes (run_from demo_start demo_run)) ∧
  (∀ p, image_load (run_from demo_start demo_run) = Some p →
     listed demo_manifest p).
Proof.
  apply (reachable_requests_listed demo_page (ok_response demo_manifest)
           (ok_response (Some ["Hi"])) demo_manifest); [done|].
  apply run_from_reachable. by vm_compute.
Defined.

Lemma reachable_one_shown_witness :
  one_shown (page (run_from demo_start overlapping_run)).
Proof.
  apply (reachable_one_shown demo_page (ok_response demo_manifest)
           (ok_response (Some ["Hi"]))); [done|].
  apply run_from_reachable. by vm_compute.
Defined.

Lemma reachable_handlers_current_witness :
  handlers_current (run_from demo_start [ClickGenerate 0 0; ProbeLoads 0]).
Proof.
  apply (reachable_handlers_current demo_page (ok_response demo_manifest)
           (ok_response (Some ["Hi"]))).
  apply run_from_reachable. by vm_compute.
Defined.

Lemma reachable_buttons_follow_witness :
  data_folder <$> folder_btns (page (run_from demo_start demo_run))
    = data_folder <$> folder_btns demo_page ∧
  active_folders (page (run_from demo_start demo_run))
    = filter (λ g, g = currentFolder (app (run_from demo_start demo_run)))
        (data_folder <$> folder_btns demo_page) ∧
  currentFolder (app (run_from demo_start demo_run))
    ∈ "Lilia" :: folders ++ (data_folder <$> folder_btns demo_page).
Proof.
  apply (reachable_buttons_follow demo_page (ok_response demo_manifest)
           (ok_response (Some ["Hi"])) demo_manifest); [done|].
  apply run_from_reachable. by vm_compute.
Defined.

(** ** An application that failed to load is inert *)

Lemma inert_stuck w e w' : inert w → ¬ step w e w'.
Proof.
  intros (Hw & Ht & Hp & Hl). destruct 1; try congruence;
    by rewrite Hp in *.
Qed.

Lemma inert_reachable w w' : inert w → reachable w w' → w' = w.
Proof.
  intros Hi. induction 1 as [|w1 e w2 _ -> Hs]; [done|].
  by apply inert_stuck in Hs.
Qed.

(** When the manifest is not delivered, no callback of the script can
    ever run: the world stays as [init] left it, whatever the user does. *)
Theorem failed_start_inert d m c w :
  delivered m = None → reachable (start d m c) w → w = start d m c.
Proof.
  intros Hm. apply inert_reachable. rw /inert /start.
  by rewrite !init_quiet, Hm.
Qed.

Lemma failed_start_inert_witness :
  start demo_page not_found not_found = start demo_page not_found not_found.
Proof.
  apply (failed_start_inert demo_page not_found not_found); [done|].
  apply reachable_here.
Defined.

(** ** The console only grows *)

Lemma step_console w e w' : step w e w' → console w `prefix_of` console w'.
Proof.
  intros Hs. step_cases Hs.
  - apply selectFolder_console.
  - apply generateRandomImage_console.
  - apply (generateRandomImage_console r1 r2 (set_timer false w)).
  - done.
  - solve_console.
  - destruct (image_onload (page w)); solve_console.
  - destruct (image_onerror (page w)); solve_console.
Qed.

(** What was logged stays logged, in its order: the console of every
    reachable world starts with the console of the world it was reached
    from. *)
Theorem reachable_console w0 w :
  reachable w0 w → console w0 `prefix_of` console w.
Proof.
  induction 1 as [|w e w' _ IH Hs]; [done|].
  etrans; [exact IH | by eapply step_console].
Qed.

Lemma reachable_console_witness :
  console demo_start `prefix_of` console (run_from demo_start demo_run).
Proof.
  apply (reachable_console demo_start). apply run_from_reachable.
  by vm_compute.
Defined.

(** ** Callbacks are functions *)

(** What a callback leaves is determined by the world it runs in and
    by the event, its draws included: two steps on the same event from the
    same world end in the same world. *)
Theorem step_deterministic w e w1 w2 : step w e w1 → step w e w2 → w1 = w2.
Proof. intros H1%fire_step H2%fire_step. congruence. Qed.

Lemma step_deterministic_witness :
  generateRandomImage 0 0 demo_world = generateRandomImage 0 0 demo_world.
Proof.
  assert (step demo_world (ClickGenerate 0 0) (generateRandomImage 0 0 demo_world))
    as Hs by (apply step_click_generate; [done | by apply unit_drawb_spec..]).
  exact (step_deterministic demo_world (ClickGenerate 0 0) _ _ Hs Hs).
Defined.

(** ** The first pick is scheduled once *)

(** The timeout needs the timer and spends it; nothing else touches it. *)
Lemma step_timer_spent w e w' :
  step w e w' →
  (is_timer e = true → timer w = true) ∧
  timer w' = timer w && negb (is_timer e).
Proof.
  intros Hs. step_cases Hs;
    (split; [done|]); cbn [is_timer negb]; rw ?andb_true_r ?andb_false_r.
  - by destruct (selectFolder_frame r w (data_folder b)) as (_ & _ & _ & -> & _).
  - by destruct (generateRandomImage_frame r1 r2 w) as (_ & -> & _).
  - by destruct (generateRandomImage_frame r1 r2 (set_timer false w))
      as (_ & -> & _).
  - done.
  - done.
  - by destruct (image_onload (page w)).
  - by destruct (image_onerror (page w)).
Qed.

(** In a run the timeout fires as often as the timer is spent. *)
Lemma fire_all_timer es w w' :
  fire_all es w = Some w' →
  timer_fires es + Nat.b2n (timer w') = Nat.b2n (timer w).
Proof.
  revert w. induction es as [|e es IH]; intros w; [by intros [= ->]|].
  rw /=. destruct (fire e w) as [w1|] eqn:He; [|done]. intros Hes.
  apply fire_step, step_timer_spent in He as [Ht He]. apply IH in Hes.
  rewrite He in Hes. rw /timer_fires in Hes |- *.
  destruct (is_timer e) eqn:Hte.
  - rw filter_cons_True; [by rw Hte|]. rewrite (Ht eq_refl) in *.
    simpl in *. lia.
  - rw filter_cons_False; [by apply Is_true_false_2|].
    by rewrite andb_true_r in Hes.
Qed.

(** C28. In every run from an initialized application the timeout of line
    99 fires at most once, and it has fired exactly when the timer is
    spent: the first pick is not repeated. *)
Theorem timer_fires_once d m c es w :
  fire_all es (start d m c) = Some w →
  timer_fires es ≤ 1 ∧ (timer w = false → wired w = true → timer_fires es = 1).
Proof.
  intros Hes. pose proof (fire_all_timer _ _ _ Hes) as Ht.
  split; [destruct (timer (start d m c)), (timer w); simpl in *; lia|].
  intros Hw Hwired.
  assert (reachable (start d m c) w) as Hr by (apply reachable_fire_all; eauto).
  destruct (delivered m) as [data|] eqn:Hm.
  - assert (timer (start d m c) = true) as Hs.
    { rw /start. rewrite init_quiet, Hm. by case_decide. }
    rewrite Hs, Hw in Ht. simpl in Ht. lia.
  - apply inert_reachable in Hr; [subst w|].
    + exfalso. revert Hwired. rw /start. by rewrite init_quiet, Hm.
    + rw /inert /start. by rewrite !init_quiet, Hm.
Qed.

Lemma timer_fires_once_witness :
  timer_fires [ClickGenerate 0 0; TimerFires 0 0] ≤ 1 ∧
  (timer (run_from demo_start [ClickGenerate 0 0; TimerFires 0 0]) = false →
   wired (run_from demo_start [ClickGenerate 0 0; TimerFires 0 0]) = true →
   timer_fires [ClickGenerate 0 0; TimerFires 0 0] = 1).
Proof.
  apply (timer_fires_once demo_page (ok_response demo_manifest)
           (ok_response (Some ["Hi"]))).
  by vm_compute.
Defined.

(** ** The presentation state machine *)

(** C26. Every event moves the presentation as the state machine says: a
    pick leads to [Loading] when the current folder has images and to
    [Failed] when it has none, whatever was shown before; a probe or a
    load that fails leads to [Failed]; a load that finishes leads to
    [Displayed]; a selection or a probe that loads changes nothing. *)
Theorem step_phase w e w' :
  handlers_current w → step w e w' → phase_of (page w') = next_phase e w.
Proof.
  intros Hh Hs.
  step_cases Hs; rw /next_phase.
  - by destruct (selectFolder_frame r w (data_folder b)) as (_ & _ & _ & _ & ->).
  - apply generateRandomImage_phase.
  - apply (generateRandomImage_phase r1 r2 (set_timer false w)).
  - done.
  - apply phase_displayError.
  - by destruct (Hh _ Hl) as (_ & -> & _).
  - destruct (Hh _ Hl) as (_ & _ & ->). apply phase_displayError.
Qed.

Lemma step_phase_witness :
  phase_of (page (generateRandomImage 0 0 demo_world))
    = next_phase (ClickGenerate 0 0) demo_world.
Proof.
  apply (step_phase demo_world (ClickGenerate 0 0)); [done|].
  apply step_click_generate; [done | by apply unit_drawb_spec..].
Defined.

(** ** From a pick to the image *)

(** A probe in flight can load and the shown image after it. *)
Lemma fire_probe_image w i imagePath :
  probes w !! i = Some imagePath →
  fire_all [ProbeLoads i; ImageLoads] w = Some (shown imagePath i w).
Proof. rw /fire_all /fire. by intros ->. Qed.

(** What is on the page then. *)
Lemma shown_page imagePath i w :
  phase_of (page (shown imagePath i w)) = Displayed ∧
  image_src (page (shown imagePath i w)) = imagePath ∧
  image_alt (page (shown imagePath i w))
    = "Image from " +:+ currentFolder (app w) ∧
  caption_text (page (shown imagePath i w)) = caption_text (page w) ∧
  source_text (page (shown imagePath i w)) = source_text (page w) ∧
  probes (shown imagePath i w) = delete i (probes w) ∧
  image_load (shown imagePath i w) = None.
Proof. done. Qed.

Section progress.
Context (r1 r2 : Q) (w : world) (images : list string).
Context (Hw : wired w = true) (Hr1 : unit_draw r1) (Hr2 : unit_draw r2).
Context (Hm : imageManifest (app w) !! currentFolder (app w) = Some images).
Context (Hne : images ≠ []).

(** A pick on a folder with images can be completed: when its probe
    loads and then the image, the page displays an image of the current
    folder, under the folder's name, and no request of the pick is left
    in flight. *)
Theorem pick_displays :
  ∃ file w',
    file ∈ images ∧
    fire_all [ClickGenerate r1 r2; ProbeLoads (length (probes w)); ImageLoads]
      w = Some w' ∧
    phase_of (page w') = Displayed ∧
    image_src (page w') = currentFolder (app w) +:+ "/" +:+ file ∧
    image_alt (page w') = "Image from " +:+ currentFolder (app w) ∧
    probes w' = probes w ∧
    image_load w' = None.
Proof.
  destruct (random_lookup_elem images r1 Hr1 Hne) as (file & Hf & Hin).
  pose proof (generateRandomImage_some r1 r2 w images _ _ Hm Hne Hf eq_refl)
    as Hq.
  set (w1 := generateRandomImage r1 r2 w) in *.
  destruct (lookup_delete_snoc (probes w)
              (currentFolder (app w) +:+ "/" +:+ file)) as [Hp Hd].
  exists file, (shown (currentFolder (app w) +:+ "/" +:+ file)
                  (length (probes w)) w1).
  split; [done|]. split.
  - change (fire_all ([ClickGenerate r1 r2] ++
              [ProbeLoads (length (probes w)); ImageLoads]) w = Some
              (shown (currentFolder (app w) +:+ "/" +:+ file)
                 (length (probes w)) w1)).
    rewrite fire_all_app. rw /= decide_True //=.
    apply fire_probe_image. by rewrite Hq.
  - destruct (shown_page (currentFolder (app w) +:+ "/" +:+ file)
                (length (probes w)) w1) as (-> & -> & -> & _ & _ & -> & ->).
    by rewrite !Hq.
Qed.

End progress.

Lemma pick_displays_witness :
  ∃ file w',
    file ∈ ["a.jpg"; "b.jpg"] ∧
    fire_all [ClickGenerate 0 0; ProbeLoads (length (probes demo_world));
              ImageLoads] demo_world = Some w' ∧
    phase_of (page w') = Displayed ∧
    image_src (page w') = currentFolder (app demo_world) +:+ "/" +:+ file ∧
    image_alt (page w') = "Image from " +:+ currentFolder (app demo_world) ∧
    probes w' = probes demo_world ∧
    image_load w' = None.
Proof.
  apply (pick_displays 0 0 demo_world ["a.jpg"; "b.jpg"]);
    [done | by apply unit_drawb_spec | by apply unit_drawb_spec | done | done].
Defined.

(** ** Overlapping picks *)

(** C18. Two probes in flight may settle in the other order: when the
    probe started last loads first and the probe started first loads
    last, the page ends displaying the image of the earlier pick, under
    the caption and the source line of the later pick, and its [alt] text
    names the folder that is current now, whatever the folder of the
    image. *)
Theorem stale_probe_wins w ps p1 p2 :
  probes w = ps ++ [p1; p2] →
  ∃ w',
    fire_all [ProbeLoads (S (length ps)); ImageLoads;
              ProbeLoads (length ps); ImageLoads] w = Some w' ∧
    phase_of (page w') = Displayed ∧
    image_src (page w') = p1 ∧
    image_alt (page w') = "Image from " +:+ currentFolder (app w) ∧
    caption_text (page w') = caption_text (page w) ∧
    source_text (page w') = source_text (page w) ∧
    probes w' = ps.
Proof.
  intros Hp. destruct (lookup_delete_snoc2 ps p1 p2) as [Hl2 Hd2].
  destruct (lookup_delete_snoc ps p1) as [Hl1 Hd1].
  exists (shown p1 (length ps) (shown p2 (S (length ps)) w)). split.
  - change (fire_all ([ProbeLoads (S (length ps)); ImageLoads] ++
              [ProbeLoads (length ps); ImageLoads]) w = Some
              (shown p1 (length ps) (shown p2 (S (length ps)) w))).
    rewrite fire_all_app, (fire_probe_image w _ p2) by by rewrite Hp.
    apply fire_probe_image. rw /=. by rewrite Hp, Hd2.
  - split_and!; [done..|]. rw /=. by rewrite Hp, Hd2.
Qed.

Lemma stale_probe_wins_witness :
  ∃ w',
    fire_all [ProbeLoads 1; ImageLoads; ProbeLoads 0; ImageLoads]
      (set_probes ["Lilia/a.jpg"; "Roxy/c.jpg"] demo_world) = Some w' ∧
    phase_of (page w') = Displayed ∧
    image_src (page w') = "Lilia/a.jpg" ∧
    image_alt (page w') = "Image from " +:+ currentFolder (app
      (set_probes ["Lilia/a.jpg"; "Roxy/c.jpg"] demo_world)) ∧
    caption_text (page w') = caption_text (page demo_world) ∧
    source_text (page w') = source_text (page demo_world) ∧
    probes w' = [].
Proof.
  by apply (stale_probe_wins
              (set_probes ["Lilia/a.jpg"; "Roxy/c.jpg"] demo_world) []
              "Lilia/a.jpg" "Roxy/c.jpg").
Defined.

(** When the probes load in the order they were started, the run happens
    and leads to [drain]. *)
Lemma fire_drain ps w :
  probes w = ps → fire_all (drain_run (length ps)) w = Some (drain ps w).
Proof.
  revert w. induction ps as [|p ps IH]; intros w Hp; [done|].
  rw /drain_run /= -/(drain_run (length ps)).
  change (fire_all ([ProbeLoads 0; ImageLoads] ++ drain_run (length ps)) w
          = Some (drain ps (shown p 0 w))).
  rewrite fire_all_app, (fire_probe_image w 0 p) by by rewrite Hp.
  apply IH. rw /=. by rewrite Hp.
Qed.

Lemma drain_snoc ps p w : drain (ps ++ [p]) w = shown p 0 (drain ps w).
Proof. revert w. induction ps as [|q ps IH]; intros w; [done | apply IH]. Qed.

(** Draining leaves the caption, the source line and the generator as
    they are, and no probe in flight. *)
Lemma drain_frame ps w :
  probes w = ps →
  caption_text (page (drain ps w)) = caption_text (page w) ∧
  source_text (page (drain ps w)) = source_text (page w) ∧
  app (drain ps w) = app w ∧
  probes (drain ps w) = [].
Proof.
  revert w. induction ps as [|p ps IH]; intros w Hp; [done|].
  cbn [drain].
  destruct (IH (shown p 0 w)) as (-> & -> & -> & ->); [|done].
  rw /=. by rewrite Hp.
Qed.

(** When the probes in flight load in the order they were started,
    each followed by the load of the shown image, the last pick wins: the
    page ends displaying the image of the probe started last, under the
    caption and the source line that pick wrote, and nothing is left in
    flight. *)
Theorem fifo_last_pick_wins w ps p :
  probes w = ps ++ [p] →
  ∃ w',
    fire_all (drain_run (length (ps ++ [p]))) w = Some w' ∧
    phase_of (page w') = Displayed ∧
    image_src (page w') = p ∧
    caption_text (page w') = caption_text (page w) ∧
    source_text (page w') = source_text (page w) ∧
    probes w' = [] ∧ image_load w' = None.
Proof.
  intros Hp. exists (drain (ps ++ [p]) w).
  split; [by apply fire_drain|].
  destruct (drain_frame (ps ++ [p]) w Hp) as (-> & -> & _ & ->).
  rw drain_snoc. by destruct (shown_page p 0 (drain ps w)) as (-> & -> & _).
Qed.

Lemma fifo_last_pick_wins_witness :
  ∃ w',
    fire_all (drain_run (length (["Lilia/a.jpg"] ++ ["Roxy/c.jpg"])))
      (set_probes ["Lilia/a.jpg"; "Roxy/c.jpg"] demo_world) = Some w' ∧
    phase_of (page w') = Displayed ∧
    image_src (page w') = "Roxy/c.jpg" ∧
    caption_text (page w') = caption_text (page demo_world) ∧
    source_text (page w') = source_text (page demo_world) ∧
    probes w' = [] ∧ image_load w' = None.
Proof.
  by apply (fifo_last_pick_wins
              (set_probes ["Lilia/a.jpg"; "Roxy/c.jpg"] demo_world)
              ["Lilia/a.jpg"] "Roxy/c.jpg").
Defined.

(** The run of two overlapping picks on the example: the page ends
    with the image of [Lilia] under the source line and the [alt] text of
    [Roxy], and [Roxy] is the folder marked. *)
Theorem overlapping_run_mixes :
  ∃ w, fire_all overlapping_run demo_start = Some w ∧
    phase_of (page w) = Displayed ∧
    image_src (page w) = "Lilia/a.jpg" ∧
    image_alt (page w) = "Image from Roxy" ∧
    source_text (page w) = "Source: Roxy folder" ∧
    active_folders (page w) = ["Roxy"].
Proof. eexists. split; [by vm_compute|]. by vm_compute. Qed.

(** ** The end-to-end example *)

(** A click on a button of the example and a pick after it. *)
Lemma fire_select_pick i f r1 r2 :
  (data_folder <$> folder_btns (page demo_start)) !! i = Some f →
  unit_draw r1 → unit_draw r2 →
  fire_all [ClickFolder i 0; ClickGenerate r1 r2] demo_start
    = Some (generateRandomImage r1 r2 (selectFolder f 0 demo_start)).
Proof.
  intros (b & -> & Hb)%list_lookup_fmap_Some Hr1 Hr2.
  assert (step demo_start (ClickFolder i 0)
            (selectFolder (data_folder b) 0 demo_start)) as Hs
    by (apply step_click_folder;
        [by vm_compute | done | by apply unit_drawb_spec]).
  rewrite (fire_all_cons _ _ _ _ Hs).
  apply fire_all_one, step_click_generate; [|done..].
  by destruct (selectFolder_frame 0 demo_start (data_folder b))
    as (_ & _ & -> & _).
Qed.

Section example.
Context (r1 r2 : Q).
#[local] Abbreviation leylah := (selectFolder "Leylah" 0 demo_start).
#[local] Abbreviation roxy := (selectFolder "Roxy" 0 demo_start).

(** C7. The end-to-end example, for every pair of draws. With the
    manifest [Lilia: a.jpg, b.jpg; Leylah: none; Roxy: c.jpg] and the
    caption [Hi]: selecting [Leylah] and picking reports that [Leylah] has
    no images and requests nothing; selecting [Roxy] and picking requests
    exactly [Roxy/c.jpg] and shows the caption [Hi]. *)
Theorem end_to_end :
  unit_draw r1 → unit_draw r2 →
  (∃ w, fire_all [ClickFolder 1 0; ClickGenerate r1 r2] demo_start = Some w ∧
     phase_of (page w) = Failed ∧
     placeholder_innerHTML (page w) = error_html "No images in Leylah folder" ∧
     probes w = []) ∧
  (∃ w, fire_all [ClickFolder 2 0; ClickGenerate r1 r2] demo_start = Some w ∧
     phase_of (page w) = Loading ∧
     probes w = ["Roxy/c.jpg"] ∧
     caption_text (page w) = "Hi" ∧
     source_text (page w) = "Source: Roxy folder").
Proof.
  intros Hr1 Hr2.
  split; [exists (generateRandomImage r1 r2 leylah)
         | exists (generateRandomImage r1 r2 roxy)];
    (split; [by apply fire_select_pick; vm_compute|]).
  - assert (generateRandomImage r1 r2 leylah
              ≈ displayError (no_images_message "Leylah") leylah) as Hq
      by (apply generateRandomImage_none; right; by vm_compute).
    rewrite !Hq. split_and!; [apply phase_displayError | done | by vm_compute].
  - assert (generateRandomImage r1 r2 roxy
              ≈ displayCaption (Some "Hi") (displayImage "Roxy/c.jpg" roxy))
      as Hq.
    { apply (generateRandomImage_some r1 r2 roxy ["c.jpg"] (Some "c.jpg"));
        [by vm_compute | done | by rw /= random_index_1 |].
      assert (captions (app roxy) = ["Hi"]) as -> by by vm_compute.
      by rw /= random_index_1. }
    rewrite !Hq. split_and!; [by apply phase_of_loading | by vm_compute..].
Qed.

End example.

Lemma end_to_end_witness :
  (∃ w, fire_all [ClickFolder 1 0; ClickGenerate (1 # 3) (2 # 3)] demo_start
          = Some w ∧
     phase_of (page w) = Failed ∧
     placeholder_innerHTML (page w) = error_html "No images in Leylah folder" ∧
     probes w = []) ∧
  (∃ w, fire_all [ClickFolder 2 0; ClickGenerate (1 # 3) (2 # 3)] demo_start
          = Some w ∧
     phase_of (page w) = Loading ∧
     probes w = ["Roxy/c.jpg"] ∧
     caption_text (page w) = "Hi" ∧
     source_text (page w) = "Source: Roxy folder").
Proof. apply (end_to_end (1 # 3) (2 # 3)); by apply unit_drawb_spec. Defined.
