(* ===== verification/Boot.v ===== *)
(** * Boot: [init] between its [await]s

    [init] of [src/script.js] is an [async] method. It runs until it
    waits for a promise, returns to the browser, and is resumed when the
    promise settles: at the [fetch] of the manifest (line 39), at the
    [json()] of its response (line 45), at the [fetch] of the captions
    (line 60) and at the [json()] of that response (line 63). Between two
    of these the browser may deliver any other event. [Loader] has [init]
    as one step from the two answers; this file has it in its pieces
    ([stage], [resume]) in one event loop with the callbacks of [Events]
    ([boot_step], [boot_fire]), and proves that the one step is right.

    - While [init] is suspended, at whatever [await] and for however
      long, no callback of the script can run: the listeners are
      registered after the last [await]. The page is as the markup has
      it and a click is lost ([booting_inert]). So a request that is never
      answered leaves an application that does nothing and says nothing.
    - A run in which the answers arrive and events of the page follow is
      [start] followed by the run of [Events] ([boot_init]).
    - Every run that lets [init] settle is such a run: the events of the
      network come first, in the order of the [await]s, at most four of
      them, and the events of the page after them ([boot_run_splits]). *)

From Stdlib Require Import QArith.
From S2P Require Import Prelude Random Browser Display Selector Loader Events.

(** ** Where [init] waits *)

(** The [await] at which [init] is suspended, or [Settled] when it has
    returned. *)
Inductive stage : Type :=
  | AwaitManifest       (* line 39, [await fetch('images-manifest.json')] *)
  | AwaitManifestBody   (* line 45, [await response.json()] *)
  | AwaitCaptions       (* line 60, [await fetch('captions.json')] *)
  | AwaitCaptionsBody   (* line 63, [await response.json()] *)
  | Settled.

#[export] Instance stage_eq_dec : EqDecision stage.
Proof. solve_decision. Defined.

(** What a [fetch] settles with: a rejection, or a response with its
    [ok], [status] and [statusText], the body not yet read. *)
Inductive answer : Type :=
  | Rejected
  | Response (ok : bool) (status : nat) (statusText : string).

(** What the browser delivers while the application lives: the pending
    [fetch] settles, the pending [json()] settles, or a callback of
    [Events] is due. *)
Inductive boot_event : Type :=
  | FetchSettles (a : answer)
  | ManifestParses (b : json_body manifest)
  | CaptionsParses (b : json_body captions_json)
  | PageEvent (e : event).

(** The event is of the network. *)
Definition is_network (e : boot_event) : bool :=
  match e with
  | PageEvent _ => false
  | _ => true
  end.

(** ** The pieces of [init] *)

(** The [catch] of [init], lines 29-32. *)
Definition init_catch (error : js_error) : exec world js_error () :=
  say LogError [LStr "❌ Initialization failed:"; LErr error] ;;
  modify (displayError init_failed_message).

(** The [catch] of [loadManifest], lines 50-53: it throws again. *)
Definition manifest_catch {A} (error : js_error) : exec world js_error A :=
  say LogError [LStr "❌ Error loading manifest:"; LErr error] ;;
  mthrow error.

(** The [catch] of [loadCaptions], lines 70-81. *)
Definition captions_catch (error : js_error) : exec world js_error () :=
  say LogWarn
    [LStr "⚠️ Error loading captions, using fallback:"; LErr error] ;;
  modify (upd_app (set_captions fallback_captions)) ;;
  n ← gets (λ w, length (captions (app w)));
  say LogInfo [LStr ("✅ Using " +:+ pretty n +:+ " fallback captions")].

(** What is left of the [try] block of [init] when [loadCaptions] has
    returned, lines 21-27. *)
Definition init_rest : exec world js_error stage :=
  modify setupEventListeners ;;
  modify updateFolderButtons ;;
  report ;;
  mret Settled.

(** The exception a settled [fetch] leads to: the rejection, or the
    [Error] of lines 42 and 67 when [response.ok] is false. *)
Definition answer_error (a : answer) : option js_error :=
  match a with
  | Rejected => Some NetworkFailure
  | Response ok status statusText =>
      if ok then None else Some (HttpError status statusText)
  end.

(** From the call of [init] in the constructor (line 7) to the first
    [await]: the log of line 11, the call of line 15 and the log of line
    36. *)
Definition enter : exec world js_error stage :=
  say LogInfo [LStr "Starting app initialization..."] ;;
  say LogInfo [LStr "📄 Loading images-manifest.json..."] ;;
  mret AwaitManifest.

(** From the [await] of line 39 to the next: lines 41-45. *)
Definition manifest_answered (a : answer) : exec world js_error stage :=
  match answer_error a with
  | Some error => manifest_catch error
  | None => mret AwaitManifestBody
  end.

(** From the [await] of line 45 to the next: lines 46-48, the return to
    line 15, the call of line 18 and lines 57-60. *)
Definition manifest_parsed (b : json_body manifest)
    : exec world js_error stage :=
  match b with
  | BodyInvalid => manifest_catch JsonSyntaxError
  | BodyJson data =>
      modify (upd_app (set_imageManifest data)) ;;
      say LogInfo [LStr "✅ Manifest loaded successfully"] ;;
      say LogInfo [LStr "💬 Loading captions.json..."] ;;
      mret AwaitCaptions
  end.

(** From the [await] of line 60 to the next, lines 62-68, or through the
    [catch] of [loadCaptions] to the end of [init]. *)
Definition captions_answered (a : answer) : exec world js_error stage :=
  match answer_error a with
  | Some error => captions_catch error ;; init_rest
  | None => mret AwaitCaptionsBody
  end.

(** From the [await] of line 63 to the end of [init]: lines 64-65 inside
    the [try] of [loadCaptions], then lines 21-27. *)
Definition captions_parsed (b : json_body captions_json)
    : exec world js_error stage :=
  try_catch
    match b with
    | BodyInvalid => mthrow JsonSyntaxError
    | BodyJson data =>
        n ← assign_captions data;
        say LogInfo [LStr ("✅ Loaded " +:+ pretty n +:+ " captions")]
    end
    captions_catch ;;
  init_rest.

(** A piece of [init] runs inside the [try] of lines 13-32: what it throws
    ends [init] through [init_catch]. *)
Definition resume (piece : exec world js_error stage) (w : world)
    : stage * world :=
  match run (try_catch piece (λ error, init_catch error ;; mret Settled)) w with
  | (w', inr st) => (st, w')
  | (w', inl _) => (Settled, w')
  end.

(** ** The event loop *)

(** The application when the constructor has returned, lines 206-209 and
    2-8: [init] waits for the manifest. *)
Definition entry (d : dom) : stage * world := resume enter (boot d).

(** [boot_step s e s']: the browser can deliver [e] in [s], and [s'] is
    what is left. A promise settles only where [init] waits for it; a
    callback of the page runs when [step] lets it. *)
Inductive boot_step : stage * world → boot_event → stage * world → Prop :=
  | boot_manifest_answered w a :
      boot_step (AwaitManifest, w) (FetchSettles a)
        (resume (manifest_answered a) w)
  | boot_manifest_parsed w b :
      boot_step (AwaitManifestBody, w) (ManifestParses b)
        (resume (manifest_parsed b) w)
  | boot_captions_answered w a :
      boot_step (AwaitCaptions, w) (FetchSettles a)
        (resume (captions_answered a) w)
  | boot_captions_parsed w b :
      boot_step (AwaitCaptionsBody, w) (CaptionsParses b)
        (resume (captions_parsed b) w)
  | boot_page st w e w' :
      step w e w' → boot_step (st, w) (PageEvent e) (st, w').

(** The same as a function. *)
Definition boot_fire (e : boot_event) (s : stage * world)
    : option (stage * world) :=
  match e, s.1 with
  | FetchSettles a, AwaitManifest => Some (resume (manifest_answered a) s.2)
  | ManifestParses b, AwaitManifestBody =>
      Some (resume (manifest_parsed b) s.2)
  | FetchSettles a, AwaitCaptions => Some (resume (captions_answered a) s.2)
  | CaptionsParses b, AwaitCaptionsBody =>
      Some (resume (captions_parsed b) s.2)
  | PageEvent e, st => pair st <$> fire e s.2
  | _, _ => None
  end.

(** A run. *)
Fixpoint boot_fire_all (es : list boot_event) (s : stage * world)
    : option (stage * world) :=
  match es with
  | [] => Some s
  | e :: es => s' ← boot_fire e s; boot_fire_all es s'
  end.

(** ** The answers as events *)

(** The events an answer of [Loader] stands for: the [fetch] settles, and
    when the response is [ok] its body is read. *)
Definition answer_of {A} (resp : fetch_outcome A) : answer :=
  match resp with
  | FetchRejected => Rejected
  | FetchResponse ok status statusText _ => Response ok status statusText
  end.

Definition body_of {A} (resp : fetch_outcome A) : option (json_body A) :=
  match resp with
  | FetchResponse true _ _ body => Some body
  | _ => None
  end.

(** The answer of [Loader] a settled [fetch] and the body read after it
    stand for. *)
Definition outcome {A} (a : answer) (b : json_body A) : fetch_outcome A :=
  match a with
  | Rejected => FetchRejected
  | Response ok status statusText => FetchResponse ok status statusText b
  end.

(** The events of one answer: the [fetch] settles, and the body of a
    response that is [ok] is read. *)
Definition events_of {A} (parses : json_body A → boot_event)
    (resp : fetch_outcome A) : list boot_event :=
  FetchSettles (answer_of resp) :: option_list (parses <$> body_of resp).

(** The events of the network in a run of [init] to its end: those of the
    manifest and, when it is delivered, those of the captions. *)
Definition network (m : fetch_outcome manifest)
    (c : fetch_outcome captions_json) : list boot_event :=
  events_of ManifestParses m
    ++ (if delivered m is Some _ then events_of CaptionsParses c else []).

(** The application waits, the page untouched: nothing is registered,
    nothing is requested, and the page and the fields of the constructor
    are as they were. *)
Definition waiting (d : dom) (s : stage * world) : Prop :=
  s.1 ≠ Settled ∧ inert s.2 ∧ page s.2 = d ∧
  currentFolder (app s.2) = "Lilia" ∧ captions (app s.2) = [].

(** How many promises [init] has seen settle when it waits at a stage. *)
Definition rank (st : stage) : nat :=
  match st with
  | AwaitManifest => 0
  | AwaitManifestBody => 1
  | AwaitCaptions => 2
  | AwaitCaptionsBody => 3
  | Settled => 4
  end.

(** ** The function computes the relation *)

Lemma boot_fire_step e s s' : boot_fire e s = Some s' ↔ boot_step s e s'.
Proof.
  destruct s as [st w]. split.
  - destruct e, st; simpl; try done; try (intros [= <-]; constructor).
    all: intros (w' & Hf & ->)%fmap_Some; constructor; by apply fire_step.
  - destruct 1 as [| | | |st1 w1 e w' Hs]; try done.
    apply fire_step in Hs. by rw /boot_fire /= Hs.
Qed.

Lemma boot_fire_all_app es1 es2 s :
  boot_fire_all (es1 ++ es2) s = boot_fire_all es1 s ≫= boot_fire_all es2.
Proof.
  revert s. induction es1 as [|e es1 IH]; intros s; [done|].
  rw /=. destruct (boot_fire e s) as [s1|]; [apply IH | done].
Qed.

(** A run of callbacks of the page is a run of [Events]; it leaves [init]
    where it waits. *)
Lemma boot_fire_all_page ps st w :
  boot_fire_all (PageEvent <$> ps) (st, w) = pair st <$> fire_all ps w.
Proof.
  revert w. induction ps as [|e ps IH]; intros w; [done|].
  rw /=. destruct (fire e w) as [w1|]; [apply IH | done].
Qed.

(** ** When [init] has settled *)

(** No promise is pending: the events of a run are callbacks of the
    page. *)
Lemma boot_fire_all_settled es w s :
  boot_fire_all es (Settled, w) = Some s →
  ∃ ps, es = PageEvent <$> ps ∧ s.1 = Settled ∧ fire_all ps w = Some s.2.
Proof.
  revert w. induction es as [|e es IH]; intros w.
  { intros [= <-]. by exists []. }
  destruct e as [| | |e]; try done. rw /=.
  destruct (fire e w) as [w1|] eqn:He; [|done]. simpl.
  intros (ps & -> & ? & ?)%IH. exists (e :: ps). by rw /= He.
Qed.

(** A piece that ends with the rest of the [try] block ends [init],
    whether the report of lines 24-27 throws or not. *)
Lemma init_rest_settles {A} (piece : exec world js_error A) w :
  (resume (piece ;; init_rest) w).1 = Settled.
Proof.
  cbv [resume run try_catch mbind exec_bind init_rest modify].
  destruct (piece w) as [w1 [error|a]]; [done|].
  by destruct (report _) as [w2 [error|[]]].
Qed.

(** ** While [init] waits *)

(** No callback of the page can run. *)
Lemma waiting_page_stuck d s e : waiting d s → boot_fire (PageEvent e) s = None.
Proof.
  intros (_ & Hi & _). rw /boot_fire.
  destruct (fire e s.2) as [w'|] eqn:He; [|done].
  apply fire_step in He. by apply inert_stuck in He.
Qed.

(** An event that is delivered is the promise [init] waits for, and
    [init] goes on to its next [await], the page untouched, or to its
    end. *)
Lemma waiting_step d s e s' :
  waiting d s → boot_fire e s = Some s' →
  is_network e = true ∧
  (s'.1 = Settled ∨ waiting d s' ∧ rank s'.1 = S (rank s.1)).
Proof.
  intros Hw. destruct e as [a|b|b|e];
    [| | |by rewrite (waiting_page_stuck d s e Hw)].
  all: destruct s as [[] w], Hw as (_ & (? & ? & ? & ?) & ? & ? & ?);
    try done.
  all: intros [= <-]; split; [done|]; simpl in *.
  - destruct a as [|[] ? ?]; [by left | by right | by left].
  - destruct a as [|[] ? ?]; [|by right|]; left; apply init_rest_settles.
  - destruct b; [by left | right; by split_and!].
  - left. apply init_rest_settles.
Qed.

(** As long as [init] has not settled, the run consists of promises that
    settled, one for every [await] passed, and the application waits. *)
Lemma waiting_run d es s s' :
  waiting d s → boot_fire_all es s = Some s' → s'.1 ≠ Settled →
  waiting d s' ∧ Forall (λ e, is_network e = true) es ∧
  rank s'.1 = length es + rank s.1.
Proof.
  revert s. induction es as [|e es IH]; intros s Hw; simpl.
  { by intros [= <-]. }
  destruct (boot_fire e s) as [s1|] eqn:He; [|done]. simpl. intros Hes Hs'.
  destruct (waiting_step d s e s1 Hw He) as [Hn [Hs1 | [Hw1 Hr]]].
  - destruct s1 as [st1 w1]. simpl in Hs1. subst st1.
    by apply boot_fire_all_settled in Hes as (_ & _ & ? & _).
  - destruct (IH s1 Hw1 Hes Hs') as (? & ? & ->).
    split_and!; [done | by constructor | lia].
Qed.

(** When the constructor has returned the application waits. *)
Lemma entry_waiting d : waiting d (entry d).
Proof. done. Qed.

(** ** Runs that let [init] settle *)

(** The answers arrive in the order of the [await]s, and [init] has done
    what [init] of [Loader] does in one step. *)
Lemma boot_network d m c :
  boot_fire_all (network m c) (entry d) = Some (Settled, start d m c).
Proof.
  case_outcome m; try done; case_outcome c; try done.
  3: destruct data0.
  all: cbv -[report]; by destruct (report _) as [w2 [e|[]]].
Qed.

(** When [init] has settled no promise is pending. *)
Lemma settled_network ns w s :
  Forall (λ e, is_network e = true) ns →
  boot_fire_all ns (Settled, w) = Some s → ns = [].
Proof. destruct ns as [|[] ns]; try done. by intros [? _]%Forall_cons. Qed.

(** A run splits: the promises settle while the application waits, the
    callbacks of the page run when [init] has settled. *)
Lemma run_splits d es s w :
  waiting d s → boot_fire_all es s = Some (Settled, w) →
  ∃ ns ps w1,
    es = ns ++ (PageEvent <$> ps) ∧ Forall (λ e, is_network e = true) ns ∧
    boot_fire_all ns s = Some (Settled, w1) ∧ fire_all ps w1 = Some w.
Proof.
  revert s. induction es as [|e es IH]; intros s Hw; simpl.
  { intros [= ->]. by destruct Hw as [? _]. }
  destruct (boot_fire e s) as [s1|] eqn:He; [|done]. simpl. intros Hes.
  destruct (waiting_step d s e s1 Hw He) as [Hn [Hs1 | [Hw1 _]]].
  - destruct s1 as [st1 w1]. simpl in Hs1. subst st1.
    apply boot_fire_all_settled in Hes as (ps & -> & _ & Hps).
    exists [e], ps, w1.
    split_and!; [done | by constructor | by rw /= He | done].
  - destruct (IH s1 Hw1 Hes) as (ns & ps & w1 & -> & Hns & Hrun & Hps).
    exists (e :: ns), ps, w1.
    split_and!; [done | by constructor | by rw /= He | done].
Qed.

(** ** The promises of a run are the events of two answers *)

Section decoding.
#[local] Arguments resume : simpl never.
Implicit Types (ns : list boot_event) (s : stage * world).

(** After a piece that ends [init] no promise settles. *)
Lemma resume_settled_network piece w ns s :
  (resume piece w).1 = Settled →
  Forall (λ e, is_network e = true) ns →
  boot_fire_all ns (resume piece w) = Some s → ns = [].
Proof.
  destruct (resume piece w) as [st w1]. simpl. intros ->.
  apply settled_network.
Qed.

(** The first promise of a run that ends elsewhere than it starts: the
    cases in which it cannot settle are closed. *)
Ltac first_promise ns Hn :=
  destruct ns as [|[?a|?b|?b|?e] ns]; [by intros [= <-] | ..];
  apply Forall_cons in Hn as [? Hn]; try done; simpl.

Lemma captions_body_complete w ns s :
  Forall (λ e, is_network e = true) ns → s.1 = Settled →
  boot_fire_all ns (AwaitCaptionsBody, w) = Some s →
  ∃ b, ns = [CaptionsParses b].
Proof.
  intros Hn Hs. first_promise ns Hn.
  intros ->%resume_settled_network;
    [by exists b | apply init_rest_settles | done].
Qed.

Lemma captions_complete w ns s :
  Forall (λ e, is_network e = true) ns → s.1 = Settled →
  boot_fire_all ns (AwaitCaptions, w) = Some s →
  ∃ c, ns = events_of CaptionsParses c.
Proof.
  intros Hn Hs. first_promise ns Hn.
  destruct a as [|[] status statusText].
  - intros ->%resume_settled_network;
      [by exists FetchRejected | apply init_rest_settles | done].
  - intros (b & ->)%captions_body_complete; [|done..].
    by exists (FetchResponse true status statusText b).
  - intros ->%resume_settled_network; [|apply init_rest_settles | done].
    by exists (FetchResponse false status statusText BodyInvalid).
Qed.

Lemma manifest_body_complete w ns s :
  Forall (λ e, is_network e = true) ns → s.1 = Settled →
  boot_fire_all ns (AwaitManifestBody, w) = Some s →
  ∃ b c, ns = ManifestParses b
               :: (if b is BodyJson _ then events_of CaptionsParses c else []).
Proof.
  intros Hn Hs. first_promise ns Hn. destruct b as [|data].
  - intros ->%resume_settled_network; [|done..].
    by exists BodyInvalid, FetchRejected.
  - intros (c & ->)%captions_complete; [|done..].
    by exists (BodyJson data), c.
Qed.

(** The promises of a run from the first [await] to the end of [init] are
    the events of a manifest answer and a caption answer. *)
Lemma network_complete w ns s :
  Forall (λ e, is_network e = true) ns → s.1 = Settled →
  boot_fire_all ns (AwaitManifest, w) = Some s →
  ∃ m c, ns = network m c.
Proof.
  intros Hn Hs. first_promise ns Hn.
  destruct a as [|[] status statusText].
  - intros ->%resume_settled_network; [|done..].
    by exists FetchRejected, FetchRejected.
  - intros (b & c & ->)%manifest_body_complete; [|done..].
    exists (FetchResponse true status statusText b), c. by destruct b.
  - intros ->%resume_settled_network; [|done..].
    by exists (FetchResponse false status statusText BodyInvalid),
         FetchRejected.
Qed.

End decoding.

(** The events of the network are at most four. *)
Lemma network_length m c : length (network m c) ≤ 4.
Proof. case_outcome m; case_outcome c; simpl; lia. Qed.

(** ** The theorems *)

(** The promise [init] waits for can settle: some event of the network
    can be delivered. *)
Lemma waiting_progress s :
  s.1 ≠ Settled → ∃ e, is_network e = true ∧ is_Some (boot_fire e s).
Proof.
  destruct s as [[] w]; [| | | |done]; intros _;
    [exists (FetchSettles Rejected) | exists (ManifestParses BodyInvalid)
    |exists (FetchSettles Rejected) | exists (CaptionsParses BodyInvalid)];
    by split.
Qed.

(** While [init] is suspended, at whichever [await] and after whatever
    the browser has delivered, the application waits: no listener and no
    timer is registered, nothing is requested, the page and the fields
    are as the constructor left them, and no callback of the page can
    run, a click included. What was delivered is one promise for every
    [await] passed, and the promise awaited can be delivered next. *)
Theorem booting_inert d es s e :
  boot_fire_all es (entry d) = Some s → s.1 ≠ Settled →
  waiting d s ∧ boot_fire (PageEvent e) s = None ∧
  Forall (λ e, is_network e = true) es ∧ length es = rank s.1 ∧
  ∃ e', is_network e' = true ∧ is_Some (boot_fire e' s).
Proof.
  intros Hes Hs.
  destruct (waiting_run d es _ s (entry_waiting d) Hes Hs) as (Hw & Hn & ->).
  split_and!; [done | by eapply waiting_page_stuck | done | simpl; lia
              | by apply waiting_progress].
Qed.

(** The model with [init] in one step is the model with [init] in its
    pieces: when the answers arrive, as the promises they are and in the
    order of the [await]s, and callbacks of the page follow, the
    application is where [start] and the run of [Events] leave it. *)
Theorem boot_init d m c ps :
  boot_fire_all (network m c ++ (PageEvent <$> ps)) (entry d)
    = pair Settled <$> fire_all ps (start d m c).
Proof.
  rewrite boot_fire_all_app, boot_network. apply boot_fire_all_page.
Qed.

(** Every run that lets [init] settle is such a run, whatever order the
    browser chose: its events are the promises of a manifest answer and a
    caption answer, at most four, followed by callbacks of the page, and
    it ends where the run of [Events] on these callbacks ends from
    [start]. *)
Theorem boot_run_splits d es w :
  boot_fire_all es (entry d) = Some (Settled, w) →
  ∃ m c ps,
    es = network m c ++ (PageEvent <$> ps) ∧ length (network m c) ≤ 4 ∧
    fire_all ps (start d m c) = Some w.
Proof.
  intros (ns & ps & w1 & -> & Hn & Hns & Hps)%(run_splits d);
    [|apply entry_waiting].
  destruct (network_complete (entry d).2 ns (Settled, w1) Hn eq_refl Hns)
    as (m & c & ->).
  rewrite boot_network in Hns. injection Hns as <-.
  exists m, c, ps. split_and!; [done | apply network_length | done].
Qed.

(** ** On the example *)

Lemma booting_inert_witness :
  waiting demo_page (AwaitManifestBody, (entry demo_page).2) ∧
  boot_fire (PageEvent (ClickGenerate 0 0))
    (AwaitManifestBody, (entry demo_page).2) = None ∧
  Forall (λ e, is_network e = true) [FetchSettles (Response true 200 "OK")] ∧
  length [FetchSettles (Response true 200 "OK")] = rank AwaitManifestBody ∧
  ∃ e', is_network e' = true ∧
    is_Some (boot_fire e' (AwaitManifestBody, (entry demo_page).2)).
Proof.
  by apply (booting_inert demo_page [FetchSettles (Response true 200 "OK")]
              (AwaitManifestBody, (entry demo_page).2)).
Defined.

Lemma boot_run_splits_witness :
  ∃ m c ps,
    network (ok_response demo_manifest) (ok_response (Some ["Hi"]))
      ++ [PageEvent (ClickGenerate 0 0)]
      = network m c ++ (PageEvent <$> ps) ∧
    length (network m c) ≤ 4 ∧
    fire_all ps (start demo_page m c)
      = Some (run_from demo_start [ClickGenerate 0 0]).
Proof.
  apply (boot_run_splits demo_page). by vm_compute.
Defined.
