(* ===== verification/Settle.v ===== *)
(** * Settle: what the browser still owes, and that it runs out

    The callbacks of [src/script.js] are of two kinds. The click listeners
    run as often as the user clicks. The callback of [setTimeout] (line 99)
    and the handlers of the images (lines 162, 167, 173 and 178) run
    because the script asked for them, and each of them at most once per
    request: the timer fires once, a test image loads or fails once, and
    each assignment to [imgElement.src] is answered by one [load] or one
    [error].

    [pending] counts the callbacks the browser still owes. Every callback
    of the second kind lowers it, so a run in which the user does nothing
    has at most [pending] steps ([browser_step_wf], [browser_run_settles]):
    no callback of the script starts a loop. The page shows the loading
    placeholder only while a request is in flight ([loading_in_flight]):
    once everything owed is delivered, in whatever order and with whatever
    outcome, the page shows an image, an error, or what it showed before
    the first pick. A request that is never answered leaves the loading
    placeholder, as the specification notes (no timeout is applied). *)

From Stdlib Require Import QArith.
From S2P Require Import Prelude Random Browser Display Selector Loader Events.

(** ** What is owed *)

(** The event is a click: the user makes it, not the browser. *)
Definition by_user (e : event) : bool :=
  match e with
  | ClickFolder _ _ | ClickGenerate _ _ => true
  | _ => false
  end.

(** The callbacks the browser can still owe, at most: three for the timer
    (its own, and the two of the pick it makes), two for each test image
    (its own and, when it loads, that of the shown image) and one for the
    load of the shown image. *)
Definition pending (w : world) : nat :=
  3 * Nat.b2n (timer w) + 2 * length (probes w)
    + (if image_load w is Some _ then 1 else 0).

(** Nothing is owed. *)
Definition quiescent (w : world) : Prop :=
  timer w = false ∧ probes w = [] ∧ image_load w = None.

#[export] Instance quiescent_dec w : Decision (quiescent w).
Proof. rw /quiescent. apply _. Defined.

(** A step the browser makes on its own. *)
Definition browser_step (w' w : world) : Prop :=
  ∃ e, by_user e = false ∧ step w e w'.

(** The page shows the loading placeholder only while a test image or the
    shown image is loading. *)
Definition loading_in_flight (w : world) : Prop :=
  phase_of (page w) = Loading → probes w ≠ [] ∨ is_Some (image_load w).

(** The part of well-formedness that every method of the script preserves
    on its own: exactly one of placeholder and image is shown; the
    handlers of the shown image are those of its load; the buttons are
    those of the page [d] and are marked for the current folder, which is
    a folder the script can have selected; only listed images are
    requested. *)
Definition wf_fields (d : dom) (w : world) : Prop :=
  one_shown (page w) ∧ handlers_current w ∧ buttons_of d w ∧
  buttons_follow w ∧ folder_known w ∧ requests_listed w.

(** A well-formed world of an application on the page [d]: the above, and
    the loading placeholder has a request in flight. *)
Definition wf (d : dom) (w : world) : Prop :=
  wf_fields d w ∧ loading_in_flight w.

(** The next callback the browser can deliver when something is owed: the
    timeout, else the load of the first test image, else the load of the
    shown image. *)
Definition next_owed (w : world) : option event :=
  if timer w then Some (TimerFires 0 0)
  else match probes w with
       | _ :: _ => Some (ProbeLoads 0)
       | [] => if image_load w is Some _ then Some ImageLoads else None
       end.

(** The browser delivers what is owed, one callback after the other, at
    most [n] of them. *)
Fixpoint settle (n : nat) (w : world) : world :=
  match n with
  | 0 => w
  | S n =>
      match next_owed w with
      | Some e => settle n (run_from w [e])
      | None => w
      end
  end.

(** The example after a click on the generate button: the timer and one
    test image are owed. *)
Definition picked : world := run_from demo_start [ClickGenerate 0 0].

(** ** The measure *)

Lemma quiescent_pending w : quiescent w ↔ pending w = 0.
Proof.
  rw /quiescent /pending. destruct (timer w), (probes w), (image_load w);
    simpl; split; intros H; try lia; try (by destruct H as (? & ? & ?)); done.
Qed.

Lemma pending_console lvl args w :
  pending (console_write lvl args w) = pending w.
Proof. done. Qed.

#[export] Instance pending_proper : Proper (quiet_eq ==> eq) pending.
Proof. intros w1 w2 H. rw /pending. by rewrite H. Qed.

(** A pick starts one test image when the guard lets it through, and none
    otherwise. *)
Lemma generateRandomImage_probes r1 r2 w :
  ∃ ps, probes (generateRandomImage r1 r2 w) = probes w ++ ps ∧
    length ps = Nat.b2n (has_images w).
Proof.
  rw /generateRandomImage /has_images.
  destruct (imageManifest (app w) !! currentFolder (app w)) as [[|x xs]|];
    [exists [] | by eexists [_] | exists []]; by rw /= app_nil_r.
Qed.

(** A pick asks for at most one test image. *)
Lemma pending_pick r1 r2 w :
  pending (generateRandomImage r1 r2 w) ≤ pending w + 2.
Proof.
  destruct (generateRandomImage_frame r1 r2 w) as (_ & Ht & Hl & _).
  destruct (generateRandomImage_probes r1 r2 w) as (ps & Hp & Hn).
  rw /pending Ht Hl Hp length_app Hn. destruct (has_images w); simpl; lia.
Qed.

(** Every callback the browser runs on its own pays off something owed. *)
Lemma step_pending w e w' :
  step w e w' → by_user e = false → pending w' < pending w.
Proof.
  intros Hs. step_cases Hs; cbn [by_user]; intros ?; try done.
  - pose proof (pending_pick r1 r2 (set_timer false w)) as H1.
    revert H1. rw /pending /= Ht /=. lia.
  - pose proof (lookup_lt_Some _ _ _ Hp). rw /pending /= length_delete //.
    destruct (image_load w); lia.
  - pose proof (lookup_lt_Some _ _ _ Hp). rw /pending /= length_delete //. lia.
  - destruct (image_onload (page w)); rw /pending /= Hl; lia.
  - destruct (image_onerror (page w)); rw /pending /= Hl; lia.
Qed.

(** A run without clicks is no longer than what was owed at its start. *)
Lemma browser_run_pending es w w' :
  Forall (λ e, by_user e = false) es → fire_all es w = Some w' →
  length es + pending w' ≤ pending w.
Proof.
  intros Hes. revert w.
  induction Hes as [|e es He _ IH]; intros w; [intros [= ->]; simpl; lia|].
  rw /=. destruct (fire e w) as [w1|] eqn:Hf; [|done]. intros H1%IH.
  apply fire_step in Hf. pose proof (step_pending _ _ _ Hf He). simpl in *. lia.
Qed.

(** ** Something owed can be delivered *)

Lemma next_owed_None w : next_owed w = None ↔ quiescent w.
Proof.
  rw /next_owed /quiescent.
  destruct (timer w), (probes w), (image_load w);
    split; intros H; try done; by destruct H as (? & ? & ?).
Qed.

(** What [next_owed] names is a callback of the browser that can run. *)
Lemma next_owed_step w e :
  next_owed w = Some e →
  by_user e = false ∧ step w e (run_from w [e]).
Proof.
  rw /next_owed. intros He.
  assert (by_user e = false ∧ ∃ w', step w e w') as [Hu [w' Hs]].
  { destruct (timer w) eqn:Ht; [|destruct (probes w) as [|p ps] eqn:Hp;
      [destruct (image_load w) as [p|] eqn:Hl|]]; simplify_eq;
      (split; [done|]); eexists.
    - by apply step_timer.
    - by eapply step_image_loads.
    - apply (step_probe_loads w 0 p). by rewrite Hp. }
  split; [done|]. by rw /run_from (fire_all_one _ _ _ Hs).
Qed.

(** [settle] makes a run of the browser's own callbacks. *)
Lemma settle_run n w :
  ∃ es, Forall (λ e, by_user e = false) es ∧
    fire_all es w = Some (settle n w) ∧
    (length es < n → quiescent (settle n w)).
Proof.
  revert w. induction n as [|n IH]; intros w.
  { exists []. split_and!; [done | done | simpl; lia]. }
  cbn [settle]. destruct (next_owed w) as [e|] eqn:He.
  - destruct (next_owed_step w e He) as [Hu Hs].
    destruct (IH (run_from w [e])) as (es & Hes & Hrun & Hq).
    exists (e :: es). split_and!; [by constructor | | simpl; intros; apply Hq; lia].
    by rewrite (fire_all_cons _ _ _ _ Hs).
  - exists []. split_and!; [done | done | intros _; by apply next_owed_None].
Qed.

(** ** The loading placeholder *)

Lemma start_handlers_current d m c : handlers_current (start d m c).
Proof.
  rw /start. rewrite init_quiet. destruct (delivered m); [case_decide|]; done.
Qed.

(** On a page that does not show the loading placeholder before the
    script runs, [init] does not leave it shown. *)
Lemma start_loading_in_flight d m c :
  phase_of d ≠ Loading → loading_in_flight (start d m c).
Proof.
  intros Hd. rw /loading_in_flight /start. rewrite !init_quiet.
  destruct (delivered m); [case_decide|]; rw ?phase_displayError; done.
Qed.

Lemma step_loading_in_flight w e w' :
  handlers_current w → loading_in_flight w → step w e w' →
  loading_in_flight w'.
Proof.
  intros Hcur Hfl Hs. rw /loading_in_flight in Hfl |- *.
  pose proof (step_phase w e w' Hcur Hs) as Hph. revert Hph. clear Hcur.
  step_cases Hs; rw /next_phase => ->; try done.
  - by destruct (selectFolder_frame r w (data_folder b)) as (-> & -> & _).
  - destruct (generateRandomImage_probes r1 r2 w) as (ps & -> & Hn).
    destruct (has_images w); [|done]. destruct ps; [done|].
    left. by destruct (probes w).
  - destruct (generateRandomImage_probes r1 r2 (set_timer false w))
      as (ps & -> & Hn).
    change (has_images (set_timer false w)) with (has_images w) in Hn.
    destruct (has_images w); [|done]. destruct ps; [done|].
    left. simpl. by destruct (probes w).
  - right. by eexists.
Qed.

(** In every reachable world the handlers of the shown image are current
    and the loading placeholder has a request in flight. *)
Lemma reachable_loading_in_flight d m c w :
  phase_of d ≠ Loading → reachable (start d m c) w →
  handlers_current w ∧ loading_in_flight w.
Proof.
  intros Hd. induction 1 as [|w e w' _ [Hh Hl] Hs].
  - split; [apply start_handlers_current | by apply start_loading_in_flight].
  - split; [by eapply (step_preserves handlers_current)
           | by eapply step_loading_in_flight].
Qed.

(** ** Termination *)

(** The callbacks the browser runs on its own cannot go on forever:
    from no world is there an infinite sequence of timeouts and image
    events. Only a click of the user makes the script ask for more. *)
Theorem browser_step_wf : well_founded browser_step.
Proof.
  apply (well_founded_lt_compat _ pending).
  intros w' w (e & Hu & Hs). by eapply step_pending.
Qed.

Section settling.
Context (d : dom) (m : fetch_outcome manifest) (c : fetch_outcome captions_json).
Context (Hd : phase_of d ≠ Loading).

(** A world reached by the browser alone from a reachable world. *)
Lemma browser_run_reachable w es w' :
  reachable (start d m c) w → fire_all es w = Some w' →
  reachable (start d m c) w'.
Proof.
  intros Hw Hes. eapply reachable_trans; [done|].
  apply reachable_fire_all. by exists es.
Qed.

Lemma quiescent_not_loading w :
  reachable (start d m c) w → quiescent w → phase_of (page w) ≠ Loading.
Proof.
  intros Hw (_ & Hp & Hi) Hph.
  destruct (reachable_loading_in_flight d m c w Hd Hw) as [_ Hl].
  destruct (Hl Hph) as [? | [p Hp']]; congruence.
Qed.

(** C14. While the user does nothing, the application settles, whatever
    order the browser delivers its events in and whether the images load
    or fail: a run of timeouts and image events from a reachable world has
    at most [pending] steps; as long as something is owed a further event
    can be delivered; and when nothing is owed the page no longer shows
    the loading placeholder. *)
Theorem browser_run_settles w es w' :
  reachable (start d m c) w →
  Forall (λ e, by_user e = false) es → fire_all es w = Some w' →
  length es + pending w' ≤ pending w ∧
  (quiescent w' → phase_of (page w') ≠ Loading) ∧
  (¬ quiescent w' → ∃ e w'', by_user e = false ∧ step w' e w'').
Proof.
  intros Hw Hes Hrun. split_and!.
  - by apply browser_run_pending.
  - apply quiescent_not_loading. by eapply browser_run_reachable.
  - intros Hq. destruct (next_owed w') as [e|] eqn:He;
      [|by apply next_owed_None in He].
    destruct (next_owed_step w' e He) as [Hu Hs]. eauto.
Qed.

(** Delivering what is owed settles the application in at most
    [pending] callbacks: [settle] reaches a world in which nothing is owed
    and the page shows an image, an error or what it showed before the
    first pick. *)
Theorem settle_quiescent w :
  reachable (start d m c) w →
  reachable w (settle (pending w) w) ∧
  quiescent (settle (pending w) w) ∧
  phase_of (page (settle (pending w) w)) ≠ Loading.
Proof.
  intros Hw. destruct (settle_run (pending w) w) as (es & Hes & Hrun & Hlt).
  pose proof (browser_run_pending es w _ Hes Hrun) as Hle.
  assert (quiescent (settle (pending w) w)) as Hq.
  { destruct (decide (length es < pending w)); [auto|].
    apply quiescent_pending. lia. }
  split_and!; [apply reachable_fire_all; eauto | done |].
  apply quiescent_not_loading; [by eapply browser_run_reachable | done].
Qed.

End settling.

(** ** Well-formed worlds *)

#[export] Instance wf_fields_inv d : Invariant (wf_fields d).
Proof. rw /wf_fields. do 5 (apply and_inv; [apply _|]). apply _. Qed.

(** What [init] leaves is well formed, on a page that shows exactly one of
    placeholder and image and not the loading placeholder. *)
Lemma start_wf d m c data :
  one_shown d → phase_of d ≠ Loading → delivered m = Some data →
  wf d (start d m c).
Proof.
  intros Hd Hph Hm. split; [|by apply start_loading_in_flight].
  apply (start_invariant d m c (wf_fields d) data Hm).
  split_and!; [done | done | apply updateFolderButtons_names
    | apply buttons_follow_update | apply list_elem_of_here | done].
Qed.

(** Every callback keeps the world well formed. *)
Lemma step_wf d w e w' : wf d w → step w e w' → wf d w'.
Proof.
  intros [Hf Hl] Hs. split; [by eapply (step_preserves (wf_fields d))|].
  eapply step_loading_in_flight; [|done..]. apply Hf.
Qed.

(** C13. Every world of an initialized application is well formed,
    whatever the user and the browser did: on a page that showed exactly
    one of placeholder and image and no loading placeholder before the
    script ran, every reachable world shows exactly one of placeholder and
    image, has the handlers of the shown image set for its load, has the
    buttons of the page marked for the current folder, requests only
    listed images, and has a request in flight while the loading
    placeholder is shown. *)
Theorem reachable_wf d m c data w :
  one_shown d → phase_of d ≠ Loading → delivered m = Some data →
  reachable (start d m c) w → wf d w.
Proof.
  intros Hd Hph Hm. induction 1; [by eapply start_wf | by eapply step_wf].
Qed.

(** ** On the example *)

Lemma browser_run_settles_witness :
  length [TimerFires 0 0; ProbeLoads 0; ImageFails]
    + pending (run_from picked [TimerFires 0 0; ProbeLoads 0; ImageFails])
    ≤ pending picked ∧
  (quiescent (run_from picked [TimerFires 0 0; ProbeLoads 0; ImageFails]) →
   phase_of (page (run_from picked [TimerFires 0 0; ProbeLoads 0; ImageFails]))
     ≠ Loading) ∧
  (¬ quiescent (run_from picked [TimerFires 0 0; ProbeLoads 0; ImageFails]) →
   ∃ e w'', by_user e = false ∧
     step (run_from picked [TimerFires 0 0; ProbeLoads 0; ImageFails]) e w'').
Proof.
  apply (browser_run_settles demo_page (ok_response demo_manifest)
           (ok_response (Some ["Hi"]))); [done | | by repeat constructor
    | by vm_compute].
  apply run_from_reachable. by vm_compute.
Defined.

Lemma settle_quiescent_witness :
  reachable picked (settle (pending picked) picked) ∧
  quiescent (settle (pending picked) picked) ∧
  phase_of (page (settle (pending picked) picked)) ≠ Loading.
Proof.
  apply (settle_quiescent demo_page (ok_response demo_manifest)
           (ok_response (Some ["Hi"]))); [done|].
  apply run_from_reachable. by vm_compute.
Defined.

Lemma reachable_wf_witness : wf demo_page (run_from demo_start overlapping_run).
Proof.
  apply (reachable_wf demo_page (ok_response demo_manifest)
           (ok_response (Some ["Hi"])) demo_manifest); [done..|].
  apply run_from_reachable. by vm_compute.
Defined.
