(* ===== verification/Spec.v ===== *)
(** * Spec: the Selector of the specification, and the script as its
    implementation

    The specification describes one component, the Selector: a manifest,
    a caption set and a selected folder, with the operations [selectFolder]
    and [pick], which tell an observer what to present through four
    callbacks. This file writes that component down ([selector],
    [sel_selectFolder], [sel_pick], the class [Observer]) and proves that
    [src/script.js] implements it: the fields of the generator are the
    state of the Selector ([abs]), the page is an observer
    ([dom_observer]), and each method of the script does, up to the
    console, what the Selector's operation says, followed by the delivery
    of its notifications to the page. Over whole runs the state of the
    script is the state the Selector reaches on the user's events.

    What an observer must guarantee for the marks of the folders to follow
    the selection is stated as laws of the interface ([ObserverLaws]); the
    theorem about the marks is proved for every lawful observer, and the
    page is shown to be one. *)

From Stdlib Require Import QArith.
From S2P Require Import Prelude Random Browser Display Selector Loader Events.

(** ** The Selector *)

(** The state of the Selector: ImageManifest, CaptionSet and
    SelectionState. *)
Record selector : Type := Selector {
  image_manifest : manifest;
  caption_set : list string;
  selection : string;
}.

(** The result of [pick]. *)
Inductive pick_result : Type :=
  | Pick (imagePath caption : string)
  | EmptyFolderError.

(** What the Selector tells its observer. *)
Inductive notification : Type :=
  | FoldersChanged (activeFolder : string)
  | PickStarted
  | PickSucceeded (imagePath caption folderName : string)
  | PickFailed (message : string).

#[export] Instance notification_eq_dec : EqDecision notification.
Proof. solve_decision. Defined.

(** The presentation callbacks, on a view [V]. *)
Class Observer (V : Type) : Type := {
  onFoldersChanged : string → V → V;
  onPickStarted : V → V;
  onPickSucceeded : string → string → string → V → V;
  onPickFailed : string → V → V;
}.

(** One notification reaches the observer, and a list of them in order. *)
Definition notify {V} `{!Observer V} (n : notification) : V → V :=
  match n with
  | FoldersChanged f => onFoldersChanged f
  | PickStarted => onPickStarted
  | PickSucceeded imagePath caption folderName =>
      onPickSucceeded imagePath caption folderName
  | PickFailed message => onPickFailed message
  end.

Definition deliver {V} `{!Observer V} (ns : list notification) (v : V) : V :=
  foldl (λ v n, notify n v) v ns.

(** [selectFolder(name | random)]: the new selection. *)
Definition sel_selectFolder (name : string) (r : Q) (s : selector) : selector :=
  Selector (image_manifest s) (caption_set s)
    (if decide (name = "random")
     then default name (folders !! random_index r (length folders))
     else name).

(** [pick()]: absent or empty folder is the error; otherwise one file of
    the folder and one caption, drawn independently. *)
Definition sel_pick (r1 r2 : Q) (s : selector) : pick_result :=
  match image_manifest s !! selection s with
  | None | Some [] => EmptyFolderError
  | Some images =>
      match images !! random_index r1 (length images) with
      | Some file =>
          Pick (selection s +:+ "/" +:+ file)
            (default ""
               (caption_set s !! random_index r2 (length (caption_set s))))
      | None => EmptyFolderError
      end
  end.

(** The notifications of the two operations. *)
Definition select_notifications (s : selector) : list notification :=
  [FoldersChanged (selection s)].

Definition pick_notifications (s : selector) (p : pick_result)
    : list notification :=
  match p with
  | Pick imagePath caption =>
      [PickStarted; PickSucceeded imagePath caption (selection s)]
  | EmptyFolderError => [PickFailed (no_images_message (selection s))]
  end.

(** The Selector's reaction to an event of the page, given the folders of
    the buttons: only a click on a folder button changes its state. *)
Definition sel_event (names : list string) (e : event) (s : selector)
    : selector :=
  match e with
  | ClickFolder i r =>
      match names !! i with
      | Some name => sel_selectFolder name r s
      | None => s
      end
  | _ => s
  end.

Definition sel_run (names : list string) (es : list event) (s : selector)
    : selector :=
  foldl (λ s e, sel_event names e s) s es.

(** [load]: the Selector that is ready, if the manifest is delivered. *)
Definition sel_load (m : fetch_outcome manifest)
    (c : fetch_outcome captions_json) : option selector :=
  data ← delivered m; Some (Selector data (captions_after c) "Lilia").

(** ** The script as a Selector with the page as its observer *)

(** The state of the Selector in the fields of the generator. *)
Definition abs (w : world) : selector :=
  Selector (imageManifest (app w)) (captions (app w)) (currentFolder (app w)).

(** The page as an observer: the marks of the buttons (lines 115-120), the
    loading placeholder (lines 155-157), the probe with the caption and
    the source line (lines 182, 186 and 187), the error (lines 190-203). *)
#[export] Instance dom_observer : Observer world := {
  onFoldersChanged f :=
    upd_page (λ d, set_folder_btns (mark_active f <$> folder_btns d) d);
  onPickStarted w :=
    w |> upd_page (set_placeholder_innerHTML loading_html)
      |> upd_page (set_placeholder_hidden false)
      |> upd_page (set_image_hidden true);
  onPickSucceeded imagePath caption folderName w :=
    w |> set_probes (probes w ++ [imagePath])
      |> upd_page (set_caption_text caption)
      |> upd_page (set_source_text ("Source: " +:+ folderName +:+ " folder"));
  onPickFailed message := displayError message;
}.

(** ** What an observer owes the Selector *)

(** An observer shows which folders are marked among the folders it
    offers; [onFoldersChanged] marks exactly the offered folders equal to
    its argument, and no other callback touches the marks or the offer. *)
Class ObserverLaws (V : Type) `{!Observer V} : Type := {
  marks : V → list string;
  offered : V → list string;
  marks_onFoldersChanged f v :
    marks (onFoldersChanged f v) = filter (λ g, g = f) (offered v);
  offered_notify n v : offered (notify n v) = offered v;
  marks_notify n v :
    (∀ f, n ≠ FoldersChanged f) → marks (notify n v) = marks v;
}.

(** The marks follow the selection. *)
Definition marks_follow {V} `{!Observer V, !ObserverLaws V}
    (s : selector) (v : V) : Prop :=
  marks v = filter (λ g, g = selection s) (offered v).

(** ** Every lawful observer keeps the marks on the selection *)

Section observers.
Context {V : Type} `{!Observer V, !ObserverLaws V}.

Lemma offered_deliver ns (v : V) : offered (deliver ns v) = offered v.
Proof.
  revert v. induction ns as [|n ns IH]; intros v; [done|].
  rw /deliver in IH |- *. cbn [foldl]. rw IH. apply offered_notify.
Qed.

(** The notifications of a pick leave the marks alone. *)
Lemma marks_deliver_pick s p (v : V) :
  marks (deliver (pick_notifications s p) v) = marks v.
Proof.
  rw /deliver. destruct p; cbn [pick_notifications foldl];
    by rw !marks_notify.
Qed.

(** A selection puts the marks on the new selection. *)
Lemma marks_follow_select s (v : V) :
  marks_follow s (deliver (select_notifications s) v).
Proof.
  rw /marks_follow offered_deliver /deliver. cbn [select_notifications foldl].
  apply marks_onFoldersChanged.
Qed.

(** A pick keeps them there. *)
Lemma marks_follow_pick s p (v : V) :
  marks_follow s v → marks_follow s (deliver (pick_notifications s p) v).
Proof.
  rw /marks_follow. intros Hv. by rw marks_deliver_pick offered_deliver.
Qed.

End observers.

(** ** The page is a lawful observer *)

#[export] Instance dom_observer_laws : ObserverLaws world.
Proof.
  refine {| marks w := active_folders (page w);
            offered w := data_folder <$> folder_btns (page w) |}.
  - intros f w. apply active_folders_mark.
  - intros [f| | |] w; [|done..].
    rw /= -list_fmap_compose. by apply list_fmap_ext.
  - intros [f| | |] w Hn; [by destruct (Hn f)|done..].
Defined.

(** ** The methods implement the operations *)

#[export] Instance abs_proper : Proper (quiet_eq ==> eq) abs.
Proof. intros w1 w2 H. rw /abs. by rewrite H. Qed.

Section refinement.
Context (w : world).

(** The state after [selectFolder] is the Selector's. *)
Lemma selectFolder_abs name r :
  unit_draw r → abs (selectFolder name r w) = sel_selectFolder name r (abs w).
Proof.
  intros Hr. destruct (selectFolder_folder r w name Hr) as [Hf _].
  rw /abs /sel_selectFolder. cbn [image_manifest caption_set selection].
  rw Hf. f_equal; [by rw /selectFolder; case_decide..|].
  case_decide; [|done].
  by destruct (random_lookup_elem folders r Hr) as (f & -> & _).
Qed.

(** A pick does not write the state. *)
Lemma generateRandomImage_abs r1 r2 : abs (generateRandomImage r1 r2 w) = abs w.
Proof. by rw /abs generateRandomImage_app. Qed.

(** C10. [selectFolder] implements the Selector's operation: the fields of
    the generator after it are the state [sel_selectFolder] gives, and the
    page is the page to which the operation's notification was delivered. *)
Theorem selectFolder_refines name r :
  unit_draw r →
  abs (selectFolder name r w) = sel_selectFolder name r (abs w) ∧
  selectFolder name r w ≈
    deliver (select_notifications (sel_selectFolder name r (abs w)))
      (upd_app (set_currentFolder
                  (selection (sel_selectFolder name r (abs w)))) w).
Proof.
  intros Hr. split; [by apply selectFolder_abs|].
  rewrite selectFolder_quiet. rw -selectFolder_abs //.
Qed.

(** C9. [generateRandomImage] implements [pick]: it leaves the state
    alone, and the page is the page to which the notifications of the
    Selector's pick were delivered: the failure for an absent or empty
    folder, otherwise the start and the success with the path and the
    caption the Selector picked. *)
Theorem generateRandomImage_refines r1 r2 :
  unit_draw r1 →
  abs (generateRandomImage r1 r2 w) = abs w ∧
  generateRandomImage r1 r2 w ≈
    deliver (pick_notifications (abs w) (sel_pick r1 r2 (abs w))) w.
Proof.
  intros Hr1. split; [apply generateRandomImage_abs|]. rw /sel_pick /=.
  destruct (imageManifest (app w) !! currentFolder (app w))
    as [images|] eqn:Hm;
    [destruct (decide (images = [])) as [->|Hne]|];
    [apply generateRandomImage_none; by right | |
     apply generateRandomImage_none; by left].
  destruct (random_lookup_elem images r1 Hr1 Hne) as (file & Hf & _).
  rewrite (generateRandomImage_some r1 r2 w images _ _ Hm Hne Hf eq_refl).
  rw Hf. by destruct images.
Qed.

End refinement.

Lemma selectFolder_refines_witness :
  abs (selectFolder "random" (2 # 3) demo_world)
    = sel_selectFolder "random" (2 # 3) (abs demo_world) ∧
  selectFolder "random" (2 # 3) demo_world ≈
    deliver (select_notifications
               (sel_selectFolder "random" (2 # 3) (abs demo_world)))
      (upd_app (set_currentFolder
                  (selection (sel_selectFolder "random" (2 # 3)
                                (abs demo_world)))) demo_world).
Proof.
  apply (selectFolder_refines demo_world "random" (2 # 3)).
  by apply unit_drawb_spec.
Defined.

Lemma generateRandomImage_refines_witness :
  abs (generateRandomImage (1 # 2) 0 demo_world) = abs demo_world ∧
  generateRandomImage (1 # 2) 0 demo_world ≈
    deliver (pick_notifications (abs demo_world)
               (sel_pick (1 # 2) 0 (abs demo_world))) demo_world.
Proof.
  apply (generateRandomImage_refines demo_world (1 # 2) 0).
  by apply unit_drawb_spec.
Defined.

(** ** Runs *)

Section runs.
Context (d : dom).
#[local] Abbreviation names := (data_folder <$> folder_btns d).

(** One event: the state moves as the Selector's. *)
Lemma step_abs w e w' :
  buttons_of d w → step w e w' → abs w' = sel_event names e (abs w).
Proof.
  intros Hd Hs. step_cases Hs; rw /sel_event.
  - rw -Hd list_lookup_fmap Hb /=. by apply selectFolder_abs.
  - apply generateRandomImage_abs.
  - apply (generateRandomImage_abs (set_timer false w)).
  - done.
  - done.
  - by destruct (image_onload (page w)).
  - by destruct (image_onerror (page w)).
Qed.

(** A run: the state is the one the Selector reaches on the same
    events. *)
Lemma fire_all_abs es w w' :
  buttons_of d w → fire_all es w = Some w' →
  abs w' = sel_run names es (abs w).
Proof.
  revert w. induction es as [|e es IH]; intros w Hd; [by intros [= ->]|].
  rw /=. destruct (fire e w) as [w1|] eqn:He; [|done]. intros Hes.
  apply fire_step in He. rw -(step_abs w e w1) //.
  apply IH; [|done]. by apply (step_preserves (buttons_of d) w e).
Qed.

(** When [load] gives a Selector, the application [init] leaves has its
    state in its fields and the buttons of the page. *)
Lemma start_abs m c s0 :
  sel_load m c = Some s0 →
  buttons_of d (start d m c) ∧ abs (start d m c) = s0.
Proof.
  rw /sel_load. destruct (delivered m) as [data|] eqn:Hm; [|done].
  intros [= <-]. rw /start /buttons_of. rewrite !init_quiet, Hm.
  split; case_decide; (done || apply updateFolderButtons_names).
Qed.

(** C8. The script simulates the Selector over every run. When [load]
    gives a Selector, the fields of the generator after any run of events
    are the state the Selector reaches from it on the same events, the
    events of the image loads changing nothing: the manifest and the
    captions are never written again, and the selection is written by
    the clicks on the folder buttons only. *)
Theorem run_refines m c s0 es w :
  sel_load m c = Some s0 → fire_all es (start d m c) = Some w →
  abs w = sel_run names es s0.
Proof.
  intros [Hd <-]%start_abs Hes. by apply fire_all_abs.
Qed.

End runs.

Lemma run_refines_witness :
  abs (run_from demo_start demo_run)
    = sel_run (data_folder <$> folder_btns demo_page) demo_run
        (Selector demo_manifest ["Hi"] "Lilia").
Proof.
  apply (run_refines demo_page (ok_response demo_manifest)
           (ok_response (Some ["Hi"]))); by vm_compute.
Defined.

(** [init] implements [load]: when [load] gives a Selector, the
    fields of the generator are its state and the application is wired
    with the first pick scheduled; when [load] fails, the application is
    not wired and the page shows the failure. *)
Theorem load_refines d m c :
  match sel_load m c with
  | Some s =>
      abs (start d m c) = s ∧ wired (start d m c) = true ∧
      timer (start d m c) = true
  | None =>
      wired (start d m c) = false ∧ timer (start d m c) = false ∧
      phase_of (page (start d m c)) = Failed
  end.
Proof.
  rw /sel_load /start.
  destruct (delivered m) as [data|] eqn:Hm; simpl; rewrite !init_quiet, Hm;
    [by case_decide | split_and!; [done.. | apply phase_displayError]].
Qed.

(** ** The marks on the page *)

