(* ===== verification/Json.v ===== *)
(** * Json: the values of the fetched bodies and how the script reads them

    [response.json()] gives the script a JavaScript value, and the script
    stores it unchecked (lines 46 and 64 of [src/script.js]). Everything it
    later does with the value is a property read ([data.captions],
    [images.length], [this.imageManifest[this.currentFolder]],
    [images[randomIndex]]), a test ([!images], [=== 0]) or a conversion (to
    a string in a template literal, to a number in a product). This file
    has the values ([value]), those operations as JavaScript defines them,
    and the documented shapes of the two bodies as typed views of a value
    ([view]) with their encodings ([encode]).

    What is left out is marked, not guessed. A read of a property that a
    built-in prototype of the engine defines ([builtin], a parameter: the
    class [Engine]), the length and the characters of a string (counted in
    UTF-16 code units), the text of an array and the number a string or an
    array converts to are [Unmodelled]. None of them occurs on bodies of
    the documented shape. An object converts to the text of
    [Object.prototype.toString] unless it has a member [toString] of its
    own, which is no function: the conversion then throws
    ([object_text]). Numbers are integers; a JSON number with a
    fraction or an exponent is outside the model, and the text of an
    integer is its decimal notation, which is what the engine prints below
    [10^21]. *)

From S2P Require Import Prelude Browser.

(** ** Values *)

(** What [JSON.parse] can give, and [undefined], which reads can give. An
    object is the list of its members in the order of the text. *)
#[warnings="-register-all"]
Inductive value : Type :=
  | VUndefined
  | VNull
  | VBool (b : bool)
  | VNum (n : Z)
  | VStr (s : string)
  | VArr (items : list value)
  | VObj (members : list (string * value)).

(** A number that arithmetic gives: [NaN] or an integer. *)
Inductive num : Type :=
  | NaN
  | Int (n : Z).

(** How an operation of the script on a value can end other than with a
    value: a JavaScript exception, or an operation this model leaves out. *)
Inductive fault : Type :=
  | Throws (e : js_error)
  | Unmodelled.

(** The name is made of decimal digits, as the indices are. *)
Fixpoint digits (k : string) : bool :=
  match k with
  | EmptyString => true
  | String c k =>
      bool_decide (48 ≤ Ascii.nat_of_ascii c ≤ 57)%nat && digits k
  end.

(** The engine: the property names its built-in prototypes define
    ([constructor], [toString], [map], ...). None of them is a number. *)
Class Engine : Type := {
  builtin : string → bool;
  builtin_digits k : digits k = true → builtin k = false;
}.

(** Names no built-in prototype of ECMAScript defines: [length], which the
    values that have it have of their own, and the names the examples
    read. *)
Definition plain_names : list string :=
  [ "length"; "captions"; "Lilia"; "Leylah"; "Roxy"; "random" ].

(** The engine of the examples. It takes every name to be built-in but
    the indices and [plain_names], so that a read it answers with
    [undefined] is [undefined] in every engine of ECMAScript, whatever
    more that engine defines. *)
Definition cautious_engine : Engine.
Proof.
  refine {| builtin k := negb (digits k || bool_decide (k ∈ plain_names)) |}.
  by intros k ->.
Defined.

(** ** Reads *)

(** The own property [k] of an object made by [JSON.parse]: when the text
    repeats a name, the last member wins. *)
Fixpoint member (k : string) (members : list (string * value))
    : option value :=
  match members with
  | [] => None
  | (k', v) :: members =>
      match member k members with
      | Some v' => Some v'
      | None => if decide (k' = k) then Some v else None
      end
  end.

(** The element of an array under the property name [k]: the element at
    [i] when [k] is the decimal notation of [i], counting from [i]. *)
Fixpoint element_from (i : nat) (k : string) (items : list value)
    : option value :=
  match items with
  | [] => None
  | v :: items =>
      if decide (pretty i = k) then Some v else element_from (S i) k items
  end.

(** A property that is not an own property: [undefined], unless a
    built-in prototype has it. *)
Definition inherited `{Engine} (k : string) : fault + value :=
  if builtin k then inl Unmodelled else inr VUndefined.

(** The property names a string may have of its own: [length] and the
    indices. *)
Definition string_own (k : string) : bool :=
  bool_decide (k = "length") || digits k.

(** [v[k]] and [v.k]: the read of the property [k] of [v]. *)
Definition get `{Engine} (v : value) (k : string) : fault + value :=
  match v with
  | VUndefined => inl (Throws (TypeErrorUndefined k))
  | VNull => inl (Throws (TypeErrorNull k))
  | VBool _ | VNum _ => inherited k
  | VStr _ => if string_own k then inl Unmodelled else inherited k
  | VArr items =>
      if decide (k = "length") then inr (VNum (Z.of_nat (length items)))
      else match element_from 0 k items with
           | Some v => inr v
           | None => inherited k
           end
  | VObj members =>
      match member k members with
      | Some v => inr v
      | None => inherited k
      end
  end.

(** ** Tests and conversions *)

(** [!v] is false: [v] is none of [undefined], [null], [false], [0] and
    the empty string. *)
Definition truthy (v : value) : bool :=
  match v with
  | VUndefined | VNull | VBool false | VNum 0 | VStr "" => false
  | _ => true
  end.

(** [v === 0]. *)
Definition is_zero (v : value) : bool :=
  match v with
  | VNum 0 => true
  | _ => false
  end.

(** The text an object made by [JSON.parse] converts to: that of
    [Object.prototype.toString], unless the object has a member
    [toString] of its own. The member is no function, and [valueOf],
    own or inherited, gives no primitive value either: the conversion
    throws. *)
Definition object_text (members : list (string * value)) : fault + string :=
  match member "toString" members with
  | Some _ => inl (Throws TypeErrorPrimitive)
  | None => inr "[object Object]"
  end.

(** The text of [v] in a template literal. *)
Definition to_string (v : value) : fault + string :=
  match v with
  | VUndefined => inr "undefined"
  | VNull => inr "null"
  | VBool b => inr (if b then "true" else "false")
  | VNum n => inr (pretty n)
  | VStr s => inr s
  | VArr _ => inl Unmodelled
  | VObj members => object_text members
  end.

(** The number [v] is in a product: that of its text for an object,
    which is no numeral. *)
Definition to_number (v : value) : fault + num :=
  match v with
  | VUndefined => inr NaN
  | VObj members => sum_map id (λ _, NaN) (object_text members)
  | VNull => inr (Int 0)
  | VBool b => inr (Int (if b then 1 else 0))
  | VNum n => inr (Int n)
  | VStr _ | VArr _ => inl Unmodelled
  end.

(** The property name a number is as an index. *)
Definition index_key (i : num) : string :=
  match i with
  | NaN => "NaN"
  | Int n => pretty n
  end.

(** What assigning [v] to [textContent] writes: the empty text for
    [undefined] and [null], else the text of [v]. *)
Definition text_content (v : value) : fault + option string :=
  match v with
  | VUndefined | VNull => inr None
  | _ => sum_map id Some (to_string v)
  end.

(** ** The documented shapes *)

(** A type whose values are the JSON values of a shape: [encode] gives the
    value, [view] recognizes it. *)
Class Shape (A : Type) : Type := {
  encode : A → value;
  view : value → option A;
  view_encode x : view (encode x) = Some x;
}.
Global Hint Mode Shape ! : typeclass_instances.

(** A string. *)
Definition view_string (v : value) : option string :=
  if v is VStr s then Some s else None.

(** An array of a shape. *)
Definition view_list {A} (view_item : value → option A) (v : value)
    : option (list A) :=
  if v is VArr items then mapM view_item items else None.

(** The members of an object, all of a shape, as a map: of two members of
    one name the map has the last. *)
Fixpoint view_members {A} (view_item : value → option A)
    (members : list (string * value)) : option (gmap string A) :=
  match members with
  | [] => Some ∅
  | (k, v) :: members =>
      m ← view_members view_item members;
      x ← view_item v;
      Some (m ∪ {[ k := x ]})
  end.

(** An object whose members are of a shape. *)
Definition view_map {A} (view_item : value → option A) (v : value)
    : option (gmap string A) :=
  if v is VObj members then view_members view_item members else None.

(** The body of [captions.json] as [loadCaptions] takes it: an array of
    strings under [captions], or no such member. A body that is [null], or
    has another value under [captions], has no view. *)
Definition view_captions (v : value) : option captions_json :=
  match v with
  | VUndefined | VNull => None
  | VObj members =>
      match member "captions" members with
      | Some cs => Some <$> view_list view_string cs
      | None => Some None
      end
  | _ => Some None
  end.

Definition encode_list {A} (encode_item : A → value) (l : list A) : value :=
  VArr (encode_item <$> l).

Definition encode_map {A} (encode_item : A → value) (m : gmap string A)
    : value :=
  VObj (prod_map id encode_item <$> map_to_list m).

Definition encode_captions (c : captions_json) : value :=
  match c with
  | Some cs => VObj [("captions", encode_list VStr cs)]
  | None => VObj []
  end.

(** ** Decimal notation *)

Lemma digits_pretty_N_go x s :
  digits s = true → digits (pretty_N_go x s) = true.
Proof.
  revert s. induction (N.lt_wf_0 x) as [x _ IH]; intros s Hs.
  assert (x = 0 ∨ 0 < x)%N as [->|?] by lia; [by rewrite pretty_N_go_0|].
  rewrite pretty_N_go_step by done. apply IH; [by apply N.div_lt|].
  rw /= Hs andb_true_r /pretty_N_char. by repeat case_match.
Qed.

(** The notation of a natural number is made of digits. *)
Lemma digits_pretty (i : nat) : digits (pretty i) = true.
Proof.
  rw /pretty /pretty_nat /pretty /pretty_N.
  case_decide; [done | by apply digits_pretty_N_go].
Qed.

(** A length prints the same as a number of the script and as a natural
    number. *)
Lemma pretty_Z_of_nat (i : nat) : pretty (Z.of_nat i) = pretty i.
Proof. by destruct i. Qed.

Lemma pretty_not_length (i : nat) : pretty i ≠ "length".
Proof. intros Hk. pose proof (digits_pretty i) as Hd. by rewrite Hk in Hd. Qed.

(** ** Reads of arrays and objects *)

Lemma element_from_lookup i j items :
  element_from i (pretty (i + j)%nat) items = items !! j.
Proof.
  revert i j. induction items as [|v items IH]; intros i j; [done|].
  simpl. case_decide as Hk.
  - apply (inj pretty) in Hk. by assert (j = 0)%nat as -> by lia.
  - destruct j as [|j]; [by rewrite Nat.add_0_r in Hk|].
    rewrite Nat.add_succ_r. exact (IH (S i) j).
Qed.

Lemma element_from_not_digits i k items :
  digits k = false → element_from i k items = None.
Proof.
  intros Hk. revert i. induction items as [|v items IH]; intros i; [done|].
  simpl. case_decide as Hi; [|apply IH].
  by rewrite <- Hi, digits_pretty in Hk.
Qed.

Section reads.
Context `{Engine}.

Lemma get_length items :
  get (VArr items) "length" = inr (VNum (Z.of_nat (length items))).
Proof. done. Qed.

(** An array read at a natural number: the element, [undefined] past the
    end. *)
Lemma get_index items (i : nat) :
  get (VArr items) (index_key (Int (Z.of_nat i)))
    = inr (default VUndefined (items !! i)).
Proof.
  rw /get /index_key pretty_Z_of_nat. case_decide as Hk.
  { by apply pretty_not_length in Hk. }
  rewrite (element_from_lookup 0 i). destruct (items !! i); [done|].
  by rw /inherited builtin_digits ?digits_pretty.
Qed.

(** An object read at one of its names, or at a name no prototype has. *)
Lemma get_member members k :
  is_Some (member k members) ∨ builtin k = false →
  get (VObj members) k = inr (default VUndefined (member k members)).
Proof.
  rw /get /inherited. destruct (member k members); [done|].
  by intros [[? ?] | ->].
Qed.

(** A value other than [undefined], [null] and an object has no property
    of a name that is neither [length], a number nor built in. *)
Lemma get_absent v k :
  (if v is VObj _ then False else truthy v = true ∨ v ≠ VNull ∧ v ≠ VUndefined) →
  string_own k = false → builtin k = false →
  get v k = inr VUndefined.
Proof.
  intros Hv [Hl Hd]%orb_false_elim Hb. apply bool_decide_eq_false in Hl.
  destruct v as [| |b|n|s|items|members]; rw /get /inherited ?Hb //=;
    try (by destruct Hv as [? | [? ?]]).
  - by rw /string_own bool_decide_eq_false_2 // Hd.
  - case_decide; [done|]. by rw element_from_not_digits // Hb.
Qed.

End reads.

(** ** Conversions of objects *)

(** An object with a member [toString] converts neither to a string nor
    to a number: both conversions throw. *)
Lemma object_conversions_throw members v :
  member "toString" members = Some v →
  to_string (VObj members) = inl (Throws TypeErrorPrimitive) ∧
  to_number (VObj members) = inl (Throws TypeErrorPrimitive).
Proof. intros Hm. by rw /to_string /to_number /object_text Hm. Qed.

(** An object without one is [[object Object]] as a text and no number
    in a product. *)
Lemma object_conversions_plain members :
  member "toString" members = None →
  to_string (VObj members) = inr "[object Object]" ∧
  to_number (VObj members) = inr NaN.
Proof. intros Hm. by rw /to_string /to_number /object_text Hm. Qed.

(** ** The shapes *)

Lemma view_list_encode {A} (encode_item : A → value)
    (view_item : value → option A) l :
  (∀ x, view_item (encode_item x) = Some x) →
  view_list view_item (encode_list encode_item l) = Some l.
Proof. intros Hx. by apply mapM_fmap_Some. Qed.

(** A value with the shape of a list of strings is the encoding of the
    list. *)
Lemma view_strings_inv v l :
  view_list view_string v = Some l → v = encode_list VStr l.
Proof.
  destruct v as [| | | | |items|]; try done. intros Hl. rw /encode_list.
  f_equal. symmetry. apply (mapM_fmap_Some_inv view_string VStr _ _ Hl).
  intros [] ? ?; by simplify_eq/=.
Qed.

(** The map of an object has under a name what the last member of that
    name holds. *)
Lemma view_members_lookup {A} (view_item : value → option A) members m k :
  view_members view_item members = Some m →
  m !! k = member k members ≫= view_item ∧
  (is_Some (member k members) → is_Some (m !! k)).
Proof.
  revert m. induction members as [|[k' v] members IH]; intros m.
  { intros [= <-]. split; [done | by intros [? ?]]. }
  simpl. destruct (view_members view_item members) as [m'|]; [|done].
  destruct (view_item v) as [x|] eqn:Hv; [|done]. intros [= <-].
  destruct (IH m' eq_refl) as [Hm' Hsome]. rewrite lookup_union, Hm'.
  destruct (member k members) as [v'|] eqn:Hk; simpl.
  - destruct (Hsome (mk_is_Some _ _ eq_refl)) as [x' Hx'].
    rewrite Hm' in Hx'. simpl in Hx'. rewrite Hx'.
    split; [|intros _]; destruct ({[k' := x]} !! k); by eauto.
  - case_decide as Hkk; [subst k'|].
    + rw lookup_singleton_eq /= Hv. by eauto.
    + rewrite lookup_singleton_ne by done. split; [done | by intros [? ?]].
Qed.

Lemma view_members_encode {A} (encode_item : A → value)
    (view_item : value → option A) (l : list (string * A)) :
  (∀ x, view_item (encode_item x) = Some x) → NoDup l.*1 →
  view_members view_item (prod_map id encode_item <$> l)
    = Some (list_to_map l).
Proof.
  intros Hx. induction l as [|[k x] l IH]; [done|].
  intros [Hk Hl]%NoDup_cons. rewrite fmap_cons.
  cbn [view_members prod_map fst snd id]. rewrite (IH Hl). simpl.
  rewrite Hx. simpl.
  f_equal. symmetry. apply insert_union_singleton_r.
  by apply not_elem_of_list_to_map_1.
Qed.

#[export, refine] Instance string_shape : Shape string :=
  {| encode := VStr; view := view_string |}.
Proof. done. Defined.

#[export, refine] Instance list_shape `{Shape A} : Shape (list A) :=
  {| encode := encode_list encode; view := view_list view |}.
Proof. intros l. apply view_list_encode, view_encode. Defined.

#[export, refine] Instance map_shape `{Shape A} : Shape (gmap string A) :=
  {| encode := encode_map encode; view := view_map view |}.
Proof.
  intros m. rw /view_map /encode_map.
  rewrite (view_members_encode encode view);
    [by rewrite list_to_map_to_list | apply view_encode
    | apply NoDup_fst_map_to_list].
Defined.

#[export, refine] Instance captions_shape : Shape captions_json :=
  {| encode := encode_captions; view := view_captions |}.
Proof.
  intros [cs|]; [|done].
  change (Some <$> view_list view_string (encode_list VStr cs) = Some (Some cs)).
  by rewrite (view_list_encode VStr view_string).
Defined.

(** ** Reads of values of the documented shapes *)

Section shaped.
Context `{Engine}.

(** A list of strings is read as the list is. *)
Lemma get_strings_length (l : list string) :
  get (encode l) "length" = inr (VNum (Z.of_nat (length l))).
Proof.
  change (encode l) with (VArr (VStr <$> l)). by rw get_length length_fmap.
Qed.

Lemma get_strings_index (l : list string) (i : nat) :
  get (encode l) (index_key (Int (Z.of_nat i)))
    = inr (from_option VStr VUndefined (l !! i)).
Proof.
  change (encode l) with (VArr (VStr <$> l)).
  rw get_index list_lookup_fmap. by destruct (l !! i).
Qed.

(** A value with the shape of a manifest is read at a folder as the map
    is: the encoding of the list of the folder, [undefined] when the
    folder is absent and no prototype has its name. *)
Lemma get_manifest v (m : manifest) k :
  view v = Some m → is_Some (m !! k) ∨ builtin k = false →
  get v k = inr (from_option encode VUndefined (m !! k)).
Proof.
  destruct v as [| | | | | |members]; try done. intros Hm Hk.
  destruct (view_members_lookup _ _ _ k Hm) as [Hl Hsome]. rewrite Hl in Hk |- *.
  rewrite get_member
    by (destruct Hk as [[l Hk]|Hk]; [left|by right];
        destruct (member k members); by eauto).
  destruct (member k members) as [v|]; [|done]. simpl in *.
  destruct (Hsome (mk_is_Some _ _ eq_refl)) as [l Hv]. rewrite Hl in Hv.
  simpl in Hv. rewrite Hv. simpl. f_equal. by apply view_strings_inv.
Qed.

(** A body with the shape of the captions is read at [captions] as the
    typed body is. *)
Lemma get_captions v (c : captions_json) :
  view v = Some c → builtin "captions" = false →
  get v "captions" = inr (from_option encode VUndefined c).
Proof.
  intros Hv Hb.
  destruct v as [| |b|n|s|items|members]; simplify_eq/=;
    try by rw /inherited Hb.
  - by rw element_from_not_digits // /inherited Hb.
  - destruct (member "captions" members) as [v|]; simplify_eq/=;
      [|by rw /inherited Hb].
    destruct (view_list view_string v) as [cs|] eqn:Hcs; simplify_eq/=.
    f_equal. by apply view_strings_inv.
Qed.


End shaped.
