(* ===== verification/Raw.v ===== *)
(** * Raw: the script on bodies of any shape

    [Loader] and [Selector] take the two bodies in their documented shape:
    a map from folder names to lists of file names, and an optional list
    of captions. The script checks neither. This file runs the same
    methods of [src/script.js] on the values [response.json()] gives,
    whatever they are: [this.captions] and [this.imageManifest] are values
    of [Json] ([raw_captions], [raw_manifest]), every property read is
    [get], and a read of [undefined] or [null] throws the [TypeError] the
    engine throws.

    The theorems of this file say that on bodies of the documented shape
    the methods on values do what the typed methods do, statement by
    statement, the console included ([sim], [refines]): the typed model
    loses nothing there. What the methods do on other bodies is in
    [Unchecked], and the callbacks over whole runs are in [RawEvents]. *)

From Stdlib Require Import QArith Qround.
From S2P Require Import Prelude Random Browser Display Selector Loader Json.

(** ** The world *)

(** The world with the two loaded fields as values. The fields [captions]
    and [imageManifest] of [rest] are not used: the methods below read and
    write [raw_captions] and [raw_manifest] in their place. *)
Record raw_world : Type := RawWorld {
  raw_captions : value;     (* this.captions *)
  raw_manifest : value;     (* this.imageManifest *)
  rest : world;
}.

Definition set_raw_captions (v : value) (rw : raw_world) : raw_world :=
  RawWorld v (raw_manifest rw) (rest rw).

Definition set_raw_manifest (v : value) (rw : raw_world) : raw_world :=
  RawWorld (raw_captions rw) v (rest rw).

Definition upd_rest (f : world → world) (rw : raw_world) : raw_world :=
  RawWorld (raw_captions rw) (raw_manifest rw) (f (rest rw)).

(** The constructor, lines 3-5: [[]] and [{}]. *)
Definition raw_boot (d : dom) : raw_world :=
  RawWorld (VArr []) (VObj []) (boot d).

(** ** Statements *)

(** A [console] call. *)
Definition raw_say (lvl : log_level) (args : list log_arg)
    : exec raw_world fault () :=
  modify (upd_rest (console_write lvl args)).

(** The result of a read or a conversion as a statement. *)
Definition lift {A} (r : fault + A) : exec raw_world fault A :=
  λ rw, (rw, r).

(** [try]/[catch]: the handler gets the exception. What the model leaves
    out is not an exception and is not caught. *)
Definition try_js {A} (body : exec raw_world fault A)
    (handler : js_error → exec raw_world fault A) : exec raw_world fault A :=
  try_catch body
    (λ f, match f with
          | Throws error => handler error
          | Unmodelled => mthrow Unmodelled
          end).

(** [await fetch(url)], the check of [response.ok] and
    [await response.json()], lines 39-45 and 60-68. *)
Definition raw_fetch_json (resp : fetch_outcome value)
    : exec raw_world fault value :=
  match resp with
  | FetchRejected => mthrow (Throws NetworkFailure)
  | FetchResponse ok status statusText body =>
      if negb ok then mthrow (Throws (HttpError status statusText))
      else match body with
           | BodyInvalid => mthrow (Throws JsonSyntaxError)
           | BodyJson data => mret data
           end
  end.

(** [Math.floor(Math.random() * n)] for a number [n]. *)
Definition floor_mul (r : Q) (n : num) : num :=
  match n with
  | NaN => NaN
  | Int z => Int (Qfloor (r * inject_Z z))
  end.

Section methods.
Context `{Engine}.

(** [`${this.captions.length}`], lines 27, 65 and 80. *)
Definition captions_length_text : exec raw_world fault string :=
  cs ← gets raw_captions;
  n ← lift (get cs "length");
  lift (to_string n).

(** [`${this.imageManifest.<folder>.length}`], lines 25 and 26. *)
Definition folder_length_text (folder : string)
    : exec raw_world fault string :=
  m ← gets raw_manifest;
  images ← lift (get m folder);
  n ← lift (get images "length");
  lift (to_string n).

(** ** Methods *)

(** [loadManifest()], lines 35-54. *)
Definition raw_loadManifest (resp : fetch_outcome value)
    : exec raw_world fault () :=
  raw_say LogInfo [LStr "📄 Loading images-manifest.json..."] ;;
  try_js
    (data ← raw_fetch_json resp;
     modify (set_raw_manifest data) ;;
     raw_say LogInfo [LStr "✅ Manifest loaded successfully"])
    (λ error,
       raw_say LogError [LStr "❌ Error loading manifest:"; LErr error] ;;
       mthrow (Throws error)).

(** [this.captions = data.captions] and the text of
    [this.captions.length], lines 64 and 65. *)
Definition raw_assign_captions (data : value) : exec raw_world fault string :=
  cs ← lift (get data "captions");
  modify (set_raw_captions cs) ;;
  captions_length_text.

(** [loadCaptions()], lines 56-82. *)
Definition raw_loadCaptions (resp : fetch_outcome value)
    : exec raw_world fault () :=
  raw_say LogInfo [LStr "💬 Loading captions.json..."] ;;
  try_js
    (data ← raw_fetch_json resp;
     n ← raw_assign_captions data;
     raw_say LogInfo [LStr ("✅ Loaded " +:+ n +:+ " captions")])
    (λ error,
       raw_say LogWarn
         [LStr "⚠️ Error loading captions, using fallback:"; LErr error] ;;
       modify (set_raw_captions (encode fallback_captions)) ;;
       n ← captions_length_text;
       raw_say LogInfo [LStr ("✅ Using " +:+ n +:+ " fallback captions")]).

(** The four [console.log] calls that end the [try] block of [init], lines
    24-27. *)
Definition raw_report : exec raw_world fault () :=
  raw_say LogInfo [LStr "✅ App initialized successfully!"] ;;
  lilia ← folder_length_text "Lilia";
  raw_say LogInfo [LStr ("📁 Lilia: " +:+ lilia +:+ " images")] ;;
  leylah ← folder_length_text "Leylah";
  raw_say LogInfo [LStr ("📁 Leylah: " +:+ leylah +:+ " images")] ;;
  n ← captions_length_text;
  raw_say LogInfo [LStr ("💬 Captions: " +:+ n)].

(** The [try] block of [init], lines 13-28. *)
Definition raw_init_body (m c : fetch_outcome value)
    : exec raw_world fault () :=
  raw_loadManifest m ;;
  raw_loadCaptions c ;;
  modify (upd_rest setupEventListeners) ;;
  modify (upd_rest updateFolderButtons) ;;
  raw_report.

(** [init()], lines 10-33. *)
Definition raw_init (m c : fetch_outcome value) : exec raw_world fault () :=
  raw_say LogInfo [LStr "Starting app initialization..."] ;;
  try_js (raw_init_body m c)
    (λ error,
       raw_say LogError [LStr "❌ Initialization failed:"; LErr error] ;;
       modify (upd_rest (displayError init_failed_message))).

(** The world when [init] has settled, lines 206-209 and 2-8. *)
Definition raw_start (d : dom) (m c : fetch_outcome value) : raw_world :=
  final_state (raw_init m c) (raw_boot d).

(** [xs[Math.floor(Math.random() * xs.length)]], lines 134-135 and
    139-140. *)
Definition draw (r : Q) (xs : value) : fault + value :=
  match get xs "length" with
  | inl f => inl f
  | inr len =>
      match to_number len with
      | inl f => inl f
      | inr n => get xs (index_key (floor_mul r n))
      end
  end.

(** The guard of line 128, [!images || images.length === 0]. *)
Definition no_images (images : value) : exec raw_world fault bool :=
  if truthy images then
    n ← lift (get images "length");
    mret (is_zero n)
  else mret true.

(** [generateRandomImage()], lines 123-148. *)
Definition raw_generateRandomImage (r1 r2 : Q) : exec raw_world fault () :=
  folder ← gets (λ rw, currentFolder (app (rest rw)));
  raw_say LogInfo
    [LStr ("🎲 Generating random image from " +:+ folder +:+ "...")] ;;
  m ← gets raw_manifest;
  images ← lift (get m folder);
  empty ← no_images images;
  if (empty : bool)
  then modify (upd_rest (displayError (no_images_message folder)))
  else
    imageFile ← lift (draw r1 images);
    file ← lift (to_string imageFile);
    let imagePath := folder +:+ "/" +:+ file in
    cs ← gets raw_captions;
    caption ← lift (draw r2 cs);
    raw_say LogInfo [LStr ("🖼️ Loading: " +:+ imagePath)] ;;
    text ← lift (to_string caption);
    raw_say LogInfo [LStr ("💬 Caption: " +:+ text)] ;;
    modify (upd_rest (displayImage imagePath)) ;;
    shown ← lift (text_content caption);
    modify (upd_rest (displayCaption shown)).

End methods.

(** ** The typed view of a raw world *)

(** The world with the two fields given. *)
Definition with_loaded (cs : list string) (m : manifest) (w : world) : world :=
  w |> upd_app (set_imageManifest m) |> upd_app (set_captions cs).

(** The world of [Loader] and [Selector] a raw world is, when the two
    fields have the documented shape. *)
Definition typed_of (rw : raw_world) : option world :=
  m ← view (raw_manifest rw);
  cs ← view (raw_captions rw);
  Some (with_loaded cs m (rest rw)).

(** The answer of a [fetch] with its body in the documented shape. *)
Definition view_outcome {A} `{Shape A} (resp : fetch_outcome value)
    : option (fetch_outcome A) :=
  match resp with
  | FetchRejected => Some FetchRejected
  | FetchResponse ok status statusText BodyInvalid =>
      Some (FetchResponse ok status statusText BodyInvalid)
  | FetchResponse ok status statusText (BodyJson data) =>
      FetchResponse ok status statusText ∘ BodyJson <$> view data
  end.

(** The raw world has the typed view [w]. *)
Definition typed (rw : raw_world) (w : world) : Prop := typed_of rw = Some w.

(** The same but for [this.captions], which may hold any value. *)
Definition typed_but_captions (rw : raw_world) (w : world) : Prop :=
  ∃ v rw', rw = set_raw_captions v rw' ∧ typed rw' w.

(** A raw computation simulates a typed computation: from worlds related by
    [P], both end with a result, in worlds related by [typed] and with
    results related by [R], or both end with the same exception, in
    worlds related by [Q]. *)
Definition sim {A B} (P Q : raw_world → world → Prop) (R : A → B → Prop)
    (rm : exec raw_world fault A) (tm : exec world js_error B) : Prop :=
  ∀ rw w, P rw w →
    match run rm rw, run tm w with
    | (rw', inr a), (w', inr b) => typed rw' w' ∧ R a b
    | (rw', inl f), (w', inl e) => Q rw' w' ∧ f = Throws e
    | _, _ => False
    end.

(** A raw computation does what a typed computation does: from a raw world
    with a typed view, both end in a raw world and its typed view, both
    with a result, and the results correspond, or both with the same
    exception. *)
Definition refines {A B} (R : A → B → Prop) (rm : exec raw_world fault A)
    (tm : exec world js_error B) : Prop :=
  sim typed typed R rm tm.

(** A statement of the script that neither reads nor writes the two loaded
    fields. *)
Class Oblivious (f : world → world) : Prop :=
  oblivious cs m w : f (with_loaded cs m w) = with_loaded cs m (f w).

(** The length of a list as the script prints it. *)
Definition printed (s : string) (n : nat) : Prop := s = pretty n.

(** The world of the end-to-end example with its two fields as values. *)
Definition demo_raw_world : raw_world :=
  RawWorld (encode ["Hi"]) (encode demo_manifest) demo_world.

(** ** Refinement, statement by statement *)

(** A raw world has a typed view when its two fields have one. *)
Lemma typed_of_Some rw w :
  typed_of rw = Some w ↔
  ∃ (m : manifest) (cs : list string),
    view (raw_manifest rw) = Some m ∧ view (raw_captions rw) = Some cs ∧
    raw_captions rw = encode cs ∧ w = with_loaded cs m (rest rw).
Proof.
  rw /typed_of. split.
  - destruct (view (A:=manifest) (raw_manifest rw)) as [m|];
      cbn [mbind option_bind]; [|done].
    destruct (view (A:=list string) (raw_captions rw)) as [cs|] eqn:Hcs;
      cbn [mbind option_bind]; [|done].
    intros [= <-]. exists m, cs. split_and!; [done..| |done].
    by apply view_strings_inv.
  - by intros (m & cs & -> & -> & _ & ->).
Qed.

(** The two fields of a raw world with the typed view [w], named. *)
Ltac typed_inv Hw :=
  apply typed_of_Some in Hw as (?m & ?cs & ?Hm & ?Hcs & ?Henc & ->).

Lemma typed_but_captions_weaken rw w : typed rw w → typed_but_captions rw w.
Proof. intros Hw. exists (raw_captions rw), rw. by destruct rw. Qed.

Section simulation.
Context {A B A' B' : Type} (R : A → B → Prop) (R' : A' → B' → Prop).
Context (P Q Q' : raw_world → world → Prop).

Lemma sim_ret a b : (∀ rw w, P rw w → typed rw w) → R a b →
  sim P Q R (mret a) (mret b).
Proof. intros HP HR rw w Hw. split; [by apply HP | done]. Qed.

Lemma sim_throw e : (∀ rw w, P rw w → Q rw w) →
  sim P Q R (mthrow (Throws e)) (mthrow e).
Proof. intros HP rw w Hw. split; [by apply HP | done]. Qed.

(** A sequence: the second part starts from a typed view. *)
Lemma sim_bind rm tm rk tk :
  sim P Q R rm tm → (∀ a b, R a b → sim typed Q R' (rk a) (tk b)) →
  sim P Q R' (rm ≫= rk) (tm ≫= tk).
Proof.
  intros Hm Hk rw w Hw. specialize (Hm rw w Hw). revert Hm.
  rw /run /mbind /exec_bind.
  destruct (rm rw) as [rw' [f|a]], (tm w) as [w' [e|b]]; try done.
  intros [Hs HR]. by apply Hk.
Qed.

(** A [try]: the handler starts from where the body threw. *)
Lemma sim_try rb tb rh th :
  sim P Q R rb tb → (∀ e, sim Q Q' R (rh e) (th e)) →
  sim P Q' R (try_js rb rh) (try_catch tb th).
Proof.
  intros Hb Hh rw w Hw. specialize (Hb rw w Hw). revert Hb.
  rw /run /try_js /try_catch.
  destruct (rb rw) as [rw' [f|a]], (tb w) as [w' [e|b]]; try done.
  intros [Hs ->]. by apply Hh.
Qed.

(** The exceptional worlds may be related by less. *)
Lemma sim_weaken rm tm :
  (∀ rw w, Q rw w → Q' rw w) → sim P Q R rm tm → sim P Q' R rm tm.
Proof.
  intros HQ Hm rw w Hw. specialize (Hm rw w Hw). revert Hm.
  destruct (run rm rw) as [rw' [f|a]], (run tm w) as [w' [e|b]]; try done.
  intros [Hs ->]. split; [by apply HQ | done].
Qed.

Lemma sim_modify (f : raw_world → raw_world) (g : world → world) :
  (∀ rw w, P rw w → typed (f rw) (g w)) → sim P Q eq (modify f) (modify g).
Proof. intros Hf rw w Hw. split; [by apply Hf | done]. Qed.

End simulation.

(** A statement that leaves the loaded fields alone is the same statement
    in both models. *)
Lemma refines_rest f `{!Oblivious f} :
  refines eq (modify (upd_rest f)) (modify f).
Proof.
  apply sim_modify. intros rw w Hw. typed_inv Hw.
  apply typed_of_Some. exists m, cs. by rewrite oblivious.
Qed.

#[export] Instance console_write_oblivious lvl args :
  Oblivious (console_write lvl args).
Proof. done. Qed.
#[export] Instance setupEventListeners_oblivious :
  Oblivious setupEventListeners.
Proof. done. Qed.
#[export] Instance updateFolderButtons_oblivious :
  Oblivious updateFolderButtons.
Proof. done. Qed.
#[export] Instance displayError_oblivious message :
  Oblivious (displayError message).
Proof. done. Qed.
#[export] Instance displayImage_oblivious imagePath :
  Oblivious (displayImage imagePath).
Proof. done. Qed.
#[export] Instance displayCaption_oblivious caption :
  Oblivious (displayCaption caption).
Proof. done. Qed.

Lemma sim_rest Q f `{!Oblivious f} :
  sim typed Q eq (modify (upd_rest f)) (modify f).
Proof. intros rw w Hw. by apply (refines_rest f). Qed.

Lemma sim_say Q lvl args : sim typed Q eq (raw_say lvl args) (say lvl args).
Proof. apply (sim_rest Q (console_write lvl args)). Qed.

(** What a refinement says of the world and of the exception the two
    computations end with. *)
Lemma refines_final {A B} (R : A → B → Prop) rm tm rw w :
  refines R rm tm → typed rw w →
  typed (final_state rm rw) (final_state tm w) ∧
  thrown rm rw = Throws <$> thrown tm w.
Proof.
  intros Hm Hw. specialize (Hm rw w Hw). revert Hm.
  rw /final_state /thrown.
  destruct (run rm rw) as [rw' [f|a]], (run tm w) as [w' [e|b]]; try done.
  - by intros [? ->].
  - by intros [? _].
Qed.

(** The same of a raw computation that simulates a method of the typed
    model that is a function on worlds: it throws nothing. *)
Lemma sim_modify_final P Q rm (g : world → world) rw w :
  sim P Q eq rm (modify g) → P rw w →
  typed_of (final_state rm rw) = Some (g w) ∧ thrown rm rw = None.
Proof.
  intros Hm Hw. specialize (Hm rw w Hw). revert Hm. rw /final_state /thrown.
  destruct (run rm rw) as [rw' [f|[]]]; rw /run /modify /=; intros Hs;
    by destruct Hs.
Qed.

(** A sequence whose first statement is the same call of [console] or the
    same statement on the page in both models. *)
Ltac sim_seq :=
  eapply sim_bind;
    [first [apply sim_say | apply sim_rest; apply _] | intros _ _ _].

(** A sequence whose first statement prints a length. *)
Ltac sim_printed lem :=
  eapply sim_bind; [apply lem | intros ?s ?n ?Hs; red in Hs; subst].

(** ** The loader *)

Section loader.
Context `{Engine}.

(** A fetch gives the body it delivers, or throws its failure. *)
Lemma run_fetch_json {A} (resp : fetch_outcome A) w :
  fetch_json resp w
    = (w, from_option inr (inl (failure_of resp)) (delivered resp)).
Proof. by destruct resp as [|[] ? ? []]. Qed.

Lemma run_raw_fetch_json resp rw :
  raw_fetch_json resp rw
    = (rw, from_option inr (inl (Throws (failure_of resp))) (delivered resp)).
Proof. by destruct resp as [|[] ? ? []]. Qed.

(** An answer with a view fails as its view does, and the body it delivers
    has the body its view delivers as view. *)
Lemma view_outcome_delivered {A} `{Shape A} resp (tresp : fetch_outcome A) :
  view_outcome resp = Some tresp →
  failure_of resp = failure_of tresp ∧
  match delivered resp with
  | Some data => ∃ x, view data = Some x ∧ delivered tresp = Some x
  | None => delivered tresp = None
  end.
Proof.
  intros Hv. destruct resp as [|[] ? ? [|data]]; simplify_eq/=; try done;
    destruct (view data) as [x|] eqn:Hx; simplify_eq/=; by eauto.
Qed.

(** The two fetches give the same body or the same exception. *)
Lemma fetch_json_sim {A} `{Shape A} Q resp (tresp : fetch_outcome A) :
  (∀ rw w, typed rw w → Q rw w) → view_outcome resp = Some tresp →
  sim typed Q (λ data x, view data = Some x) (raw_fetch_json resp)
    (fetch_json tresp).
Proof.
  intros HQ [Hf Hd]%view_outcome_delivered rw w Hw.
  rw /run run_raw_fetch_json run_fetch_json Hf.
  destruct (delivered resp) as [data|]; [destruct Hd as (x & Hx & ->)|];
    rw ?Hd /=; auto.
Qed.

Lemma loadManifest_refines mj (m : fetch_outcome manifest) :
  view_outcome mj = Some m →
  refines eq (raw_loadManifest mj) (loadManifest m).
Proof.
  intros Hv. rw /raw_loadManifest /loadManifest. sim_seq.
  eapply sim_try; [|intros e; sim_seq; by apply sim_throw].
  eapply sim_bind; [by apply (fetch_json_sim typed mj m) | intros data x Hx].
  eapply sim_bind; [|intros _ _ _; apply sim_say].
  apply sim_modify. intros rw w Hw. typed_inv Hw.
  apply typed_of_Some. by exists x, cs.
Qed.

(** The length of the captions is printed the same. *)
Lemma captions_length_refines :
  refines printed captions_length_text
    (gets (λ w, length (captions (app w)))).
Proof.
  intros rw w Hw. pose proof Hw as Hw'. typed_inv Hw'.
  rw /captions_length_text /run /gets /mbind /exec_bind /lift.
  rewrite Henc, get_strings_length. simpl. split; [exact Hw|].
  apply pretty_Z_of_nat.
Qed.

(** The assignment of line 64 and the read of line 65: when the body has
    no [captions], [this.captions] is [undefined] when the read throws. *)
Lemma assign_captions_sim data (x : captions_json) :
  builtin "captions" = false → view data = Some x →
  sim typed typed_but_captions printed (raw_assign_captions data)
    (assign_captions x).
Proof.
  intros Hb Hx rw w Hw.
  rw /raw_assign_captions /run /mbind /exec_bind /lift.
  rewrite (get_captions data x Hx Hb). destruct x as [cs'|]; simpl.
  - split; [|red; by rewrite length_fmap, pretty_Z_of_nat].
    typed_inv Hw. apply typed_of_Some. exists m, cs'.
    split_and!; [done | exact (view_encode cs') | done..].
  - split; [by exists VUndefined, rw | done].
Qed.

Lemma loadCaptions_refines cj (c : fetch_outcome captions_json) :
  builtin "captions" = false → view_outcome cj = Some c →
  refines eq (raw_loadCaptions cj) (loadCaptions c).
Proof.
  intros Hb Hv. rw /raw_loadCaptions /loadCaptions. sim_seq.
  eapply sim_try.
  - eapply sim_bind;
      [by apply (fetch_json_sim _ cj c); [apply typed_but_captions_weaken|]
      | intros data x Hx].
    sim_printed (assign_captions_sim data x Hb Hx). apply sim_say.
  - intros e rw w (v & rw' & -> & Hw). typed_inv Hw. split; [|done].
    apply typed_of_Some. by exists m, fallback_captions.
Qed.

(** The length of a folder is printed the same, and the read of [length]
    throws for the same folders. *)
Lemma folder_length_refines folder :
  builtin folder = false →
  refines printed (folder_length_text folder) (manifest_length folder).
Proof.
  intros Hb rw w Hw. pose proof Hw as Hw'. typed_inv Hw'.
  rw /folder_length_text /manifest_length /run /gets /mbind /exec_bind /lift.
  rewrite (get_manifest _ m folder Hm) by auto.
  change (imageManifest (app (with_loaded cs m (rest rw)))) with m.
  destruct (m !! folder) as [images|]; simpl; [|done].
  split; [done | red; by rewrite length_fmap, pretty_Z_of_nat].
Qed.

End loader.

(** ** Initialization on bodies of the documented shape *)

(** [init] catches what it throws. *)
Lemma init_thrown m c w : thrown (init m c) w = None.
Proof.
  apply thrown_None. rw /init /say. rewrite throws_modify_bind.
  by apply try_catch_total.
Qed.

Section init.
Context `{Engine}.
Context (Hcaptions : builtin "captions" = false).
Context (Hlilia : builtin "Lilia" = false) (Hleylah : builtin "Leylah" = false).
Context (mj cj : fetch_outcome value).
Context (m : fetch_outcome manifest) (c : fetch_outcome captions_json).
Context (Hm : view_outcome mj = Some m) (Hc : view_outcome cj = Some c).

Lemma report_refines : refines eq raw_report report.
Proof.
  rw /raw_report /report. sim_seq.
  sim_printed (folder_length_refines "Lilia" Hlilia). sim_seq.
  sim_printed (folder_length_refines "Leylah" Hleylah). sim_seq.
  sim_printed captions_length_refines. apply sim_say.
Qed.

Lemma init_body_refines : refines eq (raw_init_body mj cj) (init_body m c).
Proof.
  rw /raw_init_body /init_body.
  eapply sim_bind; [by apply loadManifest_refines | intros _ _ _].
  eapply sim_bind; [by apply loadCaptions_refines | intros _ _ _].
  sim_seq. sim_seq. apply report_refines.
Qed.

Lemma init_refines : refines eq (raw_init mj cj) (init m c).
Proof.
  rw /raw_init /init. sim_seq. eapply sim_try; [apply init_body_refines|].
  intros e. sim_seq. apply sim_rest, _.
Qed.

(** On bodies of the documented shape the script does what the typed
    model says: when the two answers have typed views, [init] on the
    values ends without an exception in the world whose typed view is the
    world [init] of [Loader] ends in, the console included. *)
Theorem raw_start_typed d :
  typed_of (raw_start d mj cj) = Some (start d m c) ∧
  thrown (raw_init mj cj) (raw_boot d) = None.
Proof.
  destruct (refines_final eq _ _ (raw_boot d) (boot d) init_refines eq_refl)
    as [Hs Ht].
  split; [exact Hs|]. by rewrite Ht, init_thrown.
Qed.

End init.

(** ** A pick on fields of the documented shape *)

(** The index drawn in a list is the index [random_index] draws. *)
Lemma floor_mul_index r n :
  unit_draw r → floor_mul r (Int (Z.of_nat n)) = Int (Z.of_nat (random_index r n)).
Proof.
  intros Hr. rw /floor_mul /random_index Z2Nat.id //.
  by apply floor_scaled_nonneg.
Qed.

(** What was read from a list of strings, as text and as [textContent]. *)
Lemma to_string_read (o : option string) :
  to_string (from_option VStr VUndefined o) = inr (js_str o).
Proof. by destruct o. Qed.

Lemma text_content_read (o : option string) :
  text_content (from_option VStr VUndefined o) = inr o.
Proof. by destruct o. Qed.

Section pick.
Context `{Engine}.
Context (r1 r2 : Q) (Hr1 : unit_draw r1) (Hr2 : unit_draw r2).

#[local] Arguments get : simpl never.
#[local] Arguments draw : simpl never.
#[local] Arguments no_images : simpl never.
#[local] Arguments to_string : simpl never.
#[local] Arguments text_content : simpl never.
#[local] Arguments encode : simpl never.

(** A draw in a list of strings reads the string [random_index] selects,
    [undefined] in the empty list. *)
Lemma draw_strings r (l : list string) :
  unit_draw r →
  draw r (encode l)
    = inr (from_option VStr VUndefined (l !! random_index r (length l))).
Proof.
  intros Hr. rw /draw get_strings_length. cbn [to_number].
  rewrite floor_mul_index by done. apply get_strings_index.
Qed.

(** The guard on what the manifest holds for a folder. *)
Lemma no_images_read (o : option (list string)) rw :
  no_images (from_option encode VUndefined o) rw
    = (rw, inr (if o is Some (_ :: _) then false else true)).
Proof. by destruct o as [[|x l]|]. Qed.

(** The pick as a simulation: from a typed view in which the read of line
    126 finds an own property or nothing, the pick on the values and the
    pick of [Selector] end in a raw world and its typed view. *)
Lemma generateRandomImage_sim Q :
  sim (λ rw w, typed rw w ∧
         (is_Some (imageManifest (app w) !! currentFolder (app w)) ∨
          builtin (currentFolder (app w)) = false))
      Q eq (raw_generateRandomImage r1 r2) (modify (generateRandomImage r1 r2)).
Proof.
  intros rw w [Hw Hf]. typed_inv Hw.
  rw /raw_generateRandomImage /generateRandomImage /run
    /gets /mbind /exec_bind /lift /raw_say /modify.
  simpl in *. rewrite (get_manifest _ m _ Hm), no_images_read by exact Hf.
  destruct (m !! currentFolder (app (rest rw))) as [[|x l]|]; simpl;
    try (split; [|done]; apply typed_of_Some; by exists m, cs).
  rewrite draw_strings, to_string_read, Henc, draw_strings by done.
  rewrite to_string_read, text_content_read. simpl.
  split; [|done]. apply typed_of_Some. by exists m, cs.
Qed.

(** C12. A pick on fields of the documented shape does what the typed
    model says: for every two draws, when the current folder is in the
    manifest or no built-in prototype has a property of its name, the pick
    on the values ends without an exception in the world whose typed view
    is the world [generateRandomImage] of [Selector] ends in. *)
Theorem raw_generateRandomImage_typed rw w :
  typed_of rw = Some w →
  is_Some (imageManifest (app w) !! currentFolder (app w)) ∨
    builtin (currentFolder (app w)) = false →
  typed_of (final_state (raw_generateRandomImage r1 r2) rw)
    = Some (generateRandomImage r1 r2 w) ∧
  thrown (raw_generateRandomImage r1 r2) rw = None.
Proof.
  intros Hw Hf.
  eapply sim_modify_final; [apply (generateRandomImage_sim typed)|].
  by split.
Qed.

End pick.

(** ** On the example *)

Lemma raw_start_typed_witness :
  typed_of (raw_start (H:=cautious_engine) demo_page
              (ok_response (encode demo_manifest))
              (ok_response (encode (Some ["Hi"] : captions_json))))
    = Some (start demo_page (ok_response demo_manifest)
              (ok_response (Some ["Hi"]))) ∧
  thrown (raw_init (H:=cautious_engine) (ok_response (encode demo_manifest))
            (ok_response (encode (Some ["Hi"] : captions_json))))
    (raw_boot demo_page) = None.
Proof.
  by apply (raw_start_typed (H:=cautious_engine)).
Defined.

Lemma raw_generateRandomImage_typed_witness :
  typed_of (final_state (raw_generateRandomImage (H:=cautious_engine) 0 0)
              demo_raw_world)
    = Some (generateRandomImage 0 0 demo_world) ∧
  thrown (raw_generateRandomImage (H:=cautious_engine) 0 0) demo_raw_world = None.
Proof.
  apply (raw_generateRandomImage_typed (H:=cautious_engine) 0 0);
    [by apply unit_drawb_spec | by apply unit_drawb_spec | done | by left].
Defined.
