(* ===== verification/Unchecked.v ===== *)
(** * Unchecked: what the script does with bodies of other shapes

    [src/script.js] stores what [response.json()] gives without looking at
    it (lines 46 and 64). The theorems of this file follow a body that is
    not of the documented shape through the methods of [Raw]:

    - [loadCaptions] uses the fallback captions exactly when a read
      throws: the body is [null], or it has nothing (or [null]) under
      [captions]. A value under [captions] whose [length] can be read is
      stored as it is, a number or an object as well as a list: the
      fallback is not used for it, although the specification says that a
      malformed caption source is replaced by the fallback.
    - A manifest that is [null] is stored. [init] then fails at line 25,
      after the listeners were registered and the first pick was
      scheduled, and a pick afterwards throws at line 126, in a callback
      where nothing catches it, and leaves the page as it is. [RawEvents]
      follows this through every run. *)

From Stdlib Require Import QArith.
From S2P Require Import Prelude Random Browser Display Selector Loader Json Raw.

(** ** Examples *)

(** A caption source whose [captions] is a number. *)
Definition captions_number : fetch_outcome value :=
  ok_response (VObj [("captions", VNum 7)]).

(** A source whose body is [null]. *)
Definition null_body : fetch_outcome value := ok_response VNull.

(** The caption source of the end-to-end example, as a value. *)
Definition demo_captions : fetch_outcome value :=
  ok_response (encode (Some ["Hi"] : captions_json)).

(** ** What the theorems speak of *)

(** The [length] of the value can be read, and [s] is its text in a
    template literal. *)
Definition length_text `{Engine} (v : value) (s : string) : Prop :=
  ∃ n, get v "length" = inr n ∧ to_string n = inr s.

(** One of the two reads of lines 64 and 65 throws on the body: that of
    [captions], or that of the [length] of what is under [captions]. *)
Definition captions_read_throws `{Engine} (data : value) : Prop :=
  (∃ e, get data "captions" = inl (Throws e)) ∨
  (∃ v e, get data "captions" = inr v ∧ get v "length" = inl (Throws e)).

(** The page shows the initialization failure while the listeners are
    registered and the first pick is scheduled. *)
Definition failed_but_wired (w : world) : Prop :=
  wired w = true ∧ timer w = true ∧ phase_of (page w) = Failed ∧
  placeholder_innerHTML (page w) = error_html init_failed_message.

(** Unfolds a method of [Raw] down to the reads it makes. *)
Ltac raw_unfold :=
  rw /raw_loadCaptions /raw_assign_captions /raw_loadManifest /raw_report
    /captions_length_text /folder_length_text /raw_generateRandomImage
    /final_state /thrown /run /try_js /try_catch /gets /mbind /exec_bind /lift
    /raw_say /modify.

Section unchecked.
Context `{Engine}.

(** ** The captions *)

(** [loadCaptions] writes [this.captions] and the console, and throws no
    exception. *)
Lemma raw_loadCaptions_frame cj rw :
  raw_manifest (final_state (raw_loadCaptions cj) rw) = raw_manifest rw ∧
  rest (final_state (raw_loadCaptions cj) rw) ≈ rest rw ∧
  (thrown (raw_loadCaptions cj) rw = None ∨
   thrown (raw_loadCaptions cj) rw = Some Unmodelled).
Proof.
  raw_unfold. rewrite run_raw_fetch_json.
  destruct (delivered cj) as [data|]; simpl; [|by split_and!; auto].
  destruct (get data "captions") as [[e|]|v]; simpl; [by split_and!; auto..|].
  destruct (get v "length") as [[e|]|n]; simpl; [by split_and!; auto..|].
  destruct (to_string n) as [[e|]|s]; simpl; by split_and!; auto.
Qed.

(** C17. [loadCaptions] does not check what it stores: the value under
    [captions] becomes [this.captions] as it is whenever its [length] can
    be read and printed, whatever the value and whatever the length. The
    fallback captions are not used, and the console reports the length
    that was read. *)
Theorem raw_loadCaptions_stored cj data v s rw :
  delivered cj = Some data → get data "captions" = inr v →
  length_text v s →
  thrown (raw_loadCaptions cj) rw = None ∧
  raw_captions (final_state (raw_loadCaptions cj) rw) = v ∧
  console (rest (final_state (raw_loadCaptions cj) rw))
    = console (rest rw)
      ++ [LogEntry LogInfo [LStr "💬 Loading captions.json..."];
          LogEntry LogInfo [LStr ("✅ Loaded " +:+ s +:+ " captions")]].
Proof.
  intros Hd Hv (n & Hn & Hs). raw_unfold.
  rewrite run_raw_fetch_json, Hd. simpl. rewrite Hv. simpl.
  rewrite Hn, Hs. simpl. by rewrite <- (assoc_L (++)).
Qed.

(** [loadCaptions] uses the fallback captions when the read of
    [captions] throws (the body is [null]) and when the read of its
    [length] throws (the body has nothing, or [null], under [captions]):
    the exception is caught and [this.captions] is the five fallback
    captions. *)
Theorem raw_loadCaptions_caught cj data rw :
  delivered cj = Some data → captions_read_throws data →
  thrown (raw_loadCaptions cj) rw = None ∧
  raw_captions (final_state (raw_loadCaptions cj) rw)
    = encode fallback_captions.
Proof.
  intros Hd Hc. raw_unfold. rewrite run_raw_fetch_json, Hd. simpl.
  destruct Hc as [[e ->] | (v & e & -> & Hl)]; simpl; [done|].
  by rewrite Hl.
Qed.

(** ** A manifest that is [null] *)

(** [loadManifest] stores the body that is delivered, whatever it is. *)
Lemma raw_loadManifest_delivered mj data rw :
  delivered mj = Some data →
  thrown (raw_loadManifest mj) rw = None ∧
  raw_manifest (final_state (raw_loadManifest mj) rw) = data ∧
  rest (final_state (raw_loadManifest mj) rw) ≈ rest rw.
Proof. intros Hd. raw_unfold. by rewrite run_raw_fetch_json, Hd. Qed.

(** The report reads [Lilia] of [null] and throws. *)
Lemma raw_report_null rw :
  raw_manifest rw = VNull →
  thrown raw_report rw = Some (Throws (TypeErrorNull "Lilia")) ∧
  raw_manifest (final_state raw_report rw) = VNull ∧
  rest (final_state raw_report rw) ≈ rest rw.
Proof. intros Hn. raw_unfold. simpl. by rewrite Hn. Qed.

(** A pick reads the current folder of [null] and throws, after its first
    line was logged. *)
Lemma raw_generateRandomImage_null r1 r2 rw :
  raw_manifest rw = VNull →
  thrown (raw_generateRandomImage r1 r2) rw
    = Some (Throws (TypeErrorNull (currentFolder (app (rest rw))))) ∧
  raw_manifest (final_state (raw_generateRandomImage r1 r2) rw) = VNull ∧
  rest (final_state (raw_generateRandomImage r1 r2) rw) ≈ rest rw.
Proof. intros Hn. raw_unfold. simpl. by rewrite Hn. Qed.

End unchecked.

Section null_manifest.
Context `{Engine}.
Context (d : dom) (mj cj : fetch_outcome value).
Context (Hmj : delivered mj = Some VNull).
Context (Hcj : ∀ rw, thrown (raw_loadCaptions cj) rw = None).

(** The [try] block of [init] throws at its report, with the listeners
    registered. *)
Lemma raw_init_body_null rw :
  thrown (raw_init_body mj cj) rw = Some (Throws (TypeErrorNull "Lilia")) ∧
  raw_manifest (final_state (raw_init_body mj cj) rw) = VNull ∧
  rest (final_state (raw_init_body mj cj) rw)
    ≈ updateFolderButtons (setupEventListeners (rest rw)).
Proof.
  destruct (raw_loadManifest_delivered mj VNull rw Hmj) as (Ht1 & Hm1 & Hr1).
  set (rw1 := final_state (raw_loadManifest mj) rw) in *.
  destruct (raw_loadCaptions_frame cj rw1) as (Hm2 & Hr2 & _).
  set (rw2 := final_state (raw_loadCaptions cj) rw1) in *.
  destruct (raw_report_null
              (upd_rest updateFolderButtons (upd_rest setupEventListeners rw2)))
    as (Ht3 & Hm3 & Hr3); [simpl; congruence|].
  rw /raw_init_body thrown_seq final_state_seq Ht1 -/rw1.
  rw thrown_seq final_state_seq (Hcj rw1) -/rw2.
  rewrite !(thrown_modify_bind (upd_rest _)).
  rewrite !(final_state_modify_bind (upd_rest _)).
  rewrite Ht3, Hm3, Hr3. simpl. by rewrite Hr2, Hr1.
Qed.

(** What [init] leaves, up to the console. *)
Lemma raw_start_null :
  raw_manifest (raw_start d mj cj) = VNull ∧
  rest (raw_start d mj cj)
    ≈ displayError init_failed_message
        (updateFolderButtons (setupEventListeners (boot d))).
Proof.
  rw /raw_start /raw_init /raw_say /try_js.
  rewrite (final_state_modify_bind (upd_rest _)), final_state_try_catch.
  set (rw0 := upd_rest _ (raw_boot d)).
  destruct (raw_init_body_null rw0) as (-> & Hm & Hr).
  rewrite (final_state_modify_bind (upd_rest _)), final_state_modify.
  set (rw1 := final_state (raw_init_body mj cj) rw0) in *. clearbody rw1.
  split; [exact Hm|]. cbn [rest upd_rest]. apply displayError_proper.
  etrans; [apply console_write_quiet|]. rewrite Hr.
  apply updateFolderButtons_proper, setupEventListeners_proper.
  apply console_write_quiet.
Qed.

(** [init] fails at its report, after the listeners were registered and
    the first pick was scheduled: the page shows the initialization
    failure while the application is wired, and nothing is requested. *)
Lemma raw_start_failed_but_wired :
  failed_but_wired (rest (raw_start d mj cj)) ∧
  probes (rest (raw_start d mj cj)) = [] ∧
  image_load (rest (raw_start d mj cj)) = None.
Proof.
  destruct raw_start_null as [_ Hr]. rw /failed_but_wired. rewrite !Hr.
  split_and!; [done | done | apply phase_displayError | done..].
Qed.

End null_manifest.

(** ** On the examples *)

Lemma raw_loadCaptions_stored_witness :
  thrown (raw_loadCaptions (H:=cautious_engine) captions_number)
    (raw_boot demo_page) = None ∧
  raw_captions (final_state (raw_loadCaptions (H:=cautious_engine)
    captions_number) (raw_boot demo_page)) = VNum 7 ∧
  console (rest (final_state (raw_loadCaptions (H:=cautious_engine)
    captions_number) (raw_boot demo_page)))
    = console (rest (raw_boot demo_page))
      ++ [LogEntry LogInfo [LStr "💬 Loading captions.json..."];
          LogEntry LogInfo [LStr ("✅ Loaded " +:+ "undefined" +:+ " captions")]].
Proof.
  apply (raw_loadCaptions_stored (H:=cautious_engine) captions_number
           (VObj [("captions", VNum 7)]) (VNum 7) "undefined");
    [done | done | by exists VUndefined].
Defined.

Lemma raw_loadCaptions_caught_witness :
  thrown (raw_loadCaptions (H:=cautious_engine) null_body) (raw_boot demo_page)
    = None ∧
  raw_captions (final_state (raw_loadCaptions (H:=cautious_engine) null_body)
    (raw_boot demo_page)) = encode fallback_captions.
Proof.
  apply (raw_loadCaptions_caught (H:=cautious_engine) null_body VNull);
    [done|]. left. by exists (TypeErrorNull "captions").
Defined.

(** The caption source of the example loads. *)
Lemma demo_captions_loads rw :
  thrown (raw_loadCaptions (H:=cautious_engine) demo_captions) rw = None.
Proof. done. Qed.
