(* ===== verification/RawEvents.v ===== *)
(** * RawEvents: the callbacks on values of any shape

    The event loop of [Events] again, over the worlds of [Raw]: the click
    listeners, the timeout and the image handlers of [src/script.js], the
    picks among them being [raw_generateRandomImage]. Nothing catches an
    exception that leaves a callback: the browser reports it, and the
    world stays as the callback left it when it threw. [raw_fire] gives
    that world and the exception; [raw_fire_all] runs a list of events and
    collects the exceptions that were not caught.

    The theorems close the gap between the typed model and the script.
    When the two bodies have the documented shape and no folder the
    application can select is the name of a built-in property, every run
    on values is the run of [Events] on the typed view, event by event,
    and no callback throws: what [Events], [Settle] and [Spec] prove of
    the typed model is true of the script. After a manifest that is
    [null], no run ever leaves the initialization failure, and every pick
    of the run throws. *)

From Stdlib Require Import QArith.
From S2P Require Import Prelude Random Browser Display Selector Loader Events.
From S2P Require Import Settle Json Raw Unchecked.

(** ** Callbacks *)

Section callbacks.
Context `{Engine}.

(** The callback the browser runs for an event, [None] when it cannot run
    it. The conditions are those of [step]; the callbacks are those of
    [Events], but for the picks, which read the values. *)
Definition raw_callback (e : event) (rw : raw_world)
    : option (exec raw_world fault ()) :=
  let w := rest rw in
  match e with
  | ClickFolder i r =>
      match folder_btns (page w) !! i with
      | Some b =>
          if decide (wired w = true ∧ unit_draw r)
          then Some (modify (upd_rest (on_folder_click b r))) else None
      | None => None
      end
  | ClickGenerate r1 r2 =>
      if decide (wired w = true ∧ unit_draw r1 ∧ unit_draw r2)
      then Some (raw_generateRandomImage r1 r2) else None
  | TimerFires r1 r2 =>
      if decide (timer w = true ∧ unit_draw r1 ∧ unit_draw r2)
      then Some (modify (upd_rest (set_timer false)) ;;
                 raw_generateRandomImage r1 r2)
      else None
  | ProbeLoads i =>
      imagePath ← probes w !! i;
      Some (modify (upd_rest (testImg_onload imagePath ∘ settle_probe i)))
  | ProbeFails i =>
      imagePath ← probes w !! i;
      Some (modify (upd_rest (testImg_onerror imagePath ∘ settle_probe i)))
  | ImageLoads =>
      _ ← image_load w;
      Some (modify (upd_rest
        (call_handler (image_onload (page w)) imgElement_onload
           ∘ settle_image)))
  | ImageFails =>
      _ ← image_load w;
      Some (modify (upd_rest
        (call_handler (image_onerror (page w)) imgElement_onerror
           ∘ settle_image)))
  end.

(** What the callback leaves, and the exception that left it, if one did:
    the assignments made before the [throw] stay. *)
Definition raw_fire (e : event) (rw : raw_world)
    : option (raw_world * option fault) :=
  m ← raw_callback e rw; Some (final_state m rw, thrown m rw).

(** A run, with the exceptions no callback caught, oldest first. *)
Fixpoint raw_fire_all (es : list event) (rw : raw_world)
    : option (raw_world * list fault) :=
  match es with
  | [] => Some (rw, [])
  | e :: es =>
      '(rw1, f) ← raw_fire e rw;
      '(rw2, fs) ← raw_fire_all es rw1;
      Some (rw2, option_list f ++ fs)
  end.

(** Every folder the application can select (the constructor's, a random
    candidate, the folder of a button) is listed in the manifest or is not
    the name of a built-in property: the read of line 126 finds what the
    manifest has and nothing else. *)
Definition plain_folders (w : world) : Prop :=
  Forall (λ f, is_Some (imageManifest (app w) !! f) ∨ builtin f = false)
    (currentFolder (app w)
       :: folders ++ (data_folder <$> folder_btns (page w))).

(** A run on values and a run of [Events] agree: both cannot happen, or
    both happen, the first ends in a world whose typed view is the end of
    the second, and no callback has thrown. *)
Definition agree (r : option (raw_world * list fault)) (t : option world)
    : Prop :=
  match r, t with
  | Some (rw, fs), Some w => typed_of rw = Some w ∧ fs = []
  | None, None => True
  | _, _ => False
  end.

End callbacks.

(** The events of a run that make a pick. *)
Definition is_pick (e : event) : bool :=
  match e with
  | ClickGenerate _ _ | TimerFires _ _ => true
  | _ => false
  end.

(** The exception is a [TypeError] for a read on [null]. *)
Definition null_read (f : fault) : Prop :=
  ∃ property, f = Throws (TypeErrorNull property).

(** The application after a manifest that is [null]: the manifest is
    [null], the page shows the initialization failure and no image is
    requested. *)
Definition stuck (rw : raw_world) : Prop :=
  raw_manifest rw = VNull ∧
  phase_of (page (rest rw)) = Failed ∧
  placeholder_innerHTML (page (rest rw)) = error_html init_failed_message ∧
  probes (rest rw) = [] ∧ image_load (rest rw) = None.

(** ** The callbacks that do not read the loaded fields *)

#[export] Instance on_folder_click_oblivious b r :
  Oblivious (on_folder_click b r).
Proof.
  intros cs m w. rw /on_folder_click /selectFolder. by case_decide.
Qed.
#[export] Instance set_timer_oblivious b : Oblivious (set_timer b).
Proof. done. Qed.
#[export] Instance probe_loads_oblivious imagePath i :
  Oblivious (testImg_onload imagePath ∘ settle_probe i).
Proof. done. Qed.
#[export] Instance probe_fails_oblivious imagePath i :
  Oblivious (testImg_onerror imagePath ∘ settle_probe i).
Proof. done. Qed.
#[export] Instance image_loads_oblivious h :
  Oblivious (call_handler h imgElement_onload ∘ settle_image).
Proof. by destruct h. Qed.
#[export] Instance image_fails_oblivious h :
  Oblivious (call_handler h imgElement_onerror ∘ settle_image).
Proof. by destruct h. Qed.

(** ** The folders that can be selected *)

Section plain.
Context `{Engine}.

#[export] Instance plain_folders_dec w : Decision (plain_folders w).
Proof. rw /plain_folders. apply _. Defined.

#[export] Instance plain_folders_inv : Invariant plain_folders.
Proof.
  split; [solve_inv_proper | | done..].
  intros w f [_ Hw]%Forall_cons _ Hf.
  rw /plain_folders updateFolderButtons_names /=.
  apply Forall_cons. split; [|done]. by eapply Forall_forall in Hw.
Qed.

(** The read of line 126 in a world of plain folders. *)
Lemma plain_folders_current w :
  plain_folders w →
  is_Some (imageManifest (app w) !! currentFolder (app w)) ∨
    builtin (currentFolder (app w)) = false.
Proof. by intros [Hw _]%Forall_cons. Qed.

End plain.

(** ** One callback *)

Section runs.
Context `{Engine}.

(** What the conditions of [step] look at is the same in a raw world and
    in its typed view. *)
Lemma typed_rest rw w :
  typed rw w →
  wired w = wired (rest rw) ∧ timer w = timer (rest rw) ∧
  page w = page (rest rw) ∧ probes w = probes (rest rw) ∧
  image_load w = image_load (rest rw).
Proof. intros Hw. by typed_inv Hw. Qed.

(** A callback that reads neither of the loaded fields. *)
Lemma rest_final f `{!Oblivious f} rw w :
  typed rw w →
  typed_of (final_state (modify (upd_rest f) : exec raw_world fault ()) rw)
    = Some (f w) ∧
  thrown (modify (upd_rest f) : exec raw_world fault ()) rw = None.
Proof.
  intros Hw. eapply sim_modify_final; [apply (sim_rest typed f)|done].
Qed.

(** A pick, in a world of plain folders. *)
Lemma pick_final r1 r2 rw w :
  unit_draw r1 → unit_draw r2 → typed rw w → plain_folders w →
  typed_of (final_state (raw_generateRandomImage r1 r2) rw)
    = Some (generateRandomImage r1 r2 w) ∧
  thrown (raw_generateRandomImage r1 r2) rw = None.
Proof.
  intros Hr1 Hr2 Hw Hp.
  eapply (sim_modify_final _ typed); [by apply generateRandomImage_sim|].
  split; [done | by apply plain_folders_current].
Qed.

(** A callback that ends in the typed view [w'] without an exception
    agrees with the callback of [Events] that leaves [w']. *)
Lemma agree_fired (m : exec raw_world fault ()) rw w' :
  typed_of (final_state m rw) = Some w' ∧ thrown m rw = None →
  agree (prod_map id option_list <$> Some (final_state m rw, thrown m rw))
    (Some w').
Proof. by intros [? ->]. Qed.

(** Closes the case of a callback that reads neither loaded field, given
    that it does not. *)
Ltac solve_fired inst := by apply agree_fired, (@rest_final _ inst).

(** Every callback on values is the callback of [Events] on the typed
    view, and throws nothing. *)
Lemma raw_fire_typed e rw w :
  typed rw w → plain_folders w →
  agree (prod_map id option_list <$> raw_fire e rw) (fire e w).
Proof.
  intros Hw Hp. destruct (typed_rest rw w Hw) as (Hwi & Hti & Hpg & Hpr & Hil).
  rw /raw_fire.
  destruct e as [i r|r1 r2|r1 r2|i|i| |]; simpl; rw ?Hwi ?Hti ?Hpg ?Hpr ?Hil.
  - destruct (folder_btns _ !! i) as [b|]; [|done]. case_decide; [|done].
    solve_fired (on_folder_click_oblivious b r).
  - case_decide as Hg; [|done]. destruct Hg as (_ & ? & ?).
    by apply agree_fired, pick_final.
  - case_decide as Hg; [|done]. destruct Hg as (_ & ? & ?).
    apply agree_fired.
    rewrite (final_state_modify_bind (upd_rest _)).
    rewrite (thrown_modify_bind (upd_rest _)).
    apply pick_final; [done | done | | done].
    by destruct (rest_final (set_timer false) rw w Hw).
  - destruct (probes _ !! i) as [p|]; simpl; [|done].
    solve_fired (probe_loads_oblivious p i).
  - destruct (probes _ !! i) as [p|]; simpl; [|done].
    solve_fired (probe_fails_oblivious p i).
  - destruct (image_load (rest rw)); simpl; [|done].
    solve_fired (image_loads_oblivious (image_onload (page (rest rw)))).
  - destruct (image_load (rest rw)); simpl; [|done].
    solve_fired (image_fails_oblivious (image_onerror (page (rest rw)))).
Qed.

(** ** Runs *)

(** A run on values is the run of [Events] on the typed view, and none of
    its callbacks throws. *)
Lemma raw_fire_all_typed es rw w :
  typed rw w → plain_folders w → agree (raw_fire_all es rw) (fire_all es w).
Proof.
  revert rw w. induction es as [|e es IH]; intros rw w Hw Hp; [done|].
  pose proof (raw_fire_typed e rw w Hw Hp) as He. simpl.
  destruct (raw_fire e rw) as [[rw1 f]|], (fire e w) as [w1|] eqn:Hf;
    try done.
  destruct He as [Hw1 Hnone]. simpl in Hnone.
  assert (plain_folders w1) as Hp1
    by (eapply (step_preserves plain_folders); [done | by apply fire_step]).
  specialize (IH rw1 w1 Hw1 Hp1). simpl. rewrite Hnone.
  by destruct (raw_fire_all es rw1) as [[rw2 fs]|], (fire_all es w1).
Qed.

(** ** After a manifest that is [null] *)

(** A pick throws at the read of line 126 and leaves the application
    stuck. *)
Lemma pick_stuck r1 r2 rw :
  stuck rw →
  stuck (final_state (raw_generateRandomImage r1 r2) rw) ∧
  ∃ g, thrown (raw_generateRandomImage r1 r2) rw = Some g ∧ null_read g.
Proof.
  intros (Hm & Hs).
  destruct (raw_generateRandomImage_null r1 r2 rw Hm) as (Ht & Hm' & Hr).
  split; [|by eexists; split; [done | eexists]].
  rw /stuck. by rewrite Hm', !Hr.
Qed.

(** Every callback that can run leaves the application stuck; it throws
    exactly when it makes a pick. *)
Lemma raw_fire_stuck e rw rw' f :
  stuck rw → raw_fire e rw = Some (rw', f) →
  stuck rw' ∧ length (option_list f) = Nat.b2n (is_pick e) ∧
  Forall null_read (option_list f).
Proof.
  intros Hs. pose proof Hs as (Hm & Hph & Hh & Hp & Hl). rw /raw_fire.
  destruct e as [i r|r1 r2|r1 r2|i|i| |]; simpl; rw ?Hp ?Hl; try done.
  - destruct (folder_btns _ !! i) as [b|]; [|done]. case_decide; [|done].
    intros [= <- <-]. split; [|by split]. revert Hs.
    rw /stuck /on_folder_click /selectFolder. by case_decide.
  - case_decide; [|done]. intros [= <- <-].
    destruct (pick_stuck r1 r2 rw Hs) as (? & g & -> & ?).
    split_and!; [done | done | by apply Forall_singleton].
  - case_decide; [|done]. intros [= <- <-].
    rewrite (final_state_modify_bind (upd_rest _)).
    rewrite (thrown_modify_bind (upd_rest _)).
    destruct (pick_stuck r1 r2 (upd_rest (set_timer false) rw))
      as (? & g & -> & ?); [done|].
    split_and!; [done | done | by apply Forall_singleton].
Qed.

(** No run leaves the failure, and its picks are the callbacks that
    throw. *)
Lemma raw_fire_all_stuck es rw rw' fs :
  stuck rw → raw_fire_all es rw = Some (rw', fs) →
  stuck rw' ∧ length fs = length (filter is_pick es) ∧ Forall null_read fs.
Proof.
  revert rw fs. induction es as [|e es IH]; intros rw fs Hs; simpl.
  { by intros [= <- <-]. }
  destruct (raw_fire e rw) as [[rw1 f]|] eqn:He; [|done]. simpl.
  destruct (raw_fire_all es rw1) as [[rw2 fs2]|] eqn:Hes; [|done].
  intros [= <- <-].
  destruct (raw_fire_stuck e rw rw1 f Hs He) as (Hs1 & Hn & Hf).
  destruct (IH rw1 fs2 Hs1 Hes) as (Hs2 & Hn2 & Hf2).
  split_and!; [done | | by apply Forall_app].
  rewrite length_app, Hn, Hn2, filter_cons. by destruct (is_pick e).
Qed.

End runs.

(** ** The program on bodies of the documented shape *)

Section program.
Context `{Engine}.
Context (Hcaptions : builtin "captions" = false).
Context (Hlilia : builtin "Lilia" = false) (Hleylah : builtin "Leylah" = false).
Context (d : dom) (mj cj : fetch_outcome value).
Context (m : fetch_outcome manifest) (c : fetch_outcome captions_json).
Context (Hm : view_outcome mj = Some m) (Hc : view_outcome cj = Some c).

(** What [init] leaves on the values has the typed view [init] of
    [Loader] leaves. *)
Lemma raw_start_view : typed (raw_start d mj cj) (start d m c).
Proof.
  by destruct (refines_final eq _ _ (raw_boot d) (boot d)
                 (init_refines Hcaptions Hlilia Hleylah mj cj m c Hm Hc)
                 eq_refl).
Qed.

(** What a run on values reaches is the typed view of a world the typed
    model reaches: the invariants of [Events] and [Settle] hold of it. *)
Lemma raw_run_reachable es rw' fs :
  plain_folders (start d m c) →
  raw_fire_all es (raw_start d mj cj) = Some (rw', fs) →
  ∃ w', typed_of rw' = Some w' ∧ reachable (start d m c) w' ∧ fs = [].
Proof.
  intros Hp Hes.
  pose proof (raw_fire_all_typed es _ _ raw_start_view Hp) as Ha. revert Ha.
  rewrite Hes. rw /agree.
  destruct (fire_all es (start d m c)) as [w'|] eqn:Hw'; [|done].
  intros [? ->]. exists w'. split_and!; [done | | done].
  apply reachable_fire_all. by exists es.
Qed.

(** So what a run on values reaches is well formed: the page of the
    script shows exactly one of placeholder and image, requests only
    listed images, and shows the loading placeholder only while a request
    is in flight. *)
Lemma raw_run_wf es rw' fs data :
  one_shown d → phase_of d ≠ Loading → delivered m = Some data →
  plain_folders (start d m c) →
  raw_fire_all es (raw_start d mj cj) = Some (rw', fs) →
  ∃ w', typed_of rw' = Some w' ∧ wf d w' ∧ page (rest rw') = page w' ∧
    probes (rest rw') = probes w' ∧ image_load (rest rw') = image_load w'.
Proof.
  intros Hd Hph Hdata Hp Hes.
  destruct (raw_run_reachable es rw' fs Hp Hes) as (w' & Hw' & Hr & _).
  assert (wf d w') as Hwf
    by (clear Hw'; induction Hr; [by eapply start_wf | by eapply step_wf]).
  exists w'. by destruct (typed_rest rw' w' Hw') as (_ & _ & -> & -> & ->).
Qed.

(** C11. The typed model is what the script does. When the two bodies
    have the documented shape and no folder the application can select is
    the name of a built-in property, then from [init] on, over every run
    of clicks, timeouts and image events, the script on the values
    [response.json()] gave runs exactly when the typed model runs, ends in
    the world whose typed view is the world the typed model ends in, the
    console included, and none of its callbacks throws. *)
Theorem raw_program_typed es :
  plain_folders (start d m c) →
  agree (raw_fire_all es (raw_start d mj cj)) (fire_all es (start d m c)).
Proof.
  intros Hp. apply raw_fire_all_typed; [apply raw_start_view | done].
Qed.

End program.

(** ** The program on a manifest that is [null] *)

Section null_manifest_runs.
Context `{Engine}.
Context (d : dom) (mj cj : fetch_outcome value).
Context (Hmj : delivered mj = Some VNull).
Context (Hcj : ∀ rw, thrown (raw_loadCaptions cj) rw = None).

(** What [init] leaves is stuck. *)
Lemma raw_start_stuck : stuck (raw_start d mj cj).
Proof.
  destruct (raw_start_null d mj cj Hmj Hcj) as [Hn _].
  destruct (raw_start_failed_but_wired d mj cj Hmj Hcj)
    as ((_ & _ & ? & ?) & ? & ?).
  by split_and!.
Qed.

(** A manifest that is [null] is stored unchecked. [init] fails at
    its report, after the listeners were registered and the first pick was
    scheduled: the page shows the initialization failure while the
    application is wired. Over every run after it, the page keeps showing
    that failure and nothing is requested: every pick of the run, by a
    click or by the timeout, throws a [TypeError] at the read of line 126
    in a callback where nothing catches it, and no other callback
    throws. *)
Theorem raw_init_null_manifest es rw' fs :
  raw_fire_all es (raw_start d mj cj) = Some (rw', fs) →
  failed_but_wired (rest (raw_start d mj cj)) ∧
  stuck rw' ∧ length fs = length (filter is_pick es) ∧ Forall null_read fs.
Proof.
  intros Hes. split; [by destruct (raw_start_failed_but_wired d mj cj)|].
  exact (raw_fire_all_stuck es _ rw' fs raw_start_stuck Hes).
Qed.

End null_manifest_runs.

(** ** On the examples *)

Lemma raw_program_typed_witness :
  agree
    (raw_fire_all (H:=cautious_engine) demo_run
       (raw_start (H:=cautious_engine) demo_page
          (ok_response (encode demo_manifest)) demo_captions))
    (fire_all demo_run demo_start).
Proof.
  apply (raw_program_typed (H:=cautious_engine) eq_refl eq_refl eq_refl
           demo_page (ok_response (encode demo_manifest)) demo_captions
           (ok_response demo_manifest) (ok_response (Some ["Hi"])));
    [done | done |].
  apply (bool_decide_unpack _). by vm_compute.
Defined.

Lemma raw_init_null_manifest_witness :
  ∃ rw' fs,
    raw_fire_all (H:=cautious_engine)
      [ClickFolder 2 0; ClickGenerate 0 0; TimerFires 0 0]
      (raw_start (H:=cautious_engine) demo_page null_body demo_captions)
      = Some (rw', fs) ∧
    failed_but_wired
      (rest (raw_start (H:=cautious_engine) demo_page null_body demo_captions)) ∧
    stuck rw' ∧ length fs = 2 ∧ Forall null_read fs.
Proof.
  eexists _, _. split; [by vm_compute|].
  apply (raw_init_null_manifest (H:=cautious_engine) demo_page null_body
           demo_captions eq_refl demo_captions_loads
           [ClickFolder 2 0; ClickGenerate 0 0; TimerFires 0 0]).
  by vm_compute.
Defined.
