(* ===== verification/Double.v ===== *)
(** * Double: the product [Math.random() * n] in double precision

    [Random] computes [Math.floor(Math.random() * xs.length)] (lines
    105, 134 and 139 of [src/script.js]) on rationals, exactly. The
    browser computes it on IEEE 754 binary64 numbers: the draw is a
    double below 1, the length is an integer below [2 ^ 53] and so a
    double, and their product is the real product rounded to the
    nearest double, ties to the even significand. Rounding can move the
    product up, onto the next integer, so that the index the browser
    computes is not always the [random_index] of the draw it made
    ([third_rounds_up]); the question is whether it can move it up to
    [n], where the array has no element.

    The model counts in units of the least positive number of the
    format, [2 ^ - emin]: a finite non-negative number is an integer
    [m * 2 ^ j] with a significand [m < 2 ^ prec] ([representable]),
    the number 1 is [one = 2 ^ emin], and the real product of a draw
    [R] and a length [n] is the integer [R * n]. Subnormal numbers are
    the integers below [2 ^ (prec - 1)]; the largest exponent of the
    format is left out, since a product below [2 ^ prec] is far from it.
    [round] is the rounding of the format, as a function that computes;
    [Nearest] is what IEEE 754 asks of a rounding to nearest, whatever
    it does with ties, and [round] is an instance of it.

    The first Section holds the format, for any precision and exponent
    range; [double_index] is the source's expression at [prec = 53] and
    [emin = 1074]. The theorems show that [round] returns a number of
    the format that is as close as any ([round_nearest]) and leaves the
    numbers of the format alone ([round_representable_iff]); that the
    rounded product of a draw below 1 and a length stays below the
    length for every rounding to nearest ([product_below]), so that
    [double_index] is an index of the array ([double_index_lt]); and
    that it is the [random_index] of a rational draw in [0, 1), within
    one part in [2 ^ 53] of the double drawn ([round_error],
    [double_index_exact]), which is what makes the theorems of [Random]
    and of the files above it, stated for every draw, cover the
    browser's arithmetic.

    This file loads the Standard Library only. *)

From Stdlib Require Import ZArith QArith Qround Qabs Lia Bool.
From S2P Require Import Random.

Local Open Scope Z_scope.

(** ** The format *)

Section format.
Variables (prec emin : Z).

(** The finite non-negative numbers of the format, in units of
    [2 ^ - emin]. *)
Definition representable (x : Z) : Prop :=
  exists m j, 0 <= m < 2 ^ prec /\ 0 <= j /\ x = m * 2 ^ j.

(** The number 1. *)
Definition one : Z := 2 ^ emin.

(** The unit in the last place of the numbers that share the leading
    bit of [x], for [x] at or above [2 ^ prec]. *)
Definition ulp (x : Z) : Z := 2 ^ (Z.log2 x - (prec - 1)).

(** Rounding to nearest, ties to even: an integer below [2 ^ prec] is
    a number of the format; above, the significand is the quotient by
    [ulp x], and the remainder decides between it and its successor. *)
Definition round (x : Z) : Z :=
  if x <? 2 ^ prec then x else
  let q := x / ulp x in
  let r := x mod ulp x in
  if (2 * r <? ulp x) || ((2 * r =? ulp x) && Z.even q)
  then q * ulp x else (q + 1) * ulp x.

(** What IEEE 754 asks of a rounding to nearest: the result is a number
    of the format, and no number of the format is closer. *)
Class Nearest (rnd : Z -> Z) : Prop := {
  nearest_representable x : 0 <= x -> representable (rnd x);
  nearest_closest x y :
    0 <= x -> representable y -> Z.abs (rnd x - x) <= Z.abs (y - x) }.

(** The gap between 1 and the number of the format below it. *)
Definition gap : Z := 2 ^ (emin - prec).

(** [Math.floor] of a non-negative number. *)
Definition floor (x : Z) : Z := x / one.

End format.

Arguments nearest_representable {prec rnd _} x _.
Arguments nearest_closest {prec rnd _} x y _ _.

(** ** binary64 *)

(** 53 bits of significand; the least positive double is [2 ^ - 1074]. *)
Definition double (x : Z) : Prop := representable 53 x.

(** The values of [Math.random()]: the doubles [R] with [0 <= R < 1]. *)
Definition random_double (R : Z) : Prop := double R /\ 0 <= R < one 1074.

(** The same, as a test that computes. *)
Definition random_doubleb (R : Z) : bool :=
  (round 53 R =? R) && (0 <=? R) && (R <? one 1074).

(** The real number a double stands for. *)
Definition real (R : Z) : Q := R # Z.to_pos (one 1074).

(** [Math.floor(Math.random() * xs.length)] as the browser computes it,
    for the draw [R] and the length [n]. *)
Definition double_index (R : Z) (n : nat) : nat :=
  Z.to_nat (floor 1074 (round 53 (R * Z.of_nat n))).

(** The double nearest to a number of either sign: rounding to nearest
    is symmetric about zero. *)
Definition round_signed (x : Z) : Z := Z.sgn x * round 53 (Z.abs x).

(** [Math.floor(Math.random() * z)] for the draw [R] and an integer [z]
    of either sign, which is what the product is when the length read
    is not the length of an array. [Math.floor] rounds down, also below
    zero. *)
Definition floor_product (R z : Z) : Z := floor 1074 (round_signed (R * z)).

(** The real number in [0, 1) whose exact product with [n] is the
    rounded product of [R] and [n]. *)
Definition exact_draw (R : Z) (n : nat) : Q :=
  round 53 (R * Z.of_nat n) # Z.to_pos (Z.of_nat n * one 1074).

(** The largest double below one third, [(2 ^ 54 - 1) / 3] units of
    [2 ^ - 54]. *)
Definition third : Z := (2 ^ 54 - 1) / 3 * 2 ^ 1020.

(** ** Powers of two *)

Lemma pow2_pos (j : Z) : 0 <= j -> 0 < 2 ^ j.
Proof. intros Hj. apply Z.pow_pos_nonneg; lia. Qed.

(** Of two powers of two, the larger is a multiple of the smaller, or
    at most half of it. *)
Lemma pow2_split (j e : Z) :
  0 <= j -> 0 <= e ->
  (exists c, 1 <= c /\ 2 ^ j = 2 ^ e * c) \/ 2 * 2 ^ j <= 2 ^ e.
Proof.
  intros Hj He. destruct (Z_le_gt_dec e j) as [Hle|Hgt].
  - left. exists (2 ^ (j - e)). split.
    + pose proof (pow2_pos (j - e)). lia.
    + rewrite <- Z.pow_add_r by lia. f_equal. lia.
  - right. rewrite <- Z.pow_succ_r by lia. apply Z.pow_le_mono_r; lia.
Qed.

Lemma pow2_pred (p : Z) : 0 < p -> 2 ^ p = 2 * 2 ^ (p - 1).
Proof. intros Hp. rewrite <- Z.pow_succ_r by lia. f_equal. lia. Qed.

Lemma one_pos (emin : Z) : 0 <= emin -> 0 < one emin.
Proof. apply pow2_pos. Qed.

(** A multiple of [h] below another is below it by [h] at least. *)
Lemma multiple_below (a b h : Z) :
  0 < h -> a * h < b * h -> a * h <= b * h - h.
Proof. intros Hh Hlt. apply Z.mul_lt_mono_pos_r in Hlt; [nia | lia]. Qed.

(** ** The rounding of the format *)

Section rounding.
Variable prec : Z.
Hypothesis Hprec : 0 < prec.

(** At or above [2 ^ prec] the quotient by [ulp prec x] is a
    significand with its leading bit set. *)
Lemma binade (x : Z) :
  2 ^ prec <= x ->
  2 <= ulp prec x /\
  2 ^ (prec - 1) * ulp prec x <= x < 2 ^ prec * ulp prec x.
Proof.
  intros Hx. pose proof (pow2_pos prec) as Hp. unfold ulp.
  destruct (Z.log2_spec x) as [Hlo Hhi]; [lia|].
  assert (Hl : prec <= Z.log2 x) by (apply Z.log2_le_pow2; lia).
  rewrite <- !Z.pow_add_r by lia.
  replace (prec - 1 + _) with (Z.log2 x) by lia.
  replace (prec + _) with (Z.succ (Z.log2 x)) by lia.
  split; [|lia]. change 2 with (2 ^ 1) at 1. apply Z.pow_le_mono_r; lia.
Qed.

(** [round x] is one of the two multiples of a power of two around [x],
    the nearer one; below that power no number of the format is finer. *)
Lemma round_spec (x : Z) :
  0 <= x ->
  exists q s r,
    0 <= s /\ 0 <= q < 2 ^ prec /\ 0 <= r < 2 ^ s /\ x = q * 2 ^ s + r /\
    (s = 0 \/ 2 ^ (prec - 1) <= q) /\
    (round prec x = q * 2 ^ s /\ 2 * r <= 2 ^ s \/
     round prec x = (q + 1) * 2 ^ s /\ 2 ^ s <= 2 * r).
Proof.
  intros Hx. unfold round. destruct (Z.ltb_spec x (2 ^ prec)) as [Hlt|Hge].
  { exists x, 0, 0. rewrite Z.pow_0_r. repeat split; lia. }
  destruct (binade x Hge) as (Hs & Hlo & Hhi). unfold ulp in *. cbv zeta.
  set (s := Z.log2 x - (prec - 1)) in *.
  assert (Hs0 : 0 <= s).
  { destruct (Z_lt_le_dec s 0) as [Hn|]; [|lia].
    rewrite (Z.pow_neg_r 2 s Hn) in Hs. lia. }
  pose proof (Z.div_mod x (2 ^ s)) as Hdm.
  pose proof (Z.mod_pos_bound x (2 ^ s)) as Hr.
  exists (x / 2 ^ s), s, (x mod 2 ^ s).
  repeat split; try lia; try nia.
  destruct (Z.ltb_spec (2 * (x mod 2 ^ s)) (2 ^ s)); cbn [orb]; [left; lia|].
  destruct (Z.eqb_spec (2 * (x mod 2 ^ s)) (2 ^ s)); cbn [andb]; [|right; lia].
  destruct (Z.even _); [left|right]; lia.
Qed.

(** No number of the format lies strictly between two neighbouring
    significands at the exponent of [x]. *)
Lemma no_between (q s y : Z) :
  0 <= s -> s = 0 \/ 2 ^ (prec - 1) <= q -> representable prec y ->
  y <= q * 2 ^ s \/ (q + 1) * 2 ^ s <= y.
Proof.
  intros Hs Hq (m & j & Hm & Hj & ->).
  pose proof (pow2_pos s Hs) as Hd. pose proof (pow2_pos j Hj) as Hj2.
  destruct (pow2_split j s Hj Hs) as [(c & Hc & ->)|Hhalf].
  - destruct (Z_le_gt_dec (m * c) q); [left|right]; nia.
  - left. destruct Hq as [->|Hq]; [rewrite Z.pow_0_r in Hhalf; lia|].
    rewrite (pow2_pred prec Hprec) in Hm. nia.
Qed.

Lemma representable_0 : representable prec 0.
Proof. exists 0, 0. pose proof (pow2_pos prec). lia. Qed.

Lemma representable_nonneg (x : Z) : representable prec x -> 0 <= x.
Proof. intros (m & j & Hm & Hj & ->). pose proof (pow2_pos j Hj). nia. Qed.

(** No number of the format is closer to [x] than [round prec x]. *)
Lemma round_nearest (x y : Z) :
  0 <= x -> representable prec y ->
  Z.abs (round prec x - x) <= Z.abs (y - x).
Proof.
  intros Hx Hy.
  destruct (round_spec x Hx) as (q & s & r & Hs & Hq & Hr & -> & Hn & Hround).
  destruct (no_between q s y Hs Hn Hy); destruct Hround as [[-> ?]|[-> ?]]; lia.
Qed.

(** [round prec x] is a number of the format: when the significand
    overflows, the result is the least number of the next binade. *)
Lemma round_representable (x : Z) :
  0 <= x -> representable prec (round prec x).
Proof.
  intros Hx.
  destruct (round_spec x Hx)
    as (q & s & r & Hs & Hq & Hr & _ & _ & [[-> _]|[-> _]]).
  - exists q, s. lia.
  - destruct (Z_lt_le_dec (q + 1) (2 ^ prec)); [exists (q + 1), s; lia|].
    exists (2 ^ (prec - 1)), (s + 1).
    rewrite Z.pow_add_r, Z.pow_1_r by lia.
    pose proof (pow2_pred prec Hprec). pose proof (pow2_pos (prec - 1)).
    repeat split; try lia. nia.
Qed.

(** The error of the rounding is at most one part in [2 ^ prec] of the
    number rounded. *)
Lemma round_error (x : Z) :
  0 <= x -> 2 ^ prec * Z.abs (round prec x - x) <= x.
Proof.
  intros Hx.
  destruct (round_spec x Hx) as (q & s & r & Hs & Hq & Hr & -> & Hn & Hround).
  pose proof (pow2_pos s Hs). pose proof (pow2_pos (prec - 1)).
  rewrite (pow2_pred prec Hprec) in *.
  destruct Hn as [->|Hn]; [rewrite Z.pow_0_r in *|];
    destruct Hround as [[-> ?]|[-> ?]]; try lia; nia.
Qed.

(** Half way between two numbers of the format, the result is the one
    with the even significand. *)
Lemma round_ties_even (x : Z) :
  2 ^ prec <= x -> 2 * (x mod ulp prec x) = ulp prec x ->
  Z.even (round prec x / ulp prec x) = true.
Proof.
  intros Hx Htie. destruct (binade x Hx) as (Hu & _). unfold round.
  destruct (Z.ltb_spec x (2 ^ prec)); [lia|]. cbv zeta.
  rewrite Htie, Z.ltb_irrefl, Z.eqb_refl. cbn [orb andb].
  destruct (Z.even (x / ulp prec x)) eqn:He; rewrite Z.div_mul by lia;
    [exact He|]. rewrite Z.even_add, He. reflexivity.
Qed.

Lemma round_Nearest : Nearest prec (round prec).
Proof. split; [apply round_representable | apply round_nearest]. Qed.

(** The numbers of the format are the fixed points of the rounding. *)
Lemma round_representable_iff (x : Z) :
  0 <= x -> representable prec x <-> round prec x = x.
Proof.
  intros Hx. split; intros H.
  - pose proof (round_nearest x x Hx H). lia.
  - rewrite <- H. apply round_representable, Hx.
Qed.

End rounding.

(** ** The product of a draw and a length *)

Section product.
Variables (prec emin : Z) (rnd : Z -> Z).
Hypothesis Hprec : 0 < prec.
Hypothesis Hemin : prec <= emin.
Context {Hrnd : Nearest prec rnd}.

Local Abbreviation h := (gap prec emin).

Lemma gap_pos : 0 < h.
Proof. apply pow2_pos. lia. Qed.

Lemma one_split : one emin = 2 ^ prec * h.
Proof. unfold one, gap. rewrite <- Z.pow_add_r by lia. f_equal. lia. Qed.

(** A number of the format below 1 is at most the predecessor of 1. *)
Lemma below_one (R : Z) :
  representable prec R -> R < one emin -> R <= one emin - h.
Proof.
  rewrite one_split. intros (m & j & Hm & Hj & ->) Hlt.
  pose proof (pow2_pos j Hj) as Hj2. pose proof gap_pos as Hh.
  destruct (pow2_split j (emin - prec)) as [(c & Hc & Hjc)|Hhalf]; try lia;
    fold h in *.
  - rewrite Hjc in *. replace (m * (h * c)) with (m * c * h) in * by ring.
    apply multiple_below; assumption.
  - pose proof (pow2_pos prec). nia.
Qed.

(** A length below [2 ^ prec] lies in a binade. *)
Lemma length_binade (n : Z) :
  0 < n < 2 ^ prec -> exists k, 0 <= k < prec /\ 2 ^ k <= n < 2 * 2 ^ k.
Proof.
  intros Hn. exists (Z.log2 n).
  pose proof (Z.log2_nonneg n). destruct (Z.log2_spec n) as [Hlo Hhi]; [lia|].
  rewrite Z.pow_succ_r in Hhi by lia.
  split; [|lia]. split; [lia|]. apply Z.log2_lt_pow2; lia.
Qed.

(** Some number of the format below [n] is closer than [n] to every
    product of [n] and a number of the format below 1. *)
Lemma closer_than_length (n : Z) :
  0 < n < 2 ^ prec ->
  exists y, representable prec y /\
    forall x, x <= n * (one emin - h) -> Z.abs (y - x) < n * one emin - x.
Proof.
  intros Hn. destruct (length_binade n Hn) as (k & Hk & Hlo & Hhi).
  pose proof gap_pos as Hh.
  pose proof (pow2_pos k) as Ha. pose proof (pow2_pos (prec - 1 - k)) as Hb.
  assert (Hab : 2 ^ prec = 2 * (2 ^ k * 2 ^ (prec - 1 - k))).
  { rewrite <- Z.pow_add_r, (pow2_pred prec) by lia. do 2 f_equal. lia. }
  rewrite one_split.
  destruct (Z.eq_dec n (2 ^ k)) as [->|Hne].
  - exists ((2 ^ prec - 1) * 2 ^ (k + (emin - prec))). split.
    + eexists _, _. split; [|split; [|reflexivity]]; lia.
    + intros x Hx. rewrite Z.pow_add_r by lia. fold h. nia.
  - exists ((n * 2 ^ (prec - 1 - k) - 1) * 2 ^ (k + 1 + (emin - prec))). split.
    + eexists _, _. split; [|split; [|reflexivity]]; [nia|lia].
    + intros x Hx. rewrite !Z.pow_add_r, Z.pow_1_r by lia. fold h.
      rewrite Hab in *. nia.
Qed.

(** The rounded product of a draw and a length is not negative and
    stays below the length. *)
Lemma product_below (R n : Z) :
  representable prec R -> 0 <= R < one emin -> 0 < n < 2 ^ prec ->
  0 <= rnd (R * n) < n * one emin.
Proof.
  intros HR Hlt Hn. pose proof (below_one R HR (proj2 Hlt)) as Hle.
  assert (Hx : 0 <= R * n <= n * (one emin - h)) by nia.
  pose proof (nearest_closest (R * n) 0 (proj1 Hx) (representable_0 prec Hprec)).
  destruct (closer_than_length n Hn) as (y & Hy & Hclose).
  pose proof (nearest_closest (R * n) y (proj1 Hx) Hy).
  pose proof (Hclose (R * n) (proj2 Hx)). lia.
Qed.

Lemma one_emin_pos : 0 < one emin.
Proof. apply one_pos. lia. Qed.

(** An integer below [2 ^ prec] is a number of the format. *)
Lemma representable_integer (k : Z) :
  0 <= k < 2 ^ prec -> representable prec (k * one emin).
Proof. intros Hk. exists k, emin. unfold one. lia. Qed.

(** [Math.floor] of the rounded product is below the length. *)
Lemma floor_product_below (R n : Z) :
  representable prec R -> 0 <= R < one emin -> 0 < n < 2 ^ prec ->
  0 <= floor emin (rnd (R * n)) < n.
Proof.
  intros HR Hlt Hn. destruct (product_below R n HR Hlt Hn) as [H0 H1].
  pose proof one_emin_pos. unfold floor. split.
  - apply Z.div_pos; lia.
  - apply Z.div_lt_upper_bound; lia.
Qed.

(** Rounding does not cross an integer: [Math.floor] of the rounded
    product is [Math.floor] of the real product, or the next integer. *)
Lemma floor_product_near (R n : Z) :
  representable prec R -> 0 <= R < one emin -> 0 < n < 2 ^ prec ->
  floor emin (R * n) <= floor emin (rnd (R * n)) <= floor emin (R * n) + 1.
Proof.
  intros HR Hlt Hn. pose proof one_emin_pos as H1. unfold floor.
  set (x := R * n). set (k := x / one emin).
  assert (Hx : 0 <= x < n * one emin) by (unfold x; nia).
  pose proof (Z.mul_div_le x (one emin) H1) as Hlo.
  pose proof (Z.mul_succ_div_gt x (one emin) H1) as Hhi. fold k in Hlo, Hhi.
  assert (Hk : 0 <= k < n).
  { split; [apply Z.div_pos | apply Z.div_lt_upper_bound]; lia. }
  pose proof (nearest_closest x _ (proj1 Hx) (representable_integer k ltac:(lia))).
  pose proof (nearest_closest x _ (proj1 Hx)
                (representable_integer (k + 1) ltac:(lia))).
  split; [apply Z.div_le_lower_bound | apply Z.div_le_upper_bound]; lia.
Qed.

End product.

(** ** Fractions *)

Lemma unit_fraction (F D : Z) : 0 <= F < D -> unit_draw (F # Z.to_pos D).
Proof.
  intros HF. unfold unit_draw, Qle, Qlt. cbn [Qnum Qden].
  rewrite Z2Pos.id by lia. lia.
Qed.

Lemma Qfloor_scaled (F n d : Z) :
  0 < n -> 0 < d -> Qfloor ((F # Z.to_pos (n * d)) * inject_Z n) = F / d.
Proof.
  intros Hn Hd. unfold Qfloor, Qmult, inject_Z. cbn [Qnum Qden].
  rewrite Pos.mul_1_r, Z2Pos.id, (Z.mul_comm n d) by nia.
  apply Z.div_mul_cancel_r; lia.
Qed.

Lemma Qfloor_fraction (F n d : Z) :
  0 < d -> Qfloor ((F # Z.to_pos d) * inject_Z n) = F * n / d.
Proof.
  intros Hd. unfold Qfloor, Qmult, inject_Z. cbn [Qnum Qden].
  rewrite Pos.mul_1_r, Z2Pos.id by lia. reflexivity.
Qed.

(** ** binary64 *)

#[export] Instance binary64_round : Nearest 53 (round 53) :=
  round_Nearest 53 eq_refl.

Lemma binary64_range : 53 <= 1074.
Proof. lia. Qed.

Lemma random_doubleb_spec (R : Z) : random_doubleb R = true <-> random_double R.
Proof.
  unfold random_doubleb, random_double, double.
  rewrite !andb_true_iff, Z.eqb_eq, Z.leb_le, Z.ltb_lt.
  split; [intros [[Hr H0] H1] | intros [Hd [H0 H1]]]; repeat split;
    try assumption; apply (round_representable_iff 53 eq_refl R H0); assumption.
Qed.

(** [round] is the rounding of IEEE 754: its result is a double, no
    double is closer to the real number rounded, and of two doubles
    equally close it returns the one with the even significand. *)
Theorem round_nearest_even (x y : Z) :
  0 <= x -> double y ->
  double (round 53 x) /\
  Z.abs (round 53 x - x) <= Z.abs (y - x) /\
  (2 ^ 53 <= x -> 2 * (x mod ulp 53 x) = ulp 53 x ->
   Z.even (round 53 x / ulp 53 x) = true).
Proof.
  intros Hx Hy. split; [apply round_representable; [reflexivity|exact Hx]|].
  split; [apply round_nearest; [reflexivity|exact Hx|exact Hy]|].
  apply round_ties_even. reflexivity.
Qed.

Lemma round_nearest_even_witness :
  double (round 53 (3 * third)) /\
  Z.abs (round 53 (3 * third) - 3 * third) <= Z.abs (one 1074 - 3 * third) /\
  (2 ^ 53 <= 3 * third -> 2 * (3 * third mod ulp 53 (3 * third)) = ulp 53 (3 * third) ->
   Z.even (round 53 (3 * third) / ulp 53 (3 * third)) = true).
Proof.
  apply (round_nearest_even (3 * third) (one 1074)); [vm_compute; discriminate|].
  exists 1, 1074. vm_compute. repeat split; discriminate.
Defined.

(** The index the browser computes is an index of the array: rounding
    the product to the nearest double never reaches the length. *)
Theorem double_index_lt (R : Z) (n : nat) :
  random_double R -> (0 < n)%nat -> Z.of_nat n < 2 ^ 53 ->
  (double_index R n < n)%nat.
Proof.
  intros [HR Hlt] Hn Hmax. unfold double_index.
  pose proof (floor_product_below 53 1074 (round 53) eq_refl binary64_range
                R (Z.of_nat n) HR Hlt). lia.
Qed.

Lemma double_index_lt_witness : (double_index third 3 < 3)%nat.
Proof.
  apply (double_index_lt third 3); [|lia|reflexivity].
  apply random_doubleb_spec. vm_compute. reflexivity.
Defined.

(** The index the browser computes is the exact index of a real draw
    in [0, 1), also on an empty array, where both are 0: what [Random]
    proves for every draw holds of it. *)
Lemma exact_draw_index (R : Z) (n : nat) :
  random_double R -> Z.of_nat n < 2 ^ 53 ->
  unit_draw (exact_draw R n) /\
  double_index R n = random_index (exact_draw R n) n.
Proof.
  intros [HR Hlt] Hmax. destruct (Nat.eq_dec n 0) as [->|Hn].
  { unfold exact_draw, double_index. cbn [Z.of_nat].
    rewrite random_index_0, Z.mul_0_r. vm_compute. repeat split. discriminate. }
  pose proof (product_below 53 1074 (round 53) eq_refl binary64_range
                R (Z.of_nat n) HR Hlt ltac:(lia)) as HF.
  split; [apply unit_fraction, HF|].
  unfold double_index, random_index, exact_draw, floor.
  rewrite Qfloor_scaled; [reflexivity | lia | apply one_pos; lia].
Qed.

(** On a number that is not negative the signed rounding is [round]. *)
Lemma round_signed_nonneg (x : Z) : 0 <= x -> round_signed x = round 53 x.
Proof.
  intros Hx. unfold round_signed. destruct (Z.eq_dec x 0) as [->|Hne].
  - reflexivity.
  - rewrite Z.sgn_pos, Z.abs_eq by lia. lia.
Qed.

(** Rounding a negative number is rounding its opposite. *)
Lemma round_signed_opp (x : Z) : round_signed (- x) = - round_signed x.
Proof. unfold round_signed. rewrite Z.sgn_opp, Z.abs_opp. lia. Qed.

(** The product with the length of an array, floored, is the index
    [double_index] computes. *)
Lemma floor_product_index (R : Z) (n : nat) :
  0 <= R -> floor_product R (Z.of_nat n) = Z.of_nat (double_index R n).
Proof.
  intros HR. unfold floor_product, double_index.
  rewrite round_signed_nonneg by lia. rewrite Z2Nat.id; [reflexivity|].
  apply Z.div_pos; [|apply one_pos; lia].
  apply (representable_nonneg 53 eq_refl), round_representable; lia.
Qed.

(** The index the browser computes is the exact index of the draw it
    made, or the next one. *)
Lemma double_index_near (R : Z) (n : nat) :
  random_double R -> (0 < n)%nat -> Z.of_nat n < 2 ^ 53 ->
  (random_index (real R) n <= double_index R n <= S (random_index (real R) n))%nat.
Proof.
  intros [HR Hlt] Hn Hmax. unfold double_index, random_index, real.
  rewrite Qfloor_fraction by (apply one_pos; lia).
  pose proof (floor_product_near 53 1074 (round 53) eq_refl binary64_range
                R (Z.of_nat n) HR Hlt ltac:(lia)) as Hnear.
  assert (0 <= R * Z.of_nat n / one 1074)
    by (apply Z.div_pos; [nia | apply one_pos; lia]).
  unfold floor in *. lia.
Qed.

(** The real draw that stands for a double differs from it by one part
    in [2 ^ 53] at most. *)
Lemma exact_draw_close (R : Z) (n : nat) :
  random_double R -> (0 < n)%nat ->
  (Qabs (exact_draw R n - real R) <= real R * (1 # 2 ^ 53))%Q.
Proof.
  intros [HR Hlt] Hn. pose proof (one_pos 1074 ltac:(lia)) as H1.
  pose proof (round_error 53 eq_refl (R * Z.of_nat n) ltac:(nia)) as He.
  unfold exact_draw, real, Qle, Qminus, Qplus, Qopp, Qabs, Qmult.
  cbn [Qnum Qden]. set (F := round 53 (R * Z.of_nat n)) in *.
  rewrite !Pos2Z.inj_mul, !Z2Pos.id by nia.
  replace (F * one 1074 + - R * (Z.of_nat n * one 1074))
    with ((F - R * Z.of_nat n) * one 1074) by ring.
  rewrite Z.abs_mul, (Z.abs_eq (one 1074)) by lia.
  change (Z.pos (2 ^ 53)) with (2 ^ 53). nia.
Qed.

(** C38. What the browser computes and what [Random] computes: the index on
    doubles is the exact index of a real draw in [0, 1), so that what
    holds of [random_index] for every draw holds of it. That draw is not
    always the one the browser made, but within one part in [2 ^ 53] of
    it, and the exact index of the browser's draw is the index computed
    or the one before. *)
Theorem double_index_exact (R : Z) (n : nat) :
  random_double R -> (0 < n)%nat -> Z.of_nat n < 2 ^ 53 ->
  unit_draw (exact_draw R n) /\
  double_index R n = random_index (exact_draw R n) n /\
  (Qabs (exact_draw R n - real R) <= real R * (1 # 2 ^ 53))%Q /\
  (random_index (real R) n <= double_index R n
   <= S (random_index (real R) n))%nat.
Proof.
  intros HR Hn Hmax. destruct (exact_draw_index R n HR Hmax) as [Hu Hi].
  split; [exact Hu|]. split; [exact Hi|].
  split; [apply exact_draw_close | apply double_index_near]; assumption.
Qed.

Lemma double_index_exact_witness :
  unit_draw (exact_draw third 3) /\
  double_index third 3 = random_index (exact_draw third 3) 3 /\
  (Qabs (exact_draw third 3 - real third) <= real third * (1 # 2 ^ 53))%Q /\
  (random_index (real third) 3 <= double_index third 3
   <= S (random_index (real third) 3))%nat.
Proof.
  apply (double_index_exact third 3); [|lia|reflexivity].
  apply random_doubleb_spec. vm_compute. reflexivity.
Defined.

(** The double below one third, times three, rounds to 1: the browser
    picks the second of three elements where the real product picks
    the first. *)
Example third_rounds_up :
  random_doubleb third = true /\
  double_index third 3 = 1%nat /\ random_index (real third) 3 = 0%nat.
Proof. vm_compute. repeat split. Qed.
