(* ===== verification/Program.v ===== *)
(** * Program: the script as the browser runs it

    The files below this one each take a step away from the browser:
    [Selector] and [Events] take the values of [Math.random()] as
    rationals and compute the index exactly, [Loader] runs [init] in one
    step from the two answers, [Spec] reads the fields of the generator
    as the state of the Selector of the specification. This file puts
    the steps together.

    [double_selectFolder] and [double_generateRandomImage] are the two
    methods that draw (lines 102-112 and 123-148 of [src/script.js]) with
    the draw a double and the index [double_index] of [Double], which is
    what the browser computes at lines 105, 134 and 139. [input] are the
    events of the page with doubles for draws and [double_fire] the
    callback each runs, as [fire] of [Events] does on rationals.
    [exact] is the event on rationals that stands for an input: its
    draws are the real numbers whose exact product with the length is
    the rounded product of the double. [program_event] are the events
    of the whole program, the promises of [init] and the inputs, and
    [program_fire] delivers one: a promise where [init] waits for it, an
    input to the callback the script has registered for it. [js_arrays]
    is the bound of ECMAScript on the length of an array, [2 ^ 32 - 1].

    The theorems show that on arrays of that size each method on doubles
    is the method on rationals at the exact draws
    ([double_generateRandomImage_exact], [double_selectFolder_exact]);
    that every run of inputs from the world [init] leaves is a run of
    [Events] that ends in the same world ([double_fire_all_exact]); that
    no input runs while [init] waits or after a failed load
    ([double_fire_inert]) and none writes the manifest or the captions
    ([double_fire_data]); and, as the statement that closes the
    development, that in every run of the program from the constructor
    on that lets [init] settle the promises come first and the inputs
    after them, the world the browser is in is the one the events of
    [Boot] lead to at the exact draws, it is reachable in [Events], and
    its fields are the state the Selector of the specification reaches
    on the same events ([program_refines]). *)

From Stdlib Require Import QArith.
From S2P Require Import Prelude Random Double Browser Display Selector.
From S2P Require Import Loader Events Boot Spec.

(** ** The methods that draw *)

(** [selectFolder(folder)], lines 102-112; [R] is the double
    [Math.random()] returns at line 105. *)
Definition double_selectFolder (folder : string) (R : Z) (w : world) : world :=
  (if decide (folder = "random")
   then w |> upd_app (set_currentFolder
                (js_str (folders !! double_index R (length folders))))
   else w |> upd_app (set_currentFolder folder))
    |> updateFolderButtons
    |> (λ w', w' |> console_write LogInfo
                      [LStr ("📂 Selected: " +:+ currentFolder (app w'))]).

(** [generateRandomImage()], lines 123-148; [R1] and [R2] are the
    doubles [Math.random()] returns at lines 134 and 139. *)
Definition double_generateRandomImage (R1 R2 : Z) (w : world) : world :=
  let folder := currentFolder (app w) in
  let w0 :=
    w |> console_write LogInfo
           [LStr ("🎲 Generating random image from " +:+ folder +:+ "...")] in
  match imageManifest (app w) !! folder with
  | None | Some [] => displayError (no_images_message folder) w0
  | Some images =>
      let randomIndex := double_index R1 (length images) in
      let imageFile := images !! randomIndex in
      let imagePath := folder +:+ "/" +:+ js_str imageFile in
      let captionIndex := double_index R2 (length (captions (app w))) in
      let caption := captions (app w) !! captionIndex in
      w0 |> console_write LogInfo [LStr ("🖼️ Loading: " +:+ imagePath)]
         |> console_write LogInfo [LStr ("💬 Caption: " +:+ js_str caption)]
         |> displayImage imagePath
         |> displayCaption caption
  end.

(** ** The events of the page *)

(** The events of [Events], the draws as doubles. *)
Inductive input : Type :=
  | DClickFolder (i : nat) (R : Z)
  | DClickGenerate (R1 R2 : Z)
  | DTimerFires (R1 R2 : Z)
  | DProbeLoads (i : nat)
  | DProbeFails (i : nat)
  | DImageLoads
  | DImageFails.

#[export] Instance random_double_dec R : Decision (random_double R).
Proof.
  refine (cast_if (decide (random_doubleb R = true)));
    by rewrite <- random_doubleb_spec.
Defined.

(** The images of the current folder, none when the manifest has no
    such folder. *)
Definition current_images (w : world) : list string :=
  default [] (imageManifest (app w) !! currentFolder (app w)).

(** The event on rationals that stands for an input, when the images
    of the current folder are [n1] and the captions [n2]. *)
Definition exact_at (n1 n2 : nat) (e : input) : event :=
  match e with
  | DClickFolder i R => ClickFolder i (exact_draw R (length folders))
  | DClickGenerate R1 R2 => ClickGenerate (exact_draw R1 n1) (exact_draw R2 n2)
  | DTimerFires R1 R2 => TimerFires (exact_draw R1 n1) (exact_draw R2 n2)
  | DProbeLoads i => ProbeLoads i
  | DProbeFails i => ProbeFails i
  | DImageLoads => ImageLoads
  | DImageFails => ImageFails
  end.

(** The event on rationals that stands for an input in the world [w]. *)
Definition exact (w : world) (e : input) : event :=
  exact_at (length (current_images w)) (length (captions (app w))) e.

(** The callback an input runs: the listeners of lines 89-91 and 94-96
    and the callback of the timeout of line 99 draw; the handlers of
    the images are those of [Events]. *)
Definition double_fire (e : input) (w : world) : option world :=
  match e with
  | DClickFolder i R =>
      match folder_btns (page w) !! i with
      | Some b =>
          if decide (wired w = true ∧ random_double R)
          then Some (double_selectFolder (data_folder b) R w) else None
      | None => None
      end
  | DClickGenerate R1 R2 =>
      if decide (wired w = true ∧ random_double R1 ∧ random_double R2)
      then Some (double_generateRandomImage R1 R2 w) else None
  | DTimerFires R1 R2 =>
      if decide (timer w = true ∧ random_double R1 ∧ random_double R2)
      then Some (w |> set_timer false |> double_generateRandomImage R1 R2)
      else None
  | _ => fire (exact w e) w
  end.

Fixpoint double_fire_all (es : list input) (w : world) : option world :=
  match es with
  | [] => Some w
  | e :: es => w' ← double_fire e w; double_fire_all es w'
  end.

(** The events on rationals that stand for a run of inputs from [w]. *)
Fixpoint exact_run (es : list input) (w : world) : list event :=
  match es with
  | [] => []
  | e :: es =>
      exact w e ::
        match double_fire e w with
        | Some w' => exact_run es w'
        | None => []
        end
  end.

(** ** The events of the program *)

(** What the browser delivers from the constructor on: a promise of
    [init] settles, or an input of the page arrives. *)
Inductive program_event : Type :=
  | Promise (e : boot_event)
  | Input (e : input).

(** A promise settles where [init] waits for it, as in [Boot]; an input
    runs its callback if the script has registered one. *)
Definition program_fire (e : program_event) (s : stage * world)
    : option (stage * world) :=
  match e with
  | Promise e => if is_network e then boot_fire e s else None
  | Input e => pair s.1 <$> double_fire e s.2
  end.

Fixpoint program_fire_all (es : list program_event) (s : stage * world)
    : option (stage * world) :=
  match es with
  | [] => Some s
  | e :: es => s' ← program_fire e s; program_fire_all es s'
  end.

(** The length of an array is below [2 ^ 32] in ECMAScript. *)
Definition js_array {A} (l : list A) : Prop := (Z.of_nat (length l) < 2 ^ 32)%Z.

(** The arrays of the generator are arrays of ECMAScript. *)
Definition js_arrays (m : manifest) (cs : list string) : Prop :=
  map_Forall (λ _ images, js_array images) m ∧ js_array cs.

#[export] Instance js_arrays_dec m cs : Decision (js_arrays m cs).
Proof. rw /js_arrays /js_array. apply _. Defined.

(** The world a run of inputs leads to, the world itself when the run
    cannot be made. *)
Definition double_run_from (w : world) (es : list input) : world :=
  default w (double_fire_all es w).

(** A run of the example on doubles. The draw is the double below one
    third: the random button selects [Leylah], the second of the three
    candidates, and the pick fails on the empty folder; then [Lilia] is
    selected, a pick is made, its probe loads and the image loads. *)
Definition demo_inputs : list input :=
  [DClickFolder 3 third; DClickGenerate third third;
   DClickFolder 0 third; DClickGenerate third third;
   DProbeLoads 0; DImageLoads].

(** The run of the program in which the two sources of the example
    answer and these inputs follow. *)
Definition demo_events : list program_event :=
  (Promise <$> network (ok_response demo_manifest) (ok_response (Some ["Hi"])))
    ++ (Input <$> demo_inputs).

(** ** Reading an array at the index computed on doubles *)

Lemma exact_draw_unit {A} (l : list A) R :
  random_double R → js_array l → unit_draw (exact_draw R (length l)).
Proof. intros HR Hl. apply exact_draw_index; [done|]. rw /js_array in Hl. lia. Qed.

Lemma double_lookup_exact {A} (l : list A) R :
  random_double R → js_array l →
  l !! double_index R (length l)
    = l !! random_index (exact_draw R (length l)) (length l).
Proof.
  intros HR Hl. destruct (exact_draw_index R (length l) HR) as [_ ->]; [|done].
  rw /js_array in Hl. lia.
Qed.

Lemma js_array_folders : js_array folders.
Proof. done. Qed.

(** ** The methods on doubles are the methods at the exact draws *)

Lemma double_selectFolder_exact folder R w :
  random_double R →
  double_selectFolder folder R w
    = selectFolder folder (exact_draw R (length folders)) w.
Proof.
  intros HR. rw /double_selectFolder /selectFolder.
  by rewrite (double_lookup_exact folders R HR js_array_folders).
Qed.

Lemma generateRandomImage_at R1 R2 w :
  js_array (current_images w) → js_array (captions (app w)) →
  random_double R1 → random_double R2 →
  unit_draw (exact_draw R1 (length (current_images w))) ∧
  unit_draw (exact_draw R2 (length (captions (app w)))) ∧
  double_generateRandomImage R1 R2 w
    = generateRandomImage (exact_draw R1 (length (current_images w)))
        (exact_draw R2 (length (captions (app w)))) w.
Proof.
  intros Hi Hc H1 H2. split_and!; [by apply exact_draw_unit..|].
  rw /double_generateRandomImage /generateRandomImage.
  rw /current_images in Hi |- *.
  destruct (imageManifest (app w) !! currentFolder (app w))
    as [[|file images]|]; [done| |done].
  change (default [] (Some (file :: images))) with (file :: images) in *.
  cbv zeta.
  by rewrite (double_lookup_exact _ R1 H1 Hi), (double_lookup_exact _ R2 H2 Hc).
Qed.

(** On arrays of ECMAScript, [generateRandomImage] as the browser
    computes it, the two draws doubles and the products rounded, is
    [generateRandomImage] of [Selector] at two real draws in [0, 1):
    every theorem on the method that holds for all draws holds in the
    browser. *)
Theorem double_generateRandomImage_exact R1 R2 w :
  js_arrays (imageManifest (app w)) (captions (app w)) →
  random_double R1 → random_double R2 →
  let r1 := exact_draw R1 (length (current_images w)) in
  let r2 := exact_draw R2 (length (captions (app w))) in
  unit_draw r1 ∧ unit_draw r2 ∧
  double_generateRandomImage R1 R2 w = generateRandomImage r1 r2 w.
Proof.
  intros [Hm Hc] H1 H2 r1 r2. apply generateRandomImage_at; try done.
  rw /current_images. destruct (_ !! _) as [images|] eqn:Hf; [|done].
  by apply Hm in Hf.
Qed.

(** ** Runs of inputs are runs of events *)

Lemma js_array_current m cs w :
  js_arrays m cs → loaded_as m cs true w →
  js_array (current_images w) ∧ js_array (captions (app w)).
Proof.
  intros [Hm Hc] (<- & <- & _). split; [|done]. rw /current_images.
  destruct (_ !! _) as [images|] eqn:Hf; [by apply Hm in Hf | done].
Qed.

(** The callback of an input is the callback of its event. *)
Lemma double_fire_exact m cs e w w' :
  js_arrays m cs → loaded_as m cs true w →
  double_fire e w = Some w' → fire (exact w e) w = Some w'.
Proof.
  intros Hjs Hw. destruct (js_array_current m cs w Hjs Hw) as [Hi Hc].
  destruct e as [i R|R1 R2|R1 R2| | | |]; try done;
    rw /double_fire /exact /exact_at /fire.
  - destruct (folder_btns (page w) !! i) as [b|]; [|done].
    case_decide as H; [|done]. destruct H as [? HR]. intros [= <-].
    rw /on_folder_click -double_selectFolder_exact //. rewrite decide_True; [done|].
    split; [done|]. by apply exact_draw_unit.
  - case_decide as H; [|done]. destruct H as (? & H1 & H2). intros [= <-].
    destruct (generateRandomImage_at R1 R2 w Hi Hc H1 H2) as (? & ? & ->).
    by rewrite decide_True.
  - case_decide as H; [|done]. destruct H as (? & H1 & H2). intros [= <-].
    destruct (generateRandomImage_at R1 R2 (set_timer false w) Hi Hc H1 H2)
      as (? & ? & ->).
    by rewrite decide_True.
Qed.

Lemma double_fire_all_exact m cs es w w' :
  js_arrays m cs → loaded_as m cs true w →
  double_fire_all es w = Some w' → fire_all (exact_run es w) w = Some w'.
Proof.
  intros Hjs. revert w. induction es as [|e es IH]; intros w Hw; [done|].
  simpl. destruct (double_fire e w) as [w1|] eqn:He; [|done]. simpl.
  apply (double_fire_exact m cs) in He as Hf; [|done..]. rewrite Hf. simpl.
  apply IH. apply fire_step in Hf.
  by apply (step_preserves (loaded_as m cs true) w (exact w e)).
Qed.

Lemma exact_run_length es w w' :
  double_fire_all es w = Some w' → length (exact_run es w) = length es.
Proof.
  revert w. induction es as [|e es IH]; intros w; [done|]. simpl.
  destruct (double_fire e w) as [w1|]; [|done]. simpl. intros Hes.
  f_equal. by apply IH.
Qed.

(** What [init] leaves when the Selector can load. *)
Lemma start_loaded d m c s0 :
  sel_load m c = Some s0 →
  loaded_as (image_manifest s0) (caption_set s0) true (start d m c).
Proof.
  rw /sel_load. destruct (delivered m) as [data|] eqn:Hm; [|done].
  intros [= <-].
  by apply (start_invariant d m c (loaded_as data (captions_after c) true) data).
Qed.

(** ** The whole program *)

(** When [init] has settled with answers the Selector can load from:
    a run of inputs is the run of its events, from the constructor on,
    and ends in the state of the Selector. *)
Lemma settled_refines d m c s0 ins w :
  sel_load m c = Some s0 →
  js_arrays (image_manifest s0) (caption_set s0) →
  double_fire_all ins (start d m c) = Some w →
  let ps := exact_run ins (start d m c) in
  boot_fire_all (network m c ++ (PageEvent <$> ps)) (entry d)
    = Some (Settled, w) ∧
  reachable (start d m c) w ∧
  abs w = sel_run (data_folder <$> folder_btns d) ps s0.
Proof.
  intros Hl Hjs Hes ps.
  assert (fire_all ps (start d m c) = Some w) as Hps
    by by eapply double_fire_all_exact, Hes; [|apply start_loaded].
  destruct (start_abs d m c s0 Hl) as [Hd <-].
  split_and!; [| | by apply fire_all_abs].
  - rewrite boot_fire_all_app, boot_network. simpl.
    by rewrite boot_fire_all_page, Hps.
  - apply reachable_fire_all. by exists ps.
Qed.

(** *** Inputs while [init] waits, and after a failed load *)

(** Without listeners, timer and requests no input runs a callback. *)
Lemma double_fire_inert e w : inert w → double_fire e w = None.
Proof.
  intros Hw. pose proof Hw as (Hl & Ht & _).
  destruct e as [i R|R1 R2|R1 R2|i|i| |]; rw /double_fire.
  1: destruct (folder_btns (page w) !! i); [|done].
  1-3: case_decide as H; [destruct H; congruence | done].
  all: destruct (fire _ w) as [w'|] eqn:Hf; [|done].
  all: by apply fire_step, inert_stuck in Hf.
Qed.

Lemma double_fire_all_inert ins w w' :
  inert w → double_fire_all ins w = Some w' → ins = [] ∧ w' = w.
Proof.
  intros Hw. destruct ins as [|e ins]; simpl; [by intros [= <-]|].
  by rewrite double_fire_inert.
Qed.

Lemma start_failed_inert d m c : delivered m = None → inert (start d m c).
Proof. intros Hm. rw /inert /start. by rewrite !init_quiet, Hm. Qed.

(** *** No input writes the manifest or the captions *)

Lemma double_fire_data e w w' :
  double_fire e w = Some w' →
  imageManifest (app w') = imageManifest (app w) ∧
  captions (app w') = captions (app w).
Proof.
  destruct e; rw /double_fire; intros Hf;
    [repeat case_match; simplify_eq..| | | | ].
  1-3: rw /double_selectFolder /double_generateRandomImage;
    by repeat case_match.
  all: apply fire_step in Hf;
    by apply (step_preserves
                (loaded_as (imageManifest (app w)) (captions (app w))
                   (wired w)) w) in Hf as (? & ? & _).
Qed.

Lemma double_fire_all_data ins w w' :
  double_fire_all ins w = Some w' →
  imageManifest (app w') = imageManifest (app w) ∧
  captions (app w') = captions (app w).
Proof.
  revert w. induction ins as [|e ins IH]; intros w; [by intros [= <-]|].
  simpl. destruct (double_fire e w) as [w1|] eqn:He; [|done]. simpl.
  intros [-> ->]%IH. by apply double_fire_data in He.
Qed.

(** *** A run splits at the end of [init] *)

Lemma program_fire_all_settled es w s :
  program_fire_all es (Settled, w) = Some s →
  ∃ ins, es = Input <$> ins ∧ s.1 = Settled ∧
    double_fire_all ins w = Some s.2.
Proof.
  revert w. induction es as [|e es IH]; intros w.
  { intros [= <-]. by exists []. }
  destruct e as [[]|e]; try done. simpl.
  destruct (double_fire e w) as [w1|] eqn:He; [|done]. simpl.
  intros (ins & -> & ? & ?)%IH. exists (e :: ins). by rw /= He.
Qed.

Lemma program_run_splits d es s w :
  waiting d s → program_fire_all es s = Some (Settled, w) →
  ∃ ns ins w1,
    es = (Promise <$> ns) ++ (Input <$> ins) ∧
    Forall (λ e, is_network e = true) ns ∧
    boot_fire_all ns s = Some (Settled, w1) ∧
    double_fire_all ins w1 = Some w.
Proof.
  revert s. induction es as [|e es IH]; intros s Hw; simpl.
  { intros [= ->]. by destruct Hw as [? _]. }
  destruct e as [e|e]; simpl;
    [|by rewrite (double_fire_inert e s.2) by apply Hw].
  destruct (is_network e) eqn:Hn; [|done].
  destruct (boot_fire e s) as [s1|] eqn:He; [|done]. simpl. intros Hes.
  destruct (waiting_step d s e s1 Hw He) as [_ [Hs1 | [Hw1 _]]].
  - destruct s1 as [st1 w1]. simpl in Hs1. subst st1.
    apply program_fire_all_settled in Hes as (ins & -> & _ & Hins).
    exists [e], ins, w1.
    split_and!; [done | by constructor | by rw /= He | done].
  - destruct (IH s1 Hw1 Hes) as (ns & ins & w1 & -> & Hns & Hrun & Hins).
    exists (e :: ns), ins, w1.
    split_and!; [done | by constructor | by rw /= He | done].
Qed.

(** When [init] has settled, whether the load failed or not. *)
Lemma after_init d m c ins w :
  double_fire_all ins (start d m c) = Some w →
  js_arrays (imageManifest (app w)) (captions (app w)) →
  let ps := exact_run ins (start d m c) in
  boot_fire_all (network m c ++ (PageEvent <$> ps)) (entry d)
    = Some (Settled, w) ∧
  reachable (start d m c) w ∧
  ∀ s0, sel_load m c = Some s0 →
    abs w = sel_run (data_folder <$> folder_btns d) ps s0.
Proof.
  intros Hins Hjs ps. destruct (sel_load m c) as [s0|] eqn:Hl.
  - destruct (double_fire_all_data _ _ _ Hins) as [Hm Hc].
    destruct (start_loaded d m c s0 Hl) as (Hm0 & Hc0 & _).
    rewrite Hm, Hc, Hm0, Hc0 in Hjs.
    destruct (settled_refines d m c s0 ins w Hl Hjs Hins) as (? & ? & ?).
    split_and!; [done | done | by intros ? [= <-]].
  - assert (delivered m = None) as Hm
      by (rw /sel_load in Hl; by destruct (delivered m)).
    apply double_fire_all_inert in Hins as [-> ->];
      [|by apply start_failed_inert].
    subst ps. change (exact_run [] (start d m c)) with (@nil event).
    rewrite fmap_nil, app_nil_r, boot_network.
    split_and!; [done | constructor | done].
Qed.

(** *** Promises first, inputs after *)

Lemma program_fire_all_app es1 es2 s :
  program_fire_all (es1 ++ es2) s
    = program_fire_all es1 s ≫= program_fire_all es2.
Proof.
  revert s. induction es1 as [|e es1 IH]; intros s; [done|].
  rw /=. destruct (program_fire e s) as [s1|]; [apply IH | done].
Qed.

(** A run of promises is the run of [Boot]. *)
Lemma program_fire_all_promises ns s :
  Forall (λ e, is_network e = true) ns →
  program_fire_all (Promise <$> ns) s = boot_fire_all ns s.
Proof.
  revert s. induction ns as [|e ns IH]; intros s; [done|].
  intros [He Hns]%Forall_cons. rw /= He.
  destruct (boot_fire e s) as [s1|]; [by apply IH | done].
Qed.

(** A run of inputs leaves [init] where it is. *)
Lemma program_fire_all_inputs ins st w :
  program_fire_all (Input <$> ins) (st, w)
    = pair st <$> double_fire_all ins w.
Proof.
  revert w. induction ins as [|e ins IH]; intros w; [done|].
  rw /=. destruct (double_fire e w) as [w1|]; [apply IH | done].
Qed.

Lemma network_promises m c : Forall (λ e, is_network e = true) (network m c).
Proof. case_outcome m; case_outcome c; by repeat constructor. Qed.

(** When the answers arrive in the order of the [await]s and inputs
    follow, the program is where the inputs lead from the world [init]
    leaves. *)
Lemma program_init d m c ins :
  program_fire_all ((Promise <$> network m c) ++ (Input <$> ins)) (entry d)
    = pair Settled <$> double_fire_all ins (start d m c).
Proof.
  rewrite program_fire_all_app, program_fire_all_promises
    by apply network_promises.
  rewrite boot_network. apply program_fire_all_inputs.
Qed.

(** C21. The script as the browser runs it implements the Selector of
    the specification. Take any run of the program from the constructor
    on, promises of [init] settling and inputs of the page arriving in
    whatever order, the draws doubles, that lets [init] settle, on
    arrays of ECMAScript. Then the promises came first, as the events
    of two answers, and the inputs after them; the world the run
    leaves is the one the events of [Boot] lead to at the exact draws;
    it is reachable in [Events] from the world [init] of [Loader]
    leaves; and when the Selector can load from the answers, its fields
    are the state the Selector reaches from its [load] on the same
    events. *)
Theorem program_refines d es w :
  program_fire_all es (entry d) = Some (Settled, w) →
  js_arrays (imageManifest (app w)) (captions (app w)) →
  ∃ m c ins,
    es = (Promise <$> network m c) ++ (Input <$> ins) ∧
    double_fire_all ins (start d m c) = Some w ∧
    let ps := exact_run ins (start d m c) in
    boot_fire_all (network m c ++ (PageEvent <$> ps)) (entry d)
      = Some (Settled, w) ∧
    reachable (start d m c) w ∧
    ∀ s0, sel_load m c = Some s0 →
      abs w = sel_run (data_folder <$> folder_btns d) ps s0.
Proof.
  intros (ns & ins & w1 & -> & Hn & Hns & Hins)%(program_run_splits d);
    [|apply entry_waiting].
  destruct (network_complete (entry d).2 ns (Settled, w1) Hn eq_refl Hns)
    as (m & c & ->).
  rewrite boot_network in Hns. injection Hns as <-. intros Hjs.
  exists m, c, ins. split; [done|]. split; [done|].
  by apply after_init.
Qed.

Lemma third_random_double : random_double third.
Proof. apply random_doubleb_spec. by vm_compute. Qed.

Lemma demo_js_arrays : js_arrays demo_manifest ["Hi"].
Proof. apply (bool_decide_unpack _). by vm_compute. Qed.

Lemma double_generateRandomImage_exact_witness :
  let r1 := exact_draw third (length (current_images demo_start)) in
  let r2 := exact_draw third (length (captions (app demo_start))) in
  unit_draw r1 ∧ unit_draw r2 ∧
  double_generateRandomImage third third demo_start
    = generateRandomImage r1 r2 demo_start.
Proof.
  apply (double_generateRandomImage_exact third third demo_start);
    [apply demo_js_arrays | apply third_random_double..].
Defined.

Lemma program_refines_witness :
  ∃ m c ins,
    demo_events = (Promise <$> network m c) ++ (Input <$> ins) ∧
    double_fire_all ins (start demo_page m c)
      = Some (double_run_from demo_start demo_inputs) ∧
    let ps := exact_run ins (start demo_page m c) in
    boot_fire_all (network m c ++ (PageEvent <$> ps)) (entry demo_page)
      = Some (Settled, double_run_from demo_start demo_inputs) ∧
    reachable (start demo_page m c)
      (double_run_from demo_start demo_inputs) ∧
    ∀ s0, sel_load m c = Some s0 →
      abs (double_run_from demo_start demo_inputs)
        = sel_run (data_folder <$> folder_btns demo_page) ps s0.
Proof.
  apply (program_refines demo_page demo_events); [by vm_compute|].
  apply (bool_decide_unpack _). by vm_compute.
Defined.

(** In the run of the example the browser selects [Leylah] where the
    real product of the draw selects [Lilia], and displays [a.jpg] of
    [Lilia] at the end. *)
Example demo_inputs_run :
  currentFolder (app (double_run_from demo_start (take 1 demo_inputs)))
    = "Leylah" ∧
  folders !! random_index (real third) (length folders) = Some "Lilia" ∧
  image_src (page (double_run_from demo_start demo_inputs)) = "Lilia/a.jpg".
Proof. by vm_compute. Qed.
