(* ===== verification/Callbacks.v ===== *)
(** * Callbacks: the callbacks as the engine runs them

    [RawEvents] runs the callbacks of [src/script.js] on the values
    [response.json()] gave, with a rational for every draw; [Program]
    runs them with the doubles [Math.random()] returns, on fields of the
    documented shape. Here they run on values and on doubles at once,
    which is what the engine does: the index of lines 134 and 139 is the
    floor of the rounded product of a double and whatever number the
    read of [length] gave ([js_floor_mul], [js_draw]), and the image and
    the caption are whatever values are read at it
    ([js_generateRandomImage]). [js_callback] is the callback an input
    runs and [js_inputs] a run of inputs, with the exceptions no
    callback caught.

    The theorems:
    - a draw in an array of any items reads one of its items, for every
      double [Math.random()] can return ([js_draw_in_array]);
    - on fields of the documented shape the pick ends without an
      exception in the world whose typed view is the world
      [double_generateRandomImage] of [Program] ends in
      ([js_generateRandomImage_typed]);
    - and so does every run of inputs: it runs exactly when the run of
      [Program] runs, ends in the world whose typed view is the end of
      that run, and no callback throws ([js_program_typed]);
    - on values of any shape, every run of inputs is the run of
      [RawEvents] on the events that stand for them ([raw_exact],
      [raw_exact_run]), rationals in [0, 1) whose exact product with the
      length is the rounded product of the double ([js_inputs_exact]).
      The lengths the picks read have to be integers a double holds
      exactly, no numbers, or unreadable ([natural_lengths]); arrays of
      ECMAScript are ([typed_natural_lengths]).

    With [raw_program_typed] of [RawEvents] and [program_refines] of
    [Program] the last two close a square: from the callbacks as the
    engine runs them one reaches the events of [Events] through the
    typed view and then the exact draws, or through the exact draws and
    then the typed view. *)

From Stdlib Require Import QArith.
From S2P Require Import Prelude Random Double Browser Display Selector Loader.
From S2P Require Import Events Json Raw Unchecked RawEvents Program.

Section callbacks.
Context `{Engine}.

(** ** The picks *)

(** [Math.floor(Math.random() * n)] for the double [R] and a number [n],
    as the engine computes it. *)
Definition js_floor_mul (R : Z) (n : num) : num :=
  match n with
  | NaN => NaN
  | Int z => Int (floor_product R z)
  end.

(** [xs[Math.floor(Math.random() * xs.length)]], lines 134-135 and
    139-140. *)
Definition js_draw (R : Z) (xs : value) : fault + value :=
  match get xs "length" with
  | inl f => inl f
  | inr len =>
      match to_number len with
      | inl f => inl f
      | inr n => get xs (index_key (js_floor_mul R n))
      end
  end.

(** [generateRandomImage()], lines 123-148; [R1] and [R2] are the
    doubles [Math.random()] returns at lines 134 and 139. *)
Definition js_generateRandomImage (R1 R2 : Z) : exec raw_world fault () :=
  folder ← gets (λ rw, currentFolder (app (rest rw)));
  raw_say LogInfo
    [LStr ("🎲 Generating random image from " +:+ folder +:+ "...")] ;;
  m ← gets raw_manifest;
  images ← lift (get m folder);
  empty ← no_images images;
  if (empty : bool)
  then modify (upd_rest (displayError (no_images_message folder)))
  else
    imageFile ← lift (js_draw R1 images);
    file ← lift (to_string imageFile);
    let imagePath := folder +:+ "/" +:+ file in
    cs ← gets raw_captions;
    caption ← lift (js_draw R2 cs);
    raw_say LogInfo [LStr ("🖼️ Loading: " +:+ imagePath)] ;;
    text ← lift (to_string caption);
    raw_say LogInfo [LStr ("💬 Caption: " +:+ text)] ;;
    modify (upd_rest (displayImage imagePath)) ;;
    shown ← lift (text_content caption);
    modify (upd_rest (displayCaption shown)).

(** ** The callbacks *)

(** The callback the browser runs for an input, [None] when the script
    has registered none for it: the listeners of lines 89-91 and 94-96
    and the callback of the timeout of line 99, which draw; the handlers
    of the images are those of [RawEvents]. *)
Definition js_callback (e : input) (rw : raw_world)
    : option (exec raw_world fault ()) :=
  let w := rest rw in
  match e with
  | DClickFolder i R =>
      match folder_btns (page w) !! i with
      | Some b =>
          if decide (wired w = true ∧ random_double R)
          then Some (modify (upd_rest (double_selectFolder (data_folder b) R)))
          else None
      | None => None
      end
  | DClickGenerate R1 R2 =>
      if decide (wired w = true ∧ random_double R1 ∧ random_double R2)
      then Some (js_generateRandomImage R1 R2) else None
  | DTimerFires R1 R2 =>
      if decide (timer w = true ∧ random_double R1 ∧ random_double R2)
      then Some (modify (upd_rest (set_timer false)) ;;
                 js_generateRandomImage R1 R2)
      else None
  | _ => raw_callback (exact w e) rw
  end.

(** A run of inputs, with the exceptions no callback caught, oldest
    first: the world stays as the callback left it when it threw. *)
Fixpoint js_inputs (es : list input) (rw : raw_world)
    : option (raw_world * list fault) :=
  match es with
  | [] => Some (rw, [])
  | e :: es =>
      m ← js_callback e rw;
      '(rw2, fs) ← js_inputs es (final_state m rw);
      Some (rw2, option_list (thrown m rw) ++ fs)
  end.

(** The input makes a pick. *)
Definition input_is_pick (e : input) : bool :=
  match e with
  | DClickGenerate _ _ | DTimerFires _ _ => true
  | _ => false
  end.

(** ** The draws on rationals that stand for the draws on doubles *)

(** The length a draw reads in a value, when the read gives an integer
    below [2 ^ 53] that is not negative; 0 otherwise. *)
Definition length_of (xs : value) : nat :=
  match get xs "length" with
  | inr len =>
      match to_number len with
      | inr (Int z) => if decide (0 ≤ z < 2 ^ 53)%Z then Z.to_nat z else 0
      | _ => 0
      end
  | inl _ => 0
  end.

(** The length a draw reads in the value is such an integer, or is no
    number, or cannot be read. *)
Definition natural_length (xs : value) : Prop :=
  match get xs "length" with
  | inr len =>
      match to_number len with
      | inr (Int z) => (0 ≤ z < 2 ^ 53)%Z
      | _ => True
      end
  | inl _ => True
  end.

(** Whatever the read of line 126 can give, for whatever folder, has
    such a length, and then the captions have one. *)
Definition natural_lengths (rw : raw_world) : Prop :=
  ∀ folder images, get (raw_manifest rw) folder = inr images →
    natural_length images ∧ natural_length (raw_captions rw).

(** The length of what the read of line 126 gives. *)
Definition images_length (rw : raw_world) : nat :=
  match get (raw_manifest rw) (currentFolder (app (rest rw))) with
  | inr images => length_of images
  | inl _ => 0
  end.

(** The event on rationals that stands for an input in the world [rw]. *)
Definition raw_exact (rw : raw_world) (e : input) : event :=
  exact_at (images_length rw) (length_of (raw_captions rw)) e.

(** The events on rationals that stand for a run of inputs from [rw]. *)
Fixpoint raw_exact_run (es : list input) (rw : raw_world) : list event :=
  match es with
  | [] => []
  | e :: es =>
      raw_exact rw e ::
        match js_callback e rw with
        | Some m => raw_exact_run es (final_state m rw)
        | None => []
        end
  end.

End callbacks.

(** Where the inputs of the example lead from the world [init] leaves,
    and what was thrown. *)
Definition demo_js_inputs : raw_world * list fault :=
  default (raw_boot demo_page, [])
    (js_inputs (H:=cautious_engine) demo_inputs
       (raw_start (H:=cautious_engine) demo_page
          (ok_response (encode demo_manifest)) demo_captions)).

(** ** The index on doubles *)

#[export] Instance double_selectFolder_oblivious folder R :
  Oblivious (double_selectFolder folder R).
Proof. intros cs m w. rw /double_selectFolder. by case_decide. Qed.

Section picks.
Context `{Engine}.

#[local] Arguments get : simpl never.
#[local] Arguments js_draw : simpl never.
#[local] Arguments no_images : simpl never.
#[local] Arguments to_string : simpl never.
#[local] Arguments text_content : simpl never.
#[local] Arguments encode : simpl never.

(** On the length of an array the index is [double_index]. *)
Lemma js_floor_mul_index R n :
  (0 ≤ R)%Z →
  js_floor_mul R (Int (Z.of_nat n)) = Int (Z.of_nat (double_index R n)).
Proof. intros HR. rw /js_floor_mul. by rewrite floor_product_index. Qed.

(** A draw in an array reads the item at [double_index], [undefined]
    when there is none. *)
Lemma js_draw_items R items :
  (0 ≤ R)%Z →
  js_draw R (VArr items)
    = inr (default VUndefined (items !! double_index R (length items))).
Proof.
  intros HR. rw /js_draw get_length. cbn [to_number].
  rewrite js_floor_mul_index by done. apply get_index.
Qed.

(** A draw in a list of strings. *)
Lemma js_draw_strings R (l : list string) :
  (0 ≤ R)%Z →
  js_draw R (encode l)
    = inr (from_option VStr VUndefined (l !! double_index R (length l))).
Proof.
  intros HR. rw /js_draw get_strings_length. cbn [to_number].
  rewrite js_floor_mul_index by done. apply get_strings_index.
Qed.

(** The index of a double [Math.random()] can return is below the
    length. *)
Lemma double_index_below R n :
  random_double R → 0 < n → (Z.of_nat n < 2 ^ 53)%Z → double_index R n < n.
Proof.
  intros HR Hn Hmax. destruct (exact_draw_index R n HR Hmax) as [Hu ->].
  by apply random_index_lt.
Qed.

(** The pick as a simulation: from a typed view in which the read of
    line 126 finds an own property or nothing, the pick on values and
    doubles and the pick of [Program] end in a raw world and its typed
    view. *)
Lemma js_generateRandomImage_sim R1 R2 Q :
  (0 ≤ R1)%Z → (0 ≤ R2)%Z →
  sim (λ rw w, typed rw w ∧
         (is_Some (imageManifest (app w) !! currentFolder (app w)) ∨
          builtin (currentFolder (app w)) = false))
      Q eq (js_generateRandomImage R1 R2)
      (modify (double_generateRandomImage R1 R2)).
Proof.
  intros H1 H2 rw w [Hw Hf]. typed_inv Hw.
  rw /js_generateRandomImage /double_generateRandomImage /run
    /gets /mbind /exec_bind /lift /raw_say /modify.
  simpl in *. rewrite (get_manifest _ m _ Hm), no_images_read by exact Hf.
  destruct (m !! currentFolder (app (rest rw))) as [[|x l]|]; simpl;
    try (split; [|done]; apply typed_of_Some; by exists m, cs).
  rewrite js_draw_strings, to_string_read, Henc, js_draw_strings by done.
  rewrite to_string_read, text_content_read. simpl.
  split; [|done]. apply typed_of_Some. by exists m, cs.
Qed.

End picks.

(** ** Runs of inputs *)

Section runs.
Context `{Engine}.

(** No input changes what the folders that can be selected are. *)
Lemma double_fire_plain e w w' :
  plain_folders w → double_fire e w = Some w' → plain_folders w'.
Proof.
  intros Hp. destruct e as [i R|R1 R2|R1 R2|i|i| |]; rw /double_fire.
  1: destruct (folder_btns (page w) !! i) as [b|] eqn:Hb; [|done].
  4-7: intros Hf%fire_step; by apply (step_preserves plain_folders) in Hf.
  all: case_decide as Hg; [|done]; intros [= <-].
  2,3: rw /double_generateRandomImage; by repeat case_match.
  destruct Hg as [Hw HR]. rewrite double_selectFolder_exact by done.
  apply (select_preserves plain_folders i b); try done.
  by apply exact_draw_unit.
Qed.

(** A pick, in a world of plain folders. *)
Lemma js_pick_final R1 R2 rw w :
  random_double R1 → random_double R2 → typed rw w → plain_folders w →
  typed_of (final_state (js_generateRandomImage R1 R2) rw)
    = Some (double_generateRandomImage R1 R2 w) ∧
  thrown (js_generateRandomImage R1 R2) rw = None.
Proof.
  intros [_ [H1 _]] [_ [H2 _]] Hw Hp.
  eapply (sim_modify_final _ typed); [by apply js_generateRandomImage_sim|].
  split; [done | by apply plain_folders_current].
Qed.

(** Every callback on values and doubles is the callback of [Program]
    on the typed view, and throws nothing. *)
Lemma js_callback_typed e rw w :
  typed rw w → plain_folders w →
  agree (prod_map id option_list
           <$> (m ← js_callback e rw; Some (final_state m rw, thrown m rw)))
    (double_fire e w).
Proof.
  intros Hw Hp. destruct (typed_rest rw w Hw) as (Hwi & Hti & Hpg & Hpr & Hil).
  destruct e as [i R|R1 R2|R1 R2|i|i| |].
  4: exact (raw_fire_typed (ProbeLoads i) rw w Hw Hp).
  4: exact (raw_fire_typed (ProbeFails i) rw w Hw Hp).
  4: exact (raw_fire_typed ImageLoads rw w Hw Hp).
  4: exact (raw_fire_typed ImageFails rw w Hw Hp).
  all: simpl; rw ?Hwi ?Hti ?Hpg.
  - destruct (folder_btns _ !! i) as [b|]; [|done]. case_decide; [|done].
    by apply agree_fired,
      (@rest_final _ (double_selectFolder_oblivious (data_folder b) R)).
  - case_decide as Hg; [|done]. destruct Hg as (_ & ? & ?).
    by apply agree_fired, js_pick_final.
  - case_decide as Hg; [|done]. destruct Hg as (_ & ? & ?).
    apply agree_fired.
    rewrite (final_state_modify_bind (upd_rest _)).
    rewrite (thrown_modify_bind (upd_rest _)).
    apply js_pick_final; [done | done | | done].
    by destruct (rest_final (set_timer false) rw w Hw).
Qed.

(** A run of inputs on values and doubles is the run of [Program] on the
    typed view, and none of its callbacks throws. *)
Lemma js_inputs_agree es rw w :
  typed rw w → plain_folders w →
  agree (js_inputs es rw) (double_fire_all es w).
Proof.
  revert rw w. induction es as [|e es IH]; intros rw w Hw Hp; [done|].
  pose proof (js_callback_typed e rw w Hw Hp) as He. simpl.
  destruct (js_callback e rw) as [m|], (double_fire e w) as [w1|] eqn:Hf;
    try done.
  destruct He as [Hw1 Hnone]. simpl in *.
  apply (double_fire_plain e w w1 Hp) in Hf as Hp1.
  specialize (IH _ w1 Hw1 Hp1).
  destruct (js_inputs es _) as [[rw2 fs]|], (double_fire_all es w1);
    try done.
  destruct IH as [? ->]. by rewrite Hnone.
Qed.

End runs.

(** ** The callbacks on doubles are the callbacks at the exact draws *)

(** Unfolds a pick down to the reads it makes. *)
Ltac pick_unfold :=
  rw /js_generateRandomImage /raw_generateRandomImage /no_images
    /final_state /thrown /run /gets /mbind /exec_bind /mret /exec_ret /lift
    /raw_say /modify.

(** The guard of line 128, case by case. *)
Ltac guard_cases images :=
  destruct (truthy images); simpl; [|done];
  destruct (get images "length") as [?f|?n]; simpl; [done|];
  destruct (is_zero _); [done|].

Section exactness.
Context `{Engine}.

#[local] Arguments get : simpl never.
#[local] Arguments to_number : simpl never.
#[local] Arguments to_string : simpl never.
#[local] Arguments text_content : simpl never.
#[local] Arguments index_key : simpl never.

(** The draw that stands for a double is a draw. *)
Lemma length_of_unit R xs :
  random_double R → unit_draw (exact_draw R (length_of xs)).
Proof.
  intros HR. apply exact_draw_index; [done|]. rw /length_of.
  repeat case_match; lia.
Qed.

Lemma images_length_unit R rw :
  random_double R → unit_draw (exact_draw R (images_length rw)).
Proof.
  intros HR. rw /images_length.
  destruct (get _ _); [by apply exact_draw_index | by apply length_of_unit].
Qed.

(** A draw on a double is the draw on the rational that stands for it. *)
Lemma js_draw_exact R xs :
  random_double R → natural_length xs →
  js_draw R xs = draw (exact_draw R (length_of xs)) xs.
Proof.
  intros HR. pose proof HR as [_ [H0 _]].
  rw /natural_length /length_of /js_draw /draw.
  destruct (get xs "length") as [f|len]; [done|].
  destruct (to_number len) as [f|[|z]]; [done..|]. intros Hz.
  rewrite decide_True by done.
  assert (∃ n, z = Z.of_nat n) as [n ->] by (exists (Z.to_nat z); lia).
  rewrite Nat2Z.id. destruct (exact_draw_index R n HR) as [Hu Hi]; [lia|].
  by rewrite js_floor_mul_index, floor_mul_index, Hi.
Qed.

#[local] Arguments js_draw : simpl never.
#[local] Arguments draw : simpl never.

(** A pick on doubles is the pick on the rationals that stand for
    them. *)
Lemma js_generateRandomImage_exact R1 R2 rw :
  random_double R1 → random_double R2 → natural_lengths rw →
  run (js_generateRandomImage R1 R2) rw
    = run (raw_generateRandomImage (exact_draw R1 (images_length rw))
             (exact_draw R2 (length_of (raw_captions rw)))) rw.
Proof.
  intros H1 H2 Hn. rw /images_length. pick_unfold. simpl.
  destruct (get (raw_manifest rw) _) as [f|images] eqn:Hg; [done|].
  destruct (Hn _ _ Hg) as [Hi Hc].
  rewrite (js_draw_exact R1 images) by done.
  guard_cases images. destruct (draw _ images) as [f|file]; [done|].
  destruct (to_string file) as [f|text]; [done|]. simpl.
  by rewrite (js_draw_exact R2 (raw_captions rw)).
Qed.

(** A pick writes neither loaded field. *)
Lemma js_generateRandomImage_frame R1 R2 rw :
  raw_manifest (final_state (js_generateRandomImage R1 R2) rw)
    = raw_manifest rw ∧
  raw_captions (final_state (js_generateRandomImage R1 R2) rw)
    = raw_captions rw.
Proof.
  pick_unfold. simpl.
  destruct (get (raw_manifest rw) _) as [f|images]; [done|].
  guard_cases images. destruct (js_draw R1 images) as [f|file]; [done|].
  destruct (to_string file); [done|]. simpl.
  destruct (js_draw R2 _) as [f|caption]; [done|].
  destruct (to_string caption); [done|]. by destruct (text_content caption).
Qed.

(** The pick of an input, as the callback of [RawEvents] runs it. *)
Lemma js_pick_exact R1 R2 rw :
  random_double R1 → random_double R2 → natural_lengths rw →
  let r1 := exact_draw R1 (images_length rw) in
  let r2 := exact_draw R2 (length_of (raw_captions rw)) in
  unit_draw r1 ∧ unit_draw r2 ∧
  final_state (raw_generateRandomImage r1 r2) rw
    = final_state (js_generateRandomImage R1 R2) rw ∧
  thrown (raw_generateRandomImage r1 r2) rw
    = thrown (js_generateRandomImage R1 R2) rw ∧
  natural_lengths (final_state (js_generateRandomImage R1 R2) rw).
Proof.
  intros H1 H2 Hn r1 r2.
  pose proof (js_generateRandomImage_exact R1 R2 rw H1 H2 Hn) as Hrun.
  destruct (js_generateRandomImage_frame R1 R2 rw) as [Hm Hc].
  split_and!; [by apply images_length_unit | by apply length_of_unit | ..].
  - by rw /final_state Hrun.
  - by rw /thrown Hrun.
  - rw /natural_lengths. by rewrite Hm, Hc.
Qed.

(** The callback of an input is the callback of its event, and it
    leaves the lengths as they are. *)
Lemma js_callback_exact e rw m :
  natural_lengths rw → js_callback e rw = Some m →
  raw_fire (raw_exact rw e) rw = Some (final_state m rw, thrown m rw) ∧
  natural_lengths (final_state m rw).
Proof.
  intros Hn. rw /raw_fire.
  destruct e as [i R|R1 R2|R1 R2|i|i| |]; rw /raw_exact /js_callback /=.
  - destruct (folder_btns _ !! i) as [b|]; [|done].
    case_decide as Hg; [|done]. destruct Hg as [Hw HR]. intros [= <-].
    pose proof (exact_draw_unit folders R HR js_array_folders) as Hu.
    pose proof (double_selectFolder_exact (data_folder b) R (rest rw) HR) as Hs.
    simpl in Hu, Hs. rewrite decide_True by done.
    by rw /= /on_folder_click /final_state /thrown /upd_rest /= -Hs.
  - case_decide as Hg; [|done]. destruct Hg as (Hw & H1 & H2). intros [= <-].
    destruct (js_pick_exact R1 R2 rw H1 H2 Hn) as (? & ? & Hf & Ht & ?).
    rewrite decide_True by done. simpl. by rewrite Hf, Ht.
  - case_decide as Hg; [|done]. destruct Hg as (Hw & H1 & H2). intros [= <-].
    pose proof (js_pick_exact R1 R2 (upd_rest (set_timer false) rw) H1 H2 Hn)
      as Hp.
    change (images_length (upd_rest (set_timer false) rw))
      with (images_length rw) in Hp.
    change (raw_captions (upd_rest (set_timer false) rw))
      with (raw_captions rw) in Hp.
    destruct Hp as (? & ? & Hf & Ht & ?). rewrite decide_True by done. simpl.
    rewrite !(final_state_modify_bind (upd_rest _)).
    rewrite !(thrown_modify_bind (upd_rest _)). by rewrite Hf, Ht.
  - destruct (probes _ !! i); simpl; [|done]. by intros [= <-].
  - destruct (probes _ !! i); simpl; [|done]. by intros [= <-].
  - destruct (image_load _); simpl; [|done]. by intros [= <-].
  - destruct (image_load _); simpl; [|done]. by intros [= <-].
Qed.

(** A run of inputs on values is the run of [RawEvents] on the events
    that stand for them. *)
Lemma js_inputs_raw es rw rw' fs :
  natural_lengths rw → js_inputs es rw = Some (rw', fs) →
  raw_fire_all (raw_exact_run es rw) rw = Some (rw', fs) ∧
  natural_lengths rw'.
Proof.
  revert rw fs. induction es as [|e es IH]; intros rw fs Hn; simpl.
  { by intros [= <- <-]. }
  destruct (js_callback e rw) as [m|] eqn:He; [|done]. simpl.
  destruct (js_inputs es _) as [[rw2 fs2]|] eqn:Hes; [|done].
  intros [= <- <-].
  destruct (js_callback_exact e rw m Hn He) as [-> Hn1]. simpl.
  destruct (IH _ _ Hn1 Hes) as [-> ?]. done.
Qed.

(** The picks of a run are the picks of the events that stand for it. *)
Lemma raw_exact_run_picks es rw r :
  js_inputs es rw = Some r →
  length (filter is_pick (raw_exact_run es rw))
    = length (filter input_is_pick es).
Proof.
  revert rw r. induction es as [|e es IH]; intros rw r; [done|]. simpl.
  destruct (js_callback e rw) as [m|] eqn:He; [|done]. simpl.
  destruct (js_inputs es _) as [r2|] eqn:Hes; [|done]. intros _.
  specialize (IH _ _ Hes). rewrite !filter_cons.
  destruct e; rw /raw_exact /=; by rewrite IH.
Qed.

(** Fields of the documented shape that are arrays of ECMAScript have
    such lengths. *)
Lemma typed_natural_lengths rw w :
  typed rw w → js_arrays (imageManifest (app w)) (captions (app w)) →
  natural_lengths rw.
Proof.
  intros Hw [Hjm Hjc]. typed_inv Hw. simpl in *. intros folder images Hg.
  split.
  2: { rw Henc /natural_length get_strings_length /=. rw /js_array in Hjc. lia. }
  destruct (m !! folder) as [l|] eqn:Hl.
  - rewrite (get_manifest _ m folder Hm), Hl in Hg by (left; by eexists).
    injection Hg as <-. apply Hjm in Hl.
    rw /natural_length get_strings_length /=. rw /js_array in Hl. lia.
  - destruct (builtin folder) eqn:Hb.
    + destruct (raw_manifest rw) as [| | | | | |members]; try done.
      destruct (view_members_lookup _ _ _ folder Hm) as [_ Hsome].
      revert Hg. rw /get /inherited Hb.
      destruct (member folder members); [|done].
      destruct Hsome as [? ?]; [by eexists | congruence].
    + rewrite (get_manifest _ m folder Hm), Hl in Hg by by right.
      by injection Hg as <-.
Qed.

End exactness.

(** ** The theorems *)

Section theorems.
Context `{Engine}.

(** C33. A draw in an array reads one of its items, whatever the items
    are: for every double [Math.random()] can return and every array of
    ECMAScript that is not empty, the index computed on doubles is below
    the length and the read gives the item there, never [undefined]
    past the end. In the empty array the read gives [undefined]. *)
Theorem js_draw_in_array R items :
  random_double R → js_array items →
  ∃ v, js_draw R (VArr items) = inr v ∧
    if items is [] then v = VUndefined
    else items !! double_index R (length items) = Some v.
Proof.
  intros HR Hl. pose proof HR as [_ [H0 _]].
  rewrite js_draw_items by done. eexists. split; [done|].
  destruct items as [|x items]; [done|].
  destruct (lookup_lt_is_Some_2 (x :: items)
              (double_index R (length (x :: items)))) as [v Hv]; [|by rewrite Hv].
  apply double_index_below; [done | simpl; lia |]. rw /js_array in Hl. lia.
Qed.

(** A pick on values and doubles, on fields of the documented shape,
    does what the pick of [Program] says: for every two doubles
    [Math.random()] can return, when the current folder is in the
    manifest or no built-in prototype has a property of its name, it
    ends without an exception in the world whose typed view is the world
    [double_generateRandomImage] ends in. *)
Theorem js_generateRandomImage_typed R1 R2 rw w :
  random_double R1 → random_double R2 → typed_of rw = Some w →
  is_Some (imageManifest (app w) !! currentFolder (app w)) ∨
    builtin (currentFolder (app w)) = false →
  typed_of (final_state (js_generateRandomImage R1 R2) rw)
    = Some (double_generateRandomImage R1 R2 w) ∧
  thrown (js_generateRandomImage R1 R2) rw = None.
Proof.
  intros [_ [H1 _]] [_ [H2 _]] Hw Hf.
  eapply (sim_modify_final _ typed); [by apply js_generateRandomImage_sim|].
  by split.
Qed.

(** C36. The callbacks as the engine runs them are the callbacks of
    [RawEvents] at real draws, on values of any shape: when the lengths
    the picks read are integers a double holds exactly, are no numbers
    or cannot be read, every run of inputs, the draws doubles and the
    products rounded, is the run of the events that stand for them, on
    rationals in [0, 1) with exact products. It ends in the same world
    and with the same exceptions, and the lengths are as they were. *)
Theorem js_inputs_exact ins rw rw' fs :
  natural_lengths rw → js_inputs ins rw = Some (rw', fs) →
  raw_fire_all (raw_exact_run ins rw) rw = Some (rw', fs) ∧
  natural_lengths rw'.
Proof. apply js_inputs_raw. Qed.

Context (Hcaptions : builtin "captions" = false).
Context (Hlilia : builtin "Lilia" = false) (Hleylah : builtin "Leylah" = false).

(** C37. The callbacks as the engine runs them are the callbacks of
    [Program]. When the two bodies have the documented shape and no
    folder the application can select is the name of a built-in
    property, then from [init] on, over every run of inputs, the draws
    doubles, the script on the values [response.json()] gave runs
    exactly when the script of [Program] runs, ends in the world whose
    typed view is the world that run ends in, the console included, and
    none of its callbacks throws. *)
Theorem js_program_typed d mj cj m c ins :
  view_outcome mj = Some m → view_outcome cj = Some c →
  plain_folders (start d m c) →
  agree (js_inputs ins (raw_start d mj cj))
    (double_fire_all ins (start d m c)).
Proof.
  intros Hm Hc Hp. apply js_inputs_agree; [|done].
  by apply raw_start_view.
Qed.

End theorems.

(** ** On the example *)

Lemma js_draw_in_array_witness :
  ∃ v, js_draw (H:=cautious_engine) third (VArr [VNum 7; VNull; VStr "c"])
         = inr v ∧
    [VNum 7; VNull; VStr "c"] !! double_index third 3 = Some v.
Proof.
  apply (js_draw_in_array (H:=cautious_engine) third
           [VNum 7; VNull; VStr "c"]);
    [apply third_random_double | by vm_compute].
Defined.

Lemma js_generateRandomImage_typed_witness :
  typed_of
    (final_state (js_generateRandomImage (H:=cautious_engine) third third)
       demo_raw_world)
    = Some (double_generateRandomImage third third demo_world) ∧
  thrown (js_generateRandomImage (H:=cautious_engine) third third)
    demo_raw_world = None.
Proof.
  apply (js_generateRandomImage_typed (H:=cautious_engine) third third
           demo_raw_world demo_world);
    [apply third_random_double.. | done | by left].
Defined.

Lemma demo_natural_lengths :
  natural_lengths (H:=cautious_engine)
    (raw_start (H:=cautious_engine) demo_page
       (ok_response (encode demo_manifest)) demo_captions).
Proof.
  apply (typed_natural_lengths (H:=cautious_engine) _ demo_start);
    [|apply demo_js_arrays].
  by apply (raw_start_view (H:=cautious_engine) eq_refl eq_refl eq_refl
              demo_page _ _ (ok_response demo_manifest)
              (ok_response (Some ["Hi"]))).
Qed.

Lemma js_inputs_exact_witness :
  let rw := raw_start (H:=cautious_engine) demo_page
              (ok_response (encode demo_manifest)) demo_captions in
  raw_fire_all (H:=cautious_engine)
    (raw_exact_run (H:=cautious_engine) demo_inputs rw) rw
    = Some (demo_js_inputs.1, demo_js_inputs.2) ∧
  natural_lengths (H:=cautious_engine) demo_js_inputs.1.
Proof.
  apply (js_inputs_exact (H:=cautious_engine) demo_inputs);
    [apply demo_natural_lengths | by vm_compute].
Defined.

Lemma js_program_typed_witness :
  agree
    (js_inputs (H:=cautious_engine) demo_inputs
       (raw_start (H:=cautious_engine) demo_page
          (ok_response (encode demo_manifest)) demo_captions))
    (double_fire_all demo_inputs demo_start).
Proof.
  apply (js_program_typed (H:=cautious_engine) eq_refl eq_refl eq_refl
           demo_page (ok_response (encode demo_manifest)) demo_captions
           (ok_response demo_manifest) (ok_response (Some ["Hi"])));
    [done | done |].
  apply (bool_decide_unpack _). by vm_compute.
Defined.
