(* ===== verification/Script.v ===== *)
(** * Script: the script as the engine runs it

    The other files each leave something of the browser out: [Raw] and
    [RawEvents] run the methods on the values [response.json()] gave,
    with rationals for draws and [init] in one step; [Boot] runs [init]
    between its [await]s and [Program] the draws as doubles, both on
    bodies of the documented shape. This file leaves none of the three
    out. The fields are values of [Json], whatever the bodies were; the
    callbacks are those of [Callbacks], the draws doubles and the index
    the floor of the rounded product; [init] runs piece by piece
    ([raw_enter] to [raw_captions_parsed], [raw_resume]) in one event
    loop with the callbacks ([js_event], [js_fire], [js_fire_all]), and
    what a callback or [init] throws and nothing catches is collected as
    the browser reports it.

    On bodies of any shape:
    - when the answers arrive in the order of the [await]s, [init] in
      its pieces leaves what [raw_init] leaves in one step
      ([script_init]);
    - while [init] is suspended no callback runs and nothing is thrown
      ([script_booting_inert]);
    - every run that lets [init] settle is the events of two answers
      followed by inputs that run from the world [raw_init] leaves
      ([script_run_splits]);
    - after a manifest that is [null], [init] fails with the listeners
      registered, and every pick of every run throws in its callback
      ([script_null_manifest]).

    On bodies of the documented shape, with no folder that can be
    selected named like a built-in property:
    - every run of the script that lets [init] settle is a run of
      [Program] on the typed views of the bodies, nothing is thrown, and
      on arrays of ECMAScript the fields the run leaves are the state
      the Selector of the specification reaches ([script_refines]). *)

From Stdlib Require Import QArith.
From S2P Require Import Prelude Random Double Browser Display Selector Loader.
From S2P Require Import Events Boot Spec Json Raw Unchecked RawEvents Program.
From S2P Require Import Callbacks.

Section script.
Context `{Engine}.

(** ** The pieces of [init] *)

(** The [catch] of [init], lines 29-32. *)
Definition raw_init_catch (error : js_error) : exec raw_world fault () :=
  raw_say LogError [LStr "❌ Initialization failed:"; LErr error] ;;
  modify (upd_rest (displayError init_failed_message)).

(** The [catch] of [loadManifest], lines 50-53: it throws again. *)
Definition raw_manifest_catch {A} (error : js_error)
    : exec raw_world fault A :=
  raw_say LogError [LStr "❌ Error loading manifest:"; LErr error] ;;
  mthrow (Throws error).

(** The [catch] of [loadCaptions], lines 70-81. *)
Definition raw_captions_catch (error : js_error) : exec raw_world fault () :=
  raw_say LogWarn
    [LStr "⚠️ Error loading captions, using fallback:"; LErr error] ;;
  modify (set_raw_captions (encode fallback_captions)) ;;
  n ← captions_length_text;
  raw_say LogInfo [LStr ("✅ Using " +:+ n +:+ " fallback captions")].

(** What is left of the [try] block of [init] when [loadCaptions] has
    returned, lines 21-27. *)
Definition raw_init_rest : exec raw_world fault stage :=
  modify (upd_rest setupEventListeners) ;;
  modify (upd_rest updateFolderButtons) ;;
  raw_report ;;
  mret Settled.

(** From the call of [init] in the constructor (line 7) to the first
    [await]: the log of line 11, the call of line 15 and the log of line
    36. *)
Definition raw_enter : exec raw_world fault stage :=
  raw_say LogInfo [LStr "Starting app initialization..."] ;;
  raw_say LogInfo [LStr "📄 Loading images-manifest.json..."] ;;
  mret AwaitManifest.

(** From the [await] of line 39 to the next: lines 41-45. *)
Definition raw_manifest_answered (a : answer) : exec raw_world fault stage :=
  match answer_error a with
  | Some error => raw_manifest_catch error
  | None => mret AwaitManifestBody
  end.

(** From the [await] of line 45 to the next: lines 46-48, the return to
    line 15, the call of line 18 and lines 57-60. The value is stored
    as it is. *)
Definition raw_manifest_parsed (b : json_body value)
    : exec raw_world fault stage :=
  match b with
  | BodyInvalid => raw_manifest_catch JsonSyntaxError
  | BodyJson data =>
      modify (set_raw_manifest data) ;;
      raw_say LogInfo [LStr "✅ Manifest loaded successfully"] ;;
      raw_say LogInfo [LStr "💬 Loading captions.json..."] ;;
      mret AwaitCaptions
  end.

(** From the [await] of line 60 to the next, lines 62-68, or through the
    [catch] of [loadCaptions] to the end of [init]. *)
Definition raw_captions_answered (a : answer) : exec raw_world fault stage :=
  match answer_error a with
  | Some error => raw_captions_catch error ;; raw_init_rest
  | None => mret AwaitCaptionsBody
  end.

(** From the [await] of line 63 to the end of [init]: lines 64-65 inside
    the [try] of [loadCaptions], then lines 21-27. *)
Definition raw_captions_parsed (b : json_body value)
    : exec raw_world fault stage :=
  try_js
    match b with
    | BodyInvalid => mthrow (Throws JsonSyntaxError)
    | BodyJson data =>
        n ← raw_assign_captions data;
        raw_say LogInfo [LStr ("✅ Loaded " +:+ n +:+ " captions")]
    end
    raw_captions_catch ;;
  raw_init_rest.

(** A piece of [init] runs inside the [try] of lines 13-32: an exception
    it throws ends [init] through [raw_init_catch]. What leaves [init]
    all the same rejects the promise [init] returned, which the
    constructor dropped at line 7: the browser reports it. *)
Definition raw_resume (piece : exec raw_world fault stage) (rw : raw_world)
    : stage * raw_world * option fault :=
  match
    run (try_js piece (λ error, raw_init_catch error ;; mret Settled)) rw
  with
  | (rw', inr st) => (st, rw', None)
  | (rw', inl f) => (Settled, rw', Some f)
  end.

(** ** The event loop *)

(** What the browser delivers from the constructor on: the pending
    [fetch] settles, the pending [json()] settles with a value or with a
    [SyntaxError], or an input of the page arrives. *)
Inductive js_event : Type :=
  | Settles (a : answer)
  | Parses (b : json_body value)
  | Arrives (e : input).

(** The event is a promise that settles. *)
Definition is_promise (e : js_event) : bool :=
  match e with
  | Arrives _ => false
  | _ => true
  end.

(** The application when the constructor has returned, lines 206-209
    and 2-8: [init] waits for the manifest. *)
Definition js_entry (d : dom) : stage * raw_world :=
  (raw_resume raw_enter (raw_boot d)).1.

(** One event: a promise resumes [init] where it waits for it, an input
    runs its callback to its end or to the exception that leaves it. The
    result is what is left and what was thrown and not caught. *)
Definition js_fire (e : js_event) (s : stage * raw_world)
    : option (stage * raw_world * option fault) :=
  match e, s.1 with
  | Settles a, AwaitManifest =>
      Some (raw_resume (raw_manifest_answered a) s.2)
  | Parses b, AwaitManifestBody =>
      Some (raw_resume (raw_manifest_parsed b) s.2)
  | Settles a, AwaitCaptions =>
      Some (raw_resume (raw_captions_answered a) s.2)
  | Parses b, AwaitCaptionsBody =>
      Some (raw_resume (raw_captions_parsed b) s.2)
  | Arrives e, st =>
      m ← js_callback e s.2; Some (st, final_state m s.2, thrown m s.2)
  | _, _ => None
  end.

(** A run, with what was reported, oldest first. *)
Fixpoint js_fire_all (es : list js_event) (s : stage * raw_world)
    : option (stage * raw_world * list fault) :=
  match es with
  | [] => Some (s, [])
  | e :: es =>
      '(s1, f) ← js_fire e s;
      '(s2, fs) ← js_fire_all es s1;
      Some (s2, option_list f ++ fs)
  end.

(** The events of one answer: the [fetch] settles, and the body of a
    response that is [ok] is read. *)
Definition js_events_of (resp : fetch_outcome value) : list js_event :=
  Settles (answer_of resp) :: option_list (Parses <$> body_of resp).

(** The promises of a run of [init] to its end: those of the manifest
    and, when it is delivered, those of the captions. *)
Definition js_network (mj cj : fetch_outcome value) : list js_event :=
  js_events_of mj
    ++ (if delivered mj is Some _ then js_events_of cj else []).

(** [init] is suspended, nothing is registered or requested and the
    page is as the markup has it. *)
Definition js_waiting (d : dom) (s : stage * raw_world) : Prop :=
  s.1 ≠ Settled ∧ inert (rest s.2) ∧ page (rest s.2) = d.

End script.

(** The run of the example on values: the two sources answer, and the
    inputs of [demo_inputs] follow. *)
Definition demo_js_events : list js_event :=
  js_network (ok_response (encode demo_manifest)) demo_captions
    ++ (Arrives <$> demo_inputs).

(** Where the run leaves the script, and what was reported. *)
Definition demo_js_end : raw_world * list fault :=
  from_option (λ r, (r.1.2, r.2)) (raw_boot demo_page, [])
    (js_fire_all (H:=cautious_engine) demo_js_events (js_entry demo_page)).

(** ** [init] in its pieces is [init] in one step *)

Section pieces.
Context `{Engine}.
#[local] Arguments raw_report : simpl never.
#[local] Arguments raw_assign_captions : simpl never.
#[local] Arguments captions_length_text : simpl never.

(** Case on what a computation that reads the loaded values gives. *)
Ltac case_read :=
  match goal with
  | |- context [captions_length_text ?rw] =>
      destruct (captions_length_text rw) as [? [[?|]|?]]
  | |- context [raw_assign_captions ?d ?rw] =>
      destruct (raw_assign_captions d rw) as [? [[?|]|?]]
  | |- context [raw_report ?rw] =>
      destruct (raw_report rw) as [? [[?|]|[]]]
  end.

(** The answers arrive in the order of the [await]s: [init] has done
    what [raw_init] does in one step, and what left it is reported. *)
Lemma js_init_network d mj cj :
  js_fire_all (js_network mj cj) (js_entry d)
    = Some (Settled, raw_start d mj cj,
            option_list (thrown (raw_init mj cj) (raw_boot d))).
Proof.
  case_outcome mj; case_outcome cj.
  all: cbv -[raw_report raw_assign_captions captions_length_text encode
             fallback_captions]; try done.
  all: repeat (case_read; cbn); done.
Qed.

(** A piece that ends with the rest of the [try] block ends [init],
    whatever is thrown. *)
Lemma raw_init_rest_settles {A} (piece : exec raw_world fault A) rw :
  (raw_resume (piece ;; raw_init_rest) rw).1.1 = Settled.
Proof.
  cbv [raw_resume run try_js try_catch mbind exec_bind raw_init_rest modify].
  destruct (piece rw) as [rw1 [[error|]|a]]; [done..|].
  by destruct (raw_report _) as [rw2 [[error|]|[]]].
Qed.

End pieces.

(** ** Runs *)

Section runs.
Context `{Engine}.
Implicit Types (s : stage * raw_world) (rw : raw_world).
Implicit Types (ns es : list js_event) (fs : list fault).

(** When [init] has settled the events of a run are inputs. *)
Lemma js_fire_all_settled es rw s fs :
  js_fire_all es (Settled, rw) = Some (s, fs) →
  ∃ ins, es = Arrives <$> ins ∧ s.1 = Settled ∧
    js_inputs ins rw = Some (s.2, fs).
Proof.
  revert rw fs. induction es as [|e es IH]; intros rw fs.
  { intros [= <- <-]. by exists []. }
  destruct e as [| |e]; try done. rw /=.
  destruct (js_callback e rw) as [m|] eqn:He; [|done]. simpl.
  destruct (js_fire_all es _) as [[s2 fs2]|] eqn:Hes; [|done].
  intros [= <- <-]. apply IH in Hes as (ins & -> & ? & Hins).
  exists (e :: ins). by rw /= He /= Hins.
Qed.

Lemma js_fire_all_inputs ins rw :
  js_fire_all (Arrives <$> ins) (Settled, rw)
    = prod_map (pair Settled) id <$> js_inputs ins rw.
Proof.
  revert rw. induction ins as [|e ins IH]; intros rw; [done|]. rw /=.
  destruct (js_callback e rw) as [m|]; [|done]. rw /= IH.
  by destruct (js_inputs ins _) as [[rw2 fs]|].
Qed.

Lemma js_fire_all_app es1 es2 s :
  js_fire_all (es1 ++ es2) s
    = '(s1, fs1) ← js_fire_all es1 s;
      '(s2, fs2) ← js_fire_all es2 s1;
      Some (s2, fs1 ++ fs2).
Proof.
  revert s. induction es1 as [|e es1 IH]; intros s.
  { simpl. by destruct (js_fire_all es2 s) as [[s2 fs2]|]. }
  rw /=. destruct (js_fire e s) as [[s1 f]|]; [|done]. rw /= IH.
  destruct (js_fire_all es1 s1) as [[s2 fs2]|]; [|done]. simpl.
  destruct (js_fire_all es2 s2) as [[s3 fs3]|]; [|done]. simpl.
  by rewrite app_assoc.
Qed.

(** The first event of a run and the rest. *)
Lemma js_fire_all_cons e ns s (r : stage * raw_world * list fault) :
  js_fire_all (e :: ns) s = Some r →
  ∃ q r2, js_fire e s = Some q ∧ js_fire_all ns q.1 = Some r2 ∧
    r.1 = r2.1.
Proof.
  simpl. destruct (js_fire e s) as [[s1 f]|]; [|done]. simpl.
  destruct (js_fire_all ns s1) as [[s2 fs]|] eqn:Hns; [|done].
  intros [= <-]. by eexists (_, _), _.
Qed.

End runs.

(** ** While [init] waits *)

Section waiting.
Context `{Engine}.
#[local] Arguments raw_report : simpl never.
#[local] Arguments raw_resume : simpl never.
Implicit Types (s : stage * raw_world) (rw : raw_world).
Implicit Types (ns es : list js_event) (fs : list fault).

(** Without listeners, timer and requests no input runs a callback. *)
Lemma js_callback_inert e rw : inert (rest rw) → js_callback e rw = None.
Proof.
  intros (Hl & Ht & Hp & Hi).
  destruct e as [i R|R1 R2|R1 R2|i|i| |]; rw /js_callback /= ?Hp ?Hi //.
  1: destruct (folder_btns _ !! i); [|done].
  all: case_decide as Hg; [destruct Hg; congruence | done].
Qed.

(** An event that is delivered is the promise [init] waits for, and
    [init] goes on to its next [await], the page untouched and nothing
    thrown, or to its end. *)
Lemma js_waiting_step d s e r :
  js_waiting d s → js_fire e s = Some r →
  is_promise e = true ∧
  (r.1.1 = Settled ∨
   js_waiting d r.1 ∧ rank r.1.1 = S (rank s.1) ∧ r.2 = None).
Proof.
  intros (Hs & Hi & Hd). destruct e as [a|b|e]; rw /js_fire;
    [| |by rewrite js_callback_inert].
  all: destruct s as [[] rw]; try done; simpl in *.
  all: intros [= <-]; split; [done|].
  - destruct a as [|[] ? ?]; [by left | by right | by left].
  - destruct a as [|[] ? ?]; [|by right|]; left; apply raw_init_rest_settles.
  - destruct b; [by left | right; by split_and!].
  - left. apply raw_init_rest_settles.
Qed.

(** As long as [init] has not settled, the run consists of promises
    that settled, one for every [await] passed, nothing was thrown, and
    the application waits. *)
Lemma js_waiting_run d es s s' fs :
  js_waiting d s → js_fire_all es s = Some (s', fs) → s'.1 ≠ Settled →
  js_waiting d s' ∧ Forall (λ e, is_promise e = true) es ∧
  rank s'.1 = length es + rank s.1 ∧ fs = [].
Proof.
  revert s fs. induction es as [|e es IH]; intros s fs Hw; simpl.
  { by intros [= <- <-]. }
  destruct (js_fire e s) as [[s1 f]|] eqn:He; [|done]. simpl.
  destruct (js_fire_all es s1) as [[s2 fs2]|] eqn:Hes; [|done].
  intros [= <- <-] Hs'.
  destruct (js_waiting_step d s e _ Hw He)
    as [Hn [Hs1 | (Hw1 & Hr & Hf)]]; simpl in *.
  - destruct s1 as [st1 rw1]. simpl in Hs1. subst st1.
    by apply js_fire_all_settled in Hes as (_ & _ & ? & _).
  - destruct (IH s1 fs2 Hw1 Hes Hs') as (? & ? & -> & ->). subst f.
    split_and!; [done | by constructor | lia | done].
Qed.

(** When the constructor has returned the application waits. *)
Lemma js_entry_waiting d : js_waiting d (js_entry d).
Proof. done. Qed.

(** A run splits: the promises settle while the application waits, the
    inputs run when [init] has settled. *)
Lemma js_splits d es s rw fs :
  js_waiting d s → js_fire_all es s = Some (Settled, rw, fs) →
  ∃ ns ins rw1 fs1 fs2,
    es = ns ++ (Arrives <$> ins) ∧ Forall (λ e, is_promise e = true) ns ∧
    js_fire_all ns s = Some (Settled, rw1, fs1) ∧
    js_inputs ins rw1 = Some (rw, fs2) ∧ fs = fs1 ++ fs2.
Proof.
  revert s fs. induction es as [|e es IH]; intros s fs Hw; simpl.
  { intros [= -> _]. by destruct Hw as [? _]. }
  destruct (js_fire e s) as [[s1 f]|] eqn:He; [|done]. simpl.
  destruct (js_fire_all es s1) as [[s2 fs']|] eqn:Hes; [|done].
  intros [= -> <-].
  destruct (js_waiting_step d s e _ Hw He) as [Hn [Hs1 | [Hw1 _]]];
    simpl in *.
  - destruct s1 as [st1 rw1]. simpl in Hs1. subst st1.
    apply js_fire_all_settled in Hes as (ins & -> & _ & Hins).
    exists [e], ins, rw1, (option_list f), fs'.
    split_and!; [done | by constructor | by rw /= He /= app_nil_r | done..].
  - destruct (IH s1 fs' Hw1 Hes)
      as (ns & ins & rw1 & fs1 & fs2 & -> & Hns & Hrun & Hins & ->).
    exists (e :: ns), ins, rw1, (option_list f ++ fs1), fs2.
    split_and!; [done | by constructor | by rw /= He /= Hrun | done
                |by rewrite app_assoc].
Qed.

End waiting.

(** ** The promises of a run are the events of two answers *)

Section decoding.
Context `{Engine}.
#[local] Arguments raw_resume : simpl never.
Implicit Types (s : stage * raw_world) (rw : raw_world).
Implicit Types (ns : list js_event) (r : stage * raw_world * list fault).

(** When [init] has settled no promise is pending. *)
Lemma settled_promises ns s r :
  s.1 = Settled → Forall (λ e, is_promise e = true) ns →
  js_fire_all ns s = Some r → ns = [].
Proof.
  destruct s as [st rw]. simpl. intros ->.
  destruct ns as [|[] ns]; try done. by intros [? _]%Forall_cons.
Qed.

(** The first promise of a run that ends elsewhere than it starts: the
    cases in which it cannot settle are closed. *)
Ltac first_promise ns Hn :=
  destruct ns as [|[?a|?b|?e] ns]; [by intros [= <-] | ..];
  apply Forall_cons in Hn as [? Hn]; try done;
  intros (?q & ?r2 & [= <-] & ?Hns & ?Hr)%js_fire_all_cons.

Lemma captions_body_promises s ns r :
  s.1 = AwaitCaptionsBody →
  Forall (λ e, is_promise e = true) ns → r.1.1 = Settled →
  js_fire_all ns s = Some r → ∃ b, ns = [Parses b].
Proof.
  destruct s as [st rw]. simpl. intros -> Hn Hs. first_promise ns Hn.
  apply settled_promises in Hns as ->;
    [by exists b | apply raw_init_rest_settles | done].
Qed.

Lemma captions_promises s ns r :
  s.1 = AwaitCaptions →
  Forall (λ e, is_promise e = true) ns → r.1.1 = Settled →
  js_fire_all ns s = Some r → ∃ cj, ns = js_events_of cj.
Proof.
  destruct s as [st rw]. simpl. intros -> Hn Hs. first_promise ns Hn.
  rewrite Hr in Hs. destruct a as [|[] status statusText].
  - apply settled_promises in Hns as ->;
      [by exists FetchRejected | apply raw_init_rest_settles | done].
  - apply captions_body_promises in Hns as [b ->]; [|done..].
    by exists (FetchResponse true status statusText b).
  - apply settled_promises in Hns as ->;
      [|apply raw_init_rest_settles | done].
    by exists (FetchResponse false status statusText BodyInvalid).
Qed.

Lemma manifest_body_promises s ns r :
  s.1 = AwaitManifestBody →
  Forall (λ e, is_promise e = true) ns → r.1.1 = Settled →
  js_fire_all ns s = Some r →
  ∃ b cj, ns = Parses b
               :: (if b is BodyJson _ then js_events_of cj else []).
Proof.
  destruct s as [st rw]. simpl. intros -> Hn Hs. first_promise ns Hn.
  rewrite Hr in Hs. destruct b as [|data].
  - apply settled_promises in Hns as ->; [|done..].
    by exists BodyInvalid, FetchRejected.
  - apply captions_promises in Hns as [cj ->]; [|done..].
    by exists (BodyJson data), cj.
Qed.

(** The promises of a run from the first [await] to the end of [init]
    are the events of two answers. *)
Lemma js_network_complete s ns r :
  s.1 = AwaitManifest →
  Forall (λ e, is_promise e = true) ns → r.1.1 = Settled →
  js_fire_all ns s = Some r → ∃ mj cj, ns = js_network mj cj.
Proof.
  destruct s as [st rw]. simpl. intros -> Hn Hs. first_promise ns Hn.
  rewrite Hr in Hs. destruct a as [|[] status statusText].
  - apply settled_promises in Hns as ->; [|done..].
    by exists FetchRejected, FetchRejected.
  - apply manifest_body_promises in Hns as (b & cj & ->); [|done..].
    exists (FetchResponse true status statusText b), cj. by destruct b.
  - apply settled_promises in Hns as ->; [|done..].
    by exists (FetchResponse false status statusText BodyInvalid),
         FetchRejected.
Qed.

(** The promises are at most four. *)
Lemma js_network_length mj cj : length (js_network mj cj) ≤ 4.
Proof. case_outcome mj; case_outcome cj; simpl; lia. Qed.

(** Every run that lets [init] settle: the events of two answers, then
    inputs that run from the world [raw_init] leaves. *)
Lemma js_settled_run d es rw fs :
  js_fire_all es (js_entry d) = Some (Settled, rw, fs) →
  ∃ mj cj ins fs',
    es = js_network mj cj ++ (Arrives <$> ins) ∧
    js_inputs ins (raw_start d mj cj) = Some (rw, fs') ∧
    fs = option_list (thrown (raw_init mj cj) (raw_boot d)) ++ fs'.
Proof.
  intros (ns & ins & rw1 & fs1 & fs2 & -> & Hn & Hns & Hins & ->)%(js_splits d);
    [|apply js_entry_waiting].
  destruct (js_network_complete (js_entry d) ns (Settled, rw1, fs1)
              eq_refl Hn eq_refl Hns) as (mj & cj & ->).
  rewrite js_init_network in Hns. injection Hns as <- <-.
  by exists mj, cj, ins, fs2.
Qed.

(** The answers arrive in the order of the [await]s and inputs follow:
    the inputs run from the world [raw_init] leaves. *)
Lemma js_init_run d mj cj ins :
  js_fire_all (js_network mj cj ++ (Arrives <$> ins)) (js_entry d)
    = prod_map (pair Settled)
        (λ fs, option_list (thrown (raw_init mj cj) (raw_boot d)) ++ fs)
        <$> js_inputs ins (raw_start d mj cj).
Proof.
  rewrite js_fire_all_app, js_init_network. simpl.
  rewrite js_fire_all_inputs. by destruct (js_inputs ins _) as [[rw fs]|].
Qed.

End decoding.

(** ** The theorems *)

Section theorems.
Context `{Engine}.


(** C27. While [init] is suspended, on bodies of any shape and after
    whatever the browser has delivered: no listener and no timer is
    registered, nothing is requested, the page is as the markup has it,
    no input runs a callback, nothing was thrown, and what was delivered
    is one promise for every [await] passed. *)
Theorem script_booting_inert d es s fs e :
  js_fire_all es (js_entry d) = Some (s, fs) → s.1 ≠ Settled →
  js_waiting d s ∧ js_fire (Arrives e) s = None ∧
  Forall (λ e, is_promise e = true) es ∧ length es = rank s.1 ∧ fs = [].
Proof.
  intros Hes Hs.
  destruct (js_waiting_run d es _ s fs (js_entry_waiting d) Hes Hs)
    as (Hw & Hn & -> & ->).
  split_and!; [done | | done | simpl; lia | done].
  rw /js_fire. destruct s as [st rw]. simpl.
  rewrite js_callback_inert; [by destruct st | apply Hw].
Qed.

(** C40. Every run of the script that lets [init] settle, on bodies of any
    shape and in whatever order the browser chose: its events are the
    promises of a manifest answer and a caption answer, at most four,
    followed by inputs, and it ends where the inputs lead from the world
    [raw_init] leaves in one step, with the same reports. *)
Theorem script_run_splits d es rw fs :
  js_fire_all es (js_entry d) = Some (Settled, rw, fs) →
  ∃ mj cj ins fs',
    es = js_network mj cj ++ (Arrives <$> ins) ∧
    length (js_network mj cj) ≤ 4 ∧
    js_inputs ins (raw_start d mj cj) = Some (rw, fs') ∧
    fs = option_list (thrown (raw_init mj cj) (raw_boot d)) ++ fs'.
Proof.
  intros (mj & cj & ins & fs' & -> & Hins & ->)%js_settled_run.
  exists mj, cj, ins, fs'. split_and!; [done | apply js_network_length | done..].
Qed.

End theorems.

(** ** On bodies of the documented shape *)

Section refinement.
Context `{Engine}.
Context (Hcaptions : builtin "captions" = false).
Context (Hlilia : builtin "Lilia" = false) (Hleylah : builtin "Leylah" = false).
Context (d : dom) (mj cj : fetch_outcome value).
Context (m : fetch_outcome manifest) (c : fetch_outcome captions_json).
Context (Hm : view_outcome mj = Some m) (Hc : view_outcome cj = Some c).

(** Nothing leaves [init]. *)
Lemma raw_init_caught : thrown (raw_init mj cj) (raw_boot d) = None.
Proof.
  destruct (refines_final eq _ _ (raw_boot d) (boot d)
              (init_refines Hcaptions Hlilia Hleylah mj cj m c Hm Hc)
              eq_refl) as [_ ->].
  by rewrite init_thrown.
Qed.

(** C23. The script as the engine runs it implements the Selector of the
    specification. Let the two bodies have the documented shape and no
    folder that can be selected be named like a built-in property. Then
    a run of the script in which [init] settles, on values, on doubles
    and between the [await]s, is the run of [Program] on the typed views
    of the bodies: it ends in the world whose typed view that run ends
    in, and nothing is thrown, by [init] or by a callback. On arrays of
    ECMAScript that world is reachable in [Events] from the world [init]
    of [Loader] leaves, and when the Selector can load from the answers
    the fields are the state it reaches from its [load] on the events
    at the exact draws. *)
Theorem script_refines ins rw fs :
  plain_folders (start d m c) →
  js_fire_all (js_network mj cj ++ (Arrives <$> ins)) (js_entry d)
    = Some (Settled, rw, fs) →
  ∃ w, typed_of rw = Some w ∧ fs = [] ∧
    program_fire_all ((Promise <$> network m c) ++ (Input <$> ins)) (entry d)
      = Some (Settled, w) ∧
    (js_arrays (imageManifest (app w)) (captions (app w)) →
     reachable (start d m c) w ∧
     ∀ s0, sel_load m c = Some s0 →
       abs w = sel_run (data_folder <$> folder_btns d)
                 (exact_run ins (start d m c)) s0).
Proof.
  intros Hp. rewrite js_init_run, raw_init_caught.
  pose proof (js_inputs_agree ins _ _
                (raw_start_view Hcaptions Hlilia Hleylah d mj cj m c Hm Hc) Hp)
    as Ha.
  destruct (js_inputs ins _) as [[rw' fs']|]; [|done].
  destruct (double_fire_all ins (start d m c)) as [w|] eqn:Hins; [|done].
  destruct Ha as [Hw ->]. intros [= <- <-]. exists w.
  split_and!; [done | done | by rewrite program_init, Hins|].
  intros Hjs. by destruct (after_init d m c ins w Hins Hjs) as (_ & ? & ?).
Qed.

End refinement.

(** ** After a manifest that is [null] *)

Section null_manifest.
Context `{Engine}.
Context (d : dom) (mj cj : fetch_outcome value).
Context (Hmj : delivered mj = Some VNull).
Context (Hcj : ∀ rw, thrown (raw_loadCaptions cj) rw = None).

(** The exception of the report is caught by [init]. *)
Lemma raw_init_null_caught : thrown (raw_init mj cj) (raw_boot d) = None.
Proof.
  rw /raw_init /raw_say /try_js.
  rewrite (thrown_modify_bind (upd_rest _)), thrown_try_catch.
  set (rw0 := upd_rest _ (raw_boot d)).
  by destruct (raw_init_body_null mj cj Hmj Hcj rw0) as (-> & _).
Qed.

(** Nothing is read in a manifest that is [null]. *)
Lemma stuck_natural_lengths rw : stuck rw → natural_lengths rw.
Proof. intros [Hm _] folder images. by rewrite Hm. Qed.

(** C16. A manifest that is [null], as the engine runs the script. [init]
    stores it, fails at its report when the listeners are registered,
    and catches that exception: the page shows the initialization
    failure while the application is wired. Over every run of inputs
    after it the page keeps showing that failure and nothing is
    requested: every pick, by a click or by the timeout, throws a
    [TypeError] at the read of line 126 in a callback where nothing
    catches it, and nothing else is thrown. *)
Theorem script_null_manifest ins rw fs :
  js_fire_all (js_network mj cj ++ (Arrives <$> ins)) (js_entry d)
    = Some (Settled, rw, fs) →
  failed_but_wired (rest (raw_start d mj cj)) ∧ stuck rw ∧
  length fs = length (filter input_is_pick ins) ∧ Forall null_read fs.
Proof.
  rewrite js_init_run, raw_init_null_caught.
  destruct (js_inputs ins _) as [[rw' fs']|] eqn:Hins; [|done].
  intros [= <- <-].
  pose proof (raw_start_stuck d mj cj Hmj Hcj) as Hs.
  destruct (js_inputs_raw ins _ _ _ (stuck_natural_lengths _ Hs) Hins)
    as [Hrun _].
  destruct (raw_fire_all_stuck _ _ _ _ Hs Hrun) as (? & Hlen & ?).
  rewrite (raw_exact_run_picks ins _ _ Hins) in Hlen.
  split; [by destruct (raw_start_failed_but_wired d mj cj)|]. by split_and!.
Qed.

End null_manifest.

(** ** On the example *)

Lemma script_booting_inert_witness :
  js_waiting demo_page (AwaitManifestBody, (js_entry demo_page).2) ∧
  js_fire (H:=cautious_engine) (Arrives (DClickGenerate third third))
    (AwaitManifestBody, (js_entry demo_page).2) = None ∧
  Forall (λ e, is_promise e = true) [Settles (Response true 200 "OK")] ∧
  length [Settles (Response true 200 "OK")] = rank AwaitManifestBody ∧
  @nil fault = [].
Proof.
  by apply (script_booting_inert (H:=cautious_engine) demo_page
              [Settles (Response true 200 "OK")]
              (AwaitManifestBody, (js_entry demo_page).2)).
Defined.

Lemma script_run_splits_witness :
  ∃ mj cj ins fs',
    demo_js_events = js_network mj cj ++ (Arrives <$> ins) ∧
    length (js_network mj cj) ≤ 4 ∧
    js_inputs (H:=cautious_engine) ins
      (raw_start (H:=cautious_engine) demo_page mj cj)
      = Some (demo_js_end.1, fs') ∧
    demo_js_end.2
      = option_list (thrown (raw_init (H:=cautious_engine) mj cj)
                       (raw_boot demo_page)) ++ fs'.
Proof.
  apply (script_run_splits (H:=cautious_engine) demo_page). by vm_compute.
Defined.

Lemma script_refines_witness :
  ∃ w, typed_of demo_js_end.1 = Some w ∧ demo_js_end.2 = [] ∧
    program_fire_all demo_events (entry demo_page) = Some (Settled, w) ∧
    (js_arrays (imageManifest (app w)) (captions (app w)) →
     reachable demo_start w ∧
     ∀ s0, sel_load (ok_response demo_manifest) (ok_response (Some ["Hi"]))
             = Some s0 →
       abs w = sel_run (data_folder <$> folder_btns demo_page)
                 (exact_run demo_inputs demo_start) s0).
Proof.
  refine (script_refines (H:=cautious_engine) eq_refl eq_refl eq_refl
            demo_page (ok_response (encode demo_manifest)) demo_captions
            (ok_response demo_manifest) (ok_response (Some ["Hi"]))
            _ _ demo_inputs _ _ _ _); [done | done | | by vm_compute].
  apply (bool_decide_unpack _). by vm_compute.
Defined.

Lemma script_null_manifest_witness :
  ∃ rw fs,
    js_fire_all (H:=cautious_engine)
      (js_network null_body demo_captions
         ++ (Arrives <$> [DClickFolder 2 third; DClickGenerate third third;
                          DTimerFires third third]))
      (js_entry demo_page) = Some (Settled, rw, fs) ∧
    failed_but_wired
      (rest (raw_start (H:=cautious_engine) demo_page null_body demo_captions)) ∧
    stuck rw ∧ length fs = 2 ∧ Forall null_read fs.
Proof.
  eexists _, _. split; [by vm_compute|].
  apply (script_null_manifest (H:=cautious_engine) demo_page null_body
           demo_captions eq_refl demo_captions_loads
           [DClickFolder 2 third; DClickGenerate third third;
            DTimerFires third third]).
  by vm_compute.
Defined.

