(* ===== verification/Robust.v ===== *)
(** * Robust: what holds of the page whatever the bodies hold

    [src/script.js] checks nothing of what [response.json()] gives, so
    the fields can hold values of any shape, and a pick can throw at
    each of its reads. This file shows what the script keeps of the
    page all the same. It stands on [Script], the script as the engine
    runs it, and asks nothing of the bodies.

    A pick does one of three things to the page, whatever it reads
    ([pick_outcome], [js_pick_outcome]): nothing, when a read or a
    conversion throws before line 146; the message of line 129; the
    test image and the caption of lines 146 and 147, which do not throw
    once line 143 has printed the caption. [init] leaves the
    page as the markup has it or with the listeners registered and the
    buttons marked, and in both cases with or without the message of
    line 31 ([init_outcome], [raw_start_rest]).

    A property of the world that the methods of the page keep for
    whatever path and caption they are given is [Robust]; the fields of
    [page_fields] are. [page_wf] adds that the loading placeholder has a
    request in flight. The theorems:
    - [page_wf] holds after every run of the script, settled or not,
      on a page that showed exactly one of placeholder and image and no
      loading placeholder ([script_page_wf]);
    - the callbacks the browser runs on its own, the timeout and the
      handlers of the images, lower what the browser owes, also when
      they throw, so no sequence of them goes on forever
      ([js_browser_step_wf]);
    - delivering what is owed ([js_next_owed], [js_settle]) is a run of
      the script of at most [pending] inputs, after which nothing is
      owed and the page no longer shows the loading placeholder
      ([script_settles]);
    - no exception leaves [init], and none leaves a callback that makes
      no pick: what the browser reports of a run is at most one
      exception for each of its picks ([script_reports]).

    What [Settle] shows of worlds of the documented shape that is not
    shown here needs the shape: that only listed images are requested,
    and that the current folder is known. *)

From Stdlib Require Import QArith.
From S2P Require Import Prelude Random Double Browser Display Selector Loader.
From S2P Require Import Events Boot Settle Json Raw Unchecked RawEvents Program.
From S2P Require Import Callbacks Script.

(** ** What the methods do to the page *)

(** The input is a click: the user makes it, not the browser. *)
Definition input_by_user (e : input) : bool :=
  match e with
  | DClickFolder _ _ | DClickGenerate _ _ => true
  | _ => false
  end.

(** What [generateRandomImage()] can leave of the world [w], up to the
    console: [w] when a read threw, the message of line 129, or the test
    image and the caption of lines 146 and 147. *)
Inductive pick_outcome (w : world) : world → Prop :=
  | pick_threw w' : w' ≈ w → pick_outcome w w'
  | pick_no_images message w' :
      w' ≈ displayError message w → pick_outcome w w'
  | pick_shown imagePath caption w' :
      w' ≈ displayCaption caption (displayImage imagePath w) →
      pick_outcome w w'.

(** What [init()] can leave of the page [d], up to the console: the
    page as it was when the model leaves out what a load does, the
    message of line 31 when a load threw, the listeners and the marks of
    lines 21 and 22, or those and the message when the report of lines
    24-27 threw. *)
Inductive init_outcome (d : dom) : world → Prop :=
  | init_stopped w' : w' ≈ boot d → init_outcome d w'
  | init_failed w' :
      w' ≈ displayError init_failed_message (boot d) → init_outcome d w'
  | init_wired w' :
      w' ≈ updateFolderButtons (setupEventListeners (boot d)) →
      init_outcome d w'
  | init_failed_wired w' :
      w' ≈ displayError init_failed_message
             (updateFolderButtons (setupEventListeners (boot d))) →
      init_outcome d w'.

(** An invariant that asks nothing of the data: [displayImage] and
    [displayCaption] keep it for whatever path and caption, and lines 21
    and 22 keep it. *)
Class Robust (I : world → Prop) : Prop := {
  robust_inv :: Invariant I;
  robust_image w imagePath : I w → I (displayImage imagePath w);
  robust_caption w caption : I w → I (displayCaption caption w);
  robust_wired w : I w → I (updateFolderButtons (setupEventListeners w));
}.

(** Exactly one of placeholder and image is shown; the handlers of the
    shown image are those of its load; the buttons are those of the page
    [d]; and once the listeners are registered the buttons are marked
    for the current folder. *)
Definition page_fields (d : dom) (w : world) : Prop :=
  one_shown (page w) ∧ handlers_current w ∧ buttons_of d w ∧
  (wired w = true → buttons_follow w).

(** The above, and the loading placeholder has a request in flight. *)
Definition page_wf (d : dom) (w : world) : Prop :=
  page_fields d w ∧ loading_in_flight w.

Section owed.
Context `{Engine}.

(** A callback the browser runs on its own, on values of any shape. *)
Definition js_browser_step (rw' rw : raw_world) : Prop :=
  ∃ e m, input_by_user e = false ∧ js_callback e rw = Some m ∧
    rw' = final_state m rw.

(** The next input the browser can deliver when something is owed: the
    timeout, else the load of the first test image, else the load of the
    shown image. *)
Definition js_next_owed (rw : raw_world) : option input :=
  let w := rest rw in
  if timer w then Some (DTimerFires 0 0)
  else match probes w with
       | _ :: _ => Some (DProbeLoads 0)
       | [] => if image_load w is Some _ then Some DImageLoads else None
       end.

(** The browser delivers what is owed, at most [n] inputs: where that
    leaves the script, and what the callbacks threw. *)
Fixpoint js_settle (n : nat) (rw : raw_world) : raw_world * list fault :=
  match n with
  | 0 => (rw, [])
  | S n =>
      match js_next_owed rw ≫= λ e, js_callback e rw with
      | Some m =>
          let r := js_settle n (final_state m rw) in
          (r.1, option_list (thrown m rw) ++ r.2)
      | None => (rw, [])
      end
  end.

End owed.

(** ** The outcomes of a pick and of [init] *)

(** Closes an equation up to the console between worlds that differ in
    what was logged before a method of the page ran. *)
Ltac quiet :=
  simpl;
  repeat lazymatch goal with
    | |- console_write _ _ _ ≈ _ => etrans; [apply console_write_quiet|]
    | |- displayError _ _ ≈ _ => apply displayError_proper
    | |- displayImage _ _ ≈ _ => apply displayImage_proper
    | |- displayCaption _ _ ≈ _ => apply displayCaption_proper
    end; done.

Section shapes.
Context `{Engine}.

#[local] Arguments get : simpl never.
#[local] Arguments to_number : simpl never.
#[local] Arguments to_string : simpl never.
#[local] Arguments text_content : simpl never.
#[local] Arguments index_key : simpl never.
#[local] Arguments js_draw : simpl never.
#[local] Arguments displayImage : simpl never.
#[local] Arguments displayCaption : simpl never.
#[local] Arguments displayError : simpl never.

(** A value that can be printed can be assigned to [textContent]. *)
Lemma text_content_printed v s :
  to_string v = inr s → ∃ shown, text_content v = inr shown.
Proof. intros Hs. rw /text_content. destruct v; rewrite ?Hs; by eexists. Qed.

(** A pick on values of any shape, read by read. *)
Lemma js_pick_outcome R1 R2 rw :
  pick_outcome (rest rw) (rest (final_state (js_generateRandomImage R1 R2) rw)).
Proof.
  pick_unfold. simpl.
  destruct (get (raw_manifest rw) _) as [f|images]; [constructor 1; quiet|].
  destruct (truthy images); simpl; [|eapply pick_no_images; quiet].
  destruct (get images "length") as [?f|?n]; simpl; [constructor 1; quiet|].
  destruct (is_zero _); [eapply pick_no_images; quiet|].
  destruct (js_draw R1 images) as [f|file]; [constructor 1; quiet|].
  destruct (to_string file); simpl; [constructor 1; quiet|].
  destruct (js_draw R2 _) as [f|caption]; [constructor 1; quiet|].
  destruct (to_string caption) as [f|text] eqn:Hs; [constructor 1; quiet|].
  destruct (text_content_printed caption text Hs) as [shown ->].
  eapply pick_shown; quiet.
Qed.

(** [loadManifest] and the report of [init] write the console only,
    whatever they read and however they end. *)
Lemma raw_loadManifest_frame mj rw :
  rest (final_state (raw_loadManifest mj) rw) ≈ rest rw.
Proof.
  raw_unfold. rewrite run_raw_fetch_json. destruct (delivered mj); quiet.
Qed.

Lemma raw_report_frame rw : rest (final_state raw_report rw) ≈ rest rw.
Proof.
  raw_unfold. simpl.
  repeat lazymatch goal with
    | |- context [match ?x with inl _ => _ | inr _ => _ end] =>
        destruct x as [?f|?v]; simpl; [quiet|]
    end.
  quiet.
Qed.

(** The [try] block of [init] stops in a load, or registers the
    listeners and marks the buttons. *)
Lemma raw_init_body_rest mj cj rw :
  rest (final_state (raw_init_body mj cj) rw) ≈ rest rw ∨
  rest (final_state (raw_init_body mj cj) rw)
    ≈ updateFolderButtons (setupEventListeners (rest rw)).
Proof.
  pose proof (raw_loadManifest_frame mj rw) as H1.
  set (rw1 := final_state (raw_loadManifest mj) rw) in *.
  destruct (raw_loadCaptions_frame cj rw1) as (_ & H2 & _).
  set (rw2 := final_state (raw_loadCaptions cj) rw1) in *.
  rw /raw_init_body final_state_seq -/rw1.
  destruct (thrown (raw_loadManifest mj) rw); [by left|].
  rw final_state_seq -/rw2.
  destruct (thrown (raw_loadCaptions cj) rw1); [left; by etrans|].
  rewrite !(final_state_modify_bind (upd_rest _)).
  right. etrans; [apply raw_report_frame|]. simpl.
  apply updateFolderButtons_proper, setupEventListeners_proper. by etrans.
Qed.

(** [init] on bodies of any shape. *)
Lemma raw_start_rest d mj cj : init_outcome d (rest (raw_start d mj cj)).
Proof.
  rw /raw_start /raw_init /raw_say /try_js.
  rewrite (final_state_modify_bind (upd_rest _)), final_state_try_catch.
  set (rw0 := upd_rest _ (raw_boot d)).
  assert (rest rw0 ≈ boot d) as H0 by apply console_write_quiet.
  destruct (raw_init_body_rest mj cj rw0) as [Hr|Hr];
    destruct (thrown (raw_init_body mj cj) rw0) as [[e|]|];
    set (rw1 := final_state _ rw0) in *; clearbody rw1.
  1: apply init_failed. 2,3: apply init_stopped.
  4: apply init_failed_wired. 5,6: apply init_wired.
  all: try (rewrite (final_state_modify_bind (upd_rest _)), final_state_modify;
            cbn [rest upd_rest]; apply displayError_proper;
            etrans; [apply console_write_quiet|]).
  all: (etrans; [exact Hr|]); try done.
  all: by apply updateFolderButtons_proper, setupEventListeners_proper.
Qed.

End shapes.

(** ** The invariants that ask nothing of the data *)

#[export] Instance and_robust I J : Robust I → Robust J → Robust (λ w, I w ∧ J w).
Proof.
  intros HI HJ. split; [apply _|..].
  - intros w p []. split; by apply robust_image.
  - intros w c []. split; by apply robust_caption.
  - intros w []. split; by apply robust_wired.
Qed.

#[export] Instance one_shown_robust : Robust (λ w, one_shown (page w)).
Proof. by split; [apply _|..]. Qed.

#[export] Instance handlers_current_robust : Robust handlers_current.
Proof. by split; [apply _|..]. Qed.

#[export] Instance buttons_of_robust d : Robust (buttons_of d).
Proof.
  split; [apply _ | done | done |]. intros w Hw.
  rw /buttons_of updateFolderButtons_names. exact Hw.
Qed.

#[export] Instance wired_follow_inv :
  Invariant (λ w, wired w = true → buttons_follow w).
Proof.
  split; [solve_inv_proper | | done..].
  intros w f _ _ _ _. apply buttons_follow_update.
Qed.

#[export] Instance wired_follow_robust :
  Robust (λ w, wired w = true → buttons_follow w).
Proof.
  split; [apply _ | done | done |]. intros w _ _. apply buttons_follow_update.
Qed.

#[export] Instance page_fields_robust d : Robust (page_fields d).
Proof. rw /page_fields. do 3 (apply and_robust; [apply _|]). apply _. Qed.

#[export] Instance page_wf_proper d : Proper (quiet_eq ==> iff) (page_wf d).
Proof.
  intros w1 w2 Hq. rw /page_wf /loading_in_flight.
  by rewrite (inv_proper (I:=page_fields d) _ _ Hq), Hq.
Qed.

(** ** What a pick keeps *)

Lemma pick_outcome_robust I `{!Robust I} w w' :
  pick_outcome w w' → I w → I w'.
Proof.
  destruct 1 as [w' Hq|msg w' Hq|p c w' Hq]; intros Hw;
    apply (inv_proper _ _ Hq);
    [done | by apply inv_error | by apply robust_caption, robust_image].
Qed.

Lemma pick_outcome_loading w w' :
  pick_outcome w w' → loading_in_flight w → loading_in_flight w'.
Proof.
  rw /loading_in_flight.
  destruct 1 as [w' Hq|msg w' Hq|p c w' Hq]; rewrite !Hq;
    rewrite ?phase_displayError, ?phase_displayCaption; try done.
  intros _ _; left; simpl; by destruct (probes w).
Qed.

(** A pick asks for at most one test image, whatever it reads. *)
Lemma pick_outcome_pending w w' :
  pick_outcome w w' → pending w' ≤ pending w + 2.
Proof.
  destruct 1 as [w' Hq|msg w' Hq|p c w' Hq]; rewrite Hq;
    rw /pending /= ?length_app /=; lia.
Qed.

(** ** What a callback keeps *)

Section callbacks.
Context `{Engine}.

(** A callback that makes no pick is a step of [Events] that throws
    nothing; one that makes a pick has one of the outcomes of a pick,
    after the timer is cleared when the timeout made it. *)
Lemma js_callback_cases e rw m :
  js_callback e rw = Some m →
  (input_is_pick e = false ∧ thrown m rw = None ∧
   step (rest rw) (exact (rest rw) e) (rest (final_state m rw))) ∨
  (input_is_pick e = true ∧
   ∃ w, (input_by_user e = true ∧ w = rest rw ∨
          timer (rest rw) = true ∧ w = set_timer false (rest rw)) ∧
     pick_outcome w (rest (final_state m rw))).
Proof.
  destruct e as [i R|R1 R2|R1 R2|i|i| |]; rw /js_callback /=.
  - destruct (folder_btns _ !! i) as [b|] eqn:Hb; [|done].
    case_decide as Hg; [|done]. destruct Hg as [Hw HR]. intros [= <-].
    left. split_and!; [done..|].
    pose proof (exact_draw_unit folders R HR js_array_folders) as Hu.
    pose proof (double_selectFolder_exact (data_folder b) R (rest rw) HR) as Hs.
    simpl in Hu, Hs. rw /final_state /= Hs. by econstructor.
  - case_decide as Hg; [|done]. intros [= <-]. right. split; [done|].
    exists (rest rw). split; [by left | apply js_pick_outcome].
  - case_decide as Hg; [|done]. destruct Hg as [Ht _]. intros [= <-].
    right. split; [done|]. exists (set_timer false (rest rw)).
    split; [by right|]. rewrite (final_state_modify_bind (upd_rest _)).
    apply (js_pick_outcome R1 R2 (upd_rest (set_timer false) rw)).
  - destruct (probes _ !! i) eqn:Hp; simpl; [|done]. intros [= <-].
    left. split_and!; [done..|]. by econstructor.
  - destruct (probes _ !! i) eqn:Hp; simpl; [|done]. intros [= <-].
    left. split_and!; [done..|]. by econstructor.
  - destruct (image_load _) eqn:Hp; simpl; [|done]. intros [= <-].
    left. split_and!; [done..|]. by econstructor.
  - destruct (image_load _) eqn:Hp; simpl; [|done]. intros [= <-].
    left. split_and!; [done..|]. by econstructor.
Qed.

Lemma js_callback_robust I `{!Robust I} e rw m :
  js_callback e rw = Some m → I (rest rw) → I (rest (final_state m rw)).
Proof.
  intros [(_ & _ & Hs) | (_ & w & [[_ ->] | [Ht ->]] & Hp)]%js_callback_cases Hw.
  - by eapply (step_preserves I).
  - by eapply pick_outcome_robust.
  - eapply pick_outcome_robust; [done..|]. by apply inv_timer.
Qed.

Lemma js_callback_wf d e rw m :
  js_callback e rw = Some m → page_wf d (rest rw) →
  page_wf d (rest (final_state m rw)).
Proof.
  intros He [Hf Hl]. split; [by eapply (js_callback_robust (page_fields d))|].
  destruct (js_callback_cases e rw m He)
    as [(_ & _ & Hs) | (_ & w & [[_ ->] | [Ht ->]] & Hp)].
  - eapply step_loading_in_flight; [|done..]. apply Hf.
  - by eapply pick_outcome_loading.
  - by eapply pick_outcome_loading.
Qed.

Lemma input_by_user_exact w e : by_user (exact w e) = input_by_user e.
Proof. by destruct e. Qed.

(** Every callback the browser runs on its own pays off something
    owed, also when it throws. *)
Lemma js_callback_pending e rw m :
  input_by_user e = false → js_callback e rw = Some m →
  pending (rest (final_state m rw)) < pending (rest rw).
Proof.
  intros Hu [(_ & _ & Hs) | (Hp & w & [[? ->] | [Ht ->]] & Ho)]%js_callback_cases.
  - eapply step_pending; [done|]. by rewrite input_by_user_exact.
  - congruence.
  - apply pick_outcome_pending in Ho. revert Ho. rw /pending /= Ht /=. lia.
Qed.

(** ** What a run keeps *)

Lemma js_inputs_wf d ins rw r :
  js_inputs ins rw = Some r → page_wf d (rest rw) → page_wf d (rest r.1).
Proof.
  revert rw r. induction ins as [|e ins IH]; intros rw r; simpl.
  { by intros [= <-]. }
  destruct (js_callback e rw) as [m|] eqn:He; [|done]. simpl.
  destruct (js_inputs ins _) as [[rw2 fs2]|] eqn:Hins; [|done].
  intros [= <-] Hw. apply (IH _ _ Hins). by eapply js_callback_wf.
Qed.

(** A run without clicks is no longer than what was owed at its
    start. *)
Lemma js_inputs_pending ins rw r :
  Forall (λ e, input_by_user e = false) ins → js_inputs ins rw = Some r →
  length ins + pending (rest r.1) ≤ pending (rest rw).
Proof.
  intros Hins. revert rw r.
  induction Hins as [|e ins He _ IH]; intros rw r; simpl.
  { intros [= <-]. simpl. lia. }
  destruct (js_callback e rw) as [m|] eqn:Hm; [|done]. simpl.
  destruct (js_inputs ins _) as [[rw2 fs2]|] eqn:Hr; [|done].
  intros [= <-]. apply IH in Hr.
  pose proof (js_callback_pending e rw m He Hm). simpl in *. lia.
Qed.

(** ** Something owed can be delivered *)

Lemma js_next_owed_None rw : js_next_owed rw = None ↔ quiescent (rest rw).
Proof.
  rw /js_next_owed /quiescent.
  destruct (timer _), (probes _), (image_load _);
    split; intros Hq; try done; by destruct Hq as (? & ? & ?).
Qed.

Lemma random_double_0 : random_double 0.
Proof. apply random_doubleb_spec. by vm_compute. Qed.

(** What [js_next_owed] names is an input of the browser that runs a
    callback. *)
Lemma js_next_owed_fires rw e :
  js_next_owed rw = Some e →
  input_by_user e = false ∧ is_Some (js_callback e rw).
Proof.
  rw /js_next_owed. destruct (timer (rest rw)) eqn:Ht.
  { intros [= <-]. split; [done|]. rw /js_callback. rewrite decide_True; [done|].
    split_and!; [done | apply random_double_0..]. }
  destruct (probes (rest rw)) eqn:Hp; [destruct (image_load (rest rw)) eqn:Hl|];
    intros ?; simplify_eq; split; try done; by rw /js_callback /= ?Hp ?Hl.
Qed.

(** [js_settle] makes a run of the browser's own inputs. *)
Lemma js_settle_run n rw :
  ∃ ins, Forall (λ e, input_by_user e = false) ins ∧
    js_inputs ins rw = Some (js_settle n rw) ∧
    (length ins < n → quiescent (rest (js_settle n rw).1)).
Proof.
  revert rw. induction n as [|n IH]; intros rw.
  { exists []. split_and!; [done | done | simpl; lia]. }
  cbn [js_settle]. destruct (js_next_owed rw) as [e|] eqn:He; simpl.
  - destruct (js_next_owed_fires rw e He) as [Hu [m Hm]]. rewrite Hm.
    destruct (IH (final_state m rw)) as (ins & Hins & Hrun & Hq).
    exists (e :: ins).
    split_and!; [by constructor | | simpl; intros; apply Hq; lia].
    simpl. rewrite Hm. simpl. rewrite Hrun. by destruct (js_settle n _).
  - exists []. split_and!; [done | done | intros _; by apply js_next_owed_None].
Qed.

(** Delivering what is owed leaves nothing owed. *)
Lemma js_settle_quiescent rw :
  quiescent (rest (js_settle (pending (rest rw)) rw).1).
Proof.
  destruct (js_settle_run (pending (rest rw)) rw) as (ins & Hins & Hrun & Hlt).
  pose proof (js_inputs_pending ins rw _ Hins Hrun) as Hle.
  destruct (decide (length ins < pending (rest rw))); [auto|].
  apply quiescent_pending. lia.
Qed.

(** ** The page [init] leaves *)

Lemma boot_page_wf d : one_shown d → phase_of d ≠ Loading → page_wf d (boot d).
Proof. intros Hd Hph. split_and!; try done. by intros ?. Qed.

Lemma page_wf_error d message w : page_wf d w → page_wf d (displayError message w).
Proof.
  intros [Hf Hl]. split; [by apply inv_error|].
  by rw /loading_in_flight phase_displayError.
Qed.

Lemma page_wf_wired d w :
  page_wf d w → page_wf d (updateFolderButtons (setupEventListeners w)).
Proof. intros [Hf Hl]. split; [by apply robust_wired | exact Hl]. Qed.

Lemma init_outcome_wf d w :
  one_shown d → phase_of d ≠ Loading → init_outcome d w → page_wf d w.
Proof.
  intros Hd Hph Ho. pose proof (boot_page_wf d Hd Hph) as Hb.
  destruct Ho as [w Hq|w Hq|w Hq|w Hq]; rewrite Hq;
    auto using page_wf_error, page_wf_wired.
Qed.

Lemma inert_page_wf d w :
  one_shown d → phase_of d ≠ Loading → inert w → page w = d → page_wf d w.
Proof.
  intros Hd Hph (Hw & _ & Hp & Hl) <-. rw /page_wf /page_fields.
  split_and!; [done | by intros p; rewrite Hl | done | by rewrite Hw
              | by intros ?].
Qed.

(** When nothing is owed the loading placeholder is not shown. *)
Lemma quiescent_shown d w :
  page_wf d w → quiescent w → phase_of (page w) ≠ Loading.
Proof.
  intros [_ Hl] (_ & Hp & Hi) Hph.
  destruct (Hl Hph) as [? | [p Hp']]; congruence.
Qed.

(** The world of a run that let [init] settle. *)
Lemma settled_page_wf d es rw fs :
  one_shown d → phase_of d ≠ Loading →
  js_fire_all es (js_entry d) = Some (Settled, rw, fs) → page_wf d (rest rw).
Proof.
  intros Hd Hph (mj & cj & ins & fs' & -> & Hins & ->)%js_settled_run.
  apply (js_inputs_wf d ins _ _ Hins).
  apply init_outcome_wf; [done..|]. apply raw_start_rest.
Qed.

(** ** What is thrown *)

(** The [catch] of [init] handles every exception and throws none. *)
Lemma raw_init_caught_any mj cj rw :
  thrown (raw_init mj cj) rw = None ∨ thrown (raw_init mj cj) rw = Some Unmodelled.
Proof.
  rw /raw_init /raw_say /try_js.
  rewrite (thrown_modify_bind (upd_rest _)), thrown_try_catch.
  destruct (thrown (raw_init_body mj cj) _) as [[e|]|]; auto.
Qed.

(** Only the picks of a run throw. *)
Lemma js_inputs_faults ins rw r :
  js_inputs ins rw = Some r → length r.2 ≤ length (filter input_is_pick ins).
Proof.
  revert rw r. induction ins as [|e ins IH]; intros rw r; simpl.
  { by intros [= <-]. }
  destruct (js_callback e rw) as [m|] eqn:He; [|done]. simpl.
  destruct (js_inputs ins _) as [[rw2 fs2]|] eqn:Hins; [|done].
  intros [= <-]. apply IH in Hins. rewrite filter_cons. simpl in *.
  destruct (js_callback_cases e rw m He) as [(-> & -> & _) | (-> & _)]; simpl;
    [lia|]. destruct (thrown m rw); simpl; lia.
Qed.

End callbacks.

(** ** The theorems *)

Section theorems.
Context `{Engine}.

(** C15. The callbacks the browser runs on its own cannot go on forever,
    on values of any shape and also when they throw: from no world of
    the script is there an infinite sequence of timeouts and image
    events. Only a click of the user makes the script ask for more. *)
Theorem js_browser_step_wf : well_founded js_browser_step.
Proof.
  apply (well_founded_lt_compat _ (λ rw, pending (rest rw))).
  intros rw' rw (e & m & Hu & Hm & ->). by eapply js_callback_pending.
Qed.

(** C22. Whatever the two bodies hold and whatever the user and the
    browser did, before [init] has settled or after, whether callbacks
    threw or not: on a page that showed exactly one of placeholder and
    image and no loading placeholder before the script ran, the page
    shows exactly one of placeholder and image, the handlers of the
    shown image are those of its load, the buttons are those of the
    markup and are marked for the current folder once the listeners are
    registered, and a request is in flight while the loading
    placeholder is shown. *)
Theorem script_page_wf d es s fs :
  one_shown d → phase_of d ≠ Loading →
  js_fire_all es (js_entry d) = Some (s, fs) →
  page_wf d (rest s.2).
Proof.
  intros Hd Hph Hes. destruct s as [st rw].
  destruct (decide (st = Settled)) as [->|Hst].
  - by eapply settled_page_wf.
  - destruct (js_waiting_run d es _ _ fs (js_entry_waiting d) Hes Hst)
      as ((_ & Hi & Hp) & _).
    by apply inert_page_wf.
Qed.

(** C29. Whatever the two bodies hold, after every run that let [init]
    settle the application settles when the user does nothing more:
    delivering what is owed is a run of at most [pending] inputs of the
    browser, it continues the run of the script, with what its callbacks
    threw reported after what was reported before, and it ends with
    nothing owed and a page that no longer shows the loading
    placeholder. *)
Theorem script_settles d es rw fs :
  one_shown d → phase_of d ≠ Loading →
  js_fire_all es (js_entry d) = Some (Settled, rw, fs) →
  let r := js_settle (pending (rest rw)) rw in
  quiescent (rest r.1) ∧ phase_of (page (rest r.1)) ≠ Loading ∧
  ∃ ins, Forall (λ e, input_by_user e = false) ins ∧
    length ins ≤ pending (rest rw) ∧
    js_fire_all (es ++ (Arrives <$> ins)) (js_entry d)
      = Some (Settled, r.1, fs ++ r.2).
Proof.
  intros Hd Hph Hes r.
  destruct (js_settle_run (pending (rest rw)) rw) as (ins & Hins & Hrun & _).
  pose proof (js_inputs_pending ins rw _ Hins Hrun) as Hle.
  split_and!; [apply js_settle_quiescent | | exists ins; split_and!; [done|lia|]].
  - eapply quiescent_shown; [|apply js_settle_quiescent].
    apply (js_inputs_wf d ins rw _ Hrun). by eapply settled_page_wf.
  - rewrite js_fire_all_app, Hes. simpl. rewrite js_fire_all_inputs, Hrun.
    subst r. by destruct (js_settle _ _).
Qed.

(** C34. Whatever the two bodies hold, in every run that let [init]
    settle: no exception left [init], whose [catch] handles what its
    [try] block throws, so that the promise the constructor drops is
    never rejected; no exception left a callback that makes no pick;
    and what the browser reports of the run is at most one exception
    for each of its picks. What the model leaves out of the reads of
    [init] is the one thing that can precede them. *)
Theorem script_reports d es rw fs :
  js_fire_all es (js_entry d) = Some (Settled, rw, fs) →
  ∃ mj cj ins fs0 fs1,
    es = js_network mj cj ++ (Arrives <$> ins) ∧ fs = fs0 ++ fs1 ∧
    fs0 = option_list (thrown (raw_init mj cj) (raw_boot d)) ∧
    (fs0 = [] ∨ fs0 = [Unmodelled]) ∧
    length fs1 ≤ length (filter input_is_pick ins).
Proof.
  intros (mj & cj & ins & fs1 & -> & Hins & ->)%js_settled_run.
  exists mj, cj, ins, (option_list (thrown (raw_init mj cj) (raw_boot d))), fs1.
  split_and!; [done..| |apply (js_inputs_faults _ _ _ Hins)].
  destruct (raw_init_caught_any mj cj (raw_boot d)) as [-> | ->]; auto.
Qed.

End theorems.

(** ** On the example *)

Lemma script_page_wf_witness : page_wf demo_page (rest demo_js_end.1).
Proof.
  refine (script_page_wf (H:=cautious_engine) demo_page demo_js_events
            (Settled, demo_js_end.1) demo_js_end.2 _ _ _);
    [done | done | by vm_compute].
Defined.

Lemma script_settles_witness :
  let r := js_settle (H:=cautious_engine) (pending (rest demo_js_end.1))
             demo_js_end.1 in
  quiescent (rest r.1) ∧ phase_of (page (rest r.1)) ≠ Loading ∧
  ∃ ins, Forall (λ e, input_by_user e = false) ins ∧
    length ins ≤ pending (rest demo_js_end.1) ∧
    js_fire_all (H:=cautious_engine) (demo_js_events ++ (Arrives <$> ins))
      (js_entry demo_page)
      = Some (Settled, r.1, demo_js_end.2 ++ r.2).
Proof.
  refine (script_settles (H:=cautious_engine) demo_page demo_js_events
            demo_js_end.1 demo_js_end.2 _ _ _);
    [done | done | by vm_compute].
Defined.

(** After a manifest that is [null]: a selection and two picks, of which
    each pick throws. *)
Lemma script_reports_witness :
  ∃ rw fs,
    js_fire_all (H:=cautious_engine)
      (js_network null_body demo_captions
         ++ (Arrives <$> [DClickFolder 2 third; DClickGenerate third third;
                          DTimerFires third third]))
      (js_entry demo_page) = Some (Settled, rw, fs) ∧
    length fs = 2 ∧
    ∃ mj cj ins fs0 fs1,
      js_network null_body demo_captions
        ++ (Arrives <$> [DClickFolder 2 third; DClickGenerate third third;
                         DTimerFires third third])
        = js_network mj cj ++ (Arrives <$> ins) ∧
      fs = fs0 ++ fs1 ∧
      fs0 = option_list (thrown (raw_init (H:=cautious_engine) mj cj)
                           (raw_boot demo_page)) ∧
      (fs0 = [] ∨ fs0 = [Unmodelled]) ∧
      length fs1 ≤ length (filter input_is_pick ins).
Proof.
  eexists _, _. split; [by vm_compute|]. split; [done|].
  eapply (script_reports (H:=cautious_engine) demo_page). by vm_compute.
Defined.
